(* ===== verification/_CoqProject ===== *)
-Q . S2P
Prelude.v
GoFloat.v
DagGraph.v
DagValidator.v
DagExecutor.v
GoStrings.v
GoHttp.v
JsonText.v
PipelineModels.v
ModelsEvent.v
ModelsQuery.v
Config.v
CronLib.v
DagScheduler.v
SchedCron.v
SchedJob.v
SchedJobJson.v
SchedRecovery.v
SchedStore.v
ScheduleRepo.v
SchedService.v
SchedLife.v
SchedStats.v
QueueMessage.v
QueueRabbit.v
QueuePublish.v
QueueConsumer.v
QueueTopology.v
WorkerPool.v
WorkerProcessor.v
WorkerRegistry.v
TaskRepo.v
PipelineRepo.v
WorkerHandler.v
WorkerHealth.v
WebhookDelivery.v
WebhookManager.v
WebhookHistory.v
WebhookNotifier.v
JsonExports.v
Circuit.v
RetryBackoff.v
Retryer.v
Rbac.v
ApiKey.v
AuthJwt.v
AuthPermissions.v
AuthMiddleware.v
Cors.v
FieldValidator.v
HttpLogging.v
Timeout.v
Recovery.v
Cache.v
ApiResponse.v
ApiHealth.v
ApiErrors.v
ApiReplies.v
ApiPipelines.v
ApiWebhooks.v
RateLimit.v
ApiMiddleware.v
ApiRoutes.v
ApiCors.v
ApiServer.v
PipelineValidator.v
PipelineBuilder.v
PipelineEvents.v
PipelineExec.v
Database.v
PostgresPool.v
CmdWorker.v
CmdScheduler.v
CmdLifecycle.v
Metrics.v
MetricsCollectors.v
Tracing.v
Logger.v
EngineRuns.v
Flow.v
