(* ===== verification/Prelude.v ===== *)
(** * NexusPipe: a verification development

    NexusPipe (Go, under src/) runs pipelines of tasks: graphs of tasks are checked,
    scheduled by cron expressions and executed level by level by goroutines; schedules
    are dispatched through a RabbitMQ queue to pools of workers; webhooks hear of what
    happens; around them are retry policies, a circuit breaker, tokens, API keys, roles
    and rate limits.  This library models the packages that hold that logic, one file per
    source file, and proves what they do.  A comment "go: path func F" above a definition
    names the source it translates; "@a-b" gives lines where it is part of a function.

    ** The files

    - [Prelude] (this file): machine integers, durations and instants, results of
      fallible code, [interface{}] values, the order of a range over a map, and the
      lemmas on lists, maps and finite relations that the others share.
    - [GoFloat], [GoStrings], [GoHttp], [JsonText], [CronLib]: float64 on the Standard Library's
      executable IEEE 754; the functions of package strings on bytes; headers with their
      canonical names; the strings, the scanner and the compact form of encoding/json; instants in a location and the interface of the cron library.
    - [DagGraph] (internal/dag/graph.go): the node table and edge slice, every mutator
      and accessor, [HasCycle], [TopologicalSort], [Levels].
    - [DagValidator] (internal/dag/validator.go): [ValidateDAG] and the checks of a new
      edge and a new node; it calls [DagGraph] on copies of the graph.
    - [DagExecutor] (internal/dag/executor.go): [Execute] takes the levels of
      [DagGraph.Levels] and runs each; [level_step] is the interleaving of the
      goroutines of one level.
    - [DagScheduler] (internal/dag/scheduler.go): the table of schedules over an
      interface of the cron library ([CronOps], [CronLaws]); a run of a schedule calls
      [DagExecutor.Execute].
    - [Circuit] (internal/circuit/breaker.go): the three-state breaker with overlapping
      calls, as the step relation [breaker_step].
    - [RetryBackoff] (internal/retry/exponential.go) and [Retryer] (pkg/retry/retry.go):
      delays, retry loops, and the result cache of the second.
    - [Rbac] (internal/auth/rbac.go): roles, inherited permissions, transitions.
    - [ApiKey] (internal/auth/apikey.go): the key store and manager, over an interface of
      bcrypt ([BcryptOps], [BcryptLaws]).
    - [RateLimit] (internal/api/middleware/ratelimit.go): token buckets in float64.
    - [ApiMiddleware] (internal/api/middleware.go): the fixed-window limiter, request
      identifiers, the bearer-token and administrator checks.
    - [PipelineModels] (internal/models), [PipelineValidator], [PipelineBuilder],
      [PipelineEvents], [PipelineExec] (internal/pipeline/*.go): the pipeline records,
      their validation with its search for dependency cycles, the fluent builder, the
      event bus, and the engine with the executor of stages, which publishes on the bus.
      [EngineRuns] is the engine with runs that overlap, as steps over [PipelineExec].
    - [QueueMessage], [QueueRabbit], [QueuePublish], [QueueConsumer], [QueueTopology]
      (internal/queue/*.go): envelopes and their JSON; the pool of channels of one
      connection, over an interface of the AMQP library and the broker ([Amqp]); messages
      sent, received and settled on its channels; the declared exchanges and queues.
    - [SchedCron], [SchedJob], [SchedRecovery], [SchedStore], [SchedService]
      (internal/scheduler/*.go and the statements of internal/repository/schedule_repo.go
      they use): next and missed runs, the cached store, recovery, and the service that
      registers jobs with the cron library and dispatches them to the queue; [ScheduleRepo]
      has the statements of schedule_repo.go that write whole schedules, [SchedJobJson] the
      payload of a job, [SchedLife] the calls of Start and Stop with the goroutine of the poll,
      [SchedStats] the reports.
    - [WorkerPool], [WorkerProcessor], [WorkerRegistry], [WorkerHandler], [WorkerHealth]
      (internal/worker/*.go): the pool with its goroutines and loops as steps that
      interleave; the types of tasks; the table of handlers; a delivery from the queue,
      which calls the processor, [TaskRepo] and [QueueRabbit]; reports on pool and queue.
    - [TaskRepo], [PipelineRepo] (internal/repository): the statements on a table of rows.
    - [WebhookDelivery], [WebhookManager], [WebhookHistory], [WebhookNotifier]
      (internal/webhook/*.go): one delivery with its attempts and signature, the
      subscriptions, the history, and the notifier that puts the three together.
    - [JsonExports] (webhook/history.go, worker/health.go): the JSON texts of the history and of the
      reports of [WorkerHealth].
    - [AuthJwt], [AuthPermissions] (internal/auth/jwt.go), [AuthMiddleware] and [Cors]
      (internal/api/middleware/auth.go and cors.go): tokens over an interface of golang-jwt
      ([JwtOps], [JwtLaws]), permissions as JSON; requests authenticated by them, by [ApiKey] or by Basic
      credentials, and authorised by [Rbac]; cross-origin requests.
    - [HttpLogging], [Timeout], [Recovery] (the rest of internal/api/middleware): the log of
      a request and its secrets, time limits, recovery from panics.
    - [ApiResponse], [ApiPipelines], [ApiWebhooks] (internal/api/handlers), [ApiRoutes]
      (internal/api/routes.go and server.go): answers; the handlers over [PipelineRepo] and
      [TaskRepo], with the statements that other clients run in between; the webhooks over
      HTTP, which do not meet [WebhookManager]; the table of routes behind [ApiMiddleware].
    - [Cache] (internal/cache/redis.go): over interfaces of the Redis client and of the
      serializers ([RedisOps], [RedisLaws], [Codec]).
    - [ApiHealth] (internal/api/handlers/health.go): the probes.  [ApiServer]
      (internal/api/server.go): the server over the table of [ApiRoutes]; [ApiCors]: the handler
      of the server around that table, with an equivalence of contexts that its middlewares respect.  [ApiErrors] and
      [ApiReplies] (internal/api/errors.go, response.go): the errors and answers of package api.
    - [ModelsEvent] (internal/models/event.go): the record of an event.  [ModelsQuery]: the
      records of internal/models that nothing else uses.
    - [Config] (internal/config/config.go): the configuration, its defaults and its check.
    - [Database] (internal/db, cmd/migrator/main.go): transactions and migrations, over
      interfaces of pgx and golang-migrate; [PostgresPool] (internal/db/postgres.go): the pool.
    - [CmdWorker], [CmdScheduler] (cmd/worker/main.go, cmd/scheduler/main.go): the two other
      processes, which do not use internal/worker and internal/scheduler: the consumers and the
      life of a message in [QueueConsumer]'s terms, with the keys of [SchedJob]; the jobs over
      [CronLib], on the tables of [PipelineModels] and [ModelsEvent].  [CmdLifecycle]: what the
      four commands open and close.
    - [Metrics] (internal/metrics), [Logger] (internal/logger/logger.go): the registry of
      collectors over an interface of Prometheus ([PromOps], [PromLaws]), the measurement of
      requests; the one logger of a process.  [MetricsCollectors] (collectors.go, http.go): the
      collectors with their labels ([VecOps], [VecLaws]).  [Tracing] (tracing.go): the provider of
      traces and the span of a context, over an interface of OpenTelemetry ([Otel], [OtelLaws]).
    - [Flow]: what the scheduler's parts send, by the routes of [QueueTopology], and the queues and
      keys of [CmdWorker] and [Config]; it composes the models of the processes.
    - [FieldValidator] (pkg/validator/validator.go): rules for fields.

    ** What is proved

    - Graphs: the mutators keep a graph well formed; on a well-formed graph, in every
      map order, the cycle test is exact, the sort is a topological order of all the
      nodes, and level [i] holds the nodes whose longest incoming path has [i] edges.
    - Graph validation: the verdicts of [ValidateDAG], [ValidateEdgeAddition] and
      [ValidateNodeAddition] are equivalent to declarative conditions on the graph.
    - Execution: every interleaving of the goroutines of a level ends with the
      results of the sequential function (a refinement with a bound on the number of
      steps), and [Execute] returns results that are closed under parents.
    - Scheduling: one registered job for each schedule in every reachable state; what a
      run leaves behind and reports; when it panics.
    - Breaker: an invariant of the counters and a path in the state diagram for every
      overlapping run; opening, probing, recovery, and the configurations in which a
      half-open breaker never recovers.
    - Retries: the exact trace of calls and pauses, bounds of the delays, where their
      64-bit arithmetic overflows, and the contract of the cache.
    - Access: a permission check is the reachability of a granting role, with its
      merged view and its text form; validation, revocation and rate of API keys.
    - Limits: exactly the burst passes a token bucket at one instant; the cleanup; the
      clients that the fixed window refuses for ever.
    - Pipelines: the checks of stages against their declarative meaning, the outcome of any
      chain of calls of the builder, the order of events, the attempts of a stage and what
      a run returns; runs that overlap refine the single run, and what cancelling them does.
    - Queue: envelopes survive their JSON; the channels of the pool in every run, and when
      connecting waits for it; every received message is settled once.
    - Scheduler: the jobs of the cron library and the cache of the store in every run, the
      recovery of missed runs by each policy.
    - Worker: bounds, order and accounting of the pool in every interleaving, scaling, the
      two ways it stops working; every task gets a result; every delivery is settled.
    - Repositories: updates of one pipeline are serialised by their versions; batches.
    - Webhooks: the trace of a delivery and its signature; who hears of an event; what the
      history keeps; how often a failing task is delivered, with a bound.
    - Requests: what a request must have shown to pass; which tokens are accepted and
      when; which origins are answered; who reaches which route; that the log keeps secrets;
      when a time limit or a panic is answered.
    - Handlers: updates of a pipeline over HTTP against concurrent clients; pages and totals.
    - Cache: what is set is read back, and which keys and caches are apart.
    - Processes: what the maintenance jobs do to tasks and events in every run, with a bound
      on retries; the jobs that are registered; what becomes of a message, and that no
      scheduled work is among those the worker knows; where a setting comes from; when a
      transaction is committed or stays open; when the service is ready; which orders of Start
      and Stop of the scheduler's service end, wait for ever or crash; what each process leaves
      open; what a shutdown closes, and what it waits for; that no scheduled work is routed to a
      queue by the declared topology.
    - Metrics and logs: which names of collectors can be taken back, what panics do to the
      gauges, which calls panic for their labels, which configuration of the logger counts.
    - Texts: permissions survive their JSON text byte for byte, which deliveries can be exported,
      and that what is exported is JSON for the scanner of encoding/json.
    - Traces: a trace continues in the process that receives it; what a provider leaves open.
    - Fields: a map is accepted exactly if its fields keep their rules; what the pattern of
      cron expressions takes.
    Some theorems state behaviour the authors did not intend: they are theorems about
    the code as it is, and their comments say what goes wrong.

    ** Conventions

    Integers are [Z] with their wrap-around ([int64], [uint32], [uint64]); a duration is
    an int64 count of nanoseconds and an instant counts them from Go's zero time.  A
    uuid is the number its bytes spell.  Errors are inductive types that keep the
    arguments of the messages.  A panic is a value ([Panic], [Panics]).  What the code
    takes from outside (new identifiers, random numbers, the clock, whether a context
    is done, the order of a range over a map) is an argument, or a field of a record
    of the environment, so that a theorem holds for every choice of it.  Calls of the
    logger and of the metrics are left out.  Where a lock covers a whole method, the method
    is one step.

    Loops without a structural measure have fuel, and running out of it is a value
    ([None], [NoFuel]) that the theorems exclude: [kahn_fuel] is the number of nodes and
    edges, and a node enters the work queue once; [markSkipped] has one more than the
    number of nodes, as a node is marked once; the search of [detectCycles] has one
    unit per stage, as each call colours a stage; [role_fuel] is 5, as custom roles
    cannot be inherited from and the built-in roles form a chain of four.  The loop over
    missed runs ends within the seconds between the two instants; the queue of events is
    drained in as many steps as it holds; the retries of one webhook task end after
    [processings f m] steps.

    ** What is not modelled

    Reading flags and serving HTTP in the commands, whose API command has handlers of its own that
    answer 501; the connections in the pool of PostgreSQL, which pgx keeps; what zap, Prometheus and
    OpenTelemetry do with what they are given; the JSON texts of envelopes and jobs, which are trees. *)

From stdpp Require Export base gmap sets list strings numbers option relations sorting finite.
From stdpp Require Import pretty.
From Stdlib Require Export ZArith Lia.

Create HintDb dag.
Declare Scope go_scope.
Delimit Scope go_scope with go.

#[global] Open Scope Z_scope.

(** ** Machine integers

    Go's [int] and [time.Duration] are 64-bit two's complement here; [uint32]
    and [uint64] wrap modulo their width. *)

Definition wrap_s (w z : Z) : Z := (z + 2 ^ (w - 1)) mod 2 ^ w - 2 ^ (w - 1).
Definition wrap_u (w z : Z) : Z := z mod 2 ^ w.

Abbreviation int64 := (wrap_s 64).
Abbreviation uint32 := (wrap_u 32).
Abbreviation uint64 := (wrap_u 64).

Definition min_int64 : Z := - 2 ^ 63.
Definition max_int64 : Z := 2 ^ 63 - 1.
Definition max_uint32 : Z := 2 ^ 32 - 1.

Definition in_int64 (z : Z) : Prop := min_int64 <= z <= max_int64.
Definition in_uint32 (z : Z) : Prop := 0 <= z <= max_uint32.

Lemma int64_small z : in_int64 z -> int64 z = z.
Proof.
  unfold in_int64, min_int64, max_int64, wrap_s. intros H.
  rewrite Z.mod_small; lia.
Qed.

Lemma int64_range z : in_int64 (int64 z).
Proof.
  unfold in_int64, min_int64, max_int64, wrap_s.
  pose proof (Z.mod_pos_bound (z + 2 ^ (64 - 1)) (2 ^ 64)). lia.
Qed.

Lemma uint32_small z : in_uint32 z -> uint32 z = z.
Proof. unfold in_uint32, max_uint32, wrap_u. intros. rewrite Z.mod_small; lia. Qed.

Lemma uint32_range z : in_uint32 (uint32 z).
Proof.
  unfold in_uint32, max_uint32, wrap_u.
  pose proof (Z.mod_pos_bound z (2 ^ 32)). lia.
Qed.

(** Wrapping inside a sum can be delayed to the end. *)
Lemma wrap_u_add_l w a b : wrap_u w (wrap_u w a + b) = wrap_u w (a + b).
Proof. unfold wrap_u. apply Zplus_mod_idemp_l. Qed.

Lemma wrap_u_add_r w a b : wrap_u w (a + wrap_u w b) = wrap_u w (a + b).
Proof. unfold wrap_u. apply Zplus_mod_idemp_r. Qed.

Lemma wrap_u_wrap w a : wrap_u w (wrap_u w a) = wrap_u w a.
Proof. unfold wrap_u. apply Zmod_mod. Qed.

(** [wrap_s w] only depends on the value modulo [2^w], and keeps it. *)
Lemma wrap_s_mod w a b : 0 < w -> a mod 2 ^ w = b mod 2 ^ w -> wrap_s w a = wrap_s w b.
Proof.
  intros Hw Hab. unfold wrap_s. f_equal.
  rewrite (Zplus_mod a), (Zplus_mod b), Hab. done.
Qed.

Lemma wrap_s_mod_id w a : 0 < w -> wrap_s w a mod 2 ^ w = a mod 2 ^ w.
Proof.
  intros Hw. unfold wrap_s. rewrite Zminus_mod_idemp_l. f_equal. lia.
Qed.

Lemma wrap_s_add_l w a b : 0 < w -> wrap_s w (wrap_s w a + b) = wrap_s w (a + b).
Proof.
  intros Hw. apply wrap_s_mod; [done|]. rewrite Zplus_mod, wrap_s_mod_id, <- Zplus_mod by done. done.
Qed.

Lemma wrap_s_add_r w a b : 0 < w -> wrap_s w (a + wrap_s w b) = wrap_s w (a + b).
Proof. intros Hw. rewrite Z.add_comm, wrap_s_add_l by done. f_equal. lia. Qed.

Lemma wrap_s_mul_l w a b : 0 < w -> wrap_s w (wrap_s w a * b) = wrap_s w (a * b).
Proof.
  intros Hw. apply wrap_s_mod; [done|]. rewrite Zmult_mod, wrap_s_mod_id, <- Zmult_mod by done. done.
Qed.

(** ** Durations and instants

    A [time.Duration] is an [int64] count of nanoseconds.  A [time.Time] is the
    count of nanoseconds since Go's zero [time.Time], which is therefore [0]. *)

Definition Nanosecond : Z := 1.
Definition Microsecond : Z := 1000 * Nanosecond.
Definition Millisecond : Z := 1000 * Microsecond.
Definition Second : Z := 1000 * Millisecond.
Definition Minute : Z := 60 * Second.
Definition Hour : Z := 60 * Minute.

Definition time_IsZero (t : Z) : bool := t =? 0.
Definition time_After (t u : Z) : bool := u <? t.
Definition time_Before (t u : Z) : bool := t <? u.
(** [Time.Sub] saturates instead of overflowing. *)
Definition time_Sub (t u : Z) : Z := Z.max min_int64 (Z.min max_int64 (t - u)).

(** ** Results of fallible code *)

Inductive go_result (A E : Type) : Type :=
| Ok (a : A)
| Err (e : E)
| Panic.
Arguments Ok {A E} a.
Arguments Err {A E} e.
Arguments Panic {A E}.

Definition go_bind {A B E} (r : go_result A E) (k : A -> go_result B E) : go_result B E :=
  match r with
  | Ok a => k a
  | Err e => Err e
  | Panic => Panic
  end.

Notation "x <-- r ;; k" := (go_bind r (fun x => k))
  (at level 60, r at next level, right associativity) : go_scope.

(** The outcome of code whose loops are bounded by fuel in the model. *)
Inductive outcome (A : Type) : Type :=
| Returns (a : A)
| Panics
| NoFuel.
Arguments Returns {A} a.
Arguments Panics {A}.
Arguments NoFuel {A}.

Definition out_bind {A B} (r : outcome A) (k : A -> outcome B) : outcome B :=
  match r with
  | Returns a => k a
  | Panics => Panics
  | NoFuel => NoFuel
  end.

Notation "x <~ r ;; k" := (out_bind r (fun x => k))
  (at level 60, r at next level, right associativity) : go_scope.

(** ** Identifiers

    A [uuid.UUID] is a 16-byte array, here the number it spells; [uuid.Nil] is 0. *)

Abbreviation UUID := N.
Definition uuid_Nil : UUID := 0%N.

(** ** Values of [interface{}]

    The dynamic types the code inspects by a type assertion or a type switch;
    every other dynamic type is [AnyOther] with an opaque code. *)

Inductive any : Type :=
| AnyNil
| AnyInt (z : Z)
| AnyString (s : string)
| AnyBool (b : bool)
| AnyDuration (d : Z)
| AnyOther (code : Z).

#[export] Instance any_eq_dec : EqDecision any.
Proof. solve_decision. Defined.

(** ** Iteration over a Go map

    The order of [range] over a map is unspecified and may differ between two
    loops, so each loop whose outcome can depend on it takes the order as an
    argument; [range_order m ks] says that [ks] is one of the orders allowed. *)

Definition keys {K V} `{Countable K} (m : gmap K V) : list K := (map_to_list m).*1.
Definition values {K V} `{Countable K} (m : gmap K V) : list V := (map_to_list m).*2.
Definition range_order {K V} `{Countable K} (m : gmap K V) (ks : list K) : Prop :=
  ks ≡ₚ keys m.

Section map_range.
Context {K V : Type} `{Countable K}.
Implicit Types (m : gmap K V) (ks : list K).

Lemma elem_of_keys m k : k ∈ keys m <-> is_Some (m !! k).
Proof.
  unfold keys. rewrite list_elem_of_fmap. split.
  - intros ([k' v] & -> & Hkv). apply elem_of_map_to_list in Hkv. eauto.
  - intros [v Hv]. exists (k, v). split; [done|]. by apply elem_of_map_to_list.
Qed.

Lemma NoDup_keys m : NoDup (keys m).
Proof. apply NoDup_fst_map_to_list. Qed.

Lemma length_keys m : length (keys m) = size m.
Proof. unfold keys. rewrite length_fmap. apply length_map_to_list. Qed.

Lemma range_order_elem m ks k : range_order m ks -> k ∈ ks <-> is_Some (m !! k).
Proof. intros Hr. by rewrite Hr, elem_of_keys. Qed.

Lemma range_order_NoDup m ks : range_order m ks -> NoDup ks.
Proof. intros Hr. rewrite Hr. apply NoDup_keys. Qed.

Lemma range_order_keys m : range_order m (keys m).
Proof. unfold range_order. done. Qed.

Lemma elem_of_keys_dom m k : k ∈ keys m <-> k ∈ dom m.
Proof. by rewrite elem_of_keys, elem_of_dom. Qed.
End map_range.

(** An order of a map is an order of every map with the same keys. *)
Lemma range_order_dom {K V W} `{Countable K} (m : gmap K V) (m' : gmap K W) ks :
  dom m = dom m' -> range_order m ks -> range_order m' ks.
Proof.
  unfold range_order. intros Hd ->. apply NoDup_Permutation; [apply NoDup_keys..|].
  intros k. by rewrite !elem_of_keys_dom, Hd.
Qed.

Lemma values_insert_fresh {K V} `{Countable K} (m : gmap K V) k v :
  m !! k = None -> values (<[k := v]> m) ≡ₚ v :: values m.
Proof. intros Hk. unfold values. by rewrite map_to_list_insert. Qed.

Lemma values_delete {K V} `{Countable K} (m : gmap K V) k v :
  m !! k = Some v -> values m ≡ₚ v :: values (delete k m).
Proof.
  intros Hk. rewrite <- values_insert_fresh with (k := k) by apply lookup_delete_eq.
  by rewrite insert_delete_id.
Qed.

Lemma list_filter_all {A} (P : A -> Prop) `{forall x, Decision (P x)} (l : list A) :
  (forall x, x ∈ l -> P x) -> filter P l = l.
Proof.
  induction l as [|x l IH]; intros Hl; [done|]. rewrite filter_cons_True by (apply Hl; left).
  f_equal. apply IH. intros y Hy. apply Hl. by right.
Qed.

Lemma omap_nil {A B} (f : A -> option B) l : omap f l = [] <-> forall x, x ∈ l -> f x = None.
Proof.
  split.
  - intros Ho x Hx. destruct (f x) as [y|] eqn:Hy; [|done].
    assert (y ∈ omap f l) as Hin by (apply list_elem_of_omap; eauto). rewrite Ho in Hin. set_solver.
  - intros Hn. apply elem_of_nil_inv. intros y (x & Hx & Hy)%list_elem_of_omap.
    rewrite (Hn x Hx) in Hy. done.
Qed.

(** ** Printing *)

Definition itoa (z : Z) : string := pretty z.
(** The one-character string a Go source writes as an escaped line feed. *)
Definition newline : string := String (Ascii.ascii_of_nat 10) EmptyString.

(** [strings.Join]. *)
Fixpoint strings_Join (parts : list string) (sep : string) : string :=
  match parts with
  | [] => EmptyString
  | [p] => p
  | p :: ps => (p +:+ sep +:+ strings_Join ps sep)%string
  end.

(** [strings.HasPrefix] and slicing a prefix off. *)
Lemma prefix_app p s : String.prefix p s = true -> exists t, s = (p +:+ t)%string.
Proof.
  revert s. induction p as [|c p IH]; intros s Hp; [by exists s|].
  destruct s as [|d s]; [done|]. cbn [String.prefix] in Hp.
  destruct (Ascii.ascii_dec c d) as [->|]; [|done]. destruct (IH s Hp) as [t ->]. by exists t.
Qed.

Lemma string_length_app (s t : string) : String.length (s +:+ t) = (String.length s + String.length t)%nat.
Proof. induction s as [|c s IH]; simpl; [done|]. by rewrite IH. Qed.

Lemma substring_full t : String.substring 0 (String.length t) t = t.
Proof. induction t as [|c t IH]; simpl; [done|]. by rewrite IH. Qed.

Lemma substring_app p t : String.substring (String.length p) (String.length t) (p +:+ t) = t.
Proof. induction p as [|c p IH]; simpl; [apply substring_full|apply IH]. Qed.

(** ** Counting in finite sets *)

Section finite_count.
Context {A : Type} `{Countable A}.
Implicit Types (l : list A) (X : gset A).

Lemma length_elements_size X : length (elements X) = size X.
Proof. done. Qed.

(** A duplicate-free list of members as long as the set lists all of them. *)
Lemma NoDup_length_incl_elem l X :
  NoDup l -> (forall x, x ∈ l -> x ∈ X) -> (size X <= length l)%nat -> forall x, x ∈ X -> x ∈ l.
Proof.
  intros Hnd Hsub Hlen x Hx.
  assert (l ⊆+ elements X) as Hs
    by (apply NoDup_submseteq; [done|]; intros y Hy; by apply elem_of_elements, Hsub).
  apply submseteq_length_Permutation in Hs; [|by rewrite length_elements_size].
  rewrite Hs. by apply elem_of_elements.
Qed.
End finite_count.

(** ** Cycles in finite relations *)

Lemma tc_last {A} (R : relation A) x y : tc R x y -> exists z, R z y.
Proof. induction 1; eauto. Qed.

Section finite_cycle.
Context {A : Type} `{Countable A} (R : relation A).

(** Consecutive members of the list are related. *)
Definition walk (l : list A) : Prop :=
  forall i x y, l !! i = Some x -> l !! S i = Some y -> R x y.

Lemma walk_cons x y l : R x y -> walk (y :: l) -> walk (x :: y :: l).
Proof. intros HR Hw [|i] a b Ha Hb; simpl in *; [by simplify_eq|]. by eapply (Hw i). Qed.

Lemma walk_tc l i j x y :
  walk l -> (i < j)%nat -> l !! i = Some x -> l !! j = Some y -> tc R x y.
Proof.
  intros Hw Hij Hx. revert y. induction Hij as [|j Hij IH]; intros y Hy.
  - apply tc_once. by eapply Hw.
  - destruct (l !! j) as [z|] eqn:Hz.
    + eapply tc_r; [by apply IH|]. by eapply Hw.
    + apply lookup_lt_Some in Hy. apply lookup_ge_None in Hz. lia.
Qed.

Context (X : gset A) (Hpred : forall x, x ∈ X -> exists y, y ∈ X /\ R y x).

Lemma walk_in_set x0 n : x0 ∈ X ->
  exists l, length l = S n /\ walk l /\ last l = Some x0 /\ forall x, x ∈ l -> x ∈ X.
Proof using Hpred.
  intros Hx0. induction n as [|n (l & Hlen & Hw & Hlast & Hin)].
  - exists [x0]. split_and!; [done| |done|set_solver]. by intros [|i] a b ? ?.
  - destruct l as [|x l]; [done|].
    destruct (Hpred x) as (y & Hy & HR); [apply Hin; left|].
    exists (y :: x :: l). split_and!; [simpl in *; lia|by apply walk_cons|done|set_solver].
Qed.

(** In a finite set in which every element has a predecessor, every element is
    reached from a cycle. *)
Lemma finite_pred_cycle x0 : x0 ∈ X -> exists x, x ∈ X /\ tc R x x /\ rtc R x x0.
Proof using Hpred.
  intros Hx0. destruct (walk_in_set x0 (size X) Hx0) as (l & Hlen & Hw & Hlast & Hin).
  destruct (list_pigeonhole l (elements X)) as (i & j & x & Hij & Hi & Hj).
  - intros x Hx. apply elem_of_elements. auto.
  - rewrite length_elements_size. lia.
  - exists x. split_and!; [|by eapply walk_tc|].
    + apply Hin. by eapply list_elem_of_lookup_2.
    + rewrite last_lookup in Hlast. apply lookup_lt_Some in Hj as Hlt.
      destruct (decide (j = pred (length l))) as [->|Hne]; [by simplify_eq|].
      apply tc_rtc. apply (walk_tc l j (pred (length l))); [done|lia|done|done].
Qed.
End finite_cycle.
