(* ===== verification/GoFloat.v ===== *)
(** * Floating point: Go's float64

    IEEE 754 binary64 with round to nearest even, on the executable reference
    semantics of the Standard Library ([SpecFloat]).  A conversion of a value outside
    the range of [int64] is implementation defined in Go, so it takes the value the
    implementation gives as an argument. *)

From Stdlib Require Export SpecFloat.
From S2P Require Import Prelude.

Abbreviation float64 := spec_float.

#[export] Instance spec_float_eq_dec : EqDecision spec_float.
Proof. solve_decision. Defined.

Definition f64_of_Z (z : Z) : float64 := binary_normalize 53 1024 z 0 false.
Definition f64_mul : float64 -> float64 -> float64 := SFmul 53 1024.
Definition f64_sub : float64 -> float64 -> float64 := SFsub 53 1024.
Definition f64_add : float64 -> float64 -> float64 := SFadd 53 1024.
Definition f64_div : float64 -> float64 -> float64 := SFdiv 53 1024.
Definition f64_lt : float64 -> float64 -> bool := SFltb.
Definition f64_le : float64 -> float64 -> bool := SFleb.

(** [math.Pow(2, float64(n))]: exact while finite. *)
Definition f64_pow2 (n : Z) : float64 := SFldexp 53 1024 (f64_of_Z 1) n.

(** [Duration.Seconds]. *)
Definition Seconds (d : Z) : float64 :=
  f64_add (f64_of_Z (Z.quot d Second)) (f64_div (f64_of_Z (Z.rem d Second)) (f64_of_Z 1000000000)).

(** The integer part, toward zero, of a finite value. *)
Definition f64_trunc (f : float64) : option Z :=
  match f with
  | S754_zero _ => Some 0
  | S754_finite s m e =>
      let v := if 0 <=? e then Zpos m * 2 ^ e else Zpos m / 2 ^ (- e) in
      Some (if s then - v else v)
  | _ => None
  end.

Definition f64_to_int64 (out_of_range : Z) (f : float64) : Z :=
  match f64_trunc f with
  | Some z => if (min_int64 <=? z) && (z <=? max_int64) then z else out_of_range
  | None => out_of_range
  end.

Lemma forallb_seqZ (f : Z -> bool) lo len :
  forallb f (seqZ lo len) = true -> forall n, lo <= n < lo + len -> f n = true.
Proof.
  intros Hf n Hn. rewrite forallb_forall in Hf. apply Hf, list_elem_of_In, elem_of_seqZ. lia.
Qed.

(** Powers of two below the range of [int64] convert exactly. *)
Lemma pow2_to_int64 out n : 0 <= n <= 62 -> f64_to_int64 out (f64_pow2 n) = 2 ^ n.
Proof.
  intros Hn. apply Z.eqb_eq.
  apply (forallb_seqZ (fun n => f64_to_int64 out (f64_pow2 n) =? 2 ^ n) 0 63); [|lia].
  vm_compute. reflexivity.
Qed.

Lemma f64_to_int64_range out f : in_int64 out -> in_int64 (f64_to_int64 out f).
Proof.
  intros Ho. unfold f64_to_int64. destruct (f64_trunc f) as [z|]; [|done].
  destruct (_ && _) eqn:Hz; [|done]. apply andb_true_iff in Hz as [H1%Z.leb_le H2%Z.leb_le]. done.
Qed.

(** ** Integers below 2^53 are exact *)

Lemma digits_shift k p : digits2_pos (Pos.iter xO p k) = (digits2_pos p + k)%positive.
Proof.
  induction k as [|k IH] using Pos.peano_ind; [simpl; lia|]. rewrite Pos.iter_succ. cbn [digits2_pos]. rewrite IH. lia.
Qed.

Lemma shift_value k p : Zpos (Pos.iter xO p k) = Zpos p * 2 ^ Zpos k.
Proof.
  induction k as [|k IH] using Pos.peano_ind; [simpl; lia|]. rewrite Pos.iter_succ, Pos2Z.inj_succ, Z.pow_succ_r by lia.
  rewrite Pos2Z.inj_xO, IH. lia.
Qed.

Lemma digits_bound p : Zpos p < 2 ^ Zpos (digits2_pos p).
Proof.
  induction p as [p IH|p IH|]; cbn [digits2_pos]; [| |done]; rewrite Pos2Z.inj_succ, Z.pow_succ_r by lia; lia.
Qed.

Lemma digits_lower p : 2 ^ (Zpos (digits2_pos p) - 1) <= Zpos p.
Proof.
  induction p as [p IH|p IH|]; cbn [digits2_pos]; [| |done]; rewrite Pos2Z.inj_succ;
    replace (Z.succ (Zpos (digits2_pos p)) - 1) with (Z.succ (Zpos (digits2_pos p) - 1)) by lia;
    rewrite Z.pow_succ_r by lia; lia.
Qed.

Lemma digits_small p n : 0 <= n -> Zpos p < 2 ^ n -> Zpos (digits2_pos p) <= n.
Proof.
  intros Hn Hp. pose proof (digits_lower p). destruct (Z.le_gt_cases (Zpos (digits2_pos p)) n); [done|].
  assert (2 ^ n <= 2 ^ (Zpos (digits2_pos p) - 1)) by (apply Z.pow_le_mono_r; lia). lia.
Qed.

(** A mantissa of 53 digits needs no rounding. *)
Lemma round_exact s m e : Zpos (digits2_pos m) = 53 -> -1074 <= e <= 971 ->
  binary_round_aux 53 1024 s (Zpos m) e loc_Exact = S754_finite s m e.
Proof.
  intros Hd He. unfold binary_round_aux, shr_fexp, shr, Zdigits2. rewrite Hd.
  assert (fexp 53 1024 (53 + e) - e = 0) as -> by (unfold fexp, emin; lia).
  simpl. rewrite Hd. assert (fexp 53 1024 (53 + e) - e = 0) as -> by (unfold fexp, emin; lia).
  simpl. destruct (Z.leb_spec e (1024 - 53)); [done|lia].
Qed.

Lemma f64_of_Z_exact p : Zpos p < 2 ^ 53 ->
  exists m e, f64_of_Z (Zpos p) = S754_finite false m e /\ -53 <= e <= 0 /\ Zpos m = Zpos p * 2 ^ (- e)
    /\ Zpos (digits2_pos m) = 53.
Proof.
  intros Hp. pose proof (digits_small p 53 ltac:(lia) Hp) as Hd. set (d := digits2_pos p) in *.
  unfold f64_of_Z, binary_normalize, binary_round. fold d.
  assert (fexp 53 1024 (Zpos d + 0) = Zpos d - 53) as -> by (unfold fexp, emin; lia).
  unfold shl_align. destruct (Zpos d - 53 - 0) as [|k|k] eqn:Hk; [|lia|].
  - exists p, 0. rewrite round_exact by (unfold d in *; lia). split_and!; [done|lia|lia|simpl; lia|unfold d in *; lia].
  - assert (Zpos (digits2_pos (Pos.iter xO p k)) = 53) as Hdig by (rewrite digits_shift; fold d; lia).
    exists (Pos.iter xO p k), (Zpos d - 53). rewrite round_exact by lia. split_and!; [done|lia|lia| |done].
    rewrite shift_value. do 2 f_equal. lia.
Qed.

(** Zero over a positive integer is zero. *)
Lemma zero_div p : Zpos p < 2 ^ 53 -> f64_div (f64_of_Z 0) (f64_of_Z (Zpos p)) = S754_zero false.
Proof. intros Hp. destruct (f64_of_Z_exact p Hp) as (m & e & -> & _). reflexivity. Qed.

(** A quarter, and its integer part. *)
Definition f64_quarter : float64 := f64_div (f64_of_Z 1) (f64_of_Z 4).

Lemma mul_quarter p : Zpos p < 2 ^ 53 ->
  exists m e, f64_mul (f64_of_Z (Zpos p)) f64_quarter = S754_finite false m (e - 2) /\ -53 <= e <= 0 /\ Zpos m = Zpos p * 2 ^ (- e).
Proof.
  intros Hp. destruct (f64_of_Z_exact p Hp) as (m & e & -> & He & Hm & Hd). exists m, e.
  assert (f64_quarter = S754_finite false 4503599627370496 (-54)) as -> by (vm_compute; reflexivity).
  unfold f64_mul. cbn [SFmul xorb]. split; [|done].
  assert ((m * 4503599627370496)%positive = Pos.iter xO m 52) as ->.
  { apply Pos2Z.inj. rewrite Pos2Z.inj_mul, shift_value. reflexivity. }
  assert (shr_fexp 53 1024 (Zpos (Pos.iter xO m 52)) (e + -54) loc_Exact
            = (Build_shr_record (Zpos m) false false, e - 2)) as Hs.
  { unfold shr_fexp, Zdigits2.
    assert (fexp 53 1024 (Zpos (digits2_pos (Pos.iter xO m 52)) + (e + -54)) - (e + -54) = 52) as ->
      by (rewrite digits_shift; unfold fexp, emin; lia).
    unfold shr. f_equal. lia. }
  pose proof (round_exact false m (e - 2) Hd ltac:(lia)) as Hr. unfold binary_round_aux in Hr |- *. rewrite Hs.
  cbn [shr_m loc_of_shr_record round_nearest_even].
  unfold shr_fexp, shr, Zdigits2 in Hr |- *. rewrite Hd in Hr |- *.
  assert (fexp 53 1024 (53 + (e - 2)) - (e - 2) = 0) as Hz by (unfold fexp, emin; lia).
  rewrite Hz in Hr |- *. cbn in Hr |- *. rewrite Hd, Hz in Hr. exact Hr.
Qed.

Lemma quarter_to_int64 out n : 0 < n < 2 ^ 53 -> f64_to_int64 out (f64_mul (f64_of_Z n) f64_quarter) = n / 4.
Proof.
  intros [Hn Hlt]. destruct n as [|p|]; [lia| |lia]. destruct (mul_quarter p Hlt) as (m & e & -> & He & Hm).
  unfold f64_to_int64, f64_trunc. destruct (Z.leb_spec 0 (e - 2)); [lia|]. cbv zeta.
  assert (Zpos m / 2 ^ (- (e - 2)) = Zpos p / 4) as ->.
  { rewrite Hm. replace (- (e - 2)) with (2 + - e) by lia. rewrite Z.pow_add_r by lia.
    rewrite Z.div_mul_cancel_r; [done|lia|]. pose proof (Z.pow_pos_nonneg 2 (- e)). lia. }
  pose proof (Z.div_pos (Zpos p) 4). pose proof (Z.div_le_upper_bound (Zpos p) 4 (Zpos p)).
  unfold min_int64, max_int64. destruct (Z.leb_spec (- 2 ^ 63) (Zpos p / 4)); [|lia].
  destruct (Z.leb_spec (Zpos p / 4) (2 ^ 63 - 1)); [done|lia].
Qed.
