(* ===== verification/DagGraph.v ===== *)
(** * The task graph: internal/dag/graph.go

    [Graph] is the node table and the edge slice.  One definition per method;
    [TopologicalSort] is Kahn's algorithm as the code runs it (work queue,
    in-degree table, a scan of all edges per popped node) and [Levels] is its
    second run, which also computes the longest-path level of each node.

    The loops over [queue] are bounded by fuel; [topo_loop_inv] and
    [level_loop_inv] show that the fuel chosen always suffices, because a node
    enters the queue at most once.  The initial queue is filled by ranging over
    a map, so its order is an argument of both functions. *)

From S2P Require Import Prelude.

(** ** Data *)

(* go: internal/dag/graph.go type Node *)
Record Node := mkNode {
  node_ID : UUID;
  node_Name : string;
  node_Metadata : gmap string any
}.

(* go: internal/dag/graph.go type Edge *)
Record Edge := mkEdge { edge_From : UUID; edge_To : UUID }.

(* go: internal/dag/graph.go type Graph *)
Record Graph := mkGraph { nodes : gmap UUID Node; edges : list Edge }.

#[export] Instance Edge_eq_dec : EqDecision Edge.
Proof. solve_decision. Defined.

Inductive GraphError : Type :=
| ErrNodeExists (id : UUID)
| ErrSourceMissing (from : UUID)
| ErrTargetMissing (to : UUID)
| ErrEdgeExists (from to : UUID)
| ErrGraphCycle.

(** ** Mutators *)

(* go: internal/dag/graph.go func NewGraph *)
Definition NewGraph : Graph := mkGraph ∅ [].

(** [id] is the identifier [uuid.New] returns. *)
(* go: internal/dag/graph.go func Graph.AddNode *)
Definition AddNode (g : Graph) (id : UUID) (name : string) : Graph * Node :=
  let n := mkNode id name ∅ in
  (mkGraph (<[id := n]> (nodes g)) (edges g), n).

(* go: internal/dag/graph.go func Graph.AddNodeWithID *)
Definition AddNodeWithID (g : Graph) (id : UUID) (name : string)
  : Graph * go_result Node GraphError :=
  match nodes g !! id with
  | Some _ => (g, Err (ErrNodeExists id))
  | None =>
      let n := mkNode id name ∅ in
      (mkGraph (<[id := n]> (nodes g)) (edges g), Ok n)
  end.

Definition edge_is (from to : UUID) (e : Edge) : bool :=
  bool_decide (edge_From e = from) && bool_decide (edge_To e = to).

(* go: internal/dag/graph.go func Graph.AddEdge *)
Definition AddEdge (g : Graph) (from to : UUID) : Graph * option GraphError :=
  match nodes g !! from, nodes g !! to with
  | None, _ => (g, Some (ErrSourceMissing from))
  | _, None => (g, Some (ErrTargetMissing to))
  | Some _, Some _ =>
      if existsb (edge_is from to) (edges g)
      then (g, Some (ErrEdgeExists from to))
      else (mkGraph (nodes g) (edges g ++ [mkEdge from to]), None)
  end.

(* go: internal/dag/graph.go func Graph.RemoveNode *)
Definition RemoveNode (g : Graph) (id : UUID) : Graph * bool :=
  match nodes g !! id with
  | None => (g, false)
  | Some _ =>
      let filtered := List.filter (fun e => negb (bool_decide (edge_From e = id))
                                       && negb (bool_decide (edge_To e = id))) (edges g) in
      (mkGraph (delete id (nodes g)) filtered, true)
  end.

(** The loop of [RemoveEdge]: drop the first matching edge. *)
Fixpoint remove_first_edge (from to : UUID) (es : list Edge) : option (list Edge) :=
  match es with
  | [] => None
  | e :: es' =>
      if edge_is from to e then Some es'
      else match remove_first_edge from to es' with
           | Some r => Some (e :: r)
           | None => None
           end
  end.

(* go: internal/dag/graph.go func Graph.RemoveEdge *)
Definition RemoveEdge (g : Graph) (from to : UUID) : Graph * bool :=
  match remove_first_edge from to (edges g) with
  | Some es => (mkGraph (nodes g) es, true)
  | None => (g, false)
  end.

(* go: internal/dag/graph.go func Graph.Clear *)
Definition Clear (g : Graph) : Graph := mkGraph ∅ [].

(** ** Readers *)

(* go: internal/dag/graph.go func Graph.Node *)
Definition graph_Node (g : Graph) (id : UUID) : option Node := nodes g !! id.

(** [Nodes] lists the table in the order [ord] of its [range] loop. *)
(* go: internal/dag/graph.go func Graph.Nodes *)
Definition Nodes (ord : list UUID) (g : Graph) : list Node := omap (fun id => nodes g !! id) ord.

(* go: internal/dag/graph.go func Graph.Edges *)
Definition Edges (g : Graph) : list Edge := edges g.

(* go: internal/dag/graph.go func Graph.NodeCount *)
Definition NodeCount (g : Graph) : Z := Z.of_nat (size (nodes g)).

(* go: internal/dag/graph.go func Graph.EdgeCount *)
Definition EdgeCount (g : Graph) : Z := Z.of_nat (length (edges g)).

(* go: internal/dag/graph.go func Graph.Children *)
Definition Children (g : Graph) (id : UUID) : list Node :=
  omap (fun e => if bool_decide (edge_From e = id) then nodes g !! edge_To e else None) (edges g).

(* go: internal/dag/graph.go func Graph.Parents *)
Definition Parents (g : Graph) (id : UUID) : list Node :=
  omap (fun e => if bool_decide (edge_To e = id) then nodes g !! edge_From e else None) (edges g).

(** ** Kahn's algorithm *)

(** Go's [m[k]++] and [m[k]--] read a missing key as zero. *)
Definition deg_add (d : Z) (k : UUID) (m : gmap UUID Z) : gmap UUID Z :=
  <[k := default 0 (m !! k) + d]> m.

(** The in-degree table of both algorithms; the order of the first loop does not
    matter, since it stores the same value at every key. *)
(* go: internal/dag/graph.go @154-160 Graph.TopologicalSort *)
Definition inDegree (g : Graph) : gmap UUID Z :=
  foldl (fun m e => deg_add 1 (edge_To e) m)
        (foldl (fun m n => <[node_ID n := 0]> m) ∅ (values (nodes g)))
        (edges g).

(* go: internal/dag/graph.go @162-167 Graph.TopologicalSort *)
Definition initial_queue (deg : gmap UUID Z) (ord : list UUID) : list UUID :=
  List.filter (fun id => bool_decide (deg !! id = Some 0)) ord.

(** One iteration of the scan of the edges for the node [current]. *)
(* go: internal/dag/graph.go @175-182 Graph.TopologicalSort *)
Definition relax (current : UUID) (st : gmap UUID Z * list UUID) (e : Edge)
  : gmap UUID Z * list UUID :=
  let '(deg, queue) := st in
  if bool_decide (edge_From e = current) then
    let deg' := deg_add (-1) (edge_To e) deg in
    (deg', if bool_decide (deg' !! edge_To e = Some 0) then queue ++ [edge_To e] else queue)
  else st.

(** [sorted] may hold a nil pointer ([None]) for an edge target without a node. *)
(* go: internal/dag/graph.go @169-183 Graph.TopologicalSort *)
Fixpoint topo_loop (fuel : nat) (g : Graph) (deg : gmap UUID Z) (queue : list UUID)
  (sorted : list (option Node)) : option (list (option Node)) :=
  match queue with
  | [] => Some sorted
  | current :: queue' =>
      match fuel with
      | O => None
      | S fuel' =>
          let '(deg', queue'') := foldl (relax current) (deg, queue') (edges g) in
          topo_loop fuel' g deg' queue'' (sorted ++ [nodes g !! current])
      end
  end.

Definition kahn_fuel (g : Graph) : nat := size (nodes g) + length (edges g).

(* go: internal/dag/graph.go func Graph.TopologicalSort *)
Definition TopologicalSort (ord : list UUID) (g : Graph) : option (list (option Node) * bool) :=
  let deg := inDegree g in
  match topo_loop (kahn_fuel g) g deg (initial_queue deg ord) [] with
  | Some sorted => Some (sorted, negb (length sorted =? size (nodes g))%nat)
  | None => None
  end.

(* go: internal/dag/graph.go func Graph.HasCycle *)
Definition HasCycle (ord : list UUID) (g : Graph) : option bool :=
  match TopologicalSort ord g with
  | Some (_, hasCycle) => Some hasCycle
  | None => None
  end.

(** ** Levels *)

(* go: internal/dag/graph.go @219-222 Graph.Levels *)
Definition bump_level (levelMap : gmap UUID Z) (to : UUID) (childLevel : Z) : gmap UUID Z :=
  match levelMap !! to with
  | Some existing => if existing <? childLevel then <[to := childLevel]> levelMap else levelMap
  | None => <[to := childLevel]> levelMap
  end.

(* go: internal/dag/graph.go @217-228 Graph.Levels *)
Definition relax_level (current : UUID) (st : gmap UUID Z * list UUID * gmap UUID Z) (e : Edge)
  : gmap UUID Z * list UUID * gmap UUID Z :=
  let '(deg, queue, levelMap) := st in
  if bool_decide (edge_From e = current) then
    let childLevel := default 0 (levelMap !! current) + 1 in
    let levelMap' := bump_level levelMap (edge_To e) childLevel in
    let deg' := deg_add (-1) (edge_To e) deg in
    (deg', (if bool_decide (deg' !! edge_To e = Some 0) then queue ++ [edge_To e] else queue), levelMap')
  else st.

(* go: internal/dag/graph.go @213-229 Graph.Levels *)
Fixpoint level_loop (fuel : nat) (g : Graph) (deg : gmap UUID Z) (queue : list UUID)
  (levelMap : gmap UUID Z) : option (gmap UUID Z) :=
  match queue with
  | [] => Some levelMap
  | current :: queue' =>
      match fuel with
      | O => None
      | S fuel' =>
          let '(deg', queue'', levelMap') :=
            foldl (relax_level current) (deg, queue', levelMap) (edges g) in
          level_loop fuel' g deg' queue'' levelMap'
      end
  end.

(* go: internal/dag/graph.go @231-236 Graph.Levels *)
Definition max_level (levelMap : gmap UUID Z) : Z :=
  foldl (fun maxLevel l => if maxLevel <? l then l else maxLevel) 0 (values levelMap).

(** Appending to [levels[lvl]]; an index out of range panics. *)
Definition push_level (levels : list (list Node)) (lvl : Z) (n : Node) : option (list (list Node)) :=
  if (lvl <? 0) then None
  else match levels !! Z.to_nat lvl with
       | Some l => Some (<[Z.to_nat lvl := l ++ [n]]> levels)
       | None => None
       end.

(** The final loop; a nil node panics at [n.ID]. *)
(* go: internal/dag/graph.go @242-245 Graph.Levels *)
Fixpoint fill_levels (levelMap : gmap UUID Z) (sorted : list (option Node))
  (levels : list (list Node)) : option (list (list Node)) :=
  match sorted with
  | [] => Some levels
  | None :: _ => None
  | Some n :: sorted' =>
      match push_level levels (default 0 (levelMap !! node_ID n)) n with
      | Some levels' => fill_levels levelMap sorted' levels'
      | None => None
      end
  end.

(** [ord1] is the map order of the call of [TopologicalSort], [ord2] that of the
    second initial queue.  The outer [option] is the fuel of the loops. *)
(* go: internal/dag/graph.go func Graph.Levels *)
Definition Levels (ord1 ord2 : list UUID) (g : Graph)
  : option (go_result (list (list Node)) GraphError) :=
  match TopologicalSort ord1 g with
  | None => None
  | Some (_, true) => Some (Err ErrGraphCycle)
  | Some (sorted, false) =>
      let deg := inDegree g in
      let queue := initial_queue deg ord2 in
      let levelMap := foldl (fun m id => <[id := 0]> m) ∅ queue in
      match level_loop (kahn_fuel g) g deg queue levelMap with
      | None => None
      | Some levelMap' =>
          let levels := replicate (Z.to_nat (max_level levelMap' + 1)) [] in
          match fill_levels levelMap' sorted levels with
          | Some levels' => Some (Ok levels')
          | None => Some Panic
          end
      end
  end.

(* go: internal/dag/graph.go func Graph.String *)
Definition graph_String (ord : list UUID) (g : Graph) : string :=
  foldl (fun b n =>
           let parentNames := node_Name <$> Parents g (node_ID n) in
           let childNames := node_Name <$> Children g (node_ID n) in
           (b +:+ "  " +:+ node_Name n +:+ " [parents: " +:+ strings_Join parentNames ", "
              +:+ "] [children: " +:+ strings_Join childNames ", " +:+ "]" +:+ newline)%string)
        ("Graph (" +:+ itoa (NodeCount g) +:+ " nodes, " +:+ itoa (EdgeCount g) +:+ " edges):" +:+ newline)%string
        (Nodes ord g).

(** ** Well-formed graphs

    Every entry of the node table is filed under its own identifier and the edges
    join nodes of the table.  The methods also keep the edges free of duplicates,
    which the algorithms do not need ([ValidateEdgeAddition] runs them on a graph
    that may list an edge twice). *)

Record graph_wf (g : Graph) : Prop := {
  wf_ids : forall id n, nodes g !! id = Some n -> node_ID n = id;
  wf_from : forall e, e ∈ edges g -> is_Some (nodes g !! edge_From e);
  wf_to : forall e, e ∈ edges g -> is_Some (nodes g !! edge_To e)
}.

Record graph_inv (g : Graph) : Prop := {
  inv_wf : graph_wf g;
  inv_nodup : NoDup (edges g)
}.

Inductive graph_op : Type :=
| OpAddNode (id : UUID) (name : string)
| OpAddNodeWithID (id : UUID) (name : string)
| OpAddEdge (from to : UUID)
| OpRemoveNode (id : UUID)
| OpRemoveEdge (from to : UUID)
| OpClear.

Definition apply_graph_op (g : Graph) (op : graph_op) : Graph :=
  match op with
  | OpAddNode id name => (AddNode g id name).1
  | OpAddNodeWithID id name => (AddNodeWithID g id name).1
  | OpAddEdge from to => (AddEdge g from to).1
  | OpRemoveNode id => (RemoveNode g id).1
  | OpRemoveEdge from to => (RemoveEdge g from to).1
  | OpClear => Clear g
  end.

(** The edge relation and acyclicity, the abstract view of a graph. *)
Definition edge_rel (g : Graph) (x y : UUID) : Prop := mkEdge x y ∈ edges g.
Definition acyclic (g : Graph) : Prop := forall x, ~ tc (edge_rel g) x x.

Lemma NewGraph_inv : graph_inv NewGraph.
Proof. split; [split|]; simpl; [set_solver| | |constructor]; intros e; set_solver. Qed.

Lemma edge_is_true from to e : edge_is from to e = true <-> e = mkEdge from to.
Proof.
  unfold edge_is. destruct e as [a b]; simpl.
  rewrite andb_true_iff, !bool_decide_eq_true. naive_solver.
Qed.

Lemma insert_node_inv g id name :
  graph_inv g -> graph_inv (mkGraph (<[id := mkNode id name ∅]> (nodes g)) (edges g)).
Proof.
  intros [[Hid Hf Ht] Hnd]. split; [split|done]; simpl.
  - intros i n. rewrite lookup_insert_Some. naive_solver.
  - intros e He. apply lookup_insert_is_Some'. right. auto.
  - intros e He. apply lookup_insert_is_Some'. right. auto.
Qed.

Lemma AddEdge_inv g from to : graph_inv g -> graph_inv (AddEdge g from to).1.
Proof.
  intros [[Hid Hf Ht] Hnd]. unfold AddEdge.
  destruct (nodes g !! from) eqn:Ef; [|done].
  destruct (nodes g !! to) eqn:Et; [|done].
  destruct (existsb _ _) eqn:Ex; [done|]. split; [split; [done| |]|]; simpl.
  - intros e. rewrite elem_of_app, list_elem_of_singleton. intros [?| ->]; simpl; eauto.
  - intros e. rewrite elem_of_app, list_elem_of_singleton. intros [?| ->]; simpl; eauto.
  - apply NoDup_app. split_and!; [done| |apply NoDup_singleton].
    intros e He ->%list_elem_of_singleton.
    apply not_true_iff_false in Ex. apply Ex, existsb_exists.
    exists (mkEdge from to). rewrite <- list_elem_of_In. split; [done|].
    by apply edge_is_true.
Qed.

Lemma RemoveNode_inv g id : graph_inv g -> graph_inv (RemoveNode g id).1.
Proof.
  intros [[Hid Hf Ht] Hnd]. unfold RemoveNode.
  destruct (nodes g !! id); [|done]. split; [split|]; simpl.
  - intros i m. rewrite lookup_delete_Some. naive_solver.
  - intros e. rewrite list_elem_of_In, filter_In, <- list_elem_of_In, andb_true_iff,
      !negb_true_iff, !bool_decide_eq_false. intros (He & Hne & _).
    rewrite lookup_delete_ne by congruence. auto.
  - intros e. rewrite list_elem_of_In, filter_In, <- list_elem_of_In, andb_true_iff,
      !negb_true_iff, !bool_decide_eq_false. intros (He & _ & Hne).
    rewrite lookup_delete_ne by congruence. auto.
  - apply NoDup_ListNoDup, List.NoDup_filter. by apply NoDup_ListNoDup.
Qed.

Lemma remove_first_edge_sublist from to es es' :
  remove_first_edge from to es = Some es' -> es' `sublist_of` es.
Proof.
  revert es'. induction es as [|e es IH]; intros es' Hr; simpl in *; [done|].
  destruct (edge_is from to e); [simplify_eq; by constructor|].
  destruct (remove_first_edge from to es) as [r|]; simplify_eq.
  constructor. auto.
Qed.

Lemma RemoveEdge_inv g from to : graph_inv g -> graph_inv (RemoveEdge g from to).1.
Proof.
  intros [[Hid Hf Ht] Hnd]. unfold RemoveEdge.
  destruct (remove_first_edge from to (edges g)) as [es|] eqn:Er; [|done].
  apply remove_first_edge_sublist in Er.
  assert (forall e, e ∈ es -> e ∈ edges g) as Hin
    by (intros e He; by eapply elem_of_sublist).
  split; [split|]; simpl; auto. by eapply sublist_NoDup.
Qed.

#[export] Hint Resolve NewGraph_inv insert_node_inv AddEdge_inv RemoveNode_inv RemoveEdge_inv : dag.

Lemma apply_graph_op_inv g op : graph_inv g -> graph_inv (apply_graph_op g op).
Proof.
  intros Hwf. destruct op; simpl; auto with dag.
  unfold AddNodeWithID. destruct (nodes g !! id); simpl; auto with dag.
Qed.

(** ** The invariant of the work-queue loop

    [pending don es x] is the number of edges into [x] whose source has not been
    popped; it is what the in-degree table holds when [don] has been popped. *)

Definition pending (don : list UUID) (es : list Edge) (x : UUID) : Z :=
  Z.of_nat (length (filter (fun e => edge_To e = x /\ edge_From e ∉ don) es)).

Lemma pending_nonneg don es x : 0 <= pending don es x.
Proof. unfold pending. lia. Qed.

Lemma pending_app don es1 es2 x : pending don (es1 ++ es2) x = pending don es1 x + pending don es2 x.
Proof. unfold pending. rewrite filter_app, length_app. lia. Qed.

Lemma pending_one don e x :
  pending don [e] x = if decide (edge_To e = x /\ edge_From e ∉ don) then 1 else 0.
Proof. unfold pending. rewrite filter_cons. by case_decide. Qed.

Lemma pending_cons don e es x : pending don (e :: es) x = pending don [e] x + pending don es x.
Proof. apply (pending_app don [e] es). Qed.

Lemma pending_zero don es x :
  pending don es x = 0 -> forall y, mkEdge y x ∈ es -> y ∈ don.
Proof.
  unfold pending. intros Hz y Hy. destruct (decide (y ∈ don)) as [|Hn]; [done|].
  assert (mkEdge y x ∈ filter (fun e => edge_To e = x /\ edge_From e ∉ don) es) as Hin
    by (rewrite list_elem_of_filter; auto).
  destruct (filter _ es); [set_solver|]. simpl in Hz. lia.
Qed.

Lemma pending_pos don es x :
  pending don es x <> 0 -> exists y, mkEdge y x ∈ es /\ y ∉ don.
Proof.
  unfold pending. intros Hz. destruct (filter _ es) as [|[a b] l] eqn:Hf; [done|].
  assert (mkEdge a b ∈ filter (fun e => edge_To e = x /\ edge_From e ∉ don) es) as Hin
    by (rewrite Hf; left).
  apply list_elem_of_filter in Hin as [[Ht Hn] Hin]; simpl in *; subst. eauto.
Qed.

Lemma pending_no_target don es x : x ∉ edge_To <$> es -> pending don es x = 0.
Proof.
  intros Hn. destruct (decide (pending don es x = 0)) as [|Hp]; [done|].
  apply pending_pos in Hp as (y & Hy & _). destruct Hn.
  apply list_elem_of_fmap. by exists (mkEdge y x).
Qed.

(** [topo_order es l]: every edge into a member of [l] comes from an earlier one. *)
Definition topo_order (es : list Edge) (l : list UUID) : Prop :=
  forall l1 x l2, l = l1 ++ x :: l2 -> forall y, mkEdge y x ∈ es -> y ∈ l1.

Lemma topo_order_snoc es l x :
  topo_order es l -> (forall y, mkEdge y x ∈ es -> y ∈ l) -> topo_order es (l ++ [x]).
Proof.
  intros Hl Hx l1 z l2 Heq y Hy.
  destruct l2 as [|w l2' _] using rev_ind.
  - apply app_inj_tail in Heq as [-> ->]. auto.
  - rewrite app_comm_cons, app_assoc in Heq. apply app_inj_tail in Heq as [-> ->]. eauto.
Qed.

Record kahn_inv (es : list Edge) (K : gset UUID) (deg : gmap UUID Z)
  (don queue : list UUID) : Prop := {
  ki_keys : dom deg = K;
  ki_nodup : NoDup (don ++ queue);
  ki_deg : forall x d, deg !! x = Some d -> d = pending don es x;
  ki_to : forall e, e ∈ es -> edge_To e ∈ K;
  ki_zero : forall x, x ∈ don ++ queue <-> deg !! x = Some 0;
  ki_order : topo_order es don
}.

(** The same invariant in the middle of the scan for [current]: [es1] has been
    scanned, [es2] has not. *)
Record scan_inv (K : gset UUID) (don : list UUID) (current : UUID) (es1 es2 : list Edge)
  (deg : gmap UUID Z) (queue : list UUID) : Prop := {
  si_keys : dom deg = K;
  si_nodup : NoDup (don ++ current :: queue);
  si_deg : forall x d, deg !! x = Some d ->
             d = pending (don ++ [current]) es1 x + pending don es2 x;
  si_zero : forall x, x ∈ don ++ current :: queue <-> deg !! x = Some 0
}.

Lemma scan_inv_skip K don current es1 e es2 deg queue :
  edge_From e <> current ->
  scan_inv K don current es1 (e :: es2) deg queue ->
  scan_inv K don current (es1 ++ [e]) es2 deg queue.
Proof.
  intros Hne [Hk Hnd Hd Hz]. split; [done|done| |done].
  intros x d Hx. rewrite (Hd x d Hx), pending_app, (pending_cons don), !pending_one.
  repeat case_decide; set_solver by lia.
Qed.

Lemma scan_inv_hit K don current es1 e es2 deg queue :
  edge_From e = current -> edge_To e ∈ K ->
  scan_inv K don current es1 (e :: es2) deg queue ->
  let deg' := deg_add (-1) (edge_To e) deg in
  scan_inv K don current (es1 ++ [e]) es2 deg'
    (if bool_decide (deg' !! edge_To e = Some 0) then queue ++ [edge_To e] else queue).
Proof.
  intros Hc HK [Hk Hnd Hd Hz]. cbv zeta.
  assert (current ∉ don) as Hcd by (apply NoDup_app in Hnd; set_solver).
  rewrite <- Hk, elem_of_dom in HK. destruct HK as [d0 Hd0].
  pose proof (Hd _ _ Hd0) as Hval. rewrite pending_cons, pending_one in Hval.
  rewrite decide_True in Hval by (rewrite Hc; auto).
  pose proof (pending_nonneg (don ++ [current]) es1 (edge_To e)).
  pose proof (pending_nonneg don es2 (edge_To e)).
  assert (edge_To e ∉ don ++ current :: queue) as Hnew
    by (rewrite Hz, Hd0; intros [=]; lia).
  assert (deg_add (-1) (edge_To e) deg = <[edge_To e := d0 - 1]> deg) as ->
    by (unfold deg_add; rewrite Hd0; simpl; f_equal; lia).
  rewrite lookup_insert_eq.
  assert (forall x d, <[edge_To e := d0 - 1]> deg !! x = Some d ->
    d = pending (don ++ [current]) (es1 ++ [e]) x + pending don es2 x) as Hdeg'.
  { intros x d. rewrite pending_app, pending_one, lookup_insert_Some.
    rewrite (decide_False (P := edge_To e = x /\ _)) by set_solver.
    intros [[<- <-]|[Hne Hx]]; [lia|].
    rewrite (Hd _ _ Hx), (pending_cons don), pending_one, decide_False by naive_solver. lia. }
  case_bool_decide as Hb; split; try done.
  - by rewrite dom_insert_lookup_L by eauto.
  - rewrite app_comm_cons, app_assoc. apply NoDup_app. split_and!; [done| |apply NoDup_singleton].
    set_solver.
  - intros x. rewrite lookup_insert_Some, app_comm_cons, app_assoc, elem_of_app,
      list_elem_of_singleton, Hz. simplify_eq. set_solver.
  - by rewrite dom_insert_lookup_L by eauto.
  - intros x. rewrite lookup_insert_Some, Hz. split.
    + intros Hx. right. split; [|done]. intros <-. simplify_eq. lia.
    + intros [[_ ?]|[_ ?]]; [congruence|done].
Qed.

Lemma scan_inv_edges K don current es1 es deg queue :
  (forall e, e ∈ es -> edge_To e ∈ K) ->
  scan_inv K don current es1 es deg queue ->
  let '(deg', queue') := foldl (relax current) (deg, queue) es in
  scan_inv K don current (es1 ++ es) [] deg' queue'.
Proof.
  revert deg queue es1.
  induction es as [|e es IH]; intros deg queue es1 HK Hi; simpl in *.
  - by rewrite app_nil_r.
  - replace (es1 ++ e :: es) with ((es1 ++ [e]) ++ es) by (by rewrite <- app_assoc).
    case_bool_decide as Hc; (apply IH; [set_solver|]).
    + apply scan_inv_hit; [done|set_solver|done].
    + by apply scan_inv_skip.
Qed.

Lemma kahn_inv_step es K deg don current queue :
  kahn_inv es K deg don (current :: queue) ->
  let '(deg', queue') := foldl (relax current) (deg, queue) es in
  kahn_inv es K deg' (don ++ [current]) queue'.
Proof.
  intros [Hk Hnd Hd Ht Hz Ho].
  pose proof (scan_inv_edges K don current [] es deg queue Ht) as Hscan.
  destruct (foldl (relax current) (deg, queue) es) as [deg' queue'].
  destruct Hscan as [Hk' Hnd' Hd' Hz'].
  { split; [done|done| |done]. intros x d Hx. rewrite (Hd x d Hx). done. }
  split; [done| | |done| |].
  - by rewrite <- app_assoc.
  - intros x d Hx. rewrite (Hd' x d Hx). unfold pending at 2. simpl. lia.
  - intros x. by rewrite <- app_assoc.
  - apply topo_order_snoc; [done|]. apply pending_zero.
    assert (deg !! current = Some 0) as Hc by (apply Hz; set_solver).
    symmetry. by apply Hd.
Qed.

(** Each node is popped at most once, so the fuel is never exhausted. *)
Lemma kahn_inv_bound es K deg don queue :
  kahn_inv es K deg don queue -> (length don + length queue <= size K)%nat.
Proof.
  intros [Hk Hnd _ _ Hz _]. rewrite <- length_app, <- Hk.
  apply (submseteq_length _ (elements (dom deg))), NoDup_submseteq; [done|].
  intros x Hx. apply elem_of_elements, elem_of_dom. rewrite Hz in Hx. eauto.
Qed.

Lemma topo_loop_inv g fuel K deg don queue :
  kahn_inv (edges g) K deg don queue ->
  (size K <= fuel + length don)%nat ->
  exists don' deg',
    topo_loop fuel g deg queue ((fun id => nodes g !! id) <$> don)
      = Some ((fun id => nodes g !! id) <$> don')
    /\ kahn_inv (edges g) K deg' don' [].
Proof.
  revert deg don queue. induction fuel as [|fuel IH]; intros deg don queue Hi Hf.
  - destruct queue as [|c q]; [by exists don, deg|].
    apply kahn_inv_bound in Hi. simpl in *. lia.
  - destruct queue as [|c q]; [by exists don, deg|]. cbn [topo_loop].
    apply kahn_inv_step in Hi. destruct (foldl _ _ _) as [deg1 q1].
    destruct (IH _ _ _ Hi) as (don' & deg' & Hl & Hi').
    { rewrite length_app. simpl. lia. }
    rewrite fmap_app in Hl. eauto.
Qed.

(** *** The in-degree table *)

Lemma zero_table_lookup (ns : list Node) (m : gmap UUID Z) x :
  foldl (fun m n => <[node_ID n := 0]> m) m ns !! x
    = if decide (x ∈ node_ID <$> ns) then Some 0 else m !! x.
Proof.
  revert m. induction ns as [|n ns IH]; intros m; csimpl; [done|].
  rewrite IH. repeat case_decide; [done|set_solver| |].
  - rewrite lookup_insert. case_decide; set_solver.
  - rewrite lookup_insert_ne by set_solver. done.
Qed.

Lemma count_table_lookup (es : list Edge) (m : gmap UUID Z) x :
  foldl (fun m e => deg_add 1 (edge_To e) m) m es !! x
    = if decide (x ∈ edge_To <$> es) then Some (default 0 (m !! x) + pending [] es x) else m !! x.
Proof.
  revert m. induction es as [|e es IH]; intros m; csimpl.
  - done.
  - rewrite IH. unfold deg_add. rewrite lookup_insert, pending_cons, pending_one.
    destruct (decide (edge_To e = x)) as [->|Hne].
    + rewrite (decide_True (P := x = x /\ _)) by set_solver.
      rewrite (decide_True (P := x ∈ x :: _)) by set_solver.
      case_decide as Hin; simpl; f_equal; [lia|].
      rewrite pending_no_target by done. lia.
    + rewrite (decide_False (P := edge_To e = x /\ _)) by naive_solver.
      repeat case_decide; set_solver.
Qed.

Lemma inDegree_lookup g x d :
  inDegree g !! x = Some d -> d = pending [] (edges g) x.
Proof.
  unfold inDegree. rewrite count_table_lookup, zero_table_lookup.
  rewrite lookup_empty.
  repeat case_decide; simpl; intros; simplify_eq; [lia|lia|].
  by rewrite pending_no_target.
Qed.

Lemma inDegree_dom g :
  dom (inDegree g) =@{gset UUID}
    list_to_set (node_ID <$> values (nodes g)) ∪ list_to_set (edge_To <$> edges g).
Proof.
  apply set_eq. intros x. unfold inDegree.
  rewrite elem_of_dom, elem_of_union, !elem_of_list_to_set, count_table_lookup, zero_table_lookup.
  unfold is_Some. repeat case_decide; naive_solver.
Qed.

Lemma size_list_to_set (l : list UUID) : (size (list_to_set l : gset UUID) <= length l)%nat.
Proof.
  induction l as [|x l IH]; simpl; [done|].
  rewrite size_union_alt, size_singleton.
  pose proof (subseteq_size (list_to_set l ∖ {[x]}) (list_to_set l : gset UUID)). set_solver by lia.
Qed.

Lemma inDegree_size g : (size (dom (inDegree g)) <= kahn_fuel g)%nat.
Proof.
  unfold kahn_fuel. rewrite inDegree_dom.
  rewrite size_union_alt.
  pose proof (size_list_to_set (node_ID <$> values (nodes g))) as H1.
  pose proof (size_list_to_set (edge_To <$> edges g)) as H2.
  pose proof (subseteq_size (list_to_set (edge_To <$> edges g) ∖ list_to_set (node_ID <$> values (nodes g)))
    (list_to_set (edge_To <$> edges g) : gset UUID)) as H3.
  unfold values in *. rewrite !length_fmap, ?length_map_to_list in *. set_solver by lia.
Qed.

Lemma kahn_inv_init g ord :
  range_order (inDegree g) ord ->
  kahn_inv (edges g) (dom (inDegree g)) (inDegree g) [] (initial_queue (inDegree g) ord).
Proof.
  intros Hr. split; [done| | | | |].
  - apply NoDup_ListNoDup, List.NoDup_filter, NoDup_ListNoDup, (range_order_NoDup _ _ Hr).
  - apply inDegree_lookup.
  - intros e He. rewrite inDegree_dom. set_solver.
  - intros x. unfold initial_queue. simpl.
    rewrite list_elem_of_In, filter_In, <- list_elem_of_In, bool_decide_eq_true.
    rewrite (range_order_elem _ _ _ Hr). naive_solver.
  - intros l1 x l2 Heq. by destruct l1.
Qed.

(** ** Correctness of [TopologicalSort] *)

Lemma TopologicalSort_run g ord :
  range_order (inDegree g) ord ->
  exists don deg,
    TopologicalSort ord g
      = Some ((fun id => nodes g !! id) <$> don, negb (length don =? size (nodes g))%nat)
    /\ kahn_inv (edges g) (dom (inDegree g)) deg don [].
Proof.
  intros Hr. unfold TopologicalSort.
  destruct (topo_loop_inv g (kahn_fuel g) _ _ _ _ (kahn_inv_init g ord Hr))
    as (don & deg & Hl & Hi).
  { pose proof (inDegree_size g). simpl. lia. }
  exists don, deg. simpl in Hl. by rewrite Hl, length_fmap.
Qed.

Section wf_graph.
Context (g : Graph) (Hwf : graph_wf g).

Lemma wf_elem_node id n : nodes g !! id = Some n <-> n ∈ values (nodes g) /\ node_ID n = id.
Proof using Hwf.
  unfold values. rewrite list_elem_of_fmap. split.
  - intros Hn. split; [|by apply (wf_ids g Hwf)].
    exists (id, n). split; [done|]. by apply elem_of_map_to_list.
  - intros [([id' n'] & -> & Hin) <-]. apply elem_of_map_to_list in Hin. simpl.
    by rewrite (wf_ids g Hwf id' n' Hin).
Qed.

Lemma inDegree_dom_wf : dom (inDegree g) = dom (nodes g).
Proof using Hwf.
  apply set_eq. intros x.
  rewrite inDegree_dom, elem_of_union, !elem_of_list_to_set, elem_of_dom, !list_elem_of_fmap.
  split.
  - intros [(n & -> & Hn)|(e & -> & He)]; [|by apply (wf_to g Hwf)].
    exists n. by apply wf_elem_node.
  - intros [n Hn]. left. exists n. apply wf_elem_node in Hn. naive_solver.
Qed.

(** What is left over when the queue runs dry is reached from a cycle. *)
Lemma kahn_leftover_cycle deg don x0 :
  kahn_inv (edges g) (dom (nodes g)) deg don [] ->
  x0 ∈ dom (nodes g) -> x0 ∉ don ->
  exists x, tc (edge_rel g) x x /\ rtc (edge_rel g) x x0.
Proof using Hwf.
  intros [Hk _ Hd _ Hz _] Hx0 Hx0d. rewrite app_nil_r in Hz.
  destruct (finite_pred_cycle (edge_rel g) (dom (nodes g) ∖ list_to_set don)) with x0
    as (x & _ & Hx & Hxx0); [| |by exists x].
  - intros x. rewrite elem_of_difference, elem_of_list_to_set. intros [Hx Hnd].
    rewrite <- Hk, elem_of_dom in Hx. destruct Hx as [d Hx].
    assert (pending don (edges g) x <> 0) as Hp.
    { rewrite <- (Hd _ _ Hx). intros ->. by apply Hnd, Hz. }
    apply pending_pos in Hp as (y & Hy & Hyd). exists y. split; [|done].
    rewrite elem_of_difference, elem_of_list_to_set. split; [|done].
    apply elem_of_dom. by apply (wf_from g Hwf (mkEdge y x)).
  - rewrite elem_of_difference, elem_of_list_to_set. done.
Qed.

Lemma topo_order_tc don x y i :
  topo_order (edges g) don -> tc (edge_rel g) x y -> don !! i = Some y ->
  exists j, (j < i)%nat /\ don !! j = Some x.
Proof.
  intros Ho Ht. revert i. induction Ht as [x y Hxy|x z y Hxz _ IH]; intros i Hi.
  - apply list_elem_of_split_length in Hi as (l1 & l2 & Heq & Hlen).
    assert (x ∈ l1) as Hx by (by eapply Ho).
    apply list_elem_of_lookup in Hx as [j Hj]. exists j.
    split; [subst i; by apply lookup_lt_Some in Hj|].
    subst. by apply lookup_app_l_Some.
  - destruct (IH i Hi) as (k & Hk & Hz).
    apply list_elem_of_split_length in Hz as (l1 & l2 & Heq & Hlen).
    assert (x ∈ l1) as Hx by (by eapply Ho).
    apply list_elem_of_lookup in Hx as [j Hj]. exists j.
    apply lookup_lt_Some in Hj as Hlt. split; [lia|].
    rewrite Heq. by apply lookup_app_l_Some.
Qed.

End wf_graph.

Lemma lookup_nodes_sorted g (don : list UUID) :
  graph_wf g -> (forall x, x ∈ don -> x ∈ dom (nodes g)) ->
  exists ns : list Node, (fun id => nodes g !! id) <$> don = Some <$> ns /\ node_ID <$> ns = don
    /\ forall n, n ∈ ns -> nodes g !! node_ID n = Some n.
Proof.
  intros Hwf. induction don as [|x don IH]; intros Hin.
  { exists []. split_and!; [done|done|]. intros n. set_solver. }
  destruct IH as (ns & H1 & H2 & H3); [set_solver|].
  assert (is_Some (nodes g !! x)) as [n Hn] by (apply elem_of_dom, Hin; left).
  pose proof (wf_ids g Hwf _ _ Hn) as Hid.
  exists (n :: ns). csimpl. rewrite Hn, H1, H2, Hid. split_and!; [done|done|].
  intros m [->|Hm]%elem_of_cons; [by rewrite Hid|auto].
Qed.

(** The outcome of a sort of a well-formed graph: a duplicate-free list of nodes in
    topological order; what is missing from it is what a cycle reaches. *)
Record sort_spec (g : Graph) (sorted : list Node) (hasCycle : bool) : Prop := {
  ss_nodup : NoDup (node_ID <$> sorted);
  ss_order : topo_order (edges g) (node_ID <$> sorted);
  ss_nodes : forall n, n ∈ sorted -> nodes g !! node_ID n = Some n;
  ss_missing : forall id, is_Some (nodes g !! id) -> id ∉ node_ID <$> sorted ->
                 exists c, tc (edge_rel g) c c /\ rtc (edge_rel g) c id;
  ss_listed : forall id c, id ∈ node_ID <$> sorted -> rtc (edge_rel g) c id -> ~ tc (edge_rel g) c c;
  ss_cycle : hasCycle = true -> exists id, is_Some (nodes g !! id) /\ id ∉ node_ID <$> sorted;
  ss_all : hasCycle = false -> forall id, is_Some (nodes g !! id) -> id ∈ node_ID <$> sorted
}.

Lemma topo_order_listed g don id c :
  NoDup don -> topo_order (edges g) don -> id ∈ don -> rtc (edge_rel g) c id -> ~ tc (edge_rel g) c c.
Proof.
  intros Hnd Ho Hid Hr Hc. apply list_elem_of_lookup in Hid as [i Hi].
  assert (exists j, don !! j = Some c) as [j Hj].
  { apply rtc_tc in Hr as [->|Ht]; [eauto|].
    destruct (topo_order_tc g don c id i Ho Ht Hi) as (j & _ & ?). eauto. }
  destruct (topo_order_tc g don c c j Ho Hc Hj) as (k & Hk & Hk').
  pose proof (NoDup_lookup _ _ _ _ Hnd Hj Hk'). lia.
Qed.

Lemma TopologicalSort_wf g ord :
  graph_wf g -> range_order (inDegree g) ord ->
  exists (sorted : list Node) hasCycle,
    TopologicalSort ord g = Some (Some <$> sorted, hasCycle) /\ sort_spec g sorted hasCycle.
Proof.
  intros Hwf Hr. destruct (TopologicalSort_run g ord Hr) as (don & deg & -> & Hi).
  rewrite inDegree_dom_wf in Hi by done.
  pose proof Hi as [Hk Hnd Hd Ht Hz Ho]. rewrite app_nil_r in Hnd, Hz.
  assert (forall x, x ∈ don -> x ∈ dom (nodes g)) as Hsub.
  { intros x Hx. rewrite <- Hk, elem_of_dom. apply Hz in Hx. eauto. }
  destruct (lookup_nodes_sorted g don Hwf Hsub) as (ns & Heq & Hid & Hns).
  eexists ns, _. rewrite Heq. split; [done|]. split; rewrite ?Hid; try done.
  - intros id His%elem_of_dom Hn. by eapply kahn_leftover_cycle.
  - intros id c. by apply topo_order_listed.
  - rewrite negb_true_iff, Nat.eqb_neq. intros Hlen.
    destruct (decide (dom (nodes g) ∖ list_to_set don = ∅)) as [Hempty|Hne].
    + destruct Hlen. rewrite <- size_dom, <- (length_elements_size (dom (nodes g))).
      apply Permutation_length, NoDup_Permutation; [done|apply NoDup_elements|].
      intros x. rewrite elem_of_elements. split; [apply Hsub|].
      destruct (decide (x ∈ don)); [done|]. set_solver.
    + apply set_choose_L in Hne as [x Hx]. exists x. rewrite <- elem_of_dom. set_solver.
  - rewrite negb_false_iff, Nat.eqb_eq. intros Hlen id His%elem_of_dom.
    revert id His. apply NoDup_length_incl_elem; [done|done|]. by rewrite Hlen, <- size_dom.
Qed.

Lemma sort_spec_cycle g ns : sort_spec g ns true -> exists x, tc (edge_rel g) x x.
Proof.
  intros Hs. destruct (ss_cycle _ _ _ Hs eq_refl) as (id & H1 & H2).
  destruct (ss_missing _ _ _ Hs id H1 H2) as (c & Hc & _). eauto.
Qed.

Lemma sort_spec_acyclic g ns : graph_wf g -> sort_spec g ns false -> acyclic g.
Proof.
  intros Hwf Hs x Hx. destruct (tc_last _ _ _ Hx) as (y & Hy).
  apply (ss_listed _ _ _ Hs x x); [|done|done].
  apply (ss_all _ _ _ Hs eq_refl). by apply (wf_to g Hwf (mkEdge y x)).
Qed.

(** ** The level computation *)

Lemma relax_level_proj current es deg queue lm :
  exists lm', foldl (relax_level current) (deg, queue, lm) es
    = (foldl (relax current) (deg, queue) es, lm').
Proof.
  revert deg queue lm. induction es as [|e es IH]; intros deg queue lm; [by exists lm|].
  cbn [foldl relax_level relax]. case_bool_decide; apply IH.
Qed.

(** What [levelMap] satisfies when [don] has been popped. *)
Record level_inv (es : list Edge) (don queue : list UUID) (lm : gmap UUID Z) : Prop := {
  li_some : forall x, x ∈ don ++ queue -> is_Some (lm !! x);
  li_lt : forall x y, mkEdge x y ∈ es -> x ∈ don ->
            exists lx ly, lm !! x = Some lx /\ lm !! y = Some ly /\ lx < ly;
  li_tight : forall y l, lm !! y = Some l -> 0 <= l /\
            (l = 0 \/ exists x, x ∈ don /\ mkEdge x y ∈ es /\ lm !! x = Some (l - 1))
}.

Record level_scan (es : list Edge) (don : list UUID) (c : UUID) (lc : Z) (es1 : list Edge)
  (queue : list UUID) (lm : gmap UUID Z) : Prop := {
  ls_cur : lm !! c = Some lc;
  ls_some : forall x, x ∈ don ++ c :: queue -> is_Some (lm !! x);
  ls_lt : forall x y, mkEdge x y ∈ es -> x ∈ don ->
            exists lx ly, lm !! x = Some lx /\ lm !! y = Some ly /\ lx < ly;
  ls_done : forall y, mkEdge c y ∈ es1 -> exists ly, lm !! y = Some ly /\ lc < ly;
  ls_tight : forall y l, lm !! y = Some l -> 0 <= l /\
            (l = 0 \/ exists x, x ∈ don ++ [c] /\ mkEdge x y ∈ es /\ lm !! x = Some (l - 1))
}.

Lemma bump_level_ne lm t v x : x <> t -> bump_level lm t v !! x = lm !! x.
Proof. intros Hx. unfold bump_level. repeat case_match; by rewrite ?lookup_insert_ne by done. Qed.

Lemma bump_level_eq lm t v :
  exists lt, bump_level lm t v !! t = Some lt /\ v <= lt
    /\ (forall l0, lm !! t = Some l0 -> l0 <= lt) /\ (lm !! t = Some lt \/ lt = v).
Proof.
  unfold bump_level. destruct (lm !! t) as [l0|] eqn:E; [destruct (Z.ltb_spec l0 v)|].
  - exists v. rewrite lookup_insert_eq. split_and!; [done|lia| |by right].
    intros. simplify_eq. lia.
  - exists l0. split_and!; [done|lia| |by left]. intros. by simplify_eq.
  - exists v. rewrite lookup_insert_eq. split_and!; [done|lia|done|by right].
Qed.

Lemma level_scan_hit es don c lc es1 e queue lm b :
  edge_From e = c -> e ∈ es -> edge_To e ∉ don ++ [c] ->
  level_scan es don c lc es1 queue lm ->
  let childLevel := default 0 (lm !! c) + 1 in
  level_scan es don c lc (es1 ++ [e]) (if b : bool then queue ++ [edge_To e] else queue)
    (bump_level lm (edge_To e) childLevel).
Proof.
  destruct e as [a t]; cbn [edge_From edge_To]. intros -> He Ht [Hc Hs Hlt Hd Htg]. cbv zeta.
  rewrite Hc. change (default 0 (Some lc)) with lc. pose proof (Htg _ _ Hc) as [Hlc _].
  destruct (bump_level_eq lm t (lc + 1)) as (lt & Hlt1 & Hlt2 & Hlt3 & Hlt4).
  pose proof (bump_level_ne lm t (lc + 1)) as Hother.
  generalize dependent (bump_level lm t (lc + 1)). intros lm' Hlt1 Hother. split.
  - rewrite Hother by set_solver. done.
  - intros x Hx. destruct (decide (x = t)) as [->|Hne]; [eauto|].
    rewrite Hother by done. apply Hs. destruct b; set_solver.
  - intros x y Hxy Hx. destruct (Hlt x y Hxy Hx) as (lx & ly & H1 & H2 & H3).
    rewrite (Hother x) by set_solver. exists lx.
    destruct (decide (y = t)) as [->|Hne]; [|rewrite Hother by done; eauto].
    exists lt. specialize (Hlt3 _ H2). split_and!; [done|done|lia].
  - intros y [Hy|Hy]%elem_of_app.
    + destruct (Hd y Hy) as (ly & H1 & H2).
      destruct (decide (y = t)) as [->|Hne]; [eauto with lia|rewrite Hother by done; eauto].
    + apply list_elem_of_singleton in Hy. simplify_eq. eauto with lia.
  - intros y l. destruct (decide (y = t)) as [->|Hne].
    + rewrite Hlt1. intros [= <-]. destruct Hlt4 as [Hold| ->].
      * destruct (Htg _ _ Hold) as [Hl [?|(x & Hx & Hxy & Hl')]]; [naive_solver|].
        split; [done|]. right. exists x. rewrite Hother by set_solver. done.
      * split; [lia|]. right. exists c. rewrite Hother by set_solver.
        split_and!; [set_solver|done|]. rewrite Hc. f_equal. lia.
    + rewrite Hother by done. intros Hl.
      destruct (Htg _ _ Hl) as [Hl0 [?|(x & Hx & Hxy & Hl')]]; [naive_solver|].
      split; [done|]. right. exists x. rewrite Hother by set_solver. done.
Qed.

Lemma level_scan_edges es don c lc es1 es2 deg queue lm :
  (forall e, e ∈ es2 -> e ∈ es) ->
  (forall e, e ∈ es2 -> edge_From e = c -> edge_To e ∉ don ++ [c]) ->
  level_scan es don c lc es1 queue lm ->
  let '(deg', queue', lm') := foldl (relax_level c) (deg, queue, lm) es2 in
  level_scan es don c lc (es1 ++ es2) queue' lm'.
Proof.
  revert es1 deg queue lm. induction es2 as [|e es2 IH]; intros es1 deg queue lm Hin Ht Hi.
  { simpl. by rewrite app_nil_r. }
  replace (es1 ++ e :: es2) with ((es1 ++ [e]) ++ es2) by (by rewrite <- app_assoc).
  cbn [foldl relax_level]. case_bool_decide as Hc.
  - apply IH; [set_solver|set_solver|].
    apply level_scan_hit; [done|set_solver| |done]. apply Ht; [left|done].
  - apply IH; [set_solver|set_solver|].
    destruct Hi as [H1 H2 H3 H4 H5]. split; [done|done|done| |done].
    intros y [Hy|Hy]%elem_of_app; [auto|].
    apply list_elem_of_singleton in Hy. by destruct Hc; subst.
Qed.

Lemma level_inv_step es K deg don c queue lm :
  kahn_inv es K deg don (c :: queue) ->
  level_inv es don (c :: queue) lm ->
  let '(deg', queue', lm') := foldl (relax_level c) (deg, queue, lm) es in
  kahn_inv es K deg' (don ++ [c]) queue' /\ level_inv es (don ++ [c]) queue' lm'.
Proof.
  intros Hk [Hs Hlt Htg]. pose proof (kahn_inv_step _ _ _ _ _ _ Hk) as Hk'.
  destruct (relax_level_proj c es deg queue lm) as [lm' Hproj].
  destruct (Hs c) as [lc Hc]; [set_solver|].
  pose proof (level_scan_edges es don c lc [] es deg queue lm) as Hscan.
  destruct (foldl (relax c) (deg, queue) es) as [deg' queue'].
  rewrite Hproj in *. split; [done|].
  assert (c ∉ don) as Hcd by (destruct Hk as [_ Hnd _ _ _ _]; apply NoDup_app in Hnd; set_solver).
  destruct Hscan as [H1 H2 H3 H4 H5].
  - done.
  - intros [a b] He <- Hin. apply Hcd. destruct Hk' as [_ _ _ _ _ Ho]. simpl in *.
    apply list_elem_of_split in Hin as (l1 & l2 & Heq).
    pose proof (Ho l1 b l2 Heq a He) as Ha.
    destruct l2 as [|w l2 _] using rev_ind.
    + apply app_inj_tail in Heq as [-> ->]. done.
    + rewrite app_comm_cons, app_assoc in Heq. apply app_inj_tail in Heq as [-> ->]. set_solver.
  - split; [done|done|done| |].
    + intros y. set_solver.
    + intros y l Hl. destruct (Htg y l Hl) as [? [?|(x & ? & ? & ?)]]; [naive_solver|].
      split; [done|]. right. exists x. set_solver.
  - split.
    + intros x. rewrite <- app_assoc. apply H2.
    + intros x y Hxy [Hx|Hx%list_elem_of_singleton]%elem_of_app; [auto|subst].
      destruct (H4 y Hxy) as (ly & ? & ?). eauto.
    + done.
Qed.

Lemma level_loop_inv g fuel K deg don queue lm :
  kahn_inv (edges g) K deg don queue -> level_inv (edges g) don queue lm ->
  (size K <= fuel + length don)%nat ->
  exists don' deg' lm',
    level_loop fuel g deg queue lm = Some lm'
    /\ kahn_inv (edges g) K deg' don' [] /\ level_inv (edges g) don' [] lm'.
Proof.
  revert deg don queue lm. induction fuel as [|fuel IH]; intros deg don queue lm Hk Hl Hf.
  - destruct queue as [|c q]; [by exists don, deg, lm|].
    apply kahn_inv_bound in Hk. simpl in *. lia.
  - destruct queue as [|c q]; [by exists don, deg, lm|]. cbn [level_loop].
    pose proof (level_inv_step _ _ _ _ _ _ _ Hk Hl) as Hst.
    destruct (foldl _ _ _) as [[deg1 q1] lm1]. destruct Hst as [Hk1 Hl1].
    apply (IH _ _ _ _ Hk1 Hl1). rewrite length_app. simpl. lia.
Qed.

Lemma level_init_lookup (ids : list UUID) (m : gmap UUID Z) x :
  foldl (fun m id => <[id := 0]> m) m ids !! x = if decide (x ∈ ids) then Some 0 else m !! x.
Proof.
  revert m. induction ids as [|i ids IH]; intros m; csimpl; [done|].
  rewrite IH, lookup_insert. repeat case_decide; set_solver.
Qed.

Lemma level_inv_init g ord :
  level_inv (edges g) [] (initial_queue (inDegree g) ord)
    (foldl (fun m id => <[id := 0]> m) ∅ (initial_queue (inDegree g) ord)).
Proof.
  split.
  - intros x Hx. rewrite level_init_lookup, decide_True by done. eauto.
  - set_solver.
  - intros y l. rewrite level_init_lookup, lookup_empty.
    case_decide; intros [= <-]. split; [done|by left].
Qed.

(** ** Levels are longest paths *)

(** [longest_path_to g id l]: the longest path of edges that ends in [id] has [l] edges. *)
Definition longest_path_to (g : Graph) (id : UUID) (l : nat) : Prop :=
  (exists x, nsteps (edge_rel g) l x id)
  /\ forall k x, nsteps (edge_rel g) k x id -> (k <= l)%nat.

Lemma level_inv_path g don lm y l :
  level_inv (edges g) don [] lm -> lm !! y = Some l ->
  exists x, nsteps (edge_rel g) (Z.to_nat l) x y.
Proof.
  intros [_ _ Htg]. intros Hy. destruct (Htg _ _ Hy) as [Hl _].
  rewrite <- (Z2Nat.id l Hl) in Hy. clear Hl. revert y Hy.
  induction (Z.to_nat l) as [|n IH]; intros y Hy.
  - exists y. constructor.
  - destruct (Htg _ _ Hy) as [_ [?|(x & _ & Hxy & Hx)]]; [lia|].
    destruct (IH x) as [w Hw]; [rewrite Hx; f_equal; lia|].
    exists w. eapply nsteps_r; eauto.
Qed.

Lemma level_inv_upper g don lm k x y l :
  level_inv (edges g) don [] lm -> (forall e, e ∈ edges g -> edge_From e ∈ don) ->
  nsteps (edge_rel g) k x y -> lm !! y = Some l -> Z.of_nat k <= l.
Proof.
  intros [_ Hlt Htg] Hall. revert y l. induction k as [|k IH]; intros y l Hk Hy.
  - destruct (Htg _ _ Hy). lia.
  - apply nsteps_inv_r in Hk as (z & Hz & Hzy).
    destruct (Hlt z y Hzy) as (lz & ly & H1 & H2 & H3); [by apply (Hall (mkEdge z y))|].
    simplify_eq. specialize (IH _ _ Hz H1). lia.
Qed.

Lemma max_fold_spec (ls : list Z) m :
  let r := foldl (fun maxLevel l => if maxLevel <? l then l else maxLevel) m ls in
  m <= r /\ (forall l, l ∈ ls -> l <= r) /\ (r = m \/ r ∈ ls).
Proof.
  revert m. induction ls as [|l ls IH]; intros m; cbv zeta.
  { simpl. split_and!; [lia|set_solver|by left]. }
  cbn [foldl]. destruct (IH (if m <? l then l else m)) as (H1 & H2 & H3).
  destruct (Z.ltb_spec m l).
  - split_and!; [lia| |set_solver]. intros k [->|Hk]%elem_of_cons; [lia|auto].
  - split_and!; [lia| |set_solver]. intros k [->|Hk]%elem_of_cons; [lia|auto].
Qed.

Lemma max_level_spec lm :
  0 <= max_level lm /\ (forall x l, lm !! x = Some l -> l <= max_level lm)
  /\ (max_level lm = 0 \/ exists x, lm !! x = Some (max_level lm)).
Proof.
  unfold max_level. destruct (max_fold_spec (values lm) 0) as (H1 & H2 & H3).
  split_and!; [done| |].
  - intros x l Hx. apply H2, list_elem_of_fmap. exists (x, l). split; [done|].
    by apply elem_of_map_to_list.
  - destruct H3 as [?|H3]; [by left|right].
    apply list_elem_of_fmap in H3 as ([x l] & -> & Hx). exists x.
    by apply elem_of_map_to_list in Hx.
Qed.

Lemma concat_push (levels : list (list Node)) i l n :
  levels !! i = Some l -> concat (<[i := l ++ [n]]> levels) ≡ₚ n :: concat levels.
Proof.
  revert i. induction levels as [|l0 levels IH]; intros [|i] Hi; simplify_eq/=.
  - solve_Permutation.
  - rewrite (IH i Hi). solve_Permutation.
Qed.

Definition node_level (lm : gmap UUID Z) (n : Node) : Z := default 0 (lm !! node_ID n).

Lemma fill_levels_spec lm ns levels :
  (forall n, n ∈ ns -> 0 <= node_level lm n < Z.of_nat (length levels)) ->
  exists levels', fill_levels lm (Some <$> ns) levels = Some levels'
    /\ length levels' = length levels
    /\ concat levels' ≡ₚ concat levels ++ ns
    /\ forall i l', levels' !! i = Some l' -> exists l, levels !! i = Some l /\
         forall n, n ∈ l' -> n ∈ l \/ (n ∈ ns /\ node_level lm n = Z.of_nat i).
Proof.
  revert levels. induction ns as [|n ns IH]; intros levels Hr.
  { exists levels. csimpl. rewrite app_nil_r. split_and!; [done|done|done|].
    intros i l' Hl. exists l'. auto. }
  csimpl. unfold push_level. fold (node_level lm n).
  destruct (Hr n) as [H0 H1]; [left|].
  destruct (Z.ltb_spec (node_level lm n) 0); [lia|].
  destruct (lookup_lt_is_Some_2 levels (Z.to_nat (node_level lm n))) as [l Hl]; [lia|].
  rewrite Hl. destruct (IH (<[Z.to_nat (node_level lm n) := l ++ [n]]> levels))
    as (levels' & -> & Hlen & Hperm & Hlev).
  { intros m Hm. rewrite length_insert. apply Hr. by right. }
  exists levels'. rewrite length_insert in Hlen. split_and!; [done|done| |].
  - rewrite Hperm, concat_push by done. solve_Permutation.
  - intros i l' Hl'. destruct (Hlev i l' Hl') as (k & Hk & Hin).
    rewrite list_lookup_insert_Some in Hk. destruct Hk as [(<- & <- & _)|[_ Hk]].
    + exists l. split; [done|]. intros m Hm. destruct (Hin m Hm) as [Hml|[? ?]].
      * apply elem_of_app in Hml as [?| ->%list_elem_of_singleton]; [by left|].
        right. split; [left|lia].
      * right. split; [by right|done].
    + exists k. split; [done|]. intros m Hm. destruct (Hin m Hm) as [?|[? ?]]; [by left|].
      right. split; [by right|done].
Qed.

Lemma concat_replicate_nil {A} n : concat (replicate n (@nil A)) = [].
Proof. induction n; simpl; auto. Qed.

(** The level table that the second run computes for an acyclic graph. *)
Lemma level_table_wf g ord :
  graph_wf g -> acyclic g -> range_order (inDegree g) ord ->
  exists lm don,
    level_loop (kahn_fuel g) g (inDegree g) (initial_queue (inDegree g) ord)
      (foldl (fun m id => <[id := 0]> m) ∅ (initial_queue (inDegree g) ord)) = Some lm
    /\ level_inv (edges g) don [] lm
    /\ forall id, is_Some (nodes g !! id) -> id ∈ don.
Proof.
  intros Hwf Hac Hr.
  destruct (level_loop_inv g (kahn_fuel g) _ _ _ _ _ (kahn_inv_init g ord Hr) (level_inv_init g ord))
    as (don & deg & lm & Hl & Hk & Hli).
  { pose proof (inDegree_size g). simpl. lia. }
  exists lm, don. split_and!; [done|done|]. intros id Hid.
  destruct (decide (id ∈ don)) as [|Hn]; [done|exfalso].
  rewrite inDegree_dom_wf in Hk by done.
  apply elem_of_dom in Hid.
  destruct (kahn_leftover_cycle g Hwf deg don id Hk Hid Hn) as (x & Hx & _). by apply (Hac x).
Qed.

Lemma level_longest g don lm id l :
  graph_wf g -> level_inv (edges g) don [] lm ->
  (forall id, is_Some (nodes g !! id) -> id ∈ don) ->
  lm !! id = Some l -> longest_path_to g id (Z.to_nat l).
Proof.
  intros Hwf Hli Hall Hl. split; [by eapply level_inv_path|].
  intros k x Hk. apply (level_inv_upper g don lm k x id l Hli) in Hk; [lia| |done].
  intros e He. by apply Hall, (wf_from g Hwf).
Qed.

(** [graph_depth g d]: the longest path of the graph has [d] edges. *)
Definition graph_depth (g : Graph) (d : nat) : Prop :=
  (exists x y, nsteps (edge_rel g) d x y)
  /\ forall k x y, nsteps (edge_rel g) k x y -> (k <= d)%nat.

Lemma level_depth g don lm :
  graph_wf g -> level_inv (edges g) don [] lm ->
  (forall id, is_Some (nodes g !! id) -> id ∈ don) -> graph_depth g (Z.to_nat (max_level lm)).
Proof.
  intros Hwf Hli Hall. destruct (max_level_spec lm) as (H0 & Hle & Hmax). split.
  - destruct Hmax as [->|[y Hy]]; [exists 0%N, 0%N; constructor|].
    destruct (level_inv_path g don lm y _ Hli Hy) as [x Hx]. eauto.
  - intros [|k] x y Hk; [lia|].
    apply nsteps_inv_r in Hk as Hk'. destruct Hk' as (z & _ & Hzy).
    destruct (li_some _ _ _ _ Hli y) as [l Hl].
    { rewrite app_nil_r. apply Hall, (wf_to g Hwf _ Hzy). }
    destruct (level_longest g don lm y l Hwf Hli Hall Hl) as [_ Hup].
    specialize (Hup _ _ Hk). specialize (Hle _ _ Hl).
    destruct (li_tight _ _ _ _ Hli _ _ Hl). lia.
Qed.

Lemma sorted_values g (ns : list Node) :
  graph_wf g -> NoDup (node_ID <$> ns) ->
  (forall n, n ∈ ns -> nodes g !! node_ID n = Some n) ->
  (forall id, is_Some (nodes g !! id) -> id ∈ node_ID <$> ns) -> ns ≡ₚ values (nodes g).
Proof.
  intros Hwf Hnd Hin Hall. apply NoDup_Permutation.
  - by eapply NoDup_fmap_1.
  - unfold values. apply NoDup_fmap_2_strong; [|apply NoDup_map_to_list].
    intros [i n] [j m] Hi%elem_of_map_to_list Hj%elem_of_map_to_list ?; simpl in *; subst.
    f_equal. rewrite <- (wf_ids g Hwf _ _ Hi). by apply (wf_ids g Hwf).
  - intros n. split.
    + intros Hn%Hin. by apply (wf_elem_node g Hwf) in Hn as [? _].
    + intros Hn. assert (nodes g !! node_ID n = Some n) as Hl by (by apply wf_elem_node).
      assert (node_ID n ∈ node_ID <$> ns) as Hid by (apply Hall; eauto).
      apply list_elem_of_fmap in Hid as (m & Hm & Hmn). pose proof (Hin m Hmn). congruence.
Qed.

Lemma Levels_wf g ord1 ord2 :
  graph_wf g -> range_order (inDegree g) ord1 -> range_order (inDegree g) ord2 ->
  (acyclic g /\ exists levels d, Levels ord1 ord2 g = Some (Ok levels)
     /\ concat levels ≡ₚ values (nodes g)
     /\ (forall i l n, levels !! i = Some l -> n ∈ l -> longest_path_to g (node_ID n) i)
     /\ graph_depth g d /\ length levels = S d)
  \/ ((exists x, tc (edge_rel g) x x) /\ Levels ord1 ord2 g = Some (Err ErrGraphCycle)).
Proof.
  intros Hwf H1 H2. unfold Levels.
  destruct (TopologicalSort_wf g ord1 Hwf H1) as (ns & b & -> & Hss).
  destruct b; [right; split; [by eapply sort_spec_cycle|done]|left].
  pose proof (sort_spec_acyclic g ns Hwf Hss) as Hac. split; [done|].
  destruct Hss as [Hnd _ Hns _ _ _ Hall]. specialize (Hall eq_refl).
  destruct (level_table_wf g ord2 Hwf Hac H2) as (lm & don & -> & Hli & Hdon).
  destruct (max_level_spec lm) as (Hm0 & Hmle & _).
  assert (forall n, n ∈ ns -> exists l, lm !! node_ID n = Some l /\ node_level lm n = l) as Hlev.
  { intros n Hn. destruct (li_some _ _ _ _ Hli (node_ID n)) as [l Hl].
    - rewrite app_nil_r. apply Hdon. eauto.
    - exists l. unfold node_level. by rewrite Hl. }
  destruct (fill_levels_spec lm ns (replicate (Z.to_nat (max_level lm + 1)) []))
    as (levels & -> & Hlen & Hperm & Hin).
  { intros n Hn. destruct (Hlev n Hn) as (l & Hl & ->). rewrite length_replicate.
    specialize (Hmle _ _ Hl). destruct (li_tight _ _ _ _ Hli _ _ Hl). lia. }
  rewrite length_replicate in Hlen. rewrite concat_replicate_nil in Hperm.
  exists levels, (Z.to_nat (max_level lm)). split_and!; [done| | | |lia].
  - rewrite Hperm. by apply sorted_values.
  - intros i l n Hi Hn. destruct (Hin i l Hi) as (l0 & [-> _]%lookup_replicate & Hor).
    destruct (Hor n Hn) as [?|[Hn' Hi']]; [set_solver|].
    destruct (Hlev n Hn') as (k & Hk & Hk'). replace i with (Z.to_nat k) by lia.
    by eapply level_longest.
  - by eapply level_depth.
Qed.

Lemma remove_first_edge_snoc from to es :
  existsb (edge_is from to) es = false ->
  remove_first_edge from to (es ++ [mkEdge from to]) = Some es.
Proof.
  induction es as [|e es IH]; simpl.
  - intros _. assert (edge_is from to (mkEdge from to) = true) as -> by (by apply edge_is_true). done.
  - rewrite orb_false_iff. intros [-> He]. by rewrite (IH He).
Qed.

Lemma graph_ops_fold_inv g ops : graph_inv g -> graph_inv (foldl apply_graph_op g ops).
Proof. revert g. induction ops as [|op ops IH]; simpl; auto using apply_graph_op_inv. Qed.

(** A diamond with a tail, built through the methods. *)
Definition diamond : Graph :=
  foldl apply_graph_op NewGraph
    [OpAddNodeWithID 1 "extract"; OpAddNodeWithID 2 "clean"; OpAddNodeWithID 3 "enrich";
     OpAddNode 4 "merge"; OpAddNode 5 "load"; OpAddEdge 1 2; OpAddEdge 1 3; OpAddEdge 2 4;
     OpAddEdge 3 4; OpAddEdge 4 5; OpAddEdge 1 4].

Lemma diamond_wf : graph_wf diamond.
Proof. apply inv_wf, graph_ops_fold_inv, NewGraph_inv. Qed.

(** One of the orders in which the runtime may list the in-degree table. *)
Lemma diamond_order : range_order (inDegree diamond) [3; 1; 4; 5; 2]%N.
Proof. unfold range_order. apply (bool_decide_unpack _). vm_compute. exact I. Qed.

Lemma diamond_acyclic : acyclic diamond.
Proof.
  destruct (TopologicalSort_wf diamond _ diamond_wf diamond_order) as (ns & b & Hs & Hss).
  assert (b = false) as -> by (vm_compute in Hs; by simplify_eq).
  apply (sort_spec_acyclic _ ns diamond_wf Hss).
Qed.

Example diamond_sorted :
  match TopologicalSort [3; 1; 4; 5; 2]%N diamond with
  | Some (sorted, hasCycle) =>
      map (option_map node_Name) sorted
        = [Some "extract"; Some "clean"; Some "enrich"; Some "merge"; Some "load"]
      /\ hasCycle = false
  | None => False
  end.
Proof. vm_compute. done. Qed.

Example diamond_levels :
  match Levels [3; 1; 4; 5; 2]%N [1; 2; 3; 4; 5]%N diamond with
  | Some (Ok levels) => map (map node_Name) levels = [["extract"]; ["clean"; "enrich"]; ["merge"]; ["load"]]
  | _ => False
  end.
Proof. vm_compute. reflexivity. Qed.

(** ** Properties *)

(** C19: every graph obtained from [NewGraph] by any sequence of the mutators is
    well formed: nodes are filed under their own identifiers, edges join existing
    nodes and no edge occurs twice. *)
Theorem graph_ops_inv (ops : list graph_op) : graph_inv (foldl apply_graph_op NewGraph ops).
Proof. apply graph_ops_fold_inv, NewGraph_inv. Qed.

(** C1: on a well-formed graph, and whatever the map iteration order, [HasCycle]
    terminates and answers true exactly when some node reaches itself. *)
Theorem HasCycle_correct (g : Graph) (ord : list UUID)
  (Hwf : graph_wf g) (Hord : range_order (inDegree g) ord) :
  exists b, HasCycle ord g = Some b /\ (b = true <-> exists x, tc (edge_rel g) x x).
Proof.
  destruct (TopologicalSort_wf g ord Hwf Hord) as (ns & b & Hs & Hss).
  exists b. unfold HasCycle. rewrite Hs. split; [done|]. split.
  - intros ->. by eapply sort_spec_cycle.
  - intros [x Hx]. destruct b; [done|]. by destruct (sort_spec_acyclic g ns Hwf Hss x).
Qed.

Lemma HasCycle_correct_witness :
  exists b, HasCycle [3; 1; 4; 5; 2]%N diamond = Some b
    /\ (b = true <-> exists x, tc (edge_rel diamond) x x).
Proof.
  apply (HasCycle_correct diamond [3; 1; 4; 5; 2]%N diamond_wf diamond_order).
Defined.

(** C2: on a well-formed acyclic graph [TopologicalSort] returns every node exactly
    once, reports no cycle, and lists the source of each edge before its target. *)
Theorem TopologicalSort_correct (g : Graph) (ord : list UUID)
  (Hwf : graph_wf g) (Hac : acyclic g) (Hord : range_order (inDegree g) ord) :
  exists sorted : list Node,
    TopologicalSort ord g = Some (Some <$> sorted, false)
    /\ sorted ≡ₚ values (nodes g)
    /\ forall l1 n l2 y, sorted = l1 ++ n :: l2 -> mkEdge y (node_ID n) ∈ edges g ->
         y ∈ node_ID <$> l1.
Proof.
  destruct (TopologicalSort_wf g ord Hwf Hord) as (ns & b & Hs & Hss).
  destruct b; [destruct (sort_spec_cycle _ _ Hss) as [x Hx]; by destruct (Hac x)|].
  destruct Hss as [Hnd Ho Hns _ _ _ Hall].
  exists ns. split_and!; [done|by apply sorted_values; auto|].
  intros l1 n l2 y -> Hy. eapply Ho; [|done]. by rewrite fmap_app.
Qed.

Lemma TopologicalSort_correct_witness :
  exists sorted : list Node,
    TopologicalSort [3; 1; 4; 5; 2]%N diamond = Some (Some <$> sorted, false)
    /\ sorted ≡ₚ values (nodes diamond)
    /\ forall l1 n l2 y, sorted = l1 ++ n :: l2 -> mkEdge y (node_ID n) ∈ edges diamond ->
         y ∈ node_ID <$> l1.
Proof.
  apply (TopologicalSort_correct diamond [3; 1; 4; 5; 2]%N diamond_wf diamond_acyclic diamond_order).
Defined.

(** C3: on a well-formed graph [Levels] never panics and never runs out of fuel:
    with a cycle it returns the cycle error; otherwise it partitions the nodes so
    that level [i] holds exactly the nodes whose longest incoming path has [i]
    edges, and the number of levels is one more than the depth of the graph. *)
Theorem Levels_correct (g : Graph) (ord1 ord2 : list UUID)
  (Hwf : graph_wf g) (H1 : range_order (inDegree g) ord1) (H2 : range_order (inDegree g) ord2) :
  (acyclic g /\ exists levels d, Levels ord1 ord2 g = Some (Ok levels)
     /\ concat levels ≡ₚ values (nodes g)
     /\ (forall i l n, levels !! i = Some l -> n ∈ l -> longest_path_to g (node_ID n) i)
     /\ graph_depth g d /\ length levels = S d)
  \/ ((exists x, tc (edge_rel g) x x) /\ Levels ord1 ord2 g = Some (Err ErrGraphCycle)).
Proof. by apply Levels_wf. Qed.

Lemma Levels_correct_witness :
  (acyclic diamond /\ exists levels d, Levels [3; 1; 4; 5; 2]%N [3; 1; 4; 5; 2]%N diamond = Some (Ok levels)
     /\ concat levels ≡ₚ values (nodes diamond)
     /\ (forall i l n, levels !! i = Some l -> n ∈ l -> longest_path_to diamond (node_ID n) i)
     /\ graph_depth diamond d /\ length levels = S d)
  \/ ((exists x, tc (edge_rel diamond) x x)
      /\ Levels [3; 1; 4; 5; 2]%N [3; 1; 4; 5; 2]%N diamond = Some (Err ErrGraphCycle)).
Proof.
  apply (Levels_correct diamond _ _ diamond_wf diamond_order diamond_order).
Defined.

(** An edge that [AddEdge] accepts is removed by [RemoveEdge], which restores
    the graph exactly. *)
Lemma AddEdge_RemoveEdge (g g' : Graph) (from to : UUID)
  (Hadd : AddEdge g from to = (g', None)) : RemoveEdge g' from to = (g, true).
Proof.
  unfold AddEdge in Hadd. repeat case_match; simplify_eq.
  unfold RemoveEdge. simpl. rewrite remove_first_edge_snoc by done. by destruct g.
Qed.
