(* ===== verification/DagValidator.v ===== *)
(** * The graph validator: internal/dag/validator.go

    [ValidateDAG] runs four checks and concatenates their reports;
    [ValidateNodeAddition] and [ValidateEdgeAddition] check one change.  Messages
    are kept as the arguments of their format strings.  The loops over maps take
    their orders from a supply [rng]; [rng i] is the order of the [i]-th loop. *)

From S2P Require Import Prelude DagGraph.

#[local] Open Scope go_scope.

(** ** Data *)

Inductive ValidationMessage : Type :=
| MsgCycle (names : list string)
| MsgOrphan (name : string)
| MsgMissingSource (id : UUID)
| MsgMissingTarget (id : UUID)
| MsgLevels (err : GraphError)
| MsgDepth (depth maxDepth : Z)
| MsgDependency (id : UUID)
| MsgDuplicateName (name : string)
| MsgSourceNotFound (id : UUID)
| MsgTargetNotFound (id : UUID)
| MsgEdgeCycle (fromName toName : string).

(* go: internal/dag/validator.go type ValidationError *)
Record ValidationError := mkValidationError {
  ve_Type : string;
  ve_Message : ValidationMessage;
  ve_NodeID : UUID;
  ve_NodeIDs : list UUID
}.

(* go: internal/dag/validator.go type ValidationResult *)
Record ValidationResult := mkValidationResult {
  vr_Valid : bool;
  vr_Errors : list ValidationError
}.

(** [text] renders a message with its format string. *)
(* go: internal/dag/validator.go func ValidationError.Error *)
Definition ValidationError_Error (text : ValidationMessage -> string) (e : ValidationError) : string :=
  ("[" +:+ ve_Type e +:+ "] " +:+ text (ve_Message e))%string.

(* go: internal/dag/validator.go func ValidationResult.Error *)
Definition ValidationResult_Error (text : ValidationMessage -> string) (r : ValidationResult) : string :=
  if vr_Valid r then EmptyString
  else ("DAG validation failed (" +:+ itoa (Z.of_nat (length (vr_Errors r))) +:+ " errors):" +:+ newline
          +:+ strings_Join (ValidationError_Error text <$> vr_Errors r) newline)%string.

(* go: internal/dag/validator.go type Validator *)
Record Validator := mkValidator { maxDepth : Z }.

(* go: internal/dag/validator.go func NewValidator *)
Definition NewValidator : Validator := mkValidator 100.

(* go: internal/dag/validator.go func NewValidatorWithMaxDepth *)
Definition NewValidatorWithMaxDepth (d : Z) : Validator := mkValidator (if d <? 1 then 1 else d).

(** The result built at the end of each entry point. *)
Definition result_of (errors : list ValidationError) : ValidationResult :=
  mkValidationResult (Nat.eqb (length errors) 0) errors.

(** ** The checks of [ValidateDAG] *)

(** [delete(inCycle, n.ID)] for the sorted nodes; a nil node panics. *)
(* go: internal/dag/validator.go @87-89 Validator.validateCycles *)
Fixpoint delete_sorted (inCycle : gset UUID) (sorted : list (option Node)) : option (gset UUID) :=
  match sorted with
  | [] => Some inCycle
  | None :: _ => None
  | Some n :: sorted' => delete_sorted (inCycle ∖ {[node_ID n]}) sorted'
  end.

(** The loop over [inCycle] lists the remaining keys in some order: the order in
    which they occur in [rng 2]. *)
(* go: internal/dag/validator.go func Validator.validateCycles *)
Definition validateCycles (rng : nat -> list UUID) (graph : Graph) : outcome (list ValidationError) :=
  match TopologicalSort (rng 0%nat) graph with
  | None => NoFuel
  | Some (_, false) => Returns []
  | Some (sorted, true) =>
      let inCycle : gset UUID := list_to_set (node_ID <$> Nodes (rng 1%nat) graph) in
      match delete_sorted inCycle sorted with
      | None => Panics
      | Some inCycle' =>
          let cycleNodeIDs := List.filter (fun id => bool_decide (id ∈ inCycle')) (rng 2%nat) in
          let cycleNames := omap (fun id => node_Name <$> graph_Node graph id) cycleNodeIDs in
          Returns [mkValidationError "CYCLE_DETECTED" (MsgCycle cycleNames) uuid_Nil cycleNodeIDs]
      end
  end.

(* go: internal/dag/validator.go func Validator.validateOrphanNodes *)
Definition validateOrphanNodes (rng : nat -> list UUID) (graph : Graph) : list ValidationError :=
  omap (fun n =>
          let parents := Parents graph (node_ID n) in
          let children := Children graph (node_ID n) in
          if (Nat.eqb (length parents) 0) && (Nat.eqb (length children) 0)
          then Some (mkValidationError "ORPHAN_NODE" (MsgOrphan (node_Name n)) (node_ID n) [])
          else None)
       (Nodes (rng 3%nat) graph).

(* go: internal/dag/validator.go func Validator.validateDependencies *)
Definition validateDependencies (graph : Graph) : list ValidationError :=
  flat_map (fun e =>
    (match graph_Node graph (edge_From e) with
     | None => [mkValidationError "MISSING_DEPENDENCY" (MsgMissingSource (edge_From e)) (edge_From e) []]
     | Some _ => []
     end) ++
    (match graph_Node graph (edge_To e) with
     | None => [mkValidationError "MISSING_DEPENDENCY" (MsgMissingTarget (edge_To e)) (edge_To e) []]
     | Some _ => []
     end)) (Edges graph).

(* go: internal/dag/validator.go func Validator.validateMaxDepth *)
Definition validateMaxDepth (v : Validator) (rng : nat -> list UUID) (graph : Graph)
  : outcome (list ValidationError) :=
  match Levels (rng 4%nat) (rng 5%nat) graph with
  | None => NoFuel
  | Some Panic => Panics
  | Some (Err err) =>
      Returns [mkValidationError "DEPTH_VALIDATION_FAILED" (MsgLevels err) uuid_Nil []]
  | Some (Ok levels) =>
      if maxDepth v <? Z.of_nat (length levels)
      then Returns [mkValidationError "MAX_DEPTH_EXCEEDED"
                      (MsgDepth (Z.of_nat (length levels)) (maxDepth v)) uuid_Nil []]
      else Returns []
  end.

(* go: internal/dag/validator.go func Validator.ValidateDAG *)
Definition ValidateDAG (v : Validator) (rng : nat -> list UUID) (graph : Graph)
  : outcome ValidationResult :=
  cycleErrors <~ validateCycles rng graph ;;
  let orphanErrors := validateOrphanNodes rng graph in
  let depErrors := validateDependencies graph in
  depthErrors <~ validateMaxDepth v rng graph ;;
  Returns (result_of (cycleErrors ++ orphanErrors ++ depErrors ++ depthErrors)).

(** ** Checking one change *)

(* go: internal/dag/validator.go func Validator.ValidateNodeAddition *)
Definition ValidateNodeAddition (ord : list UUID) (graph : Graph) (name : string)
  (dependsOn : list UUID) : ValidationResult :=
  let missing := omap (fun depID =>
        match graph_Node graph depID with
        | None => Some (mkValidationError "DEPENDENCY_NOT_FOUND" (MsgDependency depID) depID [])
        | Some _ => None
        end) dependsOn in
  let duplicate :=
    match List.find (fun n => bool_decide (node_Name n = name)) (Nodes ord graph) with
    | Some n => [mkValidationError "DUPLICATE_NODE_NAME" (MsgDuplicateName name) (node_ID n) []]
    | None => []
    end in
  result_of (missing ++ duplicate).

(** The copy of the graph on which the new edge is tried. *)
(* go: internal/dag/validator.go @229-234 Validator.ValidateEdgeAddition *)
Definition testGraph (ord : list UUID) (graph : Graph) (from to : UUID) : Graph :=
  mkGraph (foldl (fun m n => <[node_ID n := n]> m) (nodes NewGraph) (Nodes ord graph))
          ((edges NewGraph ++ edges graph) ++ [mkEdge from to]).

(* go: internal/dag/validator.go func Validator.ValidateEdgeAddition *)
Definition ValidateEdgeAddition (rng : nat -> list UUID) (graph : Graph) (from to : UUID)
  : outcome ValidationResult :=
  let errors :=
    (match graph_Node graph from with
     | None => [mkValidationError "SOURCE_NOT_FOUND" (MsgSourceNotFound from) from []]
     | Some _ => []
     end) ++
    (match graph_Node graph to with
     | None => [mkValidationError "TARGET_NOT_FOUND" (MsgTargetNotFound to) to []]
     | Some _ => []
     end) in
  match errors with
  | _ :: _ => Returns (mkValidationResult false errors)
  | [] =>
      match HasCycle (rng 1%nat) (testGraph (rng 0%nat) graph from to) with
      | None => NoFuel
      | Some true =>
          let nameOf id := match graph_Node graph id with Some n => node_Name n | None => "unknown" end in
          Returns (result_of [mkValidationError "EDGE_CREATES_CYCLE"
                                (MsgEdgeCycle (nameOf from) (nameOf to)) uuid_Nil []])
      | Some false => Returns (result_of [])
      end
  end.

(** ** What each check reports on a well-formed graph *)

Section wf.
Context (g : Graph) (Hwf : graph_wf g).

Lemma range_order_inDegree ord : range_order (nodes g) ord -> range_order (inDegree g) ord.
Proof using Hwf. apply range_order_dom. symmetry. by apply inDegree_dom_wf. Qed.

Lemma elem_of_Nodes ord n :
  range_order (nodes g) ord -> n ∈ Nodes ord g <-> nodes g !! node_ID n = Some n.
Proof using Hwf.
  intros Hr. unfold Nodes. rewrite list_elem_of_omap. split.
  - intros (id & _ & Hid). by rewrite (wf_ids g Hwf _ _ Hid).
  - intros Hn. exists (node_ID n). split; [|done]. apply (range_order_elem _ _ _ Hr). eauto.
Qed.

Lemma elem_of_Nodes_ID ord id :
  range_order (nodes g) ord -> id ∈ node_ID <$> Nodes ord g <-> is_Some (nodes g !! id).
Proof using Hwf.
  intros Hr. rewrite list_elem_of_fmap. split.
  - intros (n & -> & Hn%elem_of_Nodes); eauto.
  - intros [n Hn]. pose proof (wf_ids g Hwf _ _ Hn) as <-. exists n. split; [done|].
    by apply elem_of_Nodes.
Qed.

Lemma delete_sorted_spec X (ns : list Node) :
  delete_sorted X (Some <$> ns) = Some (X ∖ list_to_set (node_ID <$> ns)).
Proof.
  revert X. induction ns as [|n ns IH]; intros X; csimpl; [f_equal; set_solver|].
  rewrite IH. f_equal. set_solver.
Qed.

(** [id] is reached from a cycle of the graph. *)
Definition reached_by_cycle (id : UUID) : Prop :=
  is_Some (nodes g !! id) /\ exists c, tc (edge_rel g) c c /\ rtc (edge_rel g) c id.

Lemma validateCycles_wf rng : (forall i, range_order (nodes g) (rng i)) ->
  (acyclic g /\ validateCycles rng g = Returns [])
  \/ ((exists x, tc (edge_rel g) x x) /\ exists ids,
        validateCycles rng g
          = Returns [mkValidationError "CYCLE_DETECTED"
                       (MsgCycle (omap (fun id => node_Name <$> graph_Node g id) ids)) uuid_Nil ids]
        /\ NoDup ids /\ forall id, id ∈ ids <-> reached_by_cycle id).
Proof using Hwf.
  intros Hr. unfold validateCycles.
  destruct (TopologicalSort_wf g (rng 0%nat) Hwf (range_order_inDegree _ (Hr _))) as (ns & b & -> & Hss).
  destruct b; [right|left; split; [by eapply sort_spec_acyclic|done]].
  split; [by eapply sort_spec_cycle|]. rewrite delete_sorted_spec.
  eexists. split_and!; [done| |].
  - apply NoDup_ListNoDup, List.NoDup_filter, NoDup_ListNoDup. by eapply range_order_NoDup.
  - intros id. rewrite list_elem_of_In, filter_In, <- list_elem_of_In, bool_decide_eq_true.
    rewrite elem_of_difference, !elem_of_list_to_set, elem_of_Nodes_ID by done.
    rewrite (range_order_elem _ _ _ (Hr _)). unfold reached_by_cycle. split.
    + intros (_ & His & Hn). split; [done|]. by apply (ss_missing _ _ _ Hss).
    + intros (His & c & Hc & Hci). split_and!; [done|done|].
      intros Hin. by apply (ss_listed _ _ _ Hss id c).
Qed.

Lemma Parents_nil id : Parents g id = [] <-> forall e, e ∈ edges g -> edge_To e <> id.
Proof using Hwf.
  unfold Parents. rewrite omap_nil. split.
  - intros Hn e He Hid. specialize (Hn e He). rewrite bool_decide_eq_true_2 in Hn by done.
    destruct (wf_from g Hwf e He). congruence.
  - intros Hn e He. rewrite bool_decide_eq_false_2; auto.
Qed.

Lemma Children_nil id : Children g id = [] <-> forall e, e ∈ edges g -> edge_From e <> id.
Proof using Hwf.
  unfold Children. rewrite omap_nil. split.
  - intros Hn e He Hid. specialize (Hn e He). rewrite bool_decide_eq_true_2 in Hn by done.
    destruct (wf_to g Hwf e He). congruence.
  - intros Hn e He. rewrite bool_decide_eq_false_2; auto.
Qed.

(** An isolated node: no edge leaves or enters it. *)
Definition isolated (id : UUID) : Prop :=
  is_Some (nodes g !! id) /\ forall e, e ∈ edges g -> edge_From e <> id /\ edge_To e <> id.

Lemma validateOrphanNodes_wf rng : (forall i, range_order (nodes g) (rng i)) ->
  forall id, id ∈ ve_NodeID <$> validateOrphanNodes rng g <-> isolated id.
Proof using Hwf.
  intros Hr id. unfold validateOrphanNodes, isolated. rewrite list_elem_of_fmap. split.
  - intros (e & -> & He). apply list_elem_of_omap in He as (n & Hn%elem_of_Nodes & He); [|done].
    destruct (_ && _) eqn:Hl; [|done]. simplify_eq/=. split; [eauto|].
    apply andb_true_iff in Hl as [Hp%Nat.eqb_eq%nil_length_inv Hc%Nat.eqb_eq%nil_length_inv].
    rewrite Parents_nil in Hp. rewrite Children_nil in Hc. auto.
  - intros ([n Hn] & He). pose proof (wf_ids g Hwf _ _ Hn) as Hid.
    exists (mkValidationError "ORPHAN_NODE" (MsgOrphan (node_Name n)) id []). split; [done|].
    apply list_elem_of_omap. exists n. rewrite elem_of_Nodes, Hid by done. split; [done|].
    assert (Parents g id = []) as -> by (apply Parents_nil; naive_solver).
    assert (Children g id = []) as -> by (apply Children_nil; naive_solver). done.
Qed.

Lemma validateDependencies_wf : validateDependencies g = [].
Proof using Hwf.
  unfold validateDependencies, Edges, graph_Node.
  assert (forall e, e ∈ edges g -> is_Some (nodes g !! edge_From e) /\ is_Some (nodes g !! edge_To e)) as Hin
    by (intros e He; split; [by apply (wf_from g)|by apply (wf_to g)]).
  induction (edges g) as [|e es IH]; [done|]. simpl.
  destruct (Hin e) as [[n ->] [m ->]]; [left|]. apply IH. intros e' He'. apply Hin. by right.
Qed.

Lemma validateMaxDepth_wf v rng : (forall i, range_order (nodes g) (rng i)) ->
  (acyclic g /\ exists d, graph_depth g d /\ validateMaxDepth v rng g
     = Returns (if maxDepth v <? Z.of_nat (S d)
                then [mkValidationError "MAX_DEPTH_EXCEEDED" (MsgDepth (Z.of_nat (S d)) (maxDepth v)) uuid_Nil []]
                else []))
  \/ ((exists x, tc (edge_rel g) x x) /\ validateMaxDepth v rng g
     = Returns [mkValidationError "DEPTH_VALIDATION_FAILED" (MsgLevels ErrGraphCycle) uuid_Nil []]).
Proof using Hwf.
  intros Hr. unfold validateMaxDepth.
  destruct (Levels_wf g (rng 4%nat) (rng 5%nat) Hwf) as [(Hac & levels & d & -> & _ & _ & Hd & Hlen)|(Hc & ->)];
    [by apply range_order_inDegree..| |by right].
  left. split; [done|]. exists d. split; [done|]. rewrite Hlen. by destruct (_ <? _).
Qed.
End wf.

Lemma graph_depth_unique g d d' : graph_depth g d -> graph_depth g d' -> d = d'.
Proof.
  intros [(x & y & H1) H2] [(x' & y' & H3) H4]. apply H4 in H1. apply H2 in H3. lia.
Qed.

Lemma result_of_valid errors : vr_Valid (result_of errors) = true <-> errors = [].
Proof. unfold result_of. simpl. by destruct errors. Qed.

(** ** Adding an edge *)

Lemma edge_rel_snoc ns es from to x y :
  edge_rel (mkGraph ns (es ++ [mkEdge from to])) x y
    <-> edge_rel (mkGraph ns es) x y \/ (x = from /\ y = to).
Proof. unfold edge_rel; simpl. rewrite elem_of_app, list_elem_of_singleton. naive_solver. Qed.

Lemma tc_snoc_edge g from to x y :
  tc (edge_rel (mkGraph (nodes g) (edges g ++ [mkEdge from to]))) x y ->
  tc (edge_rel g) x y \/ (rtc (edge_rel g) x from /\ rtc (edge_rel g) to y) \/ rtc (edge_rel g) to from.
Proof.
  destruct g as [ns es]; simpl.
  induction 1 as [x y Hxy%edge_rel_snoc|x y z Hxy%edge_rel_snoc _ IH].
  - destruct Hxy as [Hxy|[-> ->]]; [left; by apply tc_once|right; left; done].
  - destruct IH as [IH|[[IH1 IH2]|IH]]; [| |by right; right].
    + destruct Hxy as [Hxy|[-> ->]]; [left; by eapply tc_l|]. right. left. split; [done|by apply tc_rtc].
    + destruct Hxy as [Hxy|[-> ->]]; right; [left; split; [by eapply rtc_l|done]|by right].
Qed.

(** The new edge closes a cycle exactly when its target already reaches its source. *)
Lemma acyclic_snoc g from to :
  acyclic (mkGraph (nodes g) (edges g ++ [mkEdge from to]))
    <-> acyclic g /\ ~ rtc (edge_rel g) to from.
Proof.
  assert (forall x y, edge_rel g x y -> edge_rel (mkGraph (nodes g) (edges g ++ [mkEdge from to])) x y) as Hsub
    by (intros x y Hxy; destruct g; apply edge_rel_snoc; by left).
  split.
  - intros Hac. split.
    + intros x Hx. apply (Hac x). eapply tc_congruence with (f := fun z => z); eauto.
    + intros Hr. apply (Hac from). eapply tc_rtc_r.
      * apply tc_once, edge_rel_snoc. by right.
      * eapply rtc_congruence with (f := fun z => z); eauto.
  - intros [Hac Hn] x Hx. apply tc_snoc_edge in Hx as [Hx|[[Hx1 Hx2]|Hx]]; [by apply (Hac x)| |done].
    by apply Hn; transitivity x.
Qed.

Lemma foldl_insert_nodes (M m : gmap UUID Node) ns id :
  (forall n, n ∈ ns -> M !! node_ID n = Some n) ->
  foldl (fun m n => <[node_ID n := n]> m) m ns !! id
    = if decide (id ∈ node_ID <$> ns) then M !! id else m !! id.
Proof.
  revert m. induction ns as [|n ns IH]; intros m Hin; cbn [foldl].
  { rewrite decide_False; [done|set_solver]. }
  rewrite fmap_cons, IH by (intros; apply Hin; by right).
  destruct (decide (id ∈ node_ID <$> ns)) as [Hi|Hi].
  - rewrite decide_True; [done|]. by right.
  - destruct (decide (id = node_ID n)) as [->|Hne].
    + rewrite decide_True by left. rewrite lookup_insert_eq. symmetry. apply Hin. left.
    + rewrite lookup_insert_ne, decide_False; [done|set_solver|done].
Qed.

Lemma testGraph_wf g ord from to :
  graph_wf g -> range_order (nodes g) ord ->
  testGraph ord g from to = mkGraph (nodes g) (edges g ++ [mkEdge from to]).
Proof.
  intros Hwf Hr. unfold testGraph. f_equal. apply map_eq. intros id.
  rewrite (foldl_insert_nodes (nodes g)) by (intros n Hn; by eapply elem_of_Nodes).
  case_decide as Hid; [done|]. rewrite elem_of_Nodes_ID in Hid by done.
  simpl. rewrite lookup_empty. symmetry. by apply eq_None_not_Some.
Qed.

Lemma snoc_edge_wf g from to :
  graph_wf g -> is_Some (nodes g !! from) -> is_Some (nodes g !! to) ->
  graph_wf (mkGraph (nodes g) (edges g ++ [mkEdge from to])).
Proof.
  intros [Hid Hf Ht] Hfrom Hto. split; simpl; [done| |];
    intros e [He|He%list_elem_of_singleton]%elem_of_app; subst; auto.
Qed.

Lemma HasCycle_wf g ord : graph_wf g -> range_order (nodes g) ord ->
  exists b, HasCycle ord g = Some b /\ (b = false <-> acyclic g).
Proof.
  intros Hwf Hr. unfold HasCycle.
  destruct (TopologicalSort_wf g ord Hwf (range_order_inDegree g Hwf ord Hr)) as (ns & b & -> & Hss).
  exists b. split; [done|]. split.
  - intros ->. by eapply sort_spec_acyclic.
  - intros Hac. destruct b; [|done]. destruct (sort_spec_cycle _ _ Hss) as [x Hx]. by destruct (Hac x).
Qed.

(** A graph with a cycle 1 -> 2 -> 1 and a node 3 behind it. *)
Definition lasso : Graph :=
  foldl apply_graph_op NewGraph
    [OpAddNode 1 "a"; OpAddNode 2 "b"; OpAddNode 3 "c"; OpAddEdge 1 2; OpAddEdge 2 1; OpAddEdge 2 3].

Lemma lasso_wf : graph_wf lasso.
Proof. apply inv_wf, graph_ops_fold_inv, NewGraph_inv. Qed.

Lemma lasso_order : range_order (nodes lasso) [2; 3; 1]%N.
Proof. unfold range_order. apply (bool_decide_unpack _). vm_compute. exact I. Qed.

Lemma diamond_node_order : range_order (nodes diamond) [2; 5; 4; 1; 3]%N.
Proof. unfold range_order. apply (bool_decide_unpack _). vm_compute. exact I. Qed.

Example lasso_reported :
  match ValidateDAG NewValidator (fun _ => [2; 3; 1]%N) lasso with
  | Returns r => ve_Type <$> vr_Errors r = ["CYCLE_DETECTED"; "DEPTH_VALIDATION_FAILED"]
                 /\ ve_NodeIDs <$> vr_Errors r = [[2; 3; 1]%N; []]
  | _ => False
  end.
Proof. vm_compute. done. Qed.

(** ** Properties *)

(** C5: on a well-formed graph [ValidateDAG] always returns, and the graph is
    declared valid exactly when it is acyclic, has no isolated node, and its longest
    path visits at most [maxDepth] nodes. *)
Theorem ValidateDAG_correct (v : Validator) (g : Graph) (rng : nat -> list UUID)
  (Hwf : graph_wf g) (Hrng : forall i, range_order (nodes g) (rng i)) :
  exists r, ValidateDAG v rng g = Returns r
    /\ (vr_Valid r = true <->
        acyclic g /\ (forall id, ~ isolated g id)
        /\ exists d, graph_depth g d /\ Z.of_nat (S d) <= maxDepth v).
Proof.
  unfold ValidateDAG. rewrite validateDependencies_wf by done.
  assert (validateOrphanNodes rng g = [] <-> forall id, ~ isolated g id) as Hor.
  { pose proof (validateOrphanNodes_wf g Hwf rng Hrng) as Ho. split.
    - intros Hnil id Hid%Ho. rewrite Hnil in Hid. set_solver.
    - intros Hn. apply (fmap_nil_inv ve_NodeID), elem_of_nil_inv. intros id Hid%Ho. by apply (Hn id). }
  destruct (validateCycles_wf g Hwf rng Hrng) as [(Hac & ->)|(Hc & ids & -> & _)]; cbn [out_bind];
    destruct (validateMaxDepth_wf g Hwf v rng Hrng) as [(Hac' & d & Hd & ->)|(Hc' & ->)]; cbn [out_bind];
    try (destruct Hc as [x Hx]; by destruct (Hac' x)); try (destruct Hc' as [x Hx]; by destruct (Hac x)).
  - eexists. split; [done|]. rewrite result_of_valid. simpl. rewrite app_nil.
    destruct (Z.ltb_spec (maxDepth v) (Z.of_nat (S d))).
    + split; [by intros []|]. intros (_ & _ & d' & Hd' & Hle).
      rewrite (graph_depth_unique g d' d) in Hle by done. lia.
    + rewrite Hor. split; [|naive_solver]. intros [Ho _]. split_and!; eauto.
  - eexists. split; [done|]. rewrite result_of_valid. split; [done|].
    intros (Hac & _). destruct Hc as [x Hx]. by destruct (Hac x).
Qed.

Lemma ValidateDAG_correct_witness :
  exists r, ValidateDAG NewValidator (fun _ => [2; 5; 4; 1; 3]%N) diamond = Returns r
    /\ (vr_Valid r = true <->
        acyclic diamond /\ (forall id, ~ isolated diamond id)
        /\ exists d, graph_depth diamond d /\ Z.of_nat (S d) <= maxDepth NewValidator).
Proof.
  apply (ValidateDAG_correct NewValidator diamond _ diamond_wf (fun _ => diamond_node_order)).
Defined.

(** On a well-formed graph the cycle check is silent exactly when the graph is
    acyclic; otherwise it makes one report, whose [NodeIDs] are, without
    repetition, the nodes that some cycle reaches: the members of the cycles and
    every node downstream of one. *)
Theorem validateCycles_reports (g : Graph) (rng : nat -> list UUID)
  (Hwf : graph_wf g) (Hrng : forall i, range_order (nodes g) (rng i)) :
  (acyclic g /\ validateCycles rng g = Returns [])
  \/ ((exists x, tc (edge_rel g) x x) /\ exists e,
        validateCycles rng g = Returns [e] /\ ve_Type e = "CYCLE_DETECTED"
        /\ NoDup (ve_NodeIDs e) /\ forall id, id ∈ ve_NodeIDs e <-> reached_by_cycle g id).
Proof.
  destruct (validateCycles_wf g Hwf rng Hrng) as [?|(Hc & ids & -> & Hnd & Hids)]; [by left|].
  right. split; [done|]. eexists. split; [done|]. simpl. auto.
Qed.

Lemma validateCycles_reports_witness :
  (acyclic lasso /\ validateCycles (fun _ => [2; 3; 1]%N) lasso = Returns [])
  \/ ((exists x, tc (edge_rel lasso) x x) /\ exists e,
        validateCycles (fun _ => [2; 3; 1]%N) lasso = Returns [e] /\ ve_Type e = "CYCLE_DETECTED"
        /\ NoDup (ve_NodeIDs e) /\ forall id, id ∈ ve_NodeIDs e <-> reached_by_cycle lasso id).
Proof. apply (validateCycles_reports lasso _ lasso_wf (fun _ => lasso_order)). Defined.

(** On a well-formed graph [ValidateEdgeAddition] always returns, and accepts
    an edge exactly when both ends exist, the graph has no cycle yet, and the target
    does not already reach the source, that is, when the graph with the edge is acyclic. *)
Theorem ValidateEdgeAddition_correct (g : Graph) (rng : nat -> list UUID) (from to : UUID)
  (Hwf : graph_wf g) (Hrng : forall i, range_order (nodes g) (rng i)) :
  exists r, ValidateEdgeAddition rng g from to = Returns r
    /\ (vr_Valid r = true <->
        is_Some (nodes g !! from) /\ is_Some (nodes g !! to)
        /\ acyclic g /\ ~ rtc (edge_rel g) to from).
Proof.
  unfold ValidateEdgeAddition, graph_Node.
  destruct (nodes g !! from) as [nf|] eqn:Ef; [|eexists; split; [done|]; split; [done|]; by intros [[]]].
  destruct (nodes g !! to) as [nt|] eqn:Et; [|eexists; split; [done|]; split; [done|]; by intros (_ & [] & _)].
  cbn [app]. rewrite testGraph_wf by done.
  destruct (HasCycle_wf (mkGraph (nodes g) (edges g ++ [mkEdge from to])) (rng 1%nat)) as (b & -> & Hb);
    [apply snoc_edge_wf; eauto|apply Hrng|]. rewrite acyclic_snoc in Hb.
  destruct b; eexists; (split; [done|]); rewrite result_of_valid; naive_solver.
Qed.

Lemma ValidateEdgeAddition_correct_witness :
  exists r, ValidateEdgeAddition (fun _ => [2; 5; 4; 1; 3]%N) diamond 5 1 = Returns r
    /\ (vr_Valid r = true <->
        is_Some (nodes diamond !! 5%N) /\ is_Some (nodes diamond !! 1%N)
        /\ acyclic diamond /\ ~ rtc (edge_rel diamond) 1%N 5%N).
Proof.
  apply (ValidateEdgeAddition_correct diamond _ 5 1 diamond_wf (fun _ => diamond_node_order)).
Defined.

(** On a well-formed graph [ValidateNodeAddition] accepts a node exactly when
    every dependency exists and no node has the name yet; the dependencies it reports
    are exactly the missing ones, in the order given. *)
Theorem ValidateNodeAddition_correct (g : Graph) (ord : list UUID) (name : string) (deps : list UUID)
  (Hwf : graph_wf g) (Hord : range_order (nodes g) ord) :
  let r := ValidateNodeAddition ord g name deps in
  (vr_Valid r = true <->
     (forall id, id ∈ deps -> is_Some (nodes g !! id))
     /\ forall id n, nodes g !! id = Some n -> node_Name n <> name)
  /\ exists tl, ve_NodeID <$> vr_Errors r = filter (fun id => nodes g !! id = None) deps ++ tl
                /\ (length tl <= 1)%nat.
Proof.
  cbv zeta. unfold ValidateNodeAddition, graph_Node. split.
  - rewrite result_of_valid, app_nil, omap_nil. f_equiv.
    + split; intros Hd id Hid; specialize (Hd id Hid); destruct (nodes g !! id); by eauto using is_Some_None.
    + destruct (List.find _ _) as [n|] eqn:Hf.
      * apply find_some in Hf as [Hn Hnm]. apply list_elem_of_In, elem_of_Nodes in Hn; [|done..].
        apply bool_decide_eq_true in Hnm.
        split; [done|]. intros H. by destruct (H _ _ Hn).
      * split; [|done]. intros _ id n Hn Hnm.
        assert (In n (Nodes ord g)) as Hin.
        { apply list_elem_of_In, elem_of_Nodes; [done..|]. by rewrite (wf_ids g Hwf _ _ Hn). }
        pose proof (find_none _ _ Hf _ Hin) as Hb. by apply bool_decide_eq_false in Hb.
  - eexists. simpl. rewrite fmap_app. split.
    + f_equal. clear. induction deps as [|d deps IH]; [done|]. csimpl.
      destruct (nodes g !! d) eqn:Hd; csimpl.
      * by rewrite filter_cons_False by (by rewrite Hd).
      * by rewrite filter_cons_True, IH by done.
    + rewrite length_fmap. by destruct (List.find _ _); simpl; lia.
Qed.

Lemma ValidateNodeAddition_correct_witness :
  let r := ValidateNodeAddition [2; 5; 4; 1; 3]%N diamond "load" [1; 9]%N in
  (vr_Valid r = true <->
     (forall id, id ∈ [1; 9]%N -> is_Some (nodes diamond !! id))
     /\ forall id n, nodes diamond !! id = Some n -> node_Name n <> "load")
  /\ exists tl, ve_NodeID <$> vr_Errors r = filter (fun id => nodes diamond !! id = None) [1; 9]%N ++ tl
                /\ (length tl <= 1)%nat.
Proof.
  apply (ValidateNodeAddition_correct diamond _ "load" [1; 9]%N diamond_wf diamond_node_order).
Defined.
