(* ===== verification/DagExecutor.v ===== *)
(** * The graph executor: internal/dag/executor.go

    [Execute] runs the levels of the graph one after the other; the nodes of a level
    run in one goroutine each.  [level_step] is the step relation of those
    goroutines, with the two mutexes' critical sections as atomic steps, and
    [executeLevel] the sequential function that every interleaving agrees with
    ([executeLevel_interleaving]).  What the environment decides is a record [env]:
    which goroutines find the context cancelled, what the clock measures. *)

From S2P Require Import Prelude DagGraph DagValidator.

(** ** Data *)

(* go: internal/dag/executor.go @13-21 NodeStatus *)
Inductive NodeStatus : Type :=
| NodeStatusPending | NodeStatusRunning | NodeStatusCompleted | NodeStatusFailed | NodeStatusSkipped.

#[export] Instance NodeStatus_eq_dec : EqDecision NodeStatus.
Proof. solve_decision. Defined.

(* go: internal/dag/executor.go type NodeResult *)
Record NodeResult := mkNodeResult {
  nr_NodeID : UUID;
  nr_NodeName : string;
  nr_Status : NodeStatus;
  nr_Error : string;
  nr_Output : any;
  nr_Duration : Z
}.

(** A handler gets the timeout of its context, the node and the inputs; it returns
    an output and perhaps the text of an error. *)
(* go: internal/dag/executor.go @32-32 NodeHandler *)
Definition NodeHandler : Type := Z -> Node -> gmap UUID any -> any * option string.

(* go: internal/dag/executor.go @34-39 ExecutionPolicy *)
Inductive ExecutionPolicy : Type := FailFast | ContinueOnFailure.

#[export] Instance ExecutionPolicy_eq_dec : EqDecision ExecutionPolicy.
Proof. solve_decision. Defined.

(* go: internal/dag/executor.go type DAGExecutor *)
Record DAGExecutor := mkDAGExecutor {
  handlers : gmap string NodeHandler;
  policy : ExecutionPolicy;
  defaultTimeout : Z
}.

(* go: internal/dag/executor.go type ExecutionResult *)
Record ExecutionResult := mkExecutionResult {
  GraphName : string;
  Results : gmap UUID NodeResult;
  Success : bool;
  er_Duration : Z
}.

Inductive ExecuteError : Type :=
| ErrComputeLevels (err : GraphError)
| ErrContext.

(** What one execution observes of its environment. *)
Record env := mkEnv {
  ctxDone : nat -> bool;          (** the context at the start of the [i]-th level *)
  cancelled : UUID -> bool;       (** the context in the goroutine of a node *)
  elapsed : UUID -> Z;            (** [time.Since(start)] of a node *)
  total : Z                       (** [time.Since(start)] of the execution *)
}.

(** ** Configuration *)

(* go: internal/dag/executor.go func NewDAGExecutor *)
Definition NewDAGExecutor : DAGExecutor := mkDAGExecutor ∅ FailFast (5 * Minute).

(* go: internal/dag/executor.go func DAGExecutor.RegisterHandler *)
Definition RegisterHandler (e : DAGExecutor) (name : string) (handler : NodeHandler) : DAGExecutor :=
  mkDAGExecutor (<[name := handler]> (handlers e)) (policy e) (defaultTimeout e).

(* go: internal/dag/executor.go func DAGExecutor.SetExecutionPolicy *)
Definition SetExecutionPolicy (e : DAGExecutor) (p : ExecutionPolicy) : DAGExecutor :=
  mkDAGExecutor (handlers e) p (defaultTimeout e).

(* go: internal/dag/executor.go func DAGExecutor.SetDefaultTimeout *)
Definition SetDefaultTimeout (e : DAGExecutor) (timeout : Z) : DAGExecutor :=
  mkDAGExecutor (handlers e) (policy e) timeout.

(* go: internal/dag/executor.go func DAGExecutor.resolveTimeout *)
Definition resolveTimeout (e : DAGExecutor) (node : Node) : Z :=
  match node_Metadata node !! "timeout" with
  | Some (AnyDuration timeout) => timeout
  | _ => defaultTimeout e
  end.

(** ** One node *)

(** [graph] is the pointer argument; nil is [None]. *)
(* go: internal/dag/executor.go func parentsFromGraph *)
Definition parentsFromGraph (node : Node) (graph : option Graph) : list Node :=
  match graph with
  | None => []
  | Some g => Parents g (node_ID node)
  end.

(* go: internal/dag/executor.go func DAGExecutor.collectInputs *)
Definition collectInputs (node : Node) (nodeOutputs : gmap UUID any) : gmap UUID any :=
  foldl (fun inputs parent =>
           match nodeOutputs !! node_ID parent with
           | Some output => <[node_ID parent := output]> inputs
           | None => inputs
           end) ∅ (parentsFromGraph node None).

(* go: internal/dag/executor.go func DAGExecutor.executeNode *)
Definition executeNode (w : env) (e : DAGExecutor) (node : Node) (inputs : gmap UUID any) : NodeResult :=
  match handlers e !! node_Name node with
  | None => mkNodeResult (node_ID node) (node_Name node) NodeStatusCompleted "" AnyNil
              (elapsed w (node_ID node))
  | Some handler =>
      let timeout := resolveTimeout e node in
      match handler timeout node inputs with
      | (_, Some err) => mkNodeResult (node_ID node) (node_Name node) NodeStatusFailed err AnyNil
                           (elapsed w (node_ID node))
      | (output, None) => mkNodeResult (node_ID node) (node_Name node) NodeStatusCompleted "" output
                            (elapsed w (node_ID node))
      end
  end.

(** The result of a goroutine that finds the context done. *)
(* go: internal/dag/executor.go @177-182 DAGExecutor.executeLevel *)
Definition cancelled_result (n : Node) : NodeResult :=
  mkNodeResult (node_ID n) (node_Name n) NodeStatusSkipped "execution cancelled" AnyNil 0.

(* go: internal/dag/executor.go @193-197 DAGExecutor.executeLevel *)
Definition store_output (n : Node) (r : NodeResult) (nodeOutputs : gmap UUID any) : gmap UUID any :=
  if bool_decide (nr_Status r = NodeStatusCompleted) && negb (bool_decide (nr_Output r = AnyNil))
  then <[node_ID n := nr_Output r]> nodeOutputs
  else nodeOutputs.

(** ** The goroutines of a level *)

(** Where a goroutine stands in its body. *)
Inductive gpc : Type :=
| GStart
| GInputs (inputs : gmap UUID any)
| GRan (r : NodeResult)
| GStored (r : NodeResult)
| GDone.

Record level_state := mkLevelState {
  threads : list (Node * gpc);
  ls_results : gmap UUID NodeResult;
  ls_outputs : gmap UUID any
}.

(** The next atomic step of the goroutine of [n]: its new position and the maps. *)
(* go: internal/dag/executor.go @169-198 DAGExecutor.executeLevel *)
Definition goroutine_step (w : env) (e : DAGExecutor) (n : Node) (pc : gpc)
  (results : gmap UUID NodeResult) (nodeOutputs : gmap UUID any)
  : option (gpc * gmap UUID NodeResult * gmap UUID any) :=
  match pc with
  | GStart => Some (GInputs (collectInputs n nodeOutputs), results, nodeOutputs)
  | GInputs inputs =>
      if cancelled w (node_ID n)
      then Some (GDone, <[node_ID n := cancelled_result n]> results, nodeOutputs)
      else Some (GRan (executeNode w e n inputs), results, nodeOutputs)
  | GRan r => Some (GStored r, <[node_ID n := r]> results, nodeOutputs)
  | GStored r => Some (GDone, results, store_output n r nodeOutputs)
  | GDone => None
  end.

(** Any goroutine may take the next step. *)
Inductive level_step (w : env) (e : DAGExecutor) : level_state -> level_state -> Prop :=
| level_step_thread i n pc pc' ths res outs res' outs' :
    ths !! i = Some (n, pc) ->
    goroutine_step w e n pc res outs = Some (pc', res', outs') ->
    level_step w e (mkLevelState ths res outs)
                   (mkLevelState (<[i := (n, pc')]> ths) res' outs').

Definition level_start (level : list Node) (nodeOutputs : gmap UUID any) : level_state :=
  mkLevelState ((fun n => (n, GStart)) <$> level) ∅ nodeOutputs.

(** [wg.Wait] returns when every goroutine has ended. *)
Definition level_done (st : level_state) : Prop := forall n pc, (n, pc) ∈ threads st -> pc = GDone.

(** The body of the goroutine of [n], run without interruption. *)
(* go: internal/dag/executor.go @169-198 DAGExecutor.executeLevel *)
Definition run_goroutine (w : env) (e : DAGExecutor) (acc : gmap UUID NodeResult * gmap UUID any) (n : Node)
  : gmap UUID NodeResult * gmap UUID any :=
  let '(results, outs) := acc in
  let inputs := collectInputs n outs in
  if cancelled w (node_ID n)
  then (<[node_ID n := cancelled_result n]> results, outs)
  else let result := executeNode w e n inputs in
       (<[node_ID n := result]> results, store_output n result outs).

(** The goroutines run one after the other. *)
(* go: internal/dag/executor.go func DAGExecutor.executeLevel *)
Definition executeLevel (w : env) (e : DAGExecutor) (level : list Node) (nodeOutputs : gmap UUID any)
  : gmap UUID NodeResult * gmap UUID any :=
  foldl (run_goroutine w e) (∅, nodeOutputs) level.

(** ** Skipping dependents *)

(** The recursive closure [markSkipped]: depth first, [visited] and [skipped] shared. *)
(* go: internal/dag/executor.go @289-305 DAGExecutor.skipDependents *)
Fixpoint markSkipped (fuel : nat) (graph : Graph) (results : gmap UUID NodeResult)
  (st : gset UUID * gmap UUID NodeResult) (id : UUID) : option (gset UUID * gmap UUID NodeResult) :=
  let '(visited, skipped) := st in
  if bool_decide (id ∈ visited) then Some st
  else
    match fuel with
    | O => None
    | S fuel' =>
        foldl (fun acc child =>
                 match acc with
                 | None => None
                 | Some (vis, skp) =>
                     let skp' := match results !! node_ID child with
                                 | Some _ => skp
                                 | None => <[node_ID child := mkNodeResult (node_ID child) (node_Name child)
                                               NodeStatusSkipped "dependency failed" AnyNil 0]> skp
                                 end in
                     markSkipped fuel' graph results (vis, skp') (node_ID child)
                 end) (Some ({[id]} ∪ visited, skipped)) (Children graph id)
    end.

(* go: internal/dag/executor.go func DAGExecutor.skipDependents *)
Definition skipDependents (graph : Graph) (failedLevel : list Node) (results : gmap UUID NodeResult)
  : option (gmap UUID NodeResult) :=
  snd <$> foldl (fun acc n =>
            match acc with
            | None => None
            | Some st =>
                match results !! node_ID n with
                | Some result =>
                    if bool_decide (nr_Status result = NodeStatusFailed)
                    then markSkipped (S (size (nodes graph))) graph results st (node_ID n)
                    else Some st
                | None => Some st
                end
            end) (Some (∅, ∅)) failedLevel.

(** ** The execution *)

Definition is_failed (r : NodeResult) : bool := bool_decide (nr_Status r = NodeStatusFailed).

(* go: internal/dag/executor.go func DAGExecutor.buildResult *)
Definition buildResult (w : env) (ord : list UUID) (graph : Graph) (results : gmap UUID NodeResult)
  : ExecutionResult :=
  mkExecutionResult (graph_String ord graph) results
    (negb (existsb is_failed (values results))) (total w).

(* go: internal/dag/executor.go @99-145 DAGExecutor.Execute *)
Fixpoint execute_levels (w : env) (e : DAGExecutor) (ord : list UUID) (graph : Graph) (i : nat)
  (levels : list (list Node)) (results : gmap UUID NodeResult) (nodeOutputs : gmap UUID any)
  : outcome (ExecutionResult * option ExecuteError) :=
  match levels with
  | [] => Returns (mkExecutionResult (graph_String ord graph) results
                     (negb (existsb is_failed (values results))) (total w), None)
  | level :: levels' =>
      if ctxDone w i then Returns (buildResult w ord graph results, Some ErrContext)
      else
        let '(levelResults, outs) := executeLevel w e level nodeOutputs in
        let results' := levelResults ∪ results in
        let outs' := omap (fun r => if bool_decide (nr_Status r = NodeStatusCompleted)
                                       && negb (bool_decide (nr_Output r = AnyNil))
                                    then Some (nr_Output r) else None) levelResults ∪ outs in
        let hasFailure := existsb is_failed (values levelResults) in
        let hasCriticalFailure :=
          existsb (fun r => is_failed r && bool_decide (is_Some (graph_Node graph (nr_NodeID r))))
                  (values levelResults) in
        if hasCriticalFailure && bool_decide (policy e = FailFast)
        then Returns (buildResult w ord graph results', None)
        else if hasFailure && bool_decide (policy e = FailFast)
        then match skipDependents graph level results' with
             | None => NoFuel
             | Some skipped => Returns (buildResult w ord graph (skipped ∪ results'), None)
             end
        else execute_levels w e ord graph (S i) levels' results' outs'
  end.

(** [ord1] and [ord2] are the map orders of [Levels], [ord3] that of [graph.String]. *)
(* go: internal/dag/executor.go func DAGExecutor.Execute *)
Definition Execute (w : env) (e : DAGExecutor) (ord1 ord2 ord3 : list UUID) (graph : Graph)
  : outcome (option ExecutionResult * option ExecuteError) :=
  match Levels ord1 ord2 graph with
  | None => NoFuel
  | Some Panic => Panics
  | Some (Err err) => Returns (None, Some (ErrComputeLevels err))
  | Some (Ok levels) =>
      match execute_levels w e ord3 graph 0 levels ∅ ∅ with
      | Returns (r, err) => Returns (Some r, err)
      | Panics => Panics
      | NoFuel => NoFuel
      end
  end.

(** ** Every interleaving of a level agrees with [executeLevel] *)

Lemma collectInputs_empty n outs : collectInputs n outs = ∅.
Proof. done. Qed.

(** What the goroutine of [n] contributes, whatever the others do. *)
Definition node_outcome (w : env) (e : DAGExecutor) (n : Node) : NodeResult :=
  if cancelled w (node_ID n) then cancelled_result n else executeNode w e n ∅.

Lemma executeNode_ID w e n inputs : nr_NodeID (executeNode w e n inputs) = node_ID n.
Proof. unfold executeNode. by repeat case_match. Qed.

Lemma node_outcome_ID w e n : nr_NodeID (node_outcome w e n) = node_ID n.
Proof. unfold node_outcome. case_match; [done|]. apply executeNode_ID. Qed.

Lemma store_output_cancelled n outs : store_output n (cancelled_result n) outs = outs.
Proof. done. Qed.

(** The output table after the node of [r], seen at one key. *)
Definition output_at (r : NodeResult) (old : option any) : option any :=
  if bool_decide (nr_Status r = NodeStatusCompleted) && negb (bool_decide (nr_Output r = AnyNil))
  then Some (nr_Output r) else old.

Lemma store_output_lookup n r outs id :
  store_output n r outs !! id
    = if bool_decide (id = node_ID n) then output_at r (outs !! id) else outs !! id.
Proof.
  unfold store_output, output_at. destruct (_ && _); case_bool_decide; subst; try done;
    [by rewrite lookup_insert_eq|by rewrite lookup_insert_ne].
Qed.

Section level.
Context (w : env) (e : DAGExecutor) (level : list Node) (outs0 : gmap UUID any).
Context (Hnd : NoDup (node_ID <$> level)).

Definition pc_stored (pc : gpc) : bool := match pc with GStored _ | GDone => true | _ => false end.
Definition pc_done (pc : gpc) : bool := match pc with GDone => true | _ => false end.

(** What a goroutine carries between its steps is what it computes alone. *)
Definition pc_ok (n : Node) (pc : gpc) : Prop :=
  match pc with
  | GStart | GDone => True
  | GInputs inputs => inputs = ∅
  | GRan r | GStored r => r = node_outcome w e n
  end.

Record level_ok (st : level_state) : Prop := {
  lo_nodes : (threads st).*1 = level;
  lo_pc : forall n pc, (n, pc) ∈ threads st -> pc_ok n pc;
  lo_results : forall i n pc, threads st !! i = Some (n, pc) ->
     ls_results st !! node_ID n = if pc_stored pc then Some (node_outcome w e n) else None;
  lo_others : forall id, id ∉ node_ID <$> level -> ls_results st !! id = None /\ ls_outputs st !! id = outs0 !! id;
  lo_outputs : forall i n pc, threads st !! i = Some (n, pc) ->
     ls_outputs st !! node_ID n
       = if pc_done pc then output_at (node_outcome w e n) (outs0 !! node_ID n) else outs0 !! node_ID n
}.

Lemma level_start_ok : level_ok (level_start level outs0).
Proof.
  split; simpl; try done.
  - rewrite <- list_fmap_compose. simpl. apply list_fmap_id.
  - intros n pc (m & ? & _)%list_elem_of_fmap. by simplify_eq.
  - intros i n pc Hi. rewrite list_lookup_fmap in Hi.
    destruct (level !! i); simplify_eq/=. done.
  - intros i n pc Hi. rewrite list_lookup_fmap in Hi.
    destruct (level !! i); simplify_eq/=. done.
Qed.

(** Two positions of the level hold different identifiers. *)
Lemma thread_ID_inj st i j n m pc pc' :
  level_ok st -> threads st !! i = Some (n, pc) -> threads st !! j = Some (m, pc') ->
  node_ID n = node_ID m -> i = j.
Proof using Hnd.
  intros Hok Hi Hj Heq. eapply NoDup_lookup; [exact Hnd| |].
  - rewrite <- (lo_nodes st Hok), !list_lookup_fmap, Hi. simpl. done.
  - rewrite <- (lo_nodes st Hok), !list_lookup_fmap, Hj. simpl. by rewrite Heq.
Qed.

(** One step changes the maps at the key of the goroutine only. *)
Lemma goroutine_step_spec n pc pc' res res' outs outs' :
  pc_ok n pc -> goroutine_step w e n pc res outs = Some (pc', res', outs') ->
  res !! node_ID n = (if pc_stored pc then Some (node_outcome w e n) else None) ->
  outs !! node_ID n
    = (if pc_done pc then output_at (node_outcome w e n) (outs0 !! node_ID n) else outs0 !! node_ID n) ->
  pc_ok n pc'
  /\ res' !! node_ID n = (if pc_stored pc' then Some (node_outcome w e n) else None)
  /\ outs' !! node_ID n
       = (if pc_done pc' then output_at (node_outcome w e n) (outs0 !! node_ID n) else outs0 !! node_ID n)
  /\ forall id, id <> node_ID n -> res' !! id = res !! id /\ outs' !! id = outs !! id.
Proof.
  intros Hpc Hs Hr Ho. destruct pc as [|inputs|r|r|]; simpl in *; simplify_eq.
  - by rewrite collectInputs_empty.
  - unfold node_outcome in *. destruct (cancelled w (node_ID n)) eqn:Hc; simplify_eq/=; split_and!; try done;
      unfold node_outcome; rewrite ?lookup_insert_eq, ?Hc; try done.
    intros id Hid. by rewrite lookup_insert_ne.
  - rewrite lookup_insert_eq. split_and!; try done. intros id Hid. by rewrite lookup_insert_ne.
  - rewrite store_output_lookup, bool_decide_eq_true_2, Ho by done. split_and!; try done.
    intros id Hid. by rewrite store_output_lookup, bool_decide_eq_false_2.
Qed.

Lemma level_step_ok st st' : level_ok st -> level_step w e st st' -> level_ok st'.
Proof using Hnd.
  intros Hok Hstep. destruct Hstep as [i n pc pc' ths res outs res' outs' Hi Hg].
  pose proof Hok as [Hn Hpc Hr Ho Hout]; simpl in *.
  assert (Hin : (n, pc) ∈ ths) by (by eapply list_elem_of_lookup_2).
  destruct (goroutine_step_spec n pc pc' res res' outs outs' (Hpc _ _ Hin) Hg (Hr _ _ _ Hi) (Hout _ _ _ Hi))
    as (Hpc' & Hr' & Ho' & Hrest).
  assert (Hlen : (i < length ths)%nat) by (by eapply lookup_lt_Some).
  split; simpl.
  - rewrite list_fmap_insert, list_insert_id; [done|]. by rewrite list_lookup_fmap, Hi.
  - intros m pcm [j Hj]%list_elem_of_lookup.
    apply list_lookup_insert_Some in Hj as [(<- & [= <- <-] & _)|[_ Hj]]; [done|].
    apply Hpc. by eapply list_elem_of_lookup_2.
  - intros j m pcm [(<- & [= <- <-] & _)|[Hne Hj]]%list_lookup_insert_Some; [done|].
    destruct (Hrest (node_ID m)) as [-> _]; [|by eapply Hr].
    intros Heq. apply Hne. symmetry. by eapply (thread_ID_inj _ j i).
  - intros id Hid. destruct (Hrest id) as [-> ->]; [|by apply Ho].
    intros ->. apply Hid. rewrite <- Hn. apply list_elem_of_fmap. exists n. split; [done|].
    apply list_elem_of_fmap. by exists (n, pc).
  - intros j m pcm [(<- & [= <- <-] & _)|[Hne Hj]]%list_lookup_insert_Some; [done|].
    destruct (Hrest (node_ID m)) as [_ ->]; [|by eapply Hout].
    intros Heq. apply Hne. symmetry. by eapply (thread_ID_inj _ j i).
Qed.

Lemma level_run_ok st : rtc (level_step w e) (level_start level outs0) st -> level_ok st.
Proof using Hnd.
  intros Hr. remember (level_start level outs0) as st0 eqn:Hst0.
  assert (level_ok st0) as Hok by (subst; apply level_start_ok). clear Hst0.
  induction Hr; eauto using level_step_ok.
Qed.

(** The steps a goroutine may still take. *)
Definition pc_left (pc : gpc) : nat :=
  match pc with GStart => 4 | GInputs _ => 3 | GRan _ => 2 | GStored _ => 1 | GDone => 0 end.
Definition steps_left (st : level_state) : nat := sum_list_with (fun t => pc_left t.2) (threads st).

Lemma sum_list_with_insert {A} (f : A -> nat) l i x y :
  l !! i = Some x -> (sum_list_with f (<[i := y]> l) + f x = sum_list_with f l + f y)%nat.
Proof. revert i. induction l as [|z l IH]; intros [|i] Hi; simplify_eq/=; [lia|]. specialize (IH i Hi). lia. Qed.

Lemma level_step_left st st' : level_step w e st st' -> (steps_left st' < steps_left st)%nat.
Proof.
  intros [i n pc pc' ths res outs res' outs' Hi Hg]. unfold steps_left; simpl.
  pose proof (sum_list_with_insert (fun t => pc_left t.2) ths i (n, pc) (n, pc') Hi) as Hsum; simpl in Hsum.
  assert (pc_left pc' < pc_left pc)%nat; [|lia].
  destruct pc; simpl in Hg; try (case_match); simplify_eq/=; lia.
Qed.

Lemma level_run_bound st k :
  nsteps (level_step w e) k (level_start level outs0) st -> (k <= 4 * length level)%nat.
Proof.
  intros Hn. assert (k + steps_left st <= steps_left (level_start level outs0))%nat as Hle.
  { clear Hnd. revert st Hn. generalize (level_start level outs0). induction k as [|k IH]; intros st0 st Hn.
    - inversion Hn; subst. lia.
    - inversion Hn as [|? ? st1 ? Hs Hn']; subst. apply IH in Hn'. apply level_step_left in Hs. lia. }
  assert (steps_left (level_start level outs0) = 4 * length level)%nat; [|lia].
  unfold steps_left, level_start; simpl. clear. induction level as [|n l IH]; csimpl; [done|]. simpl in IH. lia.
Qed.

Lemma level_progress st : level_done st \/ exists st', level_step w e st st'.
Proof.
  destruct st as [ths res outs].
  destruct (decide (Exists (fun t => pc_done t.2 = false) ths)) as [Hx|Hx].
  - right. apply Exists_exists in Hx as ([n pc] & [i Hi]%list_elem_of_lookup & Hpc).
    destruct (goroutine_step w e n pc res outs) as [[[pc' res'] outs']|] eqn:Hg.
    + eexists. by econstructor.
    + destruct pc; simpl in *; try done. by destruct (cancelled _ _).
  - left. intros n pc Hin.
    destruct pc; try done; exfalso; apply Hx; apply Exists_exists; by eauto.
Qed.

End level.

Lemma run_goroutine_outcome w e res outs n :
  run_goroutine w e (res, outs) n
    = (<[node_ID n := node_outcome w e n]> res, store_output n (node_outcome w e n) outs).
Proof.
  unfold run_goroutine, node_outcome. rewrite collectInputs_empty. by destruct (cancelled w (node_ID n)).
Qed.

Lemma executeLevel_fold w e level : forall res outs res' outs',
  NoDup (node_ID <$> level) ->
  foldl (run_goroutine w e)
        (res, outs) level = (res', outs') ->
  (forall id, id ∉ node_ID <$> level -> res' !! id = res !! id /\ outs' !! id = outs !! id)
  /\ (forall n, n ∈ level -> res' !! node_ID n = Some (node_outcome w e n)
        /\ outs' !! node_ID n = output_at (node_outcome w e n) (outs !! node_ID n)).
Proof.
  induction level as [|n level IH]; intros res outs res' outs' Hnd Hf.
  { simplify_eq/=. split; [done|set_solver]. }
  rewrite fmap_cons in Hnd. apply NoDup_cons in Hnd as [Hn Hnd].
  cbn [foldl] in Hf. rewrite run_goroutine_outcome in Hf. rename Hf into Hf'.
  destruct (IH _ _ _ _ Hnd Hf') as [Ho Hi]. split.
  - intros id Hid. rewrite fmap_cons, not_elem_of_cons in Hid. destruct Hid as [Hne Hid].
    destruct (Ho id Hid) as [-> ->]. rewrite lookup_insert_ne, store_output_lookup, bool_decide_eq_false_2; auto.
  - intros m [->|Hm]%elem_of_cons.
    + destruct (Ho (node_ID n) Hn) as [-> ->].
      by rewrite lookup_insert_eq, store_output_lookup, bool_decide_eq_true_2.
    + destruct (Hi m Hm) as [-> ->]. split; [done|].
      rewrite store_output_lookup, bool_decide_eq_false_2; [done|].
      intros Heq. apply Hn. rewrite <- Heq. by apply list_elem_of_fmap_2.
Qed.

Lemma executeLevel_spec w e level outs :
  NoDup (node_ID <$> level) ->
  (forall id, id ∉ node_ID <$> level ->
     (executeLevel w e level outs).1 !! id = None /\ (executeLevel w e level outs).2 !! id = outs !! id)
  /\ (forall n, n ∈ level -> (executeLevel w e level outs).1 !! node_ID n = Some (node_outcome w e n)
        /\ (executeLevel w e level outs).2 !! node_ID n = output_at (node_outcome w e n) (outs !! node_ID n)).
Proof.
  intros Hnd. destruct (executeLevel w e level outs) as [res' outs'] eqn:He.
  unfold executeLevel in He. apply executeLevel_fold in He; [|done]. destruct He as [H1 H2].
  split; [|done]. simpl. intros id Hid. destruct (H1 id Hid) as [-> ->]. by rewrite lookup_empty.
Qed.

Lemma level_final w e level outs0 st :
  NoDup (node_ID <$> level) -> level_ok w e level outs0 st -> level_done st ->
  (ls_results st, ls_outputs st) = executeLevel w e level outs0.
Proof.
  intros Hnd [Hn Hpc Hr Ho Hout] Hd.
  destruct (executeLevel_spec w e level outs0 Hnd) as [Heo Hei].
  assert (forall n, n ∈ level -> exists i, threads st !! i = Some (n, GDone)) as Hth.
  { intros n Hin. rewrite <- Hn in Hin. apply list_elem_of_fmap in Hin as ([m pc] & -> & Hin).
    pose proof (Hd _ _ Hin) as ->. by apply list_elem_of_lookup in Hin. }
  rewrite (surjective_pairing (executeLevel _ _ _ _)). f_equal; apply map_eq; intros id;
    (destruct (decide (id ∈ node_ID <$> level)) as [(n & -> & Hin)%list_elem_of_fmap|Hid];
     [destruct (Hei n Hin) as [He1 He2]; destruct (Hth n Hin) as [i Hi];
      specialize (Hr _ _ _ Hi); specialize (Hout _ _ _ Hi); simpl in *; congruence
     |destruct (Heo id Hid), (Ho id Hid); congruence]).
Qed.

(** ** The execution of the levels *)

Lemma existsb_values {K V} `{Countable K} (f : V -> bool) (m : gmap K V) :
  existsb f (values m) = true <-> exists k v, m !! k = Some v /\ f v = true.
Proof.
  rewrite existsb_exists. setoid_rewrite <- list_elem_of_In. unfold values.
  setoid_rewrite list_elem_of_fmap. split.
  - intros (v & ([k v'] & -> & Hkv%elem_of_map_to_list) & Hf). eauto.
  - intros (k & v & Hkv & Hf). exists v. split; [|done]. exists (k, v). split; [done|].
    by apply elem_of_map_to_list.
Qed.

Definition node_fails (w : env) (e : DAGExecutor) (n : Node) : bool := is_failed (node_outcome w e n).

Lemma level_results_elem w e level outs k r :
  NoDup (node_ID <$> level) -> (executeLevel w e level outs).1 !! k = Some r ->
  exists n, n ∈ level /\ k = node_ID n /\ r = node_outcome w e n.
Proof.
  intros Hnd Hk. destruct (executeLevel_spec w e level outs Hnd) as [Ho Hi].
  destruct (decide (k ∈ node_ID <$> level)) as [(n & -> & Hin)%list_elem_of_fmap|Hn].
  - exists n. destruct (Hi n Hin) as [Hr _]. split_and!; [done|done|congruence].
  - destruct (Ho k Hn). congruence.
Qed.

Lemma level_failure w e level outs :
  NoDup (node_ID <$> level) ->
  existsb is_failed (values (executeLevel w e level outs).1) = existsb (node_fails w e) level.
Proof.
  intros Hnd. apply eq_true_iff_eq. rewrite existsb_values, existsb_exists.
  setoid_rewrite <- list_elem_of_In. split.
  - intros (k & r & Hk & Hf). apply level_results_elem in Hk as (n & Hn & -> & ->); eauto.
  - intros (n & Hn & Hf). destruct (executeLevel_spec w e level outs Hnd) as [_ Hi].
    destruct (Hi n Hn) as [Hr _]. eauto.
Qed.

(** A failed node of the graph always counts as a critical failure. *)
Lemma level_critical w e g level outs :
  NoDup (node_ID <$> level) -> (forall n, n ∈ level -> is_Some (nodes g !! node_ID n)) ->
  existsb (fun r => is_failed r && bool_decide (is_Some (graph_Node g (nr_NodeID r))))
          (values (executeLevel w e level outs).1) = existsb (node_fails w e) level.
Proof.
  intros Hnd Hg. rewrite <- (level_failure w e level outs Hnd). apply eq_true_iff_eq.
  rewrite !existsb_values. split.
  - intros (k & r & Hk & [Hf _]%andb_true_iff). eauto.
  - intros (k & r & Hk & Hf). exists k, r. split; [done|]. apply andb_true_iff. split; [done|].
    apply level_results_elem in Hk as (n & Hn & -> & ->); [|done].
    rewrite node_outcome_ID. by apply bool_decide_eq_true, Hg.
Qed.

(** The results after the first [k] levels, over what was there before. *)
Definition results_after (w : env) (e : DAGExecutor) (ns : list Node)
  (old new : gmap UUID NodeResult) : Prop :=
  (forall n, n ∈ ns -> new !! node_ID n = Some (node_outcome w e n))
  /\ (forall id, id ∉ node_ID <$> ns -> new !! id = old !! id).

Lemma results_after_nil w e m : results_after w e [] m m.
Proof. split; [set_solver|done]. Qed.

Lemma results_after_level w e level outs ns old new :
  NoDup (node_ID <$> (level ++ ns)) ->
  results_after w e ns ((executeLevel w e level outs).1 ∪ old) new ->
  results_after w e (level ++ ns) old new.
Proof.
  rewrite fmap_app, NoDup_app. intros (Hnd & Hdisj & _) [Hin Hout].
  destruct (executeLevel_spec w e level outs Hnd) as [Ho Hi]. split.
  - intros n [Hn|Hn]%elem_of_app; [|auto]. rewrite Hout by (by apply Hdisj, list_elem_of_fmap_2).
    apply lookup_union_Some_l. by apply Hi.
  - intros id Hid. rewrite fmap_app, not_elem_of_app in Hid. destruct Hid as [Hl Hns].
    rewrite Hout by done. apply lookup_union_r. by apply Ho.
Qed.

(** Where the loop over the levels stopped: after [k] of them. *)
Definition stopped_after (w : env) (e : DAGExecutor) (i : nat) (levels : list (list Node)) (k : nat)
  (err : option ExecuteError) : Prop :=
  (err = None /\ k = length levels)
  \/ (err = None /\ policy e = FailFast
      /\ exists l n, levels !! pred k = Some l /\ (0 < k)%nat /\ n ∈ l /\ node_fails w e n = true)
  \/ (err = Some ErrContext /\ (k < length levels)%nat /\ ctxDone w (i + k) = true).

Definition no_failure_before (w : env) (e : DAGExecutor) (levels : list (list Node)) (k : nat) : Prop :=
  policy e = FailFast -> forall j l n, (S j < k)%nat -> levels !! j = Some l -> n ∈ l -> node_fails w e n = false.

Lemma existsb_fails_false w e level n :
  existsb (node_fails w e) level = false -> n ∈ level -> node_fails w e n = false.
Proof.
  intros He Hn. apply not_true_iff_false. intros Hf. apply not_true_iff_false in He. apply He, existsb_exists.
  exists n. by rewrite <- list_elem_of_In.
Qed.

Lemma execute_levels_spec w e ord g levels : forall i results outs,
  NoDup (node_ID <$> concat levels) -> (forall n, n ∈ concat levels -> is_Some (nodes g !! node_ID n)) ->
  exists r err k, execute_levels w e ord g i levels results outs = Returns (r, err)
    /\ (k <= length levels)%nat
    /\ results_after w e (concat (take k levels)) results (Results r)
    /\ Success r = negb (existsb is_failed (values (Results r)))
    /\ stopped_after w e i levels k err /\ no_failure_before w e levels k.
Proof.
  induction levels as [|level levels IH]; intros i results outs Hnd Hg; cbn [execute_levels].
  { eexists _, None, 0%nat. split_and!; [done|done|apply results_after_nil|done|by left|]. intros _ j l n. lia. }
  destruct (ctxDone w i) eqn:Hctx.
  { eexists _, (Some ErrContext), 0%nat. split_and!; [done|simpl; lia|apply results_after_nil|done| |].
    - right. right. rewrite Nat.add_0_r. split_and!; [done|simpl; lia|done].
    - intros _ j l n. lia. }
  simpl in Hnd. pose proof Hnd as Hnd'. rewrite fmap_app, NoDup_app in Hnd'. destruct Hnd' as (Hndl & _ & Hndr).
  assert (forall n, n ∈ level -> is_Some (nodes g !! node_ID n)) as Hgl
    by (intros n Hn; apply Hg; simpl; set_solver).
  pose proof (level_critical w e g level outs Hndl Hgl) as Hcrit.
  pose proof (level_failure w e level outs Hndl) as Hfail.
  pose proof (fun ns old new => results_after_level w e level outs ns old new) as Hafter.
  destruct (executeLevel w e level outs) as [levelResults outs']; simpl in Hcrit, Hfail, Hafter.
  rewrite Hcrit, Hfail.
  destruct (existsb (node_fails w e) level && bool_decide (policy e = FailFast)) eqn:Hstop.
  - apply andb_true_iff in Hstop as [Hf Hp%bool_decide_eq_true].
    eexists _, None, 1%nat. split_and!; [done|simpl; lia| |done| |].
    + simpl. apply Hafter; [|apply results_after_nil].
      by rewrite app_nil_r.
    + right. left. apply existsb_exists in Hf as (n & Hn%list_elem_of_In & Hf).
      split_and!; [done|done|]. exists level, n. simpl. split_and!; [done|lia|done|done].
    + intros _ j l n. lia.
  - destruct (IH (S i) (levelResults ∪ results)
      (omap (fun r => if bool_decide (nr_Status r = NodeStatusCompleted)
                         && negb (bool_decide (nr_Output r = AnyNil))
                      then Some (nr_Output r) else None) levelResults ∪ outs'))
      as (r & err & k & Heq & Hk & Hra & Hsucc & Hst & Hnf); [done|intros n Hn; apply Hg; simpl; set_solver|].
    exists r, err, (S k). split_and!; [done|simpl; lia| |done| |].
    + simpl. apply Hafter; [|done].
      rewrite fmap_app. rewrite fmap_app in Hnd. eapply sublist_NoDup; [exact Hnd|].
      apply sublist_app; [done|]. apply fmap_sublist. rewrite <- (take_drop k levels) at 2.
      rewrite concat_app. by apply sublist_inserts_r.
    + destruct Hst as [[-> ->]|[(-> & Hp & l & n & Hl & Hk0 & Hn & Hf)|(-> & Hlt & Hc)]].
      * left. done.
      * right. left. split_and!; [done|done|]. exists l, n.
        split_and!; [|lia|done|done]. destruct k; [lia|done].
      * right. right. split_and!; [done|simpl; lia|]. by rewrite Nat.add_succ_r.
    + intros Hp [|j] l n Hj Hl Hn; simplify_eq/=; [|apply (Hnf Hp j l); [lia|done|done]].
      rewrite (bool_decide_eq_true_2 _ Hp), andb_true_r in Hstop. by eapply existsb_fails_false.
Qed.

(** ** The depth-first marking of dependents *)

Section skip.
Context (g : Graph) (Hwf : graph_wf g) (results : gmap UUID NodeResult).

Lemma elem_of_Children id c : c ∈ Children g id <-> edge_rel g id (node_ID c) /\ nodes g !! node_ID c = Some c.
Proof using Hwf.
  unfold Children, edge_rel. rewrite list_elem_of_omap. split.
  - intros ([a b] & He & Hc); simpl in *. case_bool_decide; simplify_eq.
    by rewrite (wf_ids g Hwf _ _ Hc).
  - intros [He Hc]. exists (mkEdge id (node_ID c)). simpl. by rewrite bool_decide_eq_true_2.
Qed.

Lemma edge_child id y : edge_rel g id y -> y ∈ node_ID <$> Children g id.
Proof using Hwf.
  intros He. destruct (wf_to g Hwf _ He) as [c Hc]; simpl in Hc.
  pose proof (wf_ids g Hwf _ _ Hc) as <-. apply list_elem_of_fmap_2. by apply elem_of_Children.
Qed.

(** The effect of marking a set of roots [rs] from [st] to [st']. *)
Record marked (rs : list UUID) (st st' : gset UUID * gmap UUID NodeResult) : Prop := {
  mk_sub : st.1 ⊆ st'.1;
  mk_roots : forall x, x ∈ rs -> x ∈ st'.1;
  mk_from : forall x, x ∈ st'.1 -> x ∈ st.1 \/ exists r, r ∈ rs /\ rtc (edge_rel g) r x;
  mk_closed : forall x y, x ∈ st'.1 -> x ∉ st.1 -> edge_rel g x y -> y ∈ st'.1;
  mk_skipped : forall c, is_Some (st'.2 !! c) <->
     is_Some (st.2 !! c) \/ (results !! c = None /\ exists x, x ∈ st'.1 /\ (x ∉ st.1) /\ edge_rel g x c)
}.

Lemma marked_refl st : marked [] st st.
Proof. split; [set_solver..|]. naive_solver. Qed.

Lemma marked_seen st x : x ∈ st.1 -> marked [x] st st.
Proof. intros Hx. split; [done|set_solver|set_solver|naive_solver|naive_solver]. Qed.

Lemma marked_app rs1 rs2 st1 st2 st3 :
  marked rs1 st1 st2 -> marked rs2 st2 st3 -> marked (rs1 ++ rs2) st1 st3.
Proof.
  intros [S1 R1 F1 C1 K1] [S2 R2 F2 C2 K2]. split.
  - set_solver.
  - intros x [Hx|Hx]%elem_of_app; auto.
  - intros x [Hx|(r & Hr & Hx)]%F2; [|right; exists r; set_solver].
    destruct (F1 x Hx) as [?|(r & Hr & Hx')]; [by left|]. right. exists r. set_solver.
  - intros x y H3 H1 He. destruct (decide (x ∈ st2.1)) as [H2|H2]; [|eauto].
    apply S2. eauto.
  - intros c. rewrite K2, K1. split.
    + intros [[Hc|(Hr & x & Hx & Hx' & He)]|(Hr & x & Hx & Hx' & He)]; [by left| |];
        right; (split; [done|]); exists x; set_solver.
    + intros [Hc|(Hr & x & Hx & Hx' & He)]; [by left; left|].
      destruct (decide (x ∈ st2.1)); [left|]; right; eauto 6.
Qed.

(** [skip_child] is what the loop does to [skipped] before the recursive call. *)
Definition skip_child (skp : gmap UUID NodeResult) (child : Node) : gmap UUID NodeResult :=
  match results !! node_ID child with
  | Some _ => skp
  | None => <[node_ID child := mkNodeResult (node_ID child) (node_Name child)
                NodeStatusSkipped "dependency failed" AnyNil 0]> skp
  end.

Lemma skip_child_Some skp child c :
  is_Some (skip_child skp child !! c) <-> is_Some (skp !! c) \/ (results !! c = None /\ c = node_ID child).
Proof.
  unfold skip_child. destruct (results !! node_ID child) eqn:Hr.
  - split; [by left|]. intros [?|[? ->]]; [done|congruence].
  - rewrite lookup_insert_is_Some'. naive_solver.
Qed.

(** Marking the children [cs] of [id] one by one, once [id] is visited. *)
Definition mark_children (fuel : nat) (acc : option (gset UUID * gmap UUID NodeResult)) (cs : list Node) :=
  foldl (fun acc child =>
           match acc with
           | None => None
           | Some (vis, skp) => markSkipped fuel g results (vis, skip_child skp child) (node_ID child)
           end) acc cs.

Definition unvisited (vis : gset UUID) : nat := size (dom (nodes g) ∖ vis).

Lemma mark_children_marked fuel cs vis skp :
  (forall vis skp id, (unvisited vis < fuel)%nat -> is_Some (nodes g !! id) ->
     exists st', markSkipped fuel g results (vis, skp) id = Some st' /\ marked [id] (vis, skp) st') ->
  (unvisited vis < fuel)%nat -> (forall c, c ∈ cs -> nodes g !! node_ID c = Some c) ->
  exists st', mark_children fuel (Some (vis, skp)) cs = Some st'
    /\ marked (node_ID <$> cs) (vis, foldl skip_child skp cs) st'.
Proof.
  intros Hrec. revert vis skp. induction cs as [|c cs IH]; intros vis skp Hf Hcs.
  { eexists. split; [done|]. apply marked_refl. }
  cbn [mark_children foldl].
  destruct (Hrec vis (skip_child skp c) (node_ID c)) as ([vis1 skp1] & -> & Hm1);
    [done|rewrite (Hcs c) by left; eauto|].
  destruct (IH vis1 skp1) as (st' & Hc & Hm2).
  { assert (unvisited vis1 <= unvisited vis)%nat; [|lia].
    unfold unvisited. apply subseteq_size. pose proof (mk_sub _ _ _ Hm1). set_solver. }
  { intros c' Hc'. apply Hcs. by right. }
  exists st'. split; [exact Hc|]. clear Hc IH Hrec.
  assert (marked [node_ID c] (vis, foldl skip_child (skip_child skp c) cs) (vis1, foldl skip_child skp1 cs)) as Hm1'.
  { destruct Hm1 as [S1 R1 F1 C1 K1]. split; [done..|]. clear -K1. simpl in *.
    assert (forall s s' c, (is_Some (s' !! c) <-> is_Some (s !! c)
      \/ (results !! c = None /\ exists x, x ∈ vis1 /\ (x ∉ vis) /\ edge_rel g x c)) ->
      is_Some (foldl skip_child s' cs !! c) <-> is_Some (foldl skip_child s cs !! c)
      \/ (results !! c = None /\ exists x, x ∈ vis1 /\ (x ∉ vis) /\ edge_rel g x c)) as Hgen; [|auto].
    induction cs as [|d cs IH]; intros s s' a Ha; simpl; [done|]. apply IH. rewrite !skip_child_Some. naive_solver. }
  by apply (marked_app [node_ID c] _ _ _ _ Hm1').
Qed.

Lemma foldl_skip_child_Some cs skp c :
  is_Some (foldl skip_child skp cs !! c)
    <-> is_Some (skp !! c) \/ (results !! c = None /\ c ∈ node_ID <$> cs).
Proof.
  revert skp. induction cs as [|d cs IH]; intros skp; cbn [foldl]; [set_solver|].
  rewrite IH, skip_child_Some, fmap_cons, elem_of_cons. naive_solver.
Qed.

Lemma markSkipped_marked fuel : forall vis skp id,
  (unvisited vis < fuel)%nat -> is_Some (nodes g !! id) ->
  exists st', markSkipped fuel g results (vis, skp) id = Some st' /\ marked [id] (vis, skp) st'.
Proof using Hwf.
  induction fuel as [|fuel IH]; intros vis skp id Hf Hid; [lia|]. cbn [markSkipped].
  case_bool_decide as Hv; [eexists; split; [done|by apply marked_seen]|].
  destruct (mark_children_marked fuel (Children g id) ({[id]} ∪ vis) skp IH) as (st' & Hmc & Hm).
  { assert (unvisited ({[id]} ∪ vis) < unvisited vis)%nat; [|lia].
    unfold unvisited. apply subset_size. apply elem_of_dom in Hid. set_solver. }
  { intros c Hc. by apply elem_of_Children in Hc as [_ ?]. }
  exists st'. split; [exact Hmc|]. clear Hmc IH. destruct Hm as [S1 R1 F1 C1 K1]; simpl in *. split; simpl.
  - set_solver.
  - set_solver.
  - intros x [[->%elem_of_singleton|Hx]%elem_of_union|(r & (c & -> & Hc)%list_elem_of_fmap & Hr)]%F1;
      [right; exists id; set_solver|by left|].
    right. exists id. split; [set_solver|]. apply elem_of_Children in Hc as [He _]. by eapply rtc_l.
  - intros x y Hx Hn He. destruct (decide (x = id)) as [->|Hne]; [by apply R1, edge_child|].
    eapply C1; [done| |done]. set_solver.
  - intros c. rewrite K1, foldl_skip_child_Some. split.
    + intros [[?|[Hr (d & -> & [He _]%elem_of_Children)%list_elem_of_fmap]]|(Hr & x & Hx & Hn & He)]; [by left| |].
      * right. split; [done|]. exists id. set_solver.
      * right. split; [done|]. exists x. set_solver.
    + intros [?|(Hr & x & Hx & Hn & He)]; [by left; left|].
      destruct (decide (x = id)) as [->|Hne]; [left; right; split; [done|by apply edge_child]|].
      right. split; [done|]. exists x. set_solver.
Qed.

(** The nodes of [level] whose result is a failure. *)
Definition has_failed (id : UUID) : bool :=
  match results !! id with Some r => is_failed r | None => false end.
Definition failed_IDs (level : list Node) : list UUID := List.filter has_failed (node_ID <$> level).

Lemma skip_level_marked level : forall st,
  (forall n, n ∈ level -> is_Some (nodes g !! node_ID n)) ->
  exists st', foldl (fun acc n =>
            match acc with
            | None => None
            | Some st =>
                match results !! node_ID n with
                | Some result =>
                    if bool_decide (nr_Status result = NodeStatusFailed)
                    then markSkipped (S (size (nodes g))) g results st (node_ID n)
                    else Some st
                | None => Some st
                end
            end) (Some st) level = Some st'
    /\ marked (failed_IDs level) st st'.
Proof using Hwf.
  induction level as [|n level IH]; intros st Hin; cbn [foldl].
  { eexists. split; [done|]. apply marked_refl. }
  assert (exists st1, match results !! node_ID n with
     | Some result => if bool_decide (nr_Status result = NodeStatusFailed)
                      then markSkipped (S (size (nodes g))) g results st (node_ID n) else Some st
     | None => Some st end = Some st1
     /\ marked (if has_failed (node_ID n) then [node_ID n] else []) st st1) as (st1 & -> & Hm1).
  { unfold has_failed, is_failed. destruct (results !! node_ID n) as [r|]; [|eauto using marked_refl].
    case_bool_decide; [|eauto using marked_refl]. destruct st as [vis skp]. apply markSkipped_marked.
    - unfold unvisited. assert (size (dom (nodes g) ∖ vis) <= size (dom (nodes g)))%nat as Hle
        by (apply subseteq_size; set_solver). rewrite size_dom in Hle. lia.
    - apply Hin. left. }
  destruct (IH st1) as (st' & -> & Hm2); [intros m Hm; apply Hin; by right|].
  exists st'. split; [done|]. unfold failed_IDs. rewrite fmap_cons. cbn [List.filter].
  pose proof (marked_app _ _ _ _ _ Hm1 Hm2) as Hm. by destruct (has_failed (node_ID n)).
Qed.

Lemma skipDependents_marked level :
  (forall n, n ∈ level -> is_Some (nodes g !! node_ID n)) ->
  exists skipped, skipDependents g level results = Some skipped
    /\ forall c, is_Some (skipped !! c) <->
         results !! c = None /\ exists r, r ∈ failed_IDs level /\ tc (edge_rel g) r c.
Proof using Hwf.
  intros Hin. unfold skipDependents.
  destruct (skip_level_marked level (∅, ∅) Hin) as ([vis skp] & -> & [S1 R1 F1 C1 K1]); simpl in *.
  exists skp. split; [done|]. intros c. rewrite K1, lookup_empty. split.
  - intros [[? ?]|(Hr & x & Hx & _ & He)]; [done|]. split; [done|].
    destruct (F1 x Hx) as [?|(r & Hrr & Hrx)]; [set_solver|]. exists r. split; [done|]. by eapply tc_rtc_l, tc_once.
  - intros (Hr & r & Hrr & Ht). right. split; [done|].
    assert (forall x y, rtc (edge_rel g) x y -> x ∈ vis -> y ∈ vis) as Hcl.
    { induction 1; [done|]. intros Hx. apply IHrtc. apply (C1 x); [done|set_solver|done]. }
    assert (exists x, rtc (edge_rel g) r x /\ edge_rel g x c) as (x & Hx & He).
    { clear -Ht. induction Ht as [x y Hxy|x y z Hxy _ (w & Hw & Hwz)]; [by exists x|].
      exists w. split; [by eapply rtc_l|done]. }
    exists x. split_and!; [|set_solver|done]. apply (Hcl r); [done|auto].
Qed.

End skip.

(** ** The levels of a well-formed graph *)

Lemma wf_values_IDs g : graph_wf g -> node_ID <$> values (nodes g) = keys (nodes g).
Proof.
  intros Hwf. unfold values, keys. rewrite <- list_fmap_compose. apply list_fmap_ext.
  intros i [id n] Hi. simpl. apply (wf_ids g Hwf). apply elem_of_map_to_list. by eapply list_elem_of_lookup_2.
Qed.

Section levels.
Context (g : Graph) (Hwf : graph_wf g) (levels : list (list Node)).
Context (Hperm : concat levels ≡ₚ values (nodes g)).
Context (Hlong : forall i l n, levels !! i = Some l -> n ∈ l -> longest_path_to g (node_ID n) i).

Lemma levels_NoDup : NoDup (node_ID <$> concat levels).
Proof using Hwf Hperm. rewrite Hperm, wf_values_IDs by done. apply NoDup_keys. Qed.

Lemma levels_in_graph n : n ∈ concat levels <-> nodes g !! node_ID n = Some n.
Proof using Hwf Hperm. rewrite Hperm, wf_elem_node by done. naive_solver. Qed.

Lemma elem_of_concat_take k n :
  n ∈ concat (take k levels) <-> exists i l, (i < k)%nat /\ levels !! i = Some l /\ n ∈ l.
Proof.
  rewrite list_elem_of_In, in_concat. setoid_rewrite <- list_elem_of_In. split.
  - intros (l & [i Hi]%list_elem_of_lookup & Hn).
    apply lookup_take_Some in Hi as [Hi Hk]. eauto.
  - intros (i & l & Hi & Hl & Hn). exists l. split; [|done].
    apply list_elem_of_lookup. exists i. by apply lookup_take_Some.
Qed.

(** The source of an edge lies in an earlier level than its target. *)
Lemma edge_levels x y i l n m :
  edge_rel g x y -> node_ID n = x -> node_ID m = y -> n ∈ concat levels ->
  levels !! i = Some l -> m ∈ l -> exists j l', (j < i)%nat /\ levels !! j = Some l' /\ n ∈ l'.
Proof using Hlong.
  intros He <- <- Hn Hi Hm.
  apply list_elem_of_In, in_concat in Hn as (l' & [j Hj]%list_elem_of_In%list_elem_of_lookup & Hn%list_elem_of_In).
  exists j, l'. split; [|done]. destruct (Hlong j l' n Hj Hn) as [[z Hz] _].
  destruct (Hlong i l m Hi Hm) as [_ Hup].
  apply (Nat.lt_le_trans _ (S j)); [lia|]. apply (Hup (S j) z). by eapply nsteps_r.
Qed.
End levels.

(** What one execution of an acyclic graph returns. *)
Record execution_ok (w : env) (e : DAGExecutor) (g : Graph) (r : ExecutionResult)
  (err : option ExecuteError) : Prop := {
  ex_results : forall id x, Results r !! id = Some x ->
     exists n, nodes g !! id = Some n /\ x = node_outcome w e n;
  ex_success : Success r = true <-> forall id x, Results r !! id = Some x -> nr_Status x <> NodeStatusFailed;
  ex_ordered : forall x y, edge_rel g x y -> is_Some (Results r !! y) ->
     exists rx, Results r !! x = Some rx /\ (policy e = FailFast -> nr_Status rx <> NodeStatusFailed);
  ex_complete : policy e = ContinueOnFailure -> (forall i, ctxDone w i = false) ->
     err = None /\ dom (Results r) = dom (nodes g);
  ex_success_complete : Success r = true -> (forall i, ctxDone w i = false) ->
     err = None /\ dom (Results r) = dom (nodes g)
}.

Lemma is_failed_false r : is_failed r = false <-> nr_Status r <> NodeStatusFailed.
Proof. unfold is_failed. by rewrite bool_decide_eq_false. Qed.

Lemma all_levels_dom w e g levels r :
  graph_wf g -> concat levels ≡ₚ values (nodes g) ->
  results_after w e (concat levels) ∅ r -> dom r = dom (nodes g).
Proof.
  intros Hwf Hperm [Hin Hout]. apply set_eq. intros id. rewrite !elem_of_dom. split.
  - intros [x Hx]. destruct (decide (id ∈ node_ID <$> concat levels)) as [(n & -> & Hn)%list_elem_of_fmap|Hn].
    + apply (levels_in_graph g Hwf levels Hperm) in Hn. eauto.
    + rewrite Hout, lookup_empty in Hx by done. done.
  - intros [n Hn]. pose proof (wf_ids g Hwf _ _ Hn) as <-.
    rewrite (Hin n); [eauto|]. by apply (levels_in_graph g Hwf levels Hperm).
Qed.

Lemma execution_ok_of_levels w e g levels r err k :
  graph_wf g -> concat levels ≡ₚ values (nodes g) ->
  (forall i l n, levels !! i = Some l -> n ∈ l -> longest_path_to g (node_ID n) i) ->
  results_after w e (concat (take k levels)) ∅ (Results r) ->
  Success r = negb (existsb is_failed (values (Results r))) ->
  stopped_after w e 0 levels k err -> no_failure_before w e levels k -> execution_ok w e g r err.
Proof.
  intros Hwf Hperm Hlong Hra Hsucc Hst Hnf. pose proof Hra as [Hin Hout].
  assert (forall id x, Results r !! id = Some x ->
    exists n, id = node_ID n /\ n ∈ concat (take k levels) /\ x = node_outcome w e n) as Hres.
  { intros id x Hx. destruct (decide (id ∈ node_ID <$> concat (take k levels)))
      as [(n & -> & Hn)%list_elem_of_fmap|Hn].
    - exists n. rewrite (Hin n Hn) in Hx. naive_solver.
    - rewrite Hout, lookup_empty in Hx by done. done. }
  assert (Success r = true <-> forall id x, Results r !! id = Some x -> nr_Status x <> NodeStatusFailed) as Hsp.
  { rewrite Hsucc, negb_true_iff, <- not_true_iff_false, existsb_values.
    setoid_rewrite <- is_failed_false. setoid_rewrite <- not_true_iff_false. naive_solver. }
  assert (k = length levels -> dom (Results r) = dom (nodes g)) as Hall.
  { intros ->. rewrite firstn_all in Hra. by eapply all_levels_dom. }
  split; [|done| | |].
  - intros id x Hx. destruct (Hres id x Hx) as (n & -> & Hn & ->). exists n. split; [|done].
    apply elem_of_concat_take in Hn as (i & l & _ & Hl & Hn).
    apply (levels_in_graph g Hwf levels Hperm). apply list_elem_of_In, in_concat. exists l.
    rewrite <- !list_elem_of_In. split; [by eapply list_elem_of_lookup_2|done].
  - intros x y He [ry Hry]. destruct (Hres y ry Hry) as (m & -> & Hm & ->).
    apply elem_of_concat_take in Hm as (i & l & Hik & Hl & Hm).
    destruct (wf_from g Hwf _ He) as [n Hn]; simpl in Hn.
    pose proof (wf_ids g Hwf _ _ Hn) as Hid. rewrite <- Hid in Hn.
    apply (levels_in_graph g Hwf levels Hperm) in Hn.
    destruct (edge_levels g levels Hlong x (node_ID m) i l n m He Hid eq_refl Hn Hl Hm) as (j & l' & Hji & Hj & Hnl).
    exists (node_outcome w e n). rewrite <- Hid. split.
    + apply Hin, elem_of_concat_take. exists j, l'. split_and!; [lia|done|done].
    + intros Hp. apply is_failed_false. apply (Hnf Hp j l'); [lia|done|done].
  - intros Hp Hc. destruct Hst as [[-> Hk]|[(_ & Hp' & _)|(_ & _ & Hd)]]; [auto|congruence|].
    by rewrite Hc in Hd.
  - intros Hs Hc. destruct Hst as [[-> Hk]|[(_ & _ & l & n & Hl & Hk & Hn & Hf)|(_ & _ & Hd)]];
      [auto| |by rewrite Hc in Hd].
    rewrite Hsp in Hs. unfold node_fails, is_failed in Hf. apply bool_decide_eq_true in Hf.
    destruct (Hs (node_ID n) (node_outcome w e n)); [|done]. apply Hin, elem_of_concat_take.
    exists (pred k), l. split_and!; [lia|done|done].
Qed.

(** A quiet environment, and an executor whose "enrich" handler fails. *)
Definition quiet : env := mkEnv (fun _ => false) (fun _ => false) (fun _ => 7) 42.
Definition etl : DAGExecutor :=
  RegisterHandler
    (RegisterHandler NewDAGExecutor "extract" (fun _ _ _ => (AnyInt 3, None)))
    "enrich" (fun _ _ inputs => (AnyInt (Z.of_nat (size inputs)), Some "no rows")).

Example diamond_run :
  match Execute quiet etl [3; 1; 4; 5; 2]%N [1; 2; 3; 4; 5]%N [1; 2; 3; 4; 5]%N diamond with
  | Returns (Some r, None) =>
      nr_Status <$> (Results r !! 2%N) = Some NodeStatusCompleted
      /\ nr_Status <$> (Results r !! 3%N) = Some NodeStatusFailed
      /\ Results r !! 4%N = None /\ Success r = false
  | _ => False
  end.
Proof. vm_compute. done. Qed.

(** ** Properties *)

(** C6: whatever the interleaving of the goroutines of a level (whose nodes have
    distinct identifiers), a run takes at most four steps per node, never blocks
    before all goroutines have ended, and ends with exactly the results and outputs
    that running the nodes one after the other produces. *)
Theorem executeLevel_interleaving (w : env) (e : DAGExecutor) (level : list Node) (outs : gmap UUID any)
  (Hnd : NoDup (node_ID <$> level)) :
  (forall st k, nsteps (level_step w e) k (level_start level outs) st ->
     (k <= 4 * length level)%nat /\ (level_done st \/ exists st', level_step w e st st'))
  /\ (forall st, rtc (level_step w e) (level_start level outs) st -> level_done st ->
        (ls_results st, ls_outputs st) = executeLevel w e level outs).
Proof.
  split.
  - intros st k Hk. split; [by eapply level_run_bound|apply level_progress].
  - intros st Hr Hd. apply level_final; [done| |done]. by apply level_run_ok.
Qed.

Lemma executeLevel_interleaving_witness :
  (forall st k, nsteps (level_step quiet etl) k (level_start (values (nodes diamond)) ∅) st ->
     (k <= 4 * length (values (nodes diamond)))%nat /\ (level_done st \/ exists st', level_step quiet etl st st'))
  /\ (forall st, rtc (level_step quiet etl) (level_start (values (nodes diamond)) ∅) st -> level_done st ->
        (ls_results st, ls_outputs st) = executeLevel quiet etl (values (nodes diamond)) ∅).
Proof.
  apply (executeLevel_interleaving quiet etl (values (nodes diamond)) ∅).
  rewrite (wf_values_IDs diamond diamond_wf). apply NoDup_keys.
Defined.

(** C4: on a well-formed graph [Execute] always returns.  A cyclic graph gives the
    level error and no result.  Otherwise every reported result is that of running
    the node on an empty input map; a node has a result only if all its parents
    have one, and under [FailFast] none of these failed; [Success] means that no
    result is a failure; and without cancellation a successful run, or any run
    under [ContinueOnFailure], has executed every node. *)
Theorem Execute_correct (w : env) (e : DAGExecutor) (g : Graph) (ord1 ord2 ord3 : list UUID)
  (Hwf : graph_wf g) (H1 : range_order (nodes g) ord1) (H2 : range_order (nodes g) ord2) :
  (acyclic g /\ exists r err, Execute w e ord1 ord2 ord3 g = Returns (Some r, err) /\ execution_ok w e g r err)
  \/ ((exists x, tc (edge_rel g) x x)
      /\ Execute w e ord1 ord2 ord3 g = Returns (None, Some (ErrComputeLevels ErrGraphCycle))).
Proof.
  unfold Execute.
  destruct (Levels_wf g ord1 ord2 Hwf) as [(Hac & levels & d & -> & Hperm & Hlong & _)|(Hc & ->)];
    [by apply range_order_inDegree..| |by right].
  left. split; [done|].
  destruct (execute_levels_spec w e ord3 g levels 0 ∅ ∅)
    as (r & err & k & -> & Hk & Hra & Hs & Hst & Hnf); [by apply (levels_NoDup g)| |].
  { intros n Hn. apply (levels_in_graph g Hwf levels Hperm) in Hn. eauto. }
  exists r, err. split; [done|]. by eapply execution_ok_of_levels.
Qed.

Lemma Execute_correct_witness :
  (acyclic diamond /\ exists r err,
     Execute quiet etl [2; 5; 4; 1; 3]%N [2; 5; 4; 1; 3]%N [] diamond = Returns (Some r, err)
     /\ execution_ok quiet etl diamond r err)
  \/ ((exists x, tc (edge_rel diamond) x x)
      /\ Execute quiet etl [2; 5; 4; 1; 3]%N [2; 5; 4; 1; 3]%N [] diamond
         = Returns (None, Some (ErrComputeLevels ErrGraphCycle))).
Proof.
  apply (Execute_correct quiet etl diamond _ _ [] diamond_wf diamond_node_order diamond_node_order).
Defined.

(** On a well-formed graph the recursive marking of [skipDependents] terminates,
    cycles included, and returns an entry exactly for the nodes without a result
    that a failed node of the level reaches. *)
Theorem skipDependents_correct (g : Graph) (level : list Node) (results : gmap UUID NodeResult)
  (Hwf : graph_wf g) (Hlevel : forall n, n ∈ level -> is_Some (nodes g !! node_ID n)) :
  exists skipped, skipDependents g level results = Some skipped
    /\ forall c, is_Some (skipped !! c) <->
         results !! c = None /\ exists n r, n ∈ level /\ results !! node_ID n = Some r
           /\ nr_Status r = NodeStatusFailed /\ tc (edge_rel g) (node_ID n) c.
Proof.
  destruct (skipDependents_marked g Hwf results level Hlevel) as (skipped & -> & Hs).
  exists skipped. split; [done|]. intros c. rewrite Hs. f_equiv. unfold failed_IDs, has_failed, is_failed. split.
  - intros (id & Hid & Ht). apply list_elem_of_In, filter_In in Hid as [Hid Hf].
    apply list_elem_of_In, list_elem_of_fmap in Hid as (n & -> & Hn).
    destruct (results !! node_ID n) as [r|] eqn:Hr; [|done]. apply bool_decide_eq_true in Hf. eauto 8.
  - intros (n & r & Hn & Hr & Hf & Ht). exists (node_ID n). split; [|done].
    apply list_elem_of_In, filter_In. rewrite <- list_elem_of_In, Hr.
    split; [by apply list_elem_of_fmap_2|by apply bool_decide_eq_true].
Qed.

Lemma skipDependents_correct_witness :
  exists skipped, skipDependents lasso (values (nodes lasso)) ∅ = Some skipped
    /\ forall c, is_Some (skipped !! c) <->
         (∅ : gmap UUID NodeResult) !! c = None
         /\ exists n r, n ∈ values (nodes lasso) /\ (∅ : gmap UUID NodeResult) !! node_ID n = Some r
           /\ nr_Status r = NodeStatusFailed /\ tc (edge_rel lasso) (node_ID n) c.
Proof.
  apply (skipDependents_correct lasso _ ∅ lasso_wf).
  intros n Hn. exists n. apply wf_elem_node; [apply lasso_wf|done].
Defined.
