(* ===== verification/GoStrings.v ===== *)
(** * Strings of Go's standard library

    The functions of package strings that the sources use on UTF-8 text kept as its
    bytes: letters, blank text, trimming, fields and splitting. *)

From S2P Require Import Prelude.

(** ** Characters *)

Definition code (c : Ascii.ascii) : N := Ascii.N_of_ascii c.
Definition between (lo hi : N) (c : Ascii.ascii) : bool := ((lo <=? code c) && (code c <=? hi))%N.

(** ** Letters *)

Definition is_upper (c : Ascii.ascii) : bool := between 65 90 c.
Definition is_lower (c : Ascii.ascii) : bool := between 97 122 c.
Definition is_digit (c : Ascii.ascii) : bool := between 48 57 c.
Definition to_upper (c : Ascii.ascii) : Ascii.ascii := if is_lower c then Ascii.ascii_of_N (code c - 32) else c.
Definition to_lower (c : Ascii.ascii) : Ascii.ascii := if is_upper c then Ascii.ascii_of_N (code c + 32) else c.

(** [strings.ToLower] and [strings.ToUpper] on ASCII letters; others are kept. *)
Fixpoint map_string (f : Ascii.ascii -> Ascii.ascii) (s : string) : string :=
  match s with EmptyString => EmptyString | String c s => String (f c) (map_string f s) end.
Definition ToLower : string -> string := map_string to_lower.
Definition ToUpper : string -> string := map_string to_upper.

(** [strings.Contains]. *)
Fixpoint Contains (s sub : string) : bool :=
  String.prefix sub s || match s with EmptyString => false | String _ s' => Contains s' sub end.

(** ** Blank text *)

(** [unicode.IsSpace] on the UTF-8 encodings of one, two and three bytes. *)
Definition space1 (a : Ascii.ascii) : bool := between 9 13 a || (code a =? 32)%N.
Definition space2 (a b : Ascii.ascii) : bool := ((code a =? 194) && ((code b =? 133) || (code b =? 160)))%N.
Definition space3 (a b c : Ascii.ascii) : bool :=
  (((code a =? 225) && (code b =? 154) && (code c =? 128))
   || ((code a =? 226) && (code b =? 128)
       && (between 128 138 c || (code c =? 168) || (code c =? 169) || (code c =? 175)))
   || ((code a =? 226) && (code b =? 129) && (code c =? 159))
   || ((code a =? 227) && (code b =? 128) && (code c =? 128)))%N.

(** [strings.TrimSpace(s) == ""]. *)
Fixpoint blank (s : string) : bool :=
  match s with
  | EmptyString => true
  | String a s1 =>
      if space1 a then blank s1
      else match s1 with
           | String b s2 =>
               if space2 a b then blank s2
               else match s2 with
                    | String c s3 => space3 a b c && blank s3
                    | EmptyString => false
                    end
           | EmptyString => false
           end
  end.

(** [strings.TrimSpace]: the leading spaces, then the longest blank suffix. *)
Fixpoint trim_left (s : string) : string :=
  match s with
  | EmptyString => EmptyString
  | String a s1 =>
      if space1 a then trim_left s1
      else match s1 with
           | String b s2 =>
               if space2 a b then trim_left s2
               else match s2 with
                    | String c s3 => if space3 a b c then trim_left s3 else s
                    | EmptyString => s
                    end
           | EmptyString => s
           end
  end.

Fixpoint trim_right (s : string) : string :=
  if blank s then EmptyString
  else match s with
       | EmptyString => EmptyString
       | String c s' => String c (trim_right s')
       end.

Definition TrimSpace (s : string) : string := trim_right (trim_left s).

(** ** Splitting *)

Definition flush (cur : string) : list string := if String.eqb cur "" then [] else [cur].
Definition snoc (cur : string) (c : Ascii.ascii) : string := (cur +:+ String c EmptyString)%string.

(** [strings.Fields], with the field being read. *)
Fixpoint fields_from (cur : string) (s : string) : list string :=
  match s with
  | EmptyString => flush cur
  | String a s1 =>
      if space1 a then flush cur ++ fields_from "" s1
      else match s1 with
           | String b s2 =>
               if space2 a b then flush cur ++ fields_from "" s2
               else match s2 with
                    | String c s3 =>
                        if space3 a b c then flush cur ++ fields_from "" s3
                        else fields_from (snoc cur a) s1
                    | EmptyString => fields_from (snoc cur a) s1
                    end
           | EmptyString => fields_from (snoc cur a) s1
           end
  end.
Definition Fields (s : string) : list string := fields_from "" s.

(** [strings.Split] at a one-character separator. *)
Fixpoint split_from (sep : Ascii.ascii) (cur : string) (s : string) : list string :=
  match s with
  | EmptyString => [cur]
  | String c s' => if Ascii.eqb c sep then cur :: split_from sep "" s' else split_from sep (snoc cur c) s'
  end.
Definition Split (s : string) (sep : Ascii.ascii) : list string := split_from sep "" s.

(** Whether a character occurs, and the text after its first occurrence. *)
Fixpoint has_char (x : Ascii.ascii) (s : string) : bool :=
  match s with
  | EmptyString => false
  | String c s' => Ascii.eqb c x || has_char x s'
  end.
Fixpoint after_char (x : Ascii.ascii) (s : string) : string :=
  match s with
  | EmptyString => EmptyString
  | String c s' => if Ascii.eqb c x then s' else after_char x s'
  end.

(** [strings.TrimPrefix]. *)
Fixpoint TrimPrefix (s p : string) : string :=
  match p, s with
  | String a p', String b s' => if Ascii.eqb a b then
                                  if String.prefix p' s' then TrimPrefix s' p' else s
                                else s
  | _, _ => s
  end.

Lemma append_nil_r (s : string) : (s +:+ "")%string = s.
Proof. induction s as [|c s IH]; [done|exact (f_equal (String c) IH)]. Qed.

Lemma append_snoc (cur : string) c (s : string) : (snoc cur c +:+ s)%string = (cur +:+ String c s)%string.
Proof. unfold snoc. induction cur as [|a cur IH]; [done|exact (f_equal (String a) IH)]. Qed.

Lemma split_from_not_nil sep cur s : split_from sep cur s <> [].
Proof. revert cur. induction s as [|c s IH]; intros cur; simpl; [done|]. by destruct (Ascii.eqb c sep). Qed.

Lemma split_from_join sep cur s :
  strings_Join (split_from sep cur s) (String sep EmptyString) = (cur +:+ s)%string.
Proof.
  revert cur. induction s as [|c s IH]; intros cur; cbn [split_from].
  - by rewrite append_nil_r.
  - destruct (Ascii.eqb_spec c sep) as [->|]; [|by rewrite IH, append_snoc].
    specialize (IH EmptyString). pose proof (split_from_not_nil sep "" s).
    destruct (split_from sep "" s) as [|x l]; [done|]. cbn [strings_Join] in *. by rewrite IH.
Qed.

(** Splitting loses nothing. *)
Lemma Split_Join s sep : strings_Join (Split s sep) (String sep EmptyString) = s.
Proof. apply split_from_join. Qed.

Example fields_example : Fields " 0  9 * * 1 " = ["0"; "9"; "*"; "*"; "1"] /\ TrimSpace "  a b " = "a b".
Proof. vm_compute. done. Qed.

(** ** Substrings *)

Definition occurs (sub s : string) : Prop := exists a b, s = (a +:+ sub +:+ b)%string.

Lemma prefix_app_true p t : String.prefix p (p +:+ t)%string = true.
Proof. induction p as [|c p IH]; [by destruct t|]. simpl. destruct (Ascii.ascii_dec c c); done. Qed.

Lemma Contains_spec s sub : Contains s sub = true <-> occurs sub s.
Proof.
  induction s as [|c s IH].
  - cbn [Contains]. rewrite orb_false_r. split.
    + intros (t & Ht)%prefix_app. exists ""%string, t. done.
    + intros (a & b & Hs). destruct a; [|done]. destruct sub; [done|done].
  - cbn [Contains]. rewrite orb_true_iff, IH. split.
    + intros [(t & Ht)%prefix_app | (a & b & ->)]; [by exists ""%string, t|by exists (String c a), b].
    + intros ([|a0 a] & b & Hs); [left; rewrite Hs; apply (prefix_app_true sub b)|right]. injection Hs as _ ->. by exists a, b.
Qed.

(** [strings.HasSuffix]. *)
Fixpoint HasSuffix (s suffix : string) : bool :=
  String.eqb s suffix || match s with EmptyString => false | String _ s' => HasSuffix s' suffix end.

Lemma HasSuffix_spec s suffix : HasSuffix s suffix = true <-> exists a, s = (a +:+ suffix)%string.
Proof.
  induction s as [|c s IH]; cbn [HasSuffix].
  - rewrite orb_false_r, String.eqb_eq. split; [intros <-; by exists ""%string|].
    intros ([|] & Ha); [done|discriminate Ha].
  - rewrite orb_true_iff, String.eqb_eq, IH. split.
    + intros [<-|[a ->]]; [by exists ""%string|by exists (String c a)].
    + intros ([|d a] & Ha); [left; exact Ha|right]. injection Ha as _ ->. by exists a.
Qed.

(** [strings.ReplaceAll] of a character. *)
Fixpoint ReplaceAll (s : string) (old : Ascii.ascii) (new : string) : string :=
  match s with
  | EmptyString => EmptyString
  | String c s' => if Ascii.eqb c old then (new +:+ ReplaceAll s' old new)%string else String c (ReplaceAll s' old new)
  end.
