(* ===== verification/GoHttp.v ===== *)
(** * Headers of Go's net/http

    The canonical form of a header's name and [Header.Set], which replaces what the name
    has: a header is kept as the last value set. *)

From S2P Require Import Prelude GoStrings.

(** The bytes of a token. *)
Definition token_byte (c : Ascii.ascii) : bool :=
  is_upper c || is_lower c || is_digit c || has_char c "!#$%&'*+-.^_`|~".

Fixpoint all_token (s : string) : bool :=
  match s with EmptyString => true | String c s => token_byte c && all_token s end.

Fixpoint canonical_from (upper : bool) (s : string) : string :=
  match s with
  | EmptyString => EmptyString
  | String c s => String (if upper then to_upper c else to_lower c) (canonical_from (code c =? 45)%N s)
  end.

(** [textproto.CanonicalMIMEHeaderKey]. *)
Definition CanonicalHeaderKey (s : string) : string := if all_token s then canonical_from true s else s.

Abbreviation Header := (gmap string string).
Definition Header_Set (key value : string) (h : Header) : Header := <[CanonicalHeaderKey key := value]> h.

(** Setting a list of headers one after the other. *)
Definition set_all (l : list (string * string)) (h : Header) : Header :=
  foldl (fun h kv => Header_Set kv.1 kv.2 h) h l.
