(* ===== verification/JsonText.v ===== *)
(** * JSON texts: encoding/json

    What the program uses of package encoding/json on bytes: the encoding of a string, with the escapes
    of HTML and the replacement of bytes that are not UTF-8; its decoding; the scanner that decides whether a
    text is JSON, and the compact form of a raw message. *)

From S2P Require Import Prelude GoStrings.

(** ** UTF-8 *)

Definition chr (n : N) : Ascii.ascii := Ascii.ascii_of_N n.
Definition cont : Ascii.ascii -> bool := between 128 191.
Definition is_ascii : Ascii.ascii -> bool := between 0 127.

(** The encodings of two, three and four bytes that package unicode/utf8 accepts. *)
Definition utf8_2 (a b : Ascii.ascii) : bool := between 194 223 a && cont b.
Definition utf8_3 (a b c : Ascii.ascii) : bool :=
  (((code a =? 224)%N && between 160 191 b) || (between 225 236 a && cont b) || ((code a =? 237)%N && between 128 159 b)
   || (between 238 239 a && cont b)) && cont c.
Definition utf8_4 (a b c d : Ascii.ascii) : bool :=
  (((code a =? 240)%N && between 144 191 b) || (between 241 243 a && cont b) || ((code a =? 244)%N && between 128 143 b))
  && cont c && cont d.

(** The replacement character U+FFFD, and the encoding of a code point. *)
Definition replacement : string := String (chr 239) (String (chr 191) (String (chr 189) EmptyString)).
Definition EncodeRune (r : N) : string :=
  (if r <? 128 then String (chr r) EmptyString
   else if r <? 2048 then String (chr (192 + r / 64)) (String (chr (128 + r mod 64)) EmptyString)
   else if r <? 65536 then
     String (chr (224 + r / 4096)) (String (chr (128 + (r / 64) mod 64)) (String (chr (128 + r mod 64)) EmptyString))
   else String (chr (240 + r / 262144)) (String (chr (128 + (r / 4096) mod 64))
          (String (chr (128 + (r / 64) mod 64)) (String (chr (128 + r mod 64)) EmptyString))))%N.

(** What becomes of a text rune by rune: [f1], [f2], [f3] and [f4] of its encodings, [bad] for a byte that
    begins none. *)
Section runes.
Context (f1 : Ascii.ascii -> string) (f2 : Ascii.ascii -> Ascii.ascii -> string)
        (f3 : Ascii.ascii -> Ascii.ascii -> Ascii.ascii -> string)
        (f4 : Ascii.ascii -> Ascii.ascii -> Ascii.ascii -> Ascii.ascii -> string) (bad : string).

Fixpoint map_runes (s : string) : string :=
  match s with
  | EmptyString => EmptyString
  | String a r =>
      if is_ascii a then (f1 a +:+ map_runes r)%string
      else match r with
           | EmptyString => (bad +:+ map_runes r)%string
           | String b r2 =>
               if utf8_2 a b then (f2 a b +:+ map_runes r2)%string
               else match r2 with
                    | EmptyString => (bad +:+ map_runes r)%string
                    | String c r3 =>
                        if utf8_3 a b c then (f3 a b c +:+ map_runes r3)%string
                        else match r3 with
                             | EmptyString => (bad +:+ map_runes r)%string
                             | String d r4 =>
                                 if utf8_4 a b c d then (f4 a b c d +:+ map_runes r4)%string
                                 else (bad +:+ map_runes r)%string
                             end
                    end
           end
  end.
End runes.

Definition str2 (a b : Ascii.ascii) : string := String a (String b EmptyString).
Definition str3 (a b c : Ascii.ascii) : string := String a (str2 b c).
Definition str4 (a b c d : Ascii.ascii) : string := String a (str3 b c d).

(** [strings.ToValidUTF8] with the replacement for every byte; a text that it leaves alone is valid. *)
Definition to_valid : string -> string := map_runes (fun a => String a EmptyString) str2 str3 str4 replacement.
Definition valid_utf8 (s : string) : Prop := to_valid s = s.

(** ** Encoding *)

Definition backslash : Ascii.ascii := chr 92.
Definition dquote : Ascii.ascii := chr 34.

Definition hex_digit (n : N) : Ascii.ascii := (if n <? 10 then chr (48 + n) else chr (87 + n))%N.
Definition escaped (c : N) : string := str2 backslash (chr c).
Definition unicode_escape (a b c d : Ascii.ascii) : string := (escaped 117 +:+ str4 a b c d)%string.

(** The escapes of quotes, of control characters, and of the three characters of HTML. *)
Definition escape_ascii (a : Ascii.ascii) : string :=
  let n := code a in
  (if (n =? 34) || (n =? 92) then escaped n
   else if n =? 8 then escaped 98 else if n =? 12 then escaped 102 else if n =? 10 then escaped 110
   else if n =? 13 then escaped 114 else if n =? 9 then escaped 116
   else if (n <? 32) || (n =? 60) || (n =? 62) || (n =? 38)
   then unicode_escape (chr 48) (chr 48) (hex_digit (n / 16)) (hex_digit (n mod 16))
   else String a EmptyString)%N.

(** U+2028 and U+2029 are escaped, too. *)
Definition escape_3 (a b c : Ascii.ascii) : string :=
  if ((code a =? 226) && (code b =? 128) && ((code c =? 168) || (code c =? 169)))%N
  then unicode_escape (chr 50) (chr 48) (chr 50) (hex_digit (code c mod 16))
  else str3 a b c.

Definition quote_body : string -> string :=
  map_runes escape_ascii str2 escape_3 str4 (unicode_escape (chr 102) (chr 102) (chr 102) (chr 100)).
Definition quote (s : string) : string := (String dquote EmptyString +:+ quote_body s +:+ String dquote EmptyString)%string.

(** ** Decoding *)

Definition hex_value (a : Ascii.ascii) : option N :=
  (if is_digit a then Some (code a - 48) else if between 97 102 a then Some (code a - 87)
   else if between 65 70 a then Some (code a - 55) else None)%N.

Definition getu4 (a b c d : Ascii.ascii) : option N :=
  a ← hex_value a; b ← hex_value b; c ← hex_value c; d ← hex_value d;
  Some (((a * 16 + b) * 16 + c) * 16 + d)%N.

Definition high_surrogate (r : N) : bool := ((55296 <=? r) && (r <? 56320))%N.
Definition low_surrogate (r : N) : bool := ((56320 <=? r) && (r <? 57344))%N.
Definition pair_rune (hi lo : N) : N := ((hi - 55296) * 1024 + (lo - 56320) + 65536)%N.

Definition simple_escape (a : Ascii.ascii) : option Ascii.ascii :=
  (let n := code a in
   if (n =? 34) || (n =? 92) || (n =? 47) then Some a
   else if n =? 98 then Some (chr 8) else if n =? 102 then Some (chr 12) else if n =? 110 then Some (chr 10)
   else if n =? 114 then Some (chr 13) else if n =? 116 then Some (chr 9) else None)%N.

Definition add_front (p : string) (r : option (string * string)) : option (string * string) :=
  prod_map (fun s => p +:+ s)%string id <$> r.

(** The text behind an opening quote: the string and what follows the closing quote.  Half of a
    surrogate pair is replaced by U+FFFD, and so is a byte that is not UTF-8. *)
Fixpoint unquote (s : string) : option (string * string) :=
  match s with
  | EmptyString => None
  | String a r =>
      if (code a =? 34)%N then Some (EmptyString, r)
      else if (code a <? 32)%N then None
      else if (code a =? 92)%N then
        match r with
        | EmptyString => None
        | String e r =>
            if (code e =? 117)%N then
              match r with
              | String h1 (String h2 (String h3 (String h4 r'))) =>
                  match getu4 h1 h2 h3 h4 with
                  | None => None
                  | Some u =>
                      if high_surrogate u then
                        match r' with
                        | String b (String v (String l1 (String l2 (String l3 (String l4 r''))))) =>
                            match ((code b =? 92) && (code v =? 117))%N, getu4 l1 l2 l3 l4 with
                            | true, Some l =>
                                if low_surrogate l then add_front (EncodeRune (pair_rune u l)) (unquote r'')
                                else add_front replacement (unquote r')
                            | _, _ => add_front replacement (unquote r')
                            end
                        | _ => add_front replacement (unquote r')
                        end
                      else if low_surrogate u then add_front replacement (unquote r')
                      else add_front (EncodeRune u) (unquote r')
                  end
              | _ => None
              end
            else match simple_escape e with Some c => add_front (String c EmptyString) (unquote r) | None => None end
        end
      else if is_ascii a then add_front (String a EmptyString) (unquote r)
      else match r with
           | EmptyString => add_front replacement (unquote r)
           | String b r2 =>
               if utf8_2 a b then add_front (str2 a b) (unquote r2)
               else match r2 with
                    | EmptyString => add_front replacement (unquote r)
                    | String c r3 =>
                        if utf8_3 a b c then add_front (str3 a b c) (unquote r3)
                        else match r3 with
                             | EmptyString => add_front replacement (unquote r)
                             | String d r4 =>
                                 if utf8_4 a b c d then add_front (str4 a b c d) (unquote r4)
                                 else add_front replacement (unquote r)
                             end
                    end
           end
  end.

(** JSON's white space. *)
Definition json_space (a : Ascii.ascii) : bool := (let n := code a in (n =? 32) || (n =? 9) || (n =? 10) || (n =? 13))%N.
Fixpoint skip (s : string) : string :=
  match s with String a r => if json_space a then skip r else s | EmptyString => EmptyString end.

(** ** Strings *)

Lemma app_nil_l' (s : string) : ("" +:+ s)%string = s.
Proof. done. Qed.

Lemma app_assoc' (s t u : string) : ((s +:+ t) +:+ u)%string = (s +:+ (t +:+ u))%string.
Proof. induction s as [|c s IH]; [done|]. exact (f_equal (String c) IH). Qed.

Lemma unquote_escape_ascii a rest :
  is_ascii a = true -> unquote (escape_ascii a +:+ rest) = add_front (String a EmptyString) (unquote rest).
Proof. destruct a as [[] [] [] [] [] [] [] []]; intros Ha; try discriminate Ha; reflexivity. Qed.

Lemma unquote_bad rest :
  unquote (unicode_escape (chr 102) (chr 102) (chr 102) (chr 100) +:+ rest) = add_front replacement (unquote rest).
Proof. reflexivity. Qed.

(** A byte that is not ASCII is none of those that end or escape. *)
Lemma unquote_other a r :
  is_ascii a = false ->
  unquote (String a r) =
    match r with
    | EmptyString => add_front replacement (unquote r)
    | String b r2 =>
        if utf8_2 a b then add_front (str2 a b) (unquote r2)
        else match r2 with
             | EmptyString => add_front replacement (unquote r)
             | String c r3 =>
                 if utf8_3 a b c then add_front (str3 a b c) (unquote r3)
                 else match r3 with
                      | EmptyString => add_front replacement (unquote r)
                      | String d r4 => if utf8_4 a b c d then add_front (str4 a b c d) (unquote r4) else add_front replacement (unquote r)
                      end
             end
    end.
Proof.
  intros Ha. cbn [unquote].
  assert (128 <= code a)%N as Hc.
  { unfold is_ascii, between in Ha. apply andb_false_iff in Ha as [Ha|Ha]; [apply N.leb_gt in Ha; lia|apply N.leb_gt in Ha; lia]. }
  rewrite (proj2 (N.eqb_neq (code a) 34)), (proj2 (N.ltb_ge (code a) 32)), (proj2 (N.eqb_neq (code a) 92)), Ha by lia. done.
Qed.

Lemma code_inv a n : code a = n -> a = chr n.
Proof. intros <-. symmetry. apply Ascii.ascii_N_embedding. Qed.

Lemma unquote_escape_3 a b c rest :
  is_ascii a = false -> utf8_2 a b = false -> utf8_3 a b c = true ->
  unquote (escape_3 a b c +:+ rest) = add_front (str3 a b c) (unquote rest).
Proof.
  intros Ha H2 H3. unfold escape_3. destruct (_ && _ && _) eqn:Hs.
  - apply andb_true_iff in Hs as [[Hca Hcb]%andb_true_iff Hcc]. apply N.eqb_eq, code_inv in Hca as ->. apply N.eqb_eq, code_inv in Hcb as ->.
    apply orb_true_iff in Hcc as [Hcc|Hcc]; apply N.eqb_eq, code_inv in Hcc as ->; reflexivity.
  - change (str3 a b c +:+ rest)%string with (String a (String b (String c rest))). rewrite unquote_other by done. by rewrite H2, H3.
Qed.

Lemma add_front_add p q r : add_front p (add_front q r) = add_front (p +:+ q)%string r.
Proof. destruct r as [[s t]|]; [|done]. unfold add_front. simpl. by rewrite app_assoc'. Qed.

(** What was quoted is read back, with the bytes replaced that are not UTF-8. *)
Lemma unquote_quote_body n : forall s rest, (String.length s <= n)%nat ->
  unquote (quote_body s +:+ String dquote rest) = Some (to_valid s, rest).
Proof.
  induction n as [|n IH]; intros s rest Hn; destruct s as [|a r]; try (simpl in Hn; lia); try reflexivity.
  assert (forall k t, (String.length t <= n)%nat ->
    unquote (quote_body t +:+ String dquote rest) = Some (to_valid t, rest) /\
    add_front k (unquote (quote_body t +:+ String dquote rest)) = Some ((k +:+ to_valid t)%string, rest)) as Hk
    by (intros k t Ht; by rewrite IH).
  unfold quote_body, to_valid in *. cbn [map_runes]. fold quote_body to_valid in *. simpl in Hn.
  destruct (is_ascii a) eqn:Ha.
  { rewrite app_assoc', unquote_escape_ascii by done. apply Hk. lia. }
  assert (unquote ((unicode_escape (chr 102) (chr 102) (chr 102) (chr 100) +:+ quote_body r) +:+ String dquote rest)
          = Some ((replacement +:+ to_valid r)%string, rest)) as Hbad.
  { rewrite app_assoc', unquote_bad. apply Hk. lia. }
  destruct r as [|b r2]; [exact Hbad|]. simpl in Hn. destruct (utf8_2 a b) eqn:H2.
  { rewrite app_assoc'. change (str2 a b +:+ ?t)%string with (String a (String b t)). rewrite unquote_other by done. rewrite H2. apply Hk. lia. }
  destruct r2 as [|c r3]; [exact Hbad|]. simpl in Hn. destruct (utf8_3 a b c) eqn:H3.
  { rewrite app_assoc', unquote_escape_3 by done. apply Hk. lia. }
  destruct r3 as [|d r4]; [exact Hbad|]. simpl in Hn. destruct (utf8_4 a b c d) eqn:H4; [|exact Hbad].
  rewrite app_assoc'. change (str4 a b c d +:+ ?t)%string with (String a (String b (String c (String d t)))). rewrite unquote_other by done. rewrite H2, H3, H4. apply Hk. lia.
Qed.

(** ** The scanner

    One state and a stack of what is being read; Go's scanner stops at 10000 nested values. *)

Inductive literal : Type :=
| LTrue
| LFalse
| LNull.
Definition literal_text (l : literal) : string := match l with LTrue => "true" | LFalse => "false" | LNull => "null" end.

#[export] Instance literal_eq_dec : EqDecision literal.
Proof. solve_decision. Defined.

Inductive scan_state : Type :=
| BeginValue
| BeginValueOrEmpty
| BeginString
| BeginStringOrEmpty
| EndValue
| InString
| InEscape
| InUnicode (n : nat)
| AfterMinus
| AfterZero
| InInteger
| AfterDot
| InFraction
| AfterExp
| AfterExpSign
| InExponent
| InLiteral (l : literal) (read : nat).

Inductive scan_frame : Type :=
| ObjectKey
| ObjectValue
| ArrayValue.

Definition scan : Type := scan_state * list scan_frame.

#[export] Instance scan_state_eq_dec : EqDecision scan_state.
Proof. solve_decision. Defined.
#[export] Instance scan_frame_eq_dec : EqDecision scan_frame.
Proof. solve_decision. Defined.

Definition maxNestingDepth : Z := 10000.

Section scanner.
Context (depth : Z).

Definition push (st : scan_state) (f : scan_frame) (stack : list scan_frame) : option scan :=
  if depth <? Z.of_nat (S (length stack)) then None else Some (st, f :: stack).

Definition begin_value (stack : list scan_frame) (a : Ascii.ascii) : option scan :=
  (let n := code a in
   if n =? 34 then Some (InString, stack)
   else if n =? 123 then push BeginStringOrEmpty ObjectKey stack
   else if n =? 91 then push BeginValueOrEmpty ArrayValue stack
   else if n =? 45 then Some (AfterMinus, stack)
   else if n =? 48 then Some (AfterZero, stack)
   else if between 49 57 a then Some (InInteger, stack)
   else if n =? 116 then Some (InLiteral LTrue 1, stack)
   else if n =? 102 then Some (InLiteral LFalse 1, stack)
   else if n =? 110 then Some (InLiteral LNull 1, stack) else None)%N.

(** Behind a value. *)
Definition end_value (stack : list scan_frame) (a : Ascii.ascii) : option scan :=
  if json_space a then Some (EndValue, stack)
  else match stack with
       | ObjectKey :: stack => if (code a =? 58)%N then Some (BeginValue, ObjectValue :: stack) else None
       | ObjectValue :: stack =>
           if (code a =? 44)%N then Some (BeginString, ObjectKey :: stack)
           else if (code a =? 125)%N then Some (EndValue, stack) else None
       | ArrayValue :: stack =>
           if (code a =? 44)%N then Some (BeginValue, ArrayValue :: stack)
           else if (code a =? 93)%N then Some (EndValue, stack) else None
       | [] => None
       end.

Definition begin_string (stack : list scan_frame) (a : Ascii.ascii) : option scan :=
  if (code a =? 34)%N then Some (InString, stack) else None.

Definition exponent_or_end (stack : list scan_frame) (a : Ascii.ascii) : option scan :=
  if ((code a =? 101) || (code a =? 69))%N then Some (AfterExp, stack) else end_value stack a.
Definition after_integer (stack : list scan_frame) (a : Ascii.ascii) : option scan :=
  if (code a =? 46)%N then Some (AfterDot, stack) else exponent_or_end stack a.

Definition scan_step (x : scan) (a : Ascii.ascii) : option scan :=
  let '(st, stack) := x in
  match st with
  | BeginValue => if json_space a then Some x else begin_value stack a
  | BeginValueOrEmpty =>
      if json_space a then Some x else if (code a =? 93)%N then end_value stack a else begin_value stack a
  | BeginString => if json_space a then Some x else begin_string stack a
  | BeginStringOrEmpty =>
      if json_space a then Some x
      else if (code a =? 125)%N then match stack with _ :: stack => Some (EndValue, stack) | [] => None end
      else begin_string stack a
  | EndValue => end_value stack a
  | InString =>
      if (code a =? 34)%N then Some (EndValue, stack) else if (code a =? 92)%N then Some (InEscape, stack)
      else if (code a <? 32)%N then None else Some x
  | InEscape =>
      if (code a =? 117)%N then Some (InUnicode 4, stack)
      else match simple_escape a with Some _ => Some (InString, stack) | None => None end
  | InUnicode n =>
      match hex_value a with
      | None => None
      | Some _ => Some (match n with S (S k) => InUnicode (S k) | _ => InString end, stack)
      end
  | AfterMinus =>
      if (code a =? 48)%N then Some (AfterZero, stack) else if between 49 57 a then Some (InInteger, stack) else None
  | AfterZero => after_integer stack a
  | InInteger => if is_digit a then Some x else after_integer stack a
  | AfterDot => if is_digit a then Some (InFraction, stack) else None
  | InFraction => if is_digit a then Some x else exponent_or_end stack a
  | AfterExp =>
      if ((code a =? 43) || (code a =? 45))%N then Some (AfterExpSign, stack)
      else if is_digit a then Some (InExponent, stack) else None
  | AfterExpSign => if is_digit a then Some (InExponent, stack) else None
  | InExponent => if is_digit a then Some x else end_value stack a
  | InLiteral l read =>
      match String.get read (literal_text l) with
      | Some b =>
          if Ascii.eqb a b
          then Some (if (S read =? String.length (literal_text l))%nat then EndValue else InLiteral l (S read), stack) else None
      | None => None
      end
  end.

Fixpoint scan_from (x : scan) (s : string) : option scan :=
  match s with
  | EmptyString => Some x
  | String a s => match scan_step x a with Some x => scan_from x s | None => None end
  end.

(** A space behind the text ends a number. *)
Definition scan_end (x : scan) : bool :=
  match scan_step x (chr 32) with Some x => bool_decide (x = (EndValue, [])) | None => false end.
Definition valid_to : string -> bool := fun s => match scan_from (BeginValue, []) s with Some x => scan_end x | None => false end.

(** The text without its white space, with the characters of HTML and U+2028 and U+2029 escaped;
    [mute] characters are not written. *)
Definition inside_string (st : scan_state) : bool :=
  match st with InString | InEscape | InUnicode _ => true | _ => false end.

Definition compact_char (st : scan_state) (a : Ascii.ascii) (s : string) : string * nat :=
  (let n := code a in
   if (n =? 60) || (n =? 62) || (n =? 38)
   then (unicode_escape (chr 48) (chr 48) (hex_digit (n / 16)) (hex_digit (n mod 16)), O)
   else match s with
        | String b (String c _) =>
            if (n =? 226) && (code b =? 128) && ((code c =? 168) || (code c =? 169))
            then (unicode_escape (chr 50) (chr 48) (chr 50) (hex_digit (code c mod 16)), 2%nat)
            else (String a EmptyString, O)
        | _ => (String a EmptyString, O)
        end)%N.

Fixpoint compact_from (mute : nat) (x : scan) (s : string) : option (string * scan) :=
  match s with
  | EmptyString => Some (EmptyString, x)
  | String a s =>
      match scan_step x a with
      | None => None
      | Some x' =>
          let '(written, mute') :=
            match mute with
            | S k => (EmptyString, k)
            | O => if json_space a && negb (inside_string x.1) then (EmptyString, O) else compact_char x.1 a s
            end in
          match compact_from mute' x' s with
          | Some (out, y) => Some ((written +:+ out)%string, y)
          | None => None
          end
      end
  end.

Definition compact_to (s : string) : option string :=
  match compact_from 0 (BeginValue, []) s with
  | Some (out, x) => if scan_end x then Some out else None
  | None => None
  end.
End scanner.

Definition json_Valid : string -> bool := valid_to maxNestingDepth.
Definition json_compact : string -> option string := compact_to maxNestingDepth.

(** Objects and arrays, of values that are texts already. *)
Definition json_member (kv : string * string) : string := (quote kv.1 +:+ ":" +:+ kv.2)%string.
Definition json_object (fields : list (string * string)) : string :=
  ("{" +:+ strings_Join (json_member <$> fields) "," +:+ "}")%string.
Definition json_array (vs : list string) : string := ("[" +:+ strings_Join vs "," +:+ "]")%string.

(** ** Scanning *)

Lemma scan_from_app d x s t : scan_from d x (s +:+ t) = y ← scan_from d x s; scan_from d y t.
Proof.
  revert x. induction s as [|a s IH]; intros x; [done|].
  change (String a s +:+ t)%string with (String a (s +:+ t)). cbn [scan_from]. destruct (scan_step d x a); [apply IH|done].
Qed.

(** The states in which a value is complete. *)
Definition closing (st : scan_state) : bool :=
  match st with EndValue | AfterZero | InInteger | InFraction | InExponent => true | _ => false end.

Ltac scan_cases := repeat (case_match; simplify_eq/=; try done).

(** What is below the stack does not matter, if the limit allows it. *)
Lemma step_shift d base st stk a st' stk' :
  scan_step d (st, stk) a = Some (st', stk') ->
  scan_step (d + Z.of_nat (length base)) (st, stk ++ base) a = Some (st', stk' ++ base).
Proof.
  assert (forall f st s r, push d st f s = Some r -> push (d + Z.of_nat (length base)) st f (s ++ base) = Some (r.1, r.2 ++ base)) as Hp.
  { unfold push. intros f st0 s r. rewrite length_app. destruct (d <? _) eqn:Hd; [done|]. intros [= <-]. apply Z.ltb_ge in Hd.
    rewrite (proj2 (Z.ltb_ge _ _)) by lia. done. }
  assert (forall s r, begin_value d s a = Some r -> begin_value (d + Z.of_nat (length base)) (s ++ base) a = Some (r.1, r.2 ++ base)) as Hb.
  { unfold begin_value. intros s r Hr. repeat (case_match; simplify_eq/=; try done); by apply Hp. }
  assert (forall s r, end_value s a = Some r -> end_value (s ++ base) a = Some (r.1, r.2 ++ base)) as He.
  { unfold end_value. intros s r Hr. destruct (json_space a); [by simplify_eq/=|]. destruct s as [|[] s]; [done|..]; simpl; scan_cases. }
  assert (forall s r, exponent_or_end s a = Some r -> exponent_or_end (s ++ base) a = Some (r.1, r.2 ++ base)) as Hx.
  { unfold exponent_or_end. intros s r Hr. case_match; [by simplify_eq/=|by apply He]. }
  assert (forall s r, after_integer s a = Some r -> after_integer (s ++ base) a = Some (r.1, r.2 ++ base)) as Hi.
  { unfold after_integer. intros s r Hr. case_match; [by simplify_eq/=|by apply Hx]. }
  destruct st; unfold scan_step, begin_string; intros Hs; repeat case_match; simplify_eq/=; try done;
    first [by apply (Hb _ _ Hs)|by apply (He _ _ Hs)|by apply (Hx _ _ Hs)|by apply (Hi _ _ Hs)].
Qed.

Lemma scan_shift d base s : forall st stk st' stk',
  scan_from d (st, stk) s = Some (st', stk') ->
  scan_from (d + Z.of_nat (length base)) (st, stk ++ base) s = Some (st', stk' ++ base).
Proof.
  induction s as [|a s IH]; intros st stk st' stk'; cbn [scan_from]; [by intros [= <- <-]|].
  destruct (scan_step d (st, stk) a) as [[st1 stk1]|] eqn:Hs; [|done]. intros Hf. rewrite (step_shift _ _ _ _ _ _ _ Hs). by apply IH.
Qed.

(** Behind a complete value every character but those that go on with a number ends it. *)
Definition number_char (a : Ascii.ascii) : bool := is_digit a || (code a =? 46)%N || (code a =? 101)%N || (code a =? 69)%N.

Lemma closing_step d st stk a : closing st = true -> number_char a = false -> scan_step d (st, stk) a = end_value stk a.
Proof.
  unfold number_char. intros Hc Hn. repeat apply orb_false_iff in Hn as [Hn ?].
  destruct st; try discriminate; unfold scan_step, after_integer, exponent_or_end; rewrite ?Hn, ?H, ?H0, ?H1; done.
Qed.

Lemma scan_end_closing d st stk : scan_end d (st, stk) = true <-> closing st = true /\ stk = [].
Proof.
  unfold scan_end. destruct (closing st) eqn:Hc.
  - rewrite closing_step by done. simpl. rewrite bool_decide_eq_true. split; [by intros [= ->]|by intros [_ ->]].
  - split; [|by intros []]. destruct st; simpl; try discriminate. 
    destruct l, read as [|[|[|[|[|]]]]]; discriminate.
Qed.

(** ** The compact form *)

Lemma compact_scans d s : forall mute x, (snd <$> compact_from d mute x s) = scan_from d x s.
Proof.
  induction s as [|a s IH]; intros mute x; [done|]. cbn [compact_from scan_from]. destruct (scan_step d x a) as [x'|]; [|done].
  destruct (match mute with S k => (EmptyString, k) | O => _ end) as [written mute']. rewrite <- (IH mute' x').
  by destruct (compact_from d mute' x' s) as [[]|].
Qed.

Lemma high_between lo hi a : is_ascii a = false -> (hi < 128)%N -> between lo hi a = false.
Proof.
  unfold is_ascii, between. intros Ha Hh. apply andb_false_iff. right. apply N.leb_gt.
  apply andb_false_iff in Ha as [Ha%N.leb_gt|Ha%N.leb_gt]; lia.
Qed.

Lemma high_eqb k a : is_ascii a = false -> (k < 128)%N -> (code a =? k)%N = false.
Proof.
  intros Ha Hk. apply N.eqb_neq. intros <-. unfold is_ascii, between in Ha.
  apply andb_false_iff in Ha as [Ha%N.leb_gt|Ha%N.leb_gt]; lia.
Qed.

(** Bytes that are not ASCII, and the characters of HTML, are only read inside of strings. *)
Lemma step_high d x a x' : is_ascii a = false -> scan_step d x a = Some x' -> x.1 = InString /\ x' = x.
Proof.
  intros Ha. destruct x as [st stk].
  assert (forall s, end_value s a = None) as He.
  { intros s. unfold end_value, json_space. rewrite !high_eqb by done. by destruct s as [|[] ?]. }
  assert (hex_value a = None /\ simple_escape a = None) as [Hh Hs].
  { unfold hex_value, simple_escape, is_digit. by rewrite !high_between, !high_eqb. }
  destruct st; unfold scan_step, begin_value, begin_string, after_integer, exponent_or_end, json_space, is_digit;
    rewrite ?He, ?Hh, ?Hs, ?high_between, ?high_eqb by done; try (by intros [= ?]); try discriminate.
  - case_match; [discriminate|]. by intros [= <-].
  - destruct (String.get read _) as [b|] eqn:Hg; [|discriminate]. destruct (Ascii.eqb_spec a b) as [<-|]; [|discriminate].
    destruct l, read as [|[|[|[|[|]]]]]; try discriminate Hg; injection Hg as <-; discriminate Ha.
Qed.

Lemma step_html d x n x' : n = 60%N \/ n = 62%N \/ n = 38%N -> scan_step d x (chr n) = Some x' -> x.1 = InString /\ x' = x.
Proof.
  intros Hn. destruct x as [st stk]. destruct Hn as [-> | [-> | ->]];
    (destruct st as [| | | | | | |n| | | | | | | | |l [|[|[|[|[|]]]]]]; try destruct l; cbn;
     try (destruct stk as [|[] ?]; discriminate); try discriminate; by intros [= <-]).
Qed.

Lemma step_space d st stk a x' :
  json_space a = true -> inside_string st = false -> scan_step d (st, stk) a = Some x' ->
  (x' = (st, stk) /\ closing st = false) \/ (x' = (EndValue, stk) /\ closing st = true).
Proof.
  intros Ha Hi. assert (exists n, a = chr n /\ (n = 32 \/ n = 9 \/ n = 10 \/ n = 13)%N) as (n & -> & Hn).
  { exists (code a). split; [by apply code_inv|]. unfold json_space in Ha.
    repeat apply orb_true_iff in Ha as [Ha|Ha]; apply N.eqb_eq in Ha; auto. }
  destruct (closing st) eqn:Hc.
  - rewrite closing_step; [|done|by destruct Hn as [-> | [-> | [-> | ->]]]]. unfold end_value. rewrite Ha. intros [= <-]. by right.
  - destruct Hn as [-> | [-> | [-> | ->]]];
      (destruct st as [| | | | | | |k| | | | | | | | |l [|[|[|[|[|]]]]]]; try discriminate Hi; try discriminate Hc; try destruct l; simpl;
       intros Hs; simplify_eq/=; auto).
Qed.

Lemma end_value_char stk a x' : json_space a = false -> end_value stk a = Some x' -> number_char a = false.
Proof.
  unfold end_value. intros ->. destruct stk as [|[] stk]; [done|..];
    repeat (case_match; [match goal with H : (code a =? _)%N = true |- _ => apply N.eqb_eq, code_inv in H as -> end; done|]); done.
Qed.

(** The scanner on the text and on its compact form: a space may have ended a number in the text only. *)
Definition follows (x y : scan) : Prop :=
  x = y \/ exists st stk, x = (EndValue, stk) /\ y = (st, stk) /\ closing st = true.

Lemma step_follows d x y a x' :
  json_space a && negb (inside_string x.1) = false -> scan_step d x a = Some x' -> follows x y -> scan_step d y a = Some x'.
Proof.
  intros Ha Hs [<-|(st & stk & -> & -> & Hc)]; [done|]. simpl in Ha. rewrite andb_true_r in Ha. simpl in Hs.
  by rewrite closing_step by (done || by eapply end_value_char).
Qed.

Lemma follows_space d x y a x' :
  json_space a && negb (inside_string x.1) = true -> scan_step d x a = Some x' -> follows x y -> follows x' y.
Proof.
  intros [Ha Hi%negb_true_iff]%andb_true_iff Hs Hf. destruct x as [st stk].
  destruct (step_space _ _ _ _ _ Ha Hi Hs) as [[-> _]|[-> Hc]]; [done|]. right.
  destruct Hf as [<-|(st' & stk' & [= -> ->] & -> & Hc')]; eauto.
Qed.

Lemma follows_string x y : x.1 = InString -> follows x y -> y = x.
Proof. destruct x as [st stk]. simpl. by intros -> [<-|(? & ? & ? & _)]. Qed.

Lemma scan_hex d stk a b : hex_value a <> None -> hex_value b <> None ->
  scan_from d (InString, stk) (unicode_escape (chr 48) (chr 48) a b) = Some (InString, stk)
  /\ scan_from d (InString, stk) (unicode_escape (chr 50) (chr 48) a b) = Some (InString, stk).
Proof.
  intros Ha Hb. destruct (hex_value a) eqn:Ea; [|done]. destruct (hex_value b) eqn:Eb; [|done].
  split;
    change (scan_from d (InUnicode 2, stk) (str2 a b) = Some (InString, stk)); cbn; rewrite Ea; cbn; by rewrite Eb.
Qed.

(** The scanner reads the compact form as it reads the text. *)
Lemma compact_sim d n : forall s x y out x', (String.length s <= n)%nat ->
  compact_from d 0 x s = Some (out, x') -> follows x y -> exists y', scan_from d y out = Some y' /\ follows x' y'.
Proof.
  induction n as [|n IH]; intros [|a s] x y out x' Hn; cbn [compact_from]; try (simpl in Hn; lia);
    try (intros [= <- <-] ?; by exists y). simpl in Hn.
  destruct (scan_step d x a) as [x1|] eqn:Hs; [|done]. intros Hc Hf.
  destruct (json_space a && _) eqn:Hsp.
  { destruct (compact_from d 0 x1 s) as [[o z]|] eqn:Hr; [|done]. injection Hc as <- <-.
    apply (IH s x1 y o z); [lia|done|]. by eapply follows_space. }
  assert (compact_char x.1 a s = (String a EmptyString, O) \/
          exists w k, compact_char x.1 a s = (w, k) /\ x.1 = InString /\ x1 = x /\ scan_from d x w = Some x
            /\ (k = O \/ exists b c s', s = String b (String c s') /\ k = 2%nat /\ is_ascii b = false /\ is_ascii c = false)) as Hchar.
  { unfold compact_char. destruct (_ || (code a =? 38)%N) eqn:Hhtml.
    - right. do 2 eexists. split; [reflexivity|].
      assert (exists n, a = chr n /\ (n = 60 \/ n = 62 \/ n = 38)%N) as (k & -> & Hk).
      { exists (code a). split; [by apply code_inv|]. repeat apply orb_true_iff in Hhtml as [Hhtml|Hhtml]; apply N.eqb_eq in Hhtml; auto. }
      destruct (step_html _ _ _ _ Hk Hs) as [Hst ->]. split_and!; [done|done| |by left].
      destruct x as [st stk]. simpl in Hst. subst st. apply scan_hex; by destruct Hk as [-> | [-> | ->]].
    - destruct s as [|b [|c s']]; [by left..|]. destruct (_ && _ && _) eqn:H2; [|by left]. right. do 2 eexists. split; [reflexivity|].
      apply andb_true_iff in H2 as [[Ha Hb]%andb_true_iff Hcc]. apply N.eqb_eq, code_inv in Ha as ->, Hb as ->.
      destruct (step_high _ _ (chr 226) _ eq_refl Hs) as [Hst ->].
      apply orb_true_iff in Hcc as [Hcc|Hcc]; apply N.eqb_eq, code_inv in Hcc as ->;
        (split_and!; [done|done|destruct x as [st stk]; simpl in Hst; subst st; by apply scan_hex|right; by do 3 eexists]). }
  destruct Hchar as [Hch|(w & k & Hch & Hst & -> & Hw & Hk)]; rewrite Hch in Hc.
  - destruct (compact_from d 0 x1 s) as [[o z]|] eqn:Hr; [|done]. injection Hc as <- <-.
    destruct (IH s x1 x1 o z) as (y' & Hy & Hf'); [lia|done|by left|]. exists y'. split; [|done].
    change (String a EmptyString +:+ o)%string with (String a o). cbn [scan_from]. by rewrite (step_follows d x y a x1).
  - rewrite (follows_string _ _ Hst Hf). destruct Hk as [->|(b & c & s' & -> & -> & Hb & Hcc)].
    + destruct (compact_from d 0 x s) as [[o z]|] eqn:Hr; [|done]. injection Hc as <- <-.
      destruct (IH s x x o z) as (y' & Hy & Hf'); [lia|done|by left|]. exists y'. split; [|done]. rewrite scan_from_app, Hw. done.
    + cbn [compact_from] in Hc. destruct (scan_step d x b) as [x2|] eqn:Hs2; [|done].
      destruct (step_high _ _ _ _ Hb Hs2) as [_ ->]. destruct (scan_step d x c) as [x3|] eqn:Hs3; [|done].
      destruct (step_high _ _ _ _ Hcc Hs3) as [_ ->]. destruct (compact_from d 0 x s') as [[o z]|] eqn:Hr; [|done].
      injection Hc as <- <-. simpl in Hn.
      destruct (IH s' x x o z) as (y' & Hy & Hf'); [lia|done|by left|]. exists y'. split; [|done].
      change ("" +:+ ("" +:+ o))%string with o. rewrite scan_from_app, Hw. done.
Qed.

(** Exactly the valid texts have a compact form, which is valid. *)
Lemma compact_valid d s :
  match compact_to d s with Some t => valid_to d s = true /\ valid_to d t = true | None => valid_to d s = false end.
Proof.
  unfold compact_to, valid_to. rewrite <- (compact_scans d s 0). destruct (compact_from d 0 _ s) as [[out x]|] eqn:Hc; [|done].
  change (snd <$> Some (out, x)) with (Some x). cbv iota. destruct (scan_end d x) eqn:He; [|done]. split; [done|].
  destruct (compact_sim d _ s _ (BeginValue, []) out x (le_n _) Hc) as (y & -> & Hf); [by left|].
  destruct x as [st stk]. destruct Hf as [<-|(st' & stk' & [= -> ->] & -> & Hst)]; [done|].
  apply scan_end_closing in He as [_ ->]. by apply scan_end_closing.
Qed.

(** ** Texts of values

    [reads d v]: wherever a value may begin, with [d] more levels allowed than are open, [v] is read as one value. *)

Definition reads (d : Z) (v : string) : Prop :=
  forall stk, exists st, scan_from (d + Z.of_nat (length stk)) (BeginValue, stk) v = Some (st, stk) /\ closing st = true.

Lemma reads_valid d v : reads d v <-> valid_to d v = true.
Proof.
  split.
  - intros Hr. destruct (Hr []) as (st & Hs & Hc). unfold valid_to. simpl in Hs. rewrite Z.add_0_r in Hs. rewrite Hs.
    by apply scan_end_closing.
  - unfold valid_to. destruct (scan_from d (BeginValue, []) v) as [[st s]|] eqn:Hs; [|done].
    intros [Hc ->]%scan_end_closing stk. exists st. split; [|done]. by apply (scan_shift d stk _ _ [] _ []).
Qed.

Lemma between_high lo hi a : (128 <= lo)%N -> between lo hi a = true -> is_ascii a = false.
Proof.
  unfold is_ascii, between. intros Hlo [Ha%N.leb_le _]%andb_true_iff. apply andb_false_iff. right. apply N.leb_gt. lia.
Qed.

Lemma utf8_high a b c d :
  (utf8_2 a b = true -> is_ascii b = false)
  /\ (utf8_3 a b c = true -> is_ascii b = false /\ is_ascii c = false)
  /\ (utf8_4 a b c d = true -> is_ascii b = false /\ is_ascii c = false /\ is_ascii d = false).
Proof.
  unfold utf8_2, utf8_3, utf8_4, cont.
  split_and!; intros H; repeat match goal with H : _ && _ = true |- _ => apply andb_true_iff in H as [] end;
    repeat match goal with H : _ || _ = true |- _ => apply orb_true_iff in H as [] end;
    repeat match goal with H : _ && _ = true |- _ => apply andb_true_iff in H as [] end;
    split_and?; match goal with H : between _ _ ?x = true |- is_ascii ?x = false => eapply between_high, H; lia end.
Qed.

Lemma scan_quote_body d stk n : forall s, (String.length s <= n)%nat -> scan_from d (InString, stk) (quote_body s) = Some (InString, stk).
Proof.
  assert (forall a, is_ascii a = false -> scan_step d (InString, stk) a = Some (InString, stk)) as Hhigh.
  { intros a Ha. unfold scan_step. rewrite !high_eqb by done.
    destruct (code a <? 32)%N eqn:Hlt; [|done]. apply N.ltb_lt in Hlt. unfold is_ascii, between in Ha.
    apply andb_false_iff in Ha as [Ha%N.leb_gt|Ha%N.leb_gt]; lia. }
  assert (forall a, is_ascii a = true -> scan_from d (InString, stk) (escape_ascii a) = Some (InString, stk)) as Hesc.
  { intros a Ha. destruct a as [[] [] [] [] [] [] [] []]; try discriminate Ha; reflexivity. }
  assert (forall b, is_ascii b = false -> forall s, scan_from d (InString, stk) (String b s) = scan_from d (InString, stk) s) as Hkeep
    by (intros b Hb s; cbn [scan_from]; by rewrite Hhigh).
  induction n as [|n IH]; intros s Hn; destruct s as [|a r]; try (simpl in Hn; lia); try done.
  unfold quote_body in *. cbn [map_runes]. fold quote_body in *. simpl in Hn.
  destruct (is_ascii a) eqn:Ha; [rewrite scan_from_app, Hesc by done; apply IH; lia|].
  assert (scan_from d (InString, stk) (unicode_escape (chr 102) (chr 102) (chr 102) (chr 100) +:+ quote_body r) = Some (InString, stk)) as Hbad
    by (rewrite scan_from_app; apply IH; lia).
  destruct r as [|b r2]; [exact Hbad|]. simpl in Hn. destruct (utf8_2 a b) eqn:H2.
  { apply (utf8_high a b a a) in H2. change (str2 a b +:+ ?t)%string with (String a (String b t)). rewrite !Hkeep by done. apply IH. lia. }
  destruct r2 as [|c r3]; [exact Hbad|]. simpl in Hn. destruct (utf8_3 a b c) eqn:H3.
  { apply (utf8_high a b c a) in H3 as [Hb Hc]. unfold escape_3. destruct (_ && _ && _) eqn:Hs.
    - rewrite scan_from_app. apply andb_true_iff in Hs as [_ Hs]. assert (hex_value (hex_digit (code c mod 16)) <> None) as Hx.
      { apply orb_true_iff in Hs as [Hs|Hs]; apply N.eqb_eq in Hs; rewrite Hs; vm_compute; discriminate. }
      destruct (scan_hex d stk (chr 50) _ ltac:(done) Hx) as [_ ->]. apply IH. lia.
    - change (str3 a b c +:+ ?t)%string with (String a (String b (String c t))). rewrite !Hkeep by done. apply IH. lia. }
  destruct r3 as [|e r4]; [exact Hbad|]. simpl in Hn. destruct (utf8_4 a b c e) eqn:H4; [|exact Hbad].
  apply (utf8_high a b c e) in H4 as (Hb & Hc & He).
  change (str4 a b c e +:+ ?t)%string with (String a (String b (String c (String e t)))). rewrite !Hkeep by done. apply IH. lia.
Qed.

Lemma reads_quote d s : reads d (quote s).
Proof.
  intros stk. exists EndValue. split; [|done]. unfold quote. change (String dquote "" +:+ ?t)%string with (String dquote t).
  cbn [scan_from]. change (scan_step ?d (BeginValue, stk) dquote) with (Some (InString, stk)). cbv iota.
  rewrite scan_from_app, (scan_quote_body _ _ _ s (le_n _)). done.
Qed.

Lemma scan_digits d stk x : forall s, (0 < x)%N -> scan_from d (InInteger, stk) s = Some (InInteger, stk) ->
  forall st, st = BeginValue \/ st = AfterMinus -> scan_from d (st, stk) (pretty.pretty_N_go x s) = Some (InInteger, stk).
Proof.
  induction (N.lt_wf_0 x) as [x _ IH]. intros s Hx Hs st Hst. rewrite pretty.pretty_N_go_step by done.
  assert (x mod 10 < 10)%N as Hm by (apply N.mod_lt; lia).
  assert (forall m, m < 10 -> m = 0 \/ m = 1 \/ m = 2 \/ m = 3 \/ m = 4 \/ m = 5 \/ m = 6 \/ m = 7 \/ m = 8 \/ m = 9)%N as Hd by lia.
  specialize (Hd _ Hm).
  destruct (decide (x < 10)%N) as [Hlt|Hge].
  - rewrite N.div_small by done. rewrite pretty.pretty_N_go_0. rewrite (N.mod_small x 10) in * by done.
    destruct Hd as [->|Hd]; [lia|]. repeat destruct Hd as [->|Hd]; try subst x; destruct Hst as [->| ->]; exact Hs.
  - apply IH; [apply N.div_lt; lia|apply N.div_str_pos; lia| |done].
    repeat destruct Hd as [->|Hd]; try rewrite Hd; exact Hs.
Qed.

Lemma reads_itoa d z : reads d (itoa z).
Proof.
  intros stk. unfold itoa, pretty.pretty, pretty.pretty_Z. destruct z as [|p|p].
  - by exists AfterZero.
  - exists InInteger. split; [|done]. unfold pretty.pretty, pretty.pretty_N. apply scan_digits; auto; lia.
  - exists InInteger. split; [|done]. unfold pretty.pretty, pretty.pretty_N.
    change ("-" +:+ ?t)%string with (String (chr 45) t). cbn [scan_from].
    change (scan_step ?d (BeginValue, stk) (chr 45)) with (Some (AfterMinus, stk)). cbv iota. apply scan_digits; auto; lia.
Qed.

Lemma value_or_empty d stk r v : scan_from d (BeginValue, stk) v = Some r -> r.1 <> BeginValue -> scan_from d (BeginValueOrEmpty, stk) v = Some r.
Proof.
  induction v as [|a v IH]; cbn [scan_from]; [by intros [= <-]|]. unfold scan_step. destruct (json_space a) eqn:Ha; [done|].
  destruct (code a =? 93)%N eqn:Hc; [|done]. apply N.eqb_eq, code_inv in Hc as ->. done.
Qed.

(** What follows a complete value is read as if it were complete for sure. *)
Lemma behind_value d st stk a s :
  closing st = true -> number_char a = false ->
  scan_from d (st, stk) (String a s) = y ← end_value stk a; scan_from d y s.
Proof. intros Hc Hn. cbn [scan_from]. rewrite closing_step by done. by destruct (end_value stk a). Qed.

Lemma join_cons (v w : string) vs sep : strings_Join (v :: w :: vs) sep = (v +:+ (sep +:+ strings_Join (w :: vs) sep))%string.
Proof. done. Qed.

Lemma scan_elements d stk rest vs : forall v, Forall (reads d) (v :: vs) ->
  scan_from (d + 1 + Z.of_nat (length stk)) (BeginValue, ArrayValue :: stk) (strings_Join (v :: vs) "," +:+ String (chr 93) rest)
  = scan_from (d + 1 + Z.of_nat (length stk)) (EndValue, stk) rest.
Proof.
  induction vs as [|w vs IH]; intros v [Hv Hvs]%Forall_cons; destruct (Hv (ArrayValue :: stk)) as (st & Hs & Hc);
    cbn [length] in Hs; replace (d + Z.of_nat (S (length stk))) with (d + 1 + Z.of_nat (length stk)) in Hs by lia.
  - change (strings_Join [v] ",") with v. rewrite scan_from_app, Hs. cbn [mbind option_bind]. by rewrite behind_value.
  - rewrite join_cons, !app_assoc', scan_from_app, Hs. cbn [mbind option_bind].
    change ("," +:+ ?t)%string with (String (chr 44) t). rewrite behind_value by done. by apply IH.
Qed.

Lemma push_ok d st f stk : Z.of_nat (length stk) < d -> push d st f stk = Some (st, f :: stk).
Proof. intros Hd. unfold push. cbn [length]. by rewrite (proj2 (Z.ltb_ge _ _)) by lia. Qed.

Lemma reads_array d vs : 0 <= d -> Forall (reads d) vs -> reads (d + 1) (json_array vs).
Proof.
  intros Hd Hvs stk. exists EndValue. split; [|done]. unfold json_array. change ("[" +:+ ?t)%string with (String (chr 91) t).
  cbn [scan_from]. assert (scan_step (d + 1 + Z.of_nat (length stk)) (BeginValue, stk) (chr 91) = Some (BeginValueOrEmpty, ArrayValue :: stk)) as ->
    by (apply push_ok; lia).
  destruct vs as [|v vs]; [done|]. apply value_or_empty; [|done].
  change "]"%string with (String (chr 93) ""). by rewrite scan_elements.
Qed.

Lemma scan_member d stk k v rest : reads d v ->
  exists st, closing st = true /\
  forall st0, st0 = BeginString \/ st0 = BeginStringOrEmpty ->
  scan_from (d + 1 + Z.of_nat (length stk)) (st0, ObjectKey :: stk) (json_member (k, v) +:+ rest)
  = scan_from (d + 1 + Z.of_nat (length stk)) (st, ObjectValue :: stk) rest.
Proof.
  intros Hv. destruct (Hv (ObjectValue :: stk)) as (st & Hs & Hc). exists st. split; [done|]. intros st0 Hst0.
  cbn [length] in Hs; replace (d + Z.of_nat (S (length stk))) with (d + 1 + Z.of_nat (length stk)) in Hs by lia.
  unfold json_member. cbn [fst snd]. rewrite !app_assoc'. unfold quote. rewrite !app_assoc'.
  change (String dquote "" +:+ ?t)%string with (String dquote t). cbn [scan_from].
  assert (forall D, scan_step D (st0, ObjectKey :: stk) dquote = Some (InString, ObjectKey :: stk)) as -> by (by destruct Hst0 as [-> | ->]).
  rewrite scan_from_app, (scan_quote_body _ _ _ k (le_n _)). cbn [mbind option_bind].
  change (":" +:+ ?t)%string with (String (chr 58) t). change (String dquote "" +:+ ?t)%string with (String dquote t). cbn [scan_from].
  change (scan_step ?D (InString, ?s) dquote) with (Some (EndValue, s)). cbv iota.
  change (scan_step ?D (EndValue, ObjectKey :: stk) (chr 58)) with (Some (BeginValue, ObjectValue :: stk)). cbv iota.
  by rewrite scan_from_app, Hs.
Qed.

Lemma scan_members d stk rest kvs : forall kv st0, Forall (fun kv => reads d kv.2) (kv :: kvs) -> st0 = BeginString \/ st0 = BeginStringOrEmpty ->
  scan_from (d + 1 + Z.of_nat (length stk)) (st0, ObjectKey :: stk) (strings_Join (json_member <$> kv :: kvs) "," +:+ String (chr 125) rest)
  = scan_from (d + 1 + Z.of_nat (length stk)) (EndValue, stk) rest.
Proof.
  induction kvs as [|kv' kvs IH]; intros [k v] st0 [Hv Hvs]%Forall_cons Hst0; simpl in Hv.
  - change (strings_Join (json_member <$> [(k, v)]) ",") with (json_member (k, v)).
    destruct (scan_member d stk k v (String (chr 125) rest) Hv) as (st & Hc & ->); [|done]. by rewrite behind_value.
  - change (strings_Join (json_member <$> (k, v) :: kv' :: kvs) ",")
      with (json_member (k, v) +:+ ("," +:+ strings_Join (json_member <$> kv' :: kvs) ","))%string.
    rewrite !app_assoc'. destruct (scan_member d stk k v ("," +:+ (strings_Join (json_member <$> kv' :: kvs) "," +:+ String (chr 125) rest))%string Hv)
      as (st & Hc & ->); [|done].
    change ("," +:+ ?t)%string with (String (chr 44) t). rewrite behind_value by done. apply IH; auto.
Qed.

Lemma reads_object d kvs : 0 <= d -> Forall (fun kv => reads d kv.2) kvs -> reads (d + 1) (json_object kvs).
Proof.
  intros Hd Hvs stk. exists EndValue. split; [|done]. unfold json_object. change ("{" +:+ ?t)%string with (String (chr 123) t).
  cbn [scan_from]. assert (scan_step (d + 1 + Z.of_nat (length stk)) (BeginValue, stk) (chr 123) = Some (BeginStringOrEmpty, ObjectKey :: stk)) as ->
    by (apply push_ok; lia).
  destruct kvs as [|kv kvs]; [done|]. change "}"%string with (String (chr 125) ""). rewrite scan_members; auto.
Qed.

(** The members of an object are in its text. *)
Lemma join_member (x sep : string) l1 l2 : exists front back, strings_Join (l1 ++ x :: l2) sep = (front +:+ x +:+ back)%string.
Proof.
  induction l1 as [|y l1 (front & back & IH)].
  - destruct l2 as [|z l2]; [exists ""%string, ""%string; by rewrite append_nil_r|].
    exists ""%string, (sep +:+ strings_Join (z :: l2) sep)%string. done.
  - exists (y +:+ (sep +:+ front))%string, back. destruct (l1 ++ x :: l2) as [|z l] eqn:Hl; [by destruct l1|].
    cbn [app]. rewrite Hl, join_cons, IH. by rewrite !app_assoc'.
Qed.

Lemma object_member kv l1 l2 : exists front back, json_object (l1 ++ kv :: l2) = (front +:+ json_member kv +:+ back)%string.
Proof.
  unfold json_object. rewrite fmap_app, fmap_cons.
  destruct (join_member (json_member kv) "," (json_member <$> l1) (json_member <$> l2)) as (front & back & ->).
  exists ("{" +:+ front)%string, (back +:+ "}")%string. by rewrite !app_assoc'.
Qed.
