(* ===== verification/PipelineModels.v ===== *)
(** * Pipelines and stages: internal/models and the types of internal/pipeline

    The records shared by the pipeline's validator and builder.  The string types
    keep their strings, since the code compares and prints them.  Maps that are
    only carried along are stdpp's finite maps; the map of tags, which the builder
    writes and which copies of a pipeline share, is a reference ([None] for a nil map)
    into the builder's store. *)

From S2P Require Import Prelude GoFloat.

(* go: internal/models/pipeline.go func PipelineStatus.IsValid *)
Definition PipelineStatus_IsValid (s : string) : bool :=
  existsb (String.eqb s) ["active"; "inactive"; "paused"; "archived"; "draft"; "failed"].

(* go: internal/models/task.go func TaskType.IsValid *)
Definition TaskType_IsValid (t : string) : bool :=
  existsb (String.eqb t)
    ["http"; "grpc"; "script"; "sql"; "shell"; "webhook"; "transform"; "notification"; "custom"].

(* go: internal/models/pipeline.go type PipelineConfig *)
Record PipelineConfig := mkPipelineConfig {
  MaxRetries : Z;
  TimeoutSeconds : Z;
  Concurrency : Z;
  Priority : Z;
  QueueName : string;
  ExchangeName : string;
  RoutingKey : string;
  ErrorHandler : string;
  SuccessHandler : string;
  DLQEnabled : bool;
  DLQName : string;
  RetryBackoffMS : Z;
  MaxBackoffMS : Z;
  BackoffMultiplier : float64;
  Environment : string;
  Metadata : gmap string string
}.

(* go: internal/models/pipeline.go type Pipeline *)
Record Pipeline := mkPipeline {
  p_ID : UUID;
  p_Name : string;
  p_Description : string;
  p_Status : string;
  p_Version : Z;
  p_Config : PipelineConfig;
  p_Tags : option N;
  p_CreatedBy : UUID;
  p_CreatedAt : Z;
  p_UpdatedAt : Z;
  p_DeletedAt : option Z
}.

(* go: internal/models/pipeline.go func DefaultPipelineConfig *)
Definition DefaultPipelineConfig : PipelineConfig :=
  mkPipelineConfig 3 300 1 0 "nexuspipe.pipelines.default" "nexuspipe.events" "pipeline.execute" "" ""
    true "nexuspipe.pipelines.dlq" 1000 60000 (f64_of_Z 2) "production" ∅.

(** [id] and [now] are what [uuid.New] and the clock return, [tags] the reference of the
    empty map that [make] allocates. *)
(* go: internal/models/pipeline.go func NewPipeline *)
Definition NewPipeline (id : UUID) (now : Z) (tags : N) (name : string) (createdBy : UUID) : Pipeline :=
  mkPipeline id name "" "draft" 1 DefaultPipelineConfig (Some tags) createdBy now now None.

(* go: internal/models/task.go type TaskConfig *)
Record TaskConfig := mkTaskConfig {
  tc_Method : string;
  tc_URL : string;
  tc_Headers : gmap string string;
  tc_QueryParams : gmap string string;
  tc_Body : string;
  tc_Script : string;
  tc_Command : string;
  tc_SQL : string;
  tc_ServiceName : string;
  tc_Endpoint : string;
  tc_ProtoFile : string;
  tc_Retryable : bool;
  tc_RetryBackoffMS : Z;
  tc_Condition : string;
  tc_Transform : string;
  tc_OutputMapping : gmap string string;
  tc_NotifyOnFailure : bool;
  tc_NotifyChannel : string
}.

(** The zero value, with the fields that the builder sets. *)
Definition task_config (method url sql transform script channel : string) (notify : bool) : TaskConfig :=
  mkTaskConfig method url ∅ ∅ "" script "" sql "" "" "" false 0 "" transform ∅ notify channel.

(* go: internal/pipeline/executor.go type Stage *)
Record Stage := mkStage {
  st_ID : UUID;
  st_Name : string;
  st_Type : string;
  st_Config : TaskConfig;
  st_Sequence : Z;
  st_Optional : bool;
  st_DependsOn : list string;
  st_Timeout : Z;
  st_MaxRetry : Z
}.

(* go: internal/pipeline/executor.go func GetStagesFromPipeline *)
Definition GetStagesFromPipeline (p : Pipeline) : list Stage := [].

(** ** Tasks *)

Definition TaskStatusPending : string := "pending".
Definition TaskStatusRunning : string := "running".
Definition TaskStatusCompleted : string := "completed".
Definition TaskStatusFailed : string := "failed".
Definition TaskStatusCancelled : string := "cancelled".
Definition TaskStatusRetrying : string := "retrying".
Definition TaskStatusTimedOut : string := "timed_out".
Definition TaskStatusSkipped : string := "skipped".

(* go: internal/models/task.go func TaskStatus.IsValid *)
Definition TaskStatus_IsValid (s : string) : bool :=
  existsb (String.eqb s)
    ["pending"; "scheduled"; "running"; "completed"; "failed"; "cancelled"; "retrying"; "paused"; "timed_out"; "skipped"].

(* go: internal/models/task.go func TaskStatus.IsTerminal *)
Definition TaskStatus_IsTerminal (s : string) : bool :=
  existsb (String.eqb s) [TaskStatusCompleted; TaskStatusFailed; TaskStatusCancelled; TaskStatusTimedOut; TaskStatusSkipped].

(** JSON texts are kept as their bytes, [None] for nil. *)
(* go: internal/models/task.go type Task *)
Record Task := mkTask {
  t_ID : UUID;
  t_PipelineID : UUID;
  t_EventID : option UUID;
  t_ParentTaskID : option UUID;
  t_Name : string;
  t_Type : string;
  t_Status : string;
  t_Priority : Z;
  t_Sequence : Z;
  t_Input : option string;
  t_Output : option string;
  t_Error : string;
  t_Config : TaskConfig;
  t_RetryCount : Z;
  t_MaxRetries : Z;
  t_Timeout : Z;
  t_WorkerID : string;
  t_StartedAt : option Z;
  t_CompletedAt : option Z;
  t_DurationMS : Z;
  t_ScheduledAt : option Z;
  t_CreatedAt : Z;
  t_UpdatedAt : Z
}.

(* go: internal/models/task.go func DefaultTaskConfig *)
Definition DefaultTaskConfig : TaskConfig :=
  mkTaskConfig "" "" ∅ ∅ "" "" "" "" "" "" "" true 1000 "" "" ∅ false "".

(* go: internal/models/task.go func NewTask *)
Definition NewTask (id : UUID) (now : Z) (pipelineID : UUID) (name taskType : string) : Task :=
  mkTask id pipelineID None None name taskType TaskStatusPending 0 0 None None "" DefaultTaskConfig 0 3 60 ""
    None None 0 None now now.
