(* ===== verification/ModelsEvent.v ===== *)
(** * Events: internal/models/event.go

    The record of an event with its statuses, and a new event.  Nothing in the sources moves an
    event from one status to another. *)

From S2P Require Import Prelude.

Definition EventStatusPending : string := "pending".
Definition EventStatusCompleted : string := "completed".
Definition EventStatusFailed : string := "failed".
Definition EventStatusCancelled : string := "cancelled".
Definition EventStatusDeadLetter : string := "dead_letter".

(* go: internal/models/event.go func EventStatus.IsValid *)
Definition EventStatus_IsValid (s : string) : bool :=
  existsb (String.eqb s)
    [EventStatusPending; "processing"; EventStatusCompleted; EventStatusFailed; "retrying"; EventStatusCancelled; "delayed";
     EventStatusDeadLetter]%string.

(* go: internal/models/event.go func EventStatus.IsTerminal *)
Definition EventStatus_IsTerminal (s : string) : bool :=
  existsb (String.eqb s) [EventStatusCompleted; EventStatusFailed; EventStatusCancelled; EventStatusDeadLetter].

(* go: internal/models/event.go type EventMetadata *)
Record EventMetadata := mkEventMetadata {
  em_ContentType : string;
  em_Encoding : string;
  em_SchemaVersion : string;
  em_TraceID : string;
  em_SpanID : string;
  em_UserAgent : string;
  em_IPAddress : string;
  em_IdempotencyKey : string;
  em_Custom : gmap string string
}.

(* go: internal/models/event.go type Event *)
Record Event := mkEvent {
  ev_ID : UUID;
  ev_PipelineID : option UUID;
  ev_EventType : string;
  ev_Source : string;
  ev_Status : string;
  ev_Priority : Z;
  ev_Body : option string;
  ev_Headers : EventMetadata;
  ev_RetryCount : Z;
  ev_MaxRetries : Z;
  ev_CorrelationID : string;
  ev_CausationID : string;
  ev_CreatedAt : Z;
  ev_UpdatedAt : Z;
  ev_ProcessedAt : option Z;
  ev_ScheduledAt : option Z;
  ev_TTL : option Z
}.

(* go: internal/models/event.go type EventFilter *)
Record EventFilter := mkEventFilter {
  ef_Status : list string;
  ef_EventTypes : list string;
  ef_Source : string;
  ef_PipelineID : option UUID;
  ef_From : option Z;
  ef_To : option Z;
  ef_Search : string;
  ef_Limit : Z;
  ef_Offset : Z;
  ef_OrderBy : string
}.

(* go: internal/models/event.go func NewEvent *)
Definition NewEvent (id : UUID) (now : Z) (eventType source : string) (body : option string) : Event :=
  mkEvent id None eventType source EventStatusPending 0 body (mkEventMetadata "" "" "" "" "" "" "" "" ∅) 0 3 "" "" now now None None None.

(* go: internal/models/event.go func DefaultEventFilter *)
Definition DefaultEventFilter : EventFilter := mkEventFilter [] [] "" None None None "" 50 0 "created_at DESC".

(** The terminal statuses are statuses, and a new event has none of them. *)
Lemma terminal_valid s : EventStatus_IsTerminal s = true -> EventStatus_IsValid s = true.
Proof.
  unfold EventStatus_IsTerminal, EventStatus_IsValid. rewrite !existsb_exists. intros (x & Hx & Heq). exists x. split; [|done].
  simpl in *. tauto.
Qed.
Lemma NewEvent_status id now eventType source body :
  let s := ev_Status (NewEvent id now eventType source body) in EventStatus_IsValid s = true /\ EventStatus_IsTerminal s = false.
Proof. done. Qed.
