(* ===== verification/ModelsQuery.v ===== *)
(** * Records of queries and versions: internal/models

    The records of internal/models that no other part of the sources uses: versions of pipelines,
    dependencies of tasks, the delivery of an event, and the filters with their defaults, which
    are not those of the repositories. *)

From S2P Require Import Prelude PipelineModels.

(* go: internal/models/pipeline.go type PipelineVersion *)
Record PipelineVersion := mkPipelineVersion {
  pv_ID : UUID;
  pv_PipelineID : UUID;
  pv_Version : Z;
  pv_Config : PipelineConfig;
  pv_Changelog : string;
  pv_Published : bool;
  pv_CreatedBy : UUID;
  pv_CreatedAt : Z
}.

(* go: internal/models/pipeline.go func PipelineStatus.String *)
Definition PipelineStatus_String (s : string) : string := s.

(* go: internal/models/pipeline.go type PipelineFilter *)
Record PipelineFilter := mkPipelineFilter {
  qp_Status : list string;
  qp_Search : string;
  qp_Tags : gmap string string;
  qp_Limit : Z;
  qp_Offset : Z;
  qp_OrderBy : string
}.

(* go: internal/models/pipeline.go func DefaultPipelineFilter *)
Definition DefaultPipelineFilter : PipelineFilter := mkPipelineFilter [] "" ∅ 20 0 "created_at DESC".

(* go: internal/models/task.go type TaskDependency *)
Record TaskDependency := mkTaskDependency {
  td_TaskID : UUID;
  td_DependsOn : UUID;
  td_Mandatory : bool
}.

(* go: internal/models/task.go type TaskFilter *)
Record TaskFilter := mkTaskFilter {
  qt_PipelineID : option UUID;
  qt_Status : list string;
  qt_Types : list string;
  qt_WorkerID : string;
  qt_From : option Z;
  qt_To : option Z;
  qt_Search : string;
  qt_Limit : Z;
  qt_Offset : Z;
  qt_OrderBy : string
}.

(* go: internal/models/task.go func DefaultTaskFilter *)
Definition DefaultTaskFilter : TaskFilter := mkTaskFilter None [] [] "" None None "" 50 0 "created_at DESC".

(* go: internal/models/event.go type EventDeliveryStatus *)
Record EventDeliveryStatus := mkEventDeliveryStatus {
  ed_EventID : UUID;
  ed_Status : string;
  ed_ConsumerID : string;
  ed_DeliveredAt : Z;
  ed_AckedAt : option Z;
  ed_Error : string;
  ed_Attempt : Z
}.
