(* ===== verification/Config.v ===== *)
(** * Configuration: internal/config/config.go

    The sections of the configuration, the defaults, their precedence under the keys of
    viper, and [Validate].  Viper reads the file and decodes the settings: both are
    arguments.  Names of settings are viper's lower-case paths. *)

From S2P Require Import Prelude GoFloat GoStrings.

(** ** The sections *)

(* go: internal/config/config.go type AppConfig *)
Record AppConfig := mkAppConfig {
  app_Name : string;
  app_Environment : string;
  app_Version : string;
  app_Host : string;
  app_Port : Z;
  app_ReadTimeout : Z;
  app_WriteTimeout : Z;
  app_ShutdownGracePeriod : Z;
  app_CORSOrigins : list string
}.

(* go: internal/config/config.go type DatabaseConfig *)
Record DatabaseConfig := mkDatabaseConfig {
  db_Driver : string;
  db_DSN : string;
  db_Host : string;
  db_Port : Z;
  db_User : string;
  db_Password : string;
  db_DBName : string;
  db_SSLMode : string;
  db_MaxOpenConns : Z;
  db_MaxIdleConns : Z;
  db_ConnMaxLifetime : Z;
  db_ConnMaxIdleTime : Z;
  db_MigrationsPath : string
}.

(* go: internal/config/config.go type RabbitMQConfig *)
Record RabbitMQConfig := mkRabbitMQConfig {
  mq_URL : string;
  mq_Host : string;
  mq_Port : Z;
  mq_User : string;
  mq_Password : string;
  mq_VHost : string;
  mq_Exchange : string;
  mq_QueuePrefix : string;
  mq_PrefetchCount : Z;
  mq_ReconnectInterval : Z;
  mq_MaxRetries : Z
}.

(* go: internal/config/config.go type RedisConfig *)
Record RedisConfig := mkRedisConfig {
  rd_URL : string;
  rd_Host : string;
  rd_Port : Z;
  rd_Password : string;
  rd_DB : Z;
  rd_PoolSize : Z;
  rd_MinIdleConns : Z;
  rd_DialTimeout : Z;
  rd_ReadTimeout : Z;
  rd_WriteTimeout : Z
}.

(* go: internal/config/config.go type AuthConfig *)
Record AuthConfig := mkAuthConfig {
  au_JWTSecret : string;
  au_JWTTTL : Z;
  au_RefreshTTL : Z;
  au_Issuer : string;
  au_BcryptCost : Z;
  au_RateLimitPerMin : Z
}.

(* go: internal/config/config.go type MetricsConfig *)
Record MetricsConfig := mkMetricsConfig {
  me_Enabled : bool;
  me_Path : string;
  me_Namespace : string;
  me_Subsystem : string;
  me_Buckets : list float64
}.

(* go: internal/config/config.go type WorkerConfig *)
Record WorkerConfig := mkWorkerConfig {
  wk_Concurrency : Z;
  wk_PollInterval : Z;
  wk_MaxRetries : Z;
  wk_RetryBackoff : Z;
  wk_QueueNames : list string;
  wk_HeartbeatInterval : Z
}.

(* go: internal/config/config.go type CronJob *)
Record CronJob := mkCronJob {
  cj_Name : string;
  cj_Schedule : string;
  cj_Type : string;
  cj_Payload : string
}.

(* go: internal/config/config.go type SchedulerConfig *)
Record SchedulerConfig := mkSchedulerConfig {
  sk_Enabled : bool;
  sk_Timezone : string;
  sk_CronExpressions : list CronJob
}.

(* go: internal/config/config.go type PipelineEngineConfig *)
Record PipelineEngineConfig := mkPipelineEngineConfig {
  pe_MaxStageTimeout : Z;
  pe_DefaultRetries : Z;
  pe_MaxConcurrency : Z;
  pe_StageBufferSize : Z;
  pe_EnableTracing : bool;
  pe_MetricsFlushSec : Z
}.

(* go: internal/config/config.go type CircuitBreakerConfig *)
Record CircuitBreakerConfig := mkCircuitBreakerConfig {
  cb_Enabled : bool;
  cb_FailureThreshold : Z;
  cb_SuccessThreshold : Z;
  cb_Timeout : Z;
  cb_HalfOpenMaxReqs : Z
}.

(* go: internal/config/config.go type DAGConfig *)
Record DAGConfig := mkDAGConfig {
  dg_MaxParallelBranches : Z;
  dg_DefaultTimeout : Z;
  dg_FailFast : bool;
  dg_MaxDepth : Z
}.

(* go: internal/config/config.go type WebhookConfig *)
Record WebhookConfig := mkWebhookConfig {
  wh_MaxRetries : Z;
  wh_RetryBackoff : Z;
  wh_MaxPayloadSize : Z;
  wh_Timeout : Z;
  wh_ConcurrencyLimit : Z;
  wh_QueueName : string
}.

(* go: internal/config/config.go type LogConfig *)
Record LogConfig := mkLogConfig {
  lg_Level : string;
  lg_Format : string;
  lg_OutputPath : string;
  lg_ErrorPath : string;
  lg_AddSource : bool;
  lg_Sampling : bool;
  lg_Encoding : string
}.

(* go: internal/config/config.go type Config *)
Record Config := mkConfig {
  App : AppConfig;
  Database : DatabaseConfig;
  RabbitMQ : RabbitMQConfig;
  Redis : RedisConfig;
  Auth : AuthConfig;
  Metrics : MetricsConfig;
  Worker : WorkerConfig;
  Scheduler : SchedulerConfig;
  PipelineEngine : PipelineEngineConfig;
  CircuitBreaker : CircuitBreakerConfig;
  DAG : DAGConfig;
  Webhook : WebhookConfig;
  Log : LogConfig
}.

(** ** Settings *)

(** What a setting can be; durations are the texts that the decoder parses, numbers that are
    not whole are kept as their texts. *)
Inductive setting : Type :=
| SInt (z : Z)
| SText (s : string)
| SBool (b : bool)
| STexts (l : list string)
| SNumbers (l : list string).

#[export] Instance setting_eq_dec : EqDecision setting.
Proof. solve_decision. Defined.

Abbreviation settings := (gmap string setting).

(* go: internal/config/config.go func setDefaults *)
Definition defaults : list (string * setting) := [
  ("app.name", SText "nexuspipe");
  ("app.environment", SText "development");
  ("app.version", SText "0.1.0");
  ("app.host", SText "0.0.0.0");
  ("app.port", SInt 8080);
  ("app.read_timeout", SText "30s");
  ("app.write_timeout", SText "30s");
  ("app.shutdown_grace_period", SText "15s");
  ("app.cors_origins", STexts ["*"]);
  ("database.driver", SText "postgres");
  ("database.host", SText "localhost");
  ("database.port", SInt 5432);
  ("database.user", SText "nexuspipe");
  ("database.dbname", SText "nexuspipe");
  ("database.sslmode", SText "disable");
  ("database.max_open_conns", SInt 25);
  ("database.max_idle_conns", SInt 10);
  ("database.conn_max_lifetime", SText "5m");
  ("database.conn_max_idle_time", SText "1m");
  ("database.migrations_path", SText "migrations");
  ("rabbitmq.host", SText "localhost");
  ("rabbitmq.port", SInt 5672);
  ("rabbitmq.user", SText "guest");
  ("rabbitmq.password", SText "guest");
  ("rabbitmq.vhost", SText "/");
  ("rabbitmq.exchange", SText "nexuspipe.events");
  ("rabbitmq.queue_prefix", SText "nexuspipe");
  ("rabbitmq.prefetch_count", SInt 10);
  ("rabbitmq.reconnect_interval", SText "5s");
  ("rabbitmq.max_retries", SInt 5);
  ("redis.host", SText "localhost");
  ("redis.port", SInt 6379);
  ("redis.db", SInt 0);
  ("redis.pool_size", SInt 10);
  ("redis.min_idle_conns", SInt 3);
  ("redis.dial_timeout", SText "5s");
  ("redis.read_timeout", SText "3s");
  ("redis.write_timeout", SText "3s");
  ("auth.jwt_ttl", SText "24h");
  ("auth.refresh_ttl", SText "720h");
  ("auth.issuer", SText "nexuspipe");
  ("auth.bcrypt_cost", SInt 12);
  ("auth.rate_limit_per_min", SInt 100);
  ("metrics.enabled", SBool true);
  ("metrics.path", SText "/metrics");
  ("metrics.namespace", SText "nexuspipe");
  ("metrics.subsystem", SText "api");
  ("metrics.buckets", SNumbers ["0.001"; "0.005"; "0.01"; "0.025"; "0.05"; "0.1"; "0.25"; "0.5"; "1.0"]);
  ("worker.concurrency", SInt 10);
  ("worker.poll_interval", SText "1s");
  ("worker.max_retries", SInt 3);
  ("worker.retry_backoff", SText "5s");
  ("worker.queue_names", STexts ["nexuspipe.tasks.default"]);
  ("worker.heartbeat_interval", SText "30s");
  ("scheduler.enabled", SBool true);
  ("scheduler.timezone", SText "UTC");
  ("dag.max_parallel_branches", SInt 10);
  ("dag.default_timeout", SText "1h");
  ("dag.fail_fast", SBool true);
  ("dag.max_depth", SInt 50);
  ("circuit_breaker.enabled", SBool true);
  ("circuit_breaker.failure_threshold", SInt 5);
  ("circuit_breaker.success_threshold", SInt 2);
  ("circuit_breaker.timeout", SText "30s");
  ("circuit_breaker.half_open_max_requests", SInt 3);
  ("pipeline_engine.max_stage_timeout", SText "30m");
  ("pipeline_engine.default_retries", SInt 3);
  ("pipeline_engine.max_concurrency", SInt 50);
  ("pipeline_engine.stage_buffer_size", SInt 1000);
  ("pipeline_engine.enable_tracing", SBool false);
  ("pipeline_engine.metrics_flush_sec", SInt 10);
  ("webhook.max_retries", SInt 5);
  ("webhook.retry_backoff", SText "30s");
  ("webhook.max_payload_size", SInt 1048576);
  ("webhook.timeout", SText "10s");
  ("webhook.concurrency_limit", SInt 20);
  ("webhook.queue_name", SText "nexuspipe.webhooks");
  ("log.level", SText "info");
  ("log.format", SText "json");
  ("log.output_path", SText "stdout");
  ("log.error_path", SText "stderr");
  ("log.add_source", SBool true);
  ("log.sampling", SBool false);
  ("log.encoding", SText "console")
]%string.

Inductive ConfigError : Type :=
| ErrReadConfig (path err : string)
| ErrReadText (err : string)
| ErrUnmarshal (err : string)
| ErrNoDatabase
| ErrNoRabbitMQ
| ErrInvalidPort (port : Z).

(** Viper decodes the keys it knows, which are those of the file and of the defaults; the
    environment goes before the file, and the file before the defaults. *)
Definition effective (env file : settings) : settings :=
  map_imap (fun key v => Some (default v (env !! key))) (file ∪ list_to_map defaults).

Section load.
Context (unmarshal : settings -> Config + string) (env : settings).

Definition decode (file : settings) : Config + ConfigError :=
  match unmarshal (effective env file) with inl cfg => inl cfg | inr err => inr (ErrUnmarshal err) end.

(** [read] answers the settings of a file. *)
(* go: internal/config/config.go func LoadConfig *)
Definition LoadConfig (read : string -> settings + string) (path : string) : Config + ConfigError :=
  match read path with inl file => decode file | inr err => inr (ErrReadConfig path err) end.

(* go: internal/config/config.go func LoadConfigFromString *)
Definition LoadConfigFromString (parse : string -> settings + string) (raw : string) : Config + ConfigError :=
  match parse raw with inl file => decode file | inr err => inr (ErrReadText err) end.
End load.

(* go: internal/config/config.go func Config.Validate *)
Definition Config_Validate (c : Config) : option ConfigError :=
  if String.eqb (db_DSN (Database c)) "" && String.eqb (db_Host (Database c)) "" then Some ErrNoDatabase
  else if String.eqb (mq_URL (RabbitMQ c)) "" && String.eqb (mq_Host (RabbitMQ c)) "" then Some ErrNoRabbitMQ
  else if (app_Port (App c) <=? 0) || (65535 <? app_Port (App c)) then Some (ErrInvalidPort (app_Port (App c)))
  else None.

(** ** Connection strings

    The commands build the same two strings, each in its own copy of the code. *)

(* go: cmd/worker/main.go @121-131 Worker.connectDatabase *)
Definition database_dsn (c : DatabaseConfig) : string :=
  if String.eqb (db_DSN c) ""
  then strings_Join ["postgres://"; db_User c; ":"; db_Password c; "@"; db_Host c; ":"; itoa (db_Port c); "/"; db_DBName c;
                     "?sslmode="; db_SSLMode c]%string ""
  else db_DSN c.

(* go: cmd/worker/main.go @158-167 Worker.connectRabbitMQ *)
Definition rabbitmq_url (c : RabbitMQConfig) : string :=
  if String.eqb (mq_URL c) ""
  then strings_Join ["amqp://"; mq_User c; ":"; mq_Password c; "@"; mq_Host c; ":"; itoa (mq_Port c); "/"; mq_VHost c]%string ""
  else mq_URL c.

(** ** Facts *)

Lemma defaults_NoDup : NoDup defaults.*1.
Proof. apply (bool_decide_unpack _). vm_compute. exact I. Qed.

Lemma effective_lookup env file key :
  effective env file !! key =
    match file !! key, (list_to_map defaults : settings) !! key with
    | None, None => None
    | Some v, _ | None, Some v => Some (default v (env !! key))
    end.
Proof.
  unfold effective. rewrite map_lookup_imap, lookup_union.
  by destruct (file !! key), ((list_to_map defaults : settings) !! key).
Qed.

(** The defaults name a key with at most one value. *)
Lemma defaults_lookup key :
  match (list_to_map defaults : settings) !! key with
  | Some x => key ∈ defaults.*1 /\ forall v, (key, v) ∈ defaults <-> v = x
  | None => key ∉ defaults.*1
  end.
Proof.
  destruct ((list_to_map defaults : settings) !! key) as [x|] eqn:Hx.
  - pose proof (proj2 (elem_of_list_to_map defaults key x defaults_NoDup) Hx) as Hin.
    split; [apply list_elem_of_fmap; by exists (key, x)|]. intros v. split; [|by intros ->].
    intros Hv%(elem_of_list_to_map defaults key v defaults_NoDup). congruence.
  - by apply not_elem_of_list_to_map.
Qed.

(** Every setting has the value of the environment, or else of the file, or else of the
    defaults, if the file or the defaults name it; what only the environment names, as a
    password or the secret of the tokens can be, is not seen. *)
Theorem settings_precedence env file key :
  (forall v, effective env file !! key = Some v <->
     (is_Some (file !! key) \/ key ∈ defaults.*1)
     /\ (env !! key = Some v \/ env !! key = None
         /\ (file !! key = Some v \/ file !! key = None /\ (key, v) ∈ defaults)))
  /\ (key ∈ ["database.password"; "database.dsn"; "rabbitmq.url"; "redis.password"; "auth.jwt_secret"]%string ->
      file !! key = None -> effective env file !! key = None).
Proof.
  rewrite effective_lookup. pose proof (defaults_lookup key) as Hd. split.
  - intros v. destruct ((list_to_map defaults : settings) !! key) as [x|]; [destruct Hd as [Hk Hd]; setoid_rewrite Hd|].
    + clear Hd. revert Hk. generalize (key ∈ defaults.*1). intros P HP.
      destruct (file !! key) as [w|], (env !! key) as [u|]; simpl; naive_solver.
    + assert ((key, v) ∉ defaults) as Hv by (intros Hv; by apply Hd, (list_elem_of_fmap_2 fst _ (key, v))).
      revert Hd Hv. generalize (key ∈ defaults.*1) ((key, v) ∈ defaults). intros P Q HP HQ.
      destruct (file !! key) as [w|], (env !! key) as [u|]; simpl; naive_solver.
  - intros Hin ->. destruct ((list_to_map defaults : settings) !! key); [|done]. destruct Hd as [Hk _]. exfalso. revert Hk.
    assert (Forall (fun k => k ∉ defaults.*1)
              ["database.password"; "database.dsn"; "rabbitmq.url"; "redis.password"; "auth.jwt_secret"]%string) as Hall
      by (apply (bool_decide_unpack _); vm_compute; exact I).
    by apply (proj1 (Forall_forall _ _) Hall).
Qed.
