(* ===== verification/CronLib.v ===== *)
(** * The cron library as an interface

    github.com/robfig/cron/v3 is not part of the sources.  Two type classes state its
    operations: the table of jobs of a [cron.Cron] ([CronOps]) and the parser with the
    schedules it returns ([CronParser]); their laws are what its documentation says and
    the sources rely on.  Concrete instances show that the laws can hold. *)

From S2P Require Import Prelude GoStrings.

(** ** The table of jobs *)

(** [Entries] is a snapshot of the registered jobs as a slice of (ID, next run). *)
Class CronOps (C : Type) := {
  cron_Entries : C -> list (Z * Z);
  cron_AddFunc : C -> string -> go_result (C * Z) string;
  cron_Remove : C -> Z -> C
}.

(** A job gets a new non-zero identifier; [Remove] drops the job of that identifier. *)
Class CronLaws (C : Type) `{CronOps C} := {
  addfunc_entries : forall c expr c' id, cron_AddFunc c expr = Ok (c', id) ->
    (cron_Entries c').*1 ≡ₚ id :: (cron_Entries c).*1;
  addfunc_fresh : forall c expr c' id, cron_AddFunc c expr = Ok (c', id) -> id ∉ (cron_Entries c).*1;
  addfunc_pos : forall c expr c' id, cron_AddFunc c expr = Ok (c', id) -> 1 <= id;
  addfunc_no_panic : forall c expr, cron_AddFunc c expr <> Panic;
  remove_entries : forall c id, (cron_Entries (cron_Remove c id)).*1 ≡ₚ filter (.≠ id) (cron_Entries c).*1
}.

(** ** The parser and its schedules *)

(** A [time.Time]: an instant and the location it is shown in. *)
Record Time := mkTime { t_ns : Z; t_loc : string }.

#[export] Instance Time_eq_dec : EqDecision Time.
Proof. solve_decision. Defined.

Definition UTC : string := "UTC".
Definition zero_Time : Time := mkTime 0 UTC.
(** [Time.In] and [Time.Add]. *)
Definition In (t : Time) (loc : string) : Time := mkTime (t_ns t) loc.
Definition Time_Add (t : Time) (d : Z) : Time := mkTime (t_ns t + d) (t_loc t).
Definition After (t u : Time) : bool := time_After (t_ns t) (t_ns u).
Definition Before (t u : Time) : bool := time_Before (t_ns t) (t_ns u).
Definition IsZero (t : Time) : bool := time_IsZero (t_ns t).

(** [cron_Parse seconds] is the parser with or without a field for the seconds, both
    with descriptors; [cron_Next] is the method [Next] of a parsed schedule. *)
Class CronParser (S : Type) := {
  cron_Parse : bool -> string -> S + string;
  cron_Next : S -> Time -> Time
}.

(** The fields of an expression after an optional leading time zone; a descriptor is
    recognised by its at sign. *)
Definition at_sign : Ascii.ascii := Ascii.ascii_of_nat 64.
Definition is_descriptor (expr : string) : bool := has_char at_sign expr.
Definition cron_fields (expr : string) : list string :=
  if String.prefix "TZ=" expr || String.prefix "CRON_TZ=" expr
  then Fields (after_char (Ascii.ascii_of_nat 32) expr) else Fields expr.

(** [Next] returns a later instant, on a whole second and in the same location, or the
    zero time when it finds none.  Apart from descriptors an expression has exactly
    five fields, or six with seconds; the empty expression is refused. *)
Class CronParserLaws (S : Type) `{CronParser S} := {
  next_later : forall s t, cron_Next s t = zero_Time \/
    (t_ns t < t_ns (cron_Next s t) /\ (Second | t_ns (cron_Next s t)) /\ t_loc (cron_Next s t) = t_loc t);
  parse_fields : forall seconds expr s, cron_Parse seconds expr = inl s -> is_descriptor expr = false ->
    length (cron_fields expr) = if seconds then 6%nat else 5%nat
}.

(** A table made by [cron.New(cron.WithSeconds())] parses with seconds. *)
Class CronTableParses (C S : Type) `{CronOps C, CronParser S} := {
  addfunc_parses : forall c expr c' id, cron_AddFunc c expr = Ok (c', id) ->
    exists s, cron_Parse true expr = inl s
}.

(** ** A concrete parser

    Every expression with the right number of fields means once a minute, except the
    thirtieth of February, which has no run; it shows that the laws can hold. *)

Inductive toy_schedule : Type := EveryMinute | NeverRuns.

Definition toy_meaning (expr : string) : toy_schedule :=
  match cron_fields expr with
  | _ :: _ :: dom :: month :: _ => if String.eqb dom "30" && String.eqb month "2" then NeverRuns else EveryMinute
  | _ => EveryMinute
  end.

Definition toy_Parse (seconds : bool) (expr : string) : toy_schedule + string :=
  if is_descriptor expr then inl EveryMinute
  else if (length (cron_fields expr) =? if seconds then 6 else 5)%nat then inl (toy_meaning expr)
  else inr "wrong number of fields".

#[export] Instance toy_parser : CronParser toy_schedule := {
  cron_Parse := toy_Parse;
  cron_Next s t := match s with
                   | EveryMinute => mkTime ((t_ns t `div` Minute + 1) * Minute) (t_loc t)
                   | NeverRuns => zero_Time
                   end
}.

#[export] Instance toy_parser_laws : CronParserLaws toy_schedule.
Proof.
  split; simpl.
  - intros [|] t; [right; cbn -[Minute Second]|by left]. split_and!; [|exists ((t_ns t `div` Minute + 1) * 60); unfold Minute; lia|done].
    pose proof (Z.mod_pos_bound (t_ns t) Minute eq_refl). pose proof (Z.div_mod (t_ns t) Minute ltac:(done)). lia.
  - unfold toy_Parse. intros seconds expr s Hs Hd. rewrite Hd in Hs.
    by destruct (Nat.eqb_spec (length (cron_fields expr)) (if seconds then 6 else 5)).
Qed.

(** ** A concrete cron table

    Identifiers are given out from 1 to the expressions of the concrete parser. *)

Record toy_cron := mkToyCron { toy_next : nat; toy_jobs : list (Z * Z) }.

#[export] Instance toy_cron_ops : CronOps toy_cron := {
  cron_Entries c := filter (fun job => 1 <= job.1 <= Z.of_nat (toy_next c)) (toy_jobs c);
  cron_AddFunc c expr :=
    match toy_Parse true expr with
    | inr err => Err err
    | inl _ => Ok (mkToyCron (S (toy_next c))
                     (filter (fun job => 1 <= job.1 <= Z.of_nat (toy_next c)) (toy_jobs c)
                        ++ [(Z.of_nat (S (toy_next c)), 60 * Second)]), Z.of_nat (S (toy_next c)))
    end;
  cron_Remove c id := mkToyCron (toy_next c) (filter (fun job => job.1 <> id) (toy_jobs c))
}.

Lemma fmap_fst_filter {A B} (P : A -> Prop) `{forall x, Decision (P x)} (l : list (A * B)) :
  (filter (fun job => P job.1) l).*1 = filter P l.*1.
Proof.
  induction l as [|[a b] l IH]; [done|]. csimpl. destruct (decide (P a)).
  - by rewrite !filter_cons_True, fmap_cons, IH.
  - by rewrite !filter_cons_False, IH.
Qed.

#[export] Instance toy_cron_laws : CronLaws toy_cron.
Proof.
  split; simpl.
  - intros c expr c' id. destruct (toy_Parse true expr); [intros [= <- <-]|done]. simpl. rewrite list_filter_all.
    + rewrite fmap_app. simpl. solve_Permutation.
    + intros [i z] [Hj|Hj]%elem_of_app; simpl.
      * apply list_elem_of_filter in Hj as [Hj _]; simpl in *. lia.
      * apply list_elem_of_singleton in Hj. simplify_eq. lia.
  - intros c expr c' id. destruct (toy_Parse true expr); [intros [= <- <-] Hin|done]. apply list_elem_of_fmap in Hin as ([i z] & Hi & Hin).
    apply list_elem_of_filter in Hin as [Hin _]; simpl in *. lia.
  - intros c expr c' id. destruct (toy_Parse true expr); [intros [= <- <-]; lia|done].
  - intros c expr. by destruct (toy_Parse true expr).
  - intros c id.
    assert (forall l : list (Z * Z), (filter (fun job => 1 <= job.1 <= Z.of_nat (toy_next c)) l).*1
              = filter (fun i => 1 <= i <= Z.of_nat (toy_next c)) l.*1) as E1
      by (intros l; exact (fmap_fst_filter _ l)).
    assert (forall l : list (Z * Z), (filter (fun job => job.1 <> id) l).*1 = filter (fun i => i <> id) l.*1) as E2
      by (intros l; exact (fmap_fst_filter _ l)).
    rewrite !E1, E2, !list_filter_filter.
    erewrite list_filter_iff; [done|]. intros i. simpl. tauto.
Qed.

#[export] Instance toy_cron_parses : CronTableParses toy_cron toy_schedule.
Proof. split. simpl. intros c expr c' id. destruct (toy_Parse true expr) as [s|]; [by exists s|done]. Qed.

Lemma toy_empty : cron_Entries (mkToyCron 0 []) = [].
Proof. reflexivity. Qed.

