(* ===== verification/DagScheduler.v ===== *)
(** * The graph scheduler: internal/dag/scheduler.go

    The table of schedules, the registrations with the cron library, and the run of
    one schedule with its events.  The library (github.com/robfig/cron) is not part
    of the sources: it is the interface [CronOps] with the documented laws [CronLaws] of
    [CronLib].  A run is one definition
    [executeSchedule] that reports the new state and the events fired, in order. *)

From S2P Require Import Prelude DagGraph DagValidator DagExecutor CronLib.

(** ** Data *)

(** A condition looks at the graph and says whether to run, or fails. *)
(* go: internal/dag/scheduler.go @14-14 DAGCondition *)
Definition DAGCondition : Type := Graph -> bool + string.

Inductive RunError : Type :=
| ErrCondition (err : string)
| ErrExecute (err : ExecuteError)
| ErrDeadline
| ErrNodesFailed.

(* go: internal/dag/scheduler.go type DAGRun *)
Record DAGRun := mkDAGRun {
  run_ID : UUID;
  run_Graph : Graph;
  run_StartedAt : Z;
  run_FinishedAt : option Z;
  run_Result : option ExecutionResult;
  run_Error : option RunError;
  run_Status : string
}.

(* go: internal/dag/scheduler.go type DAGSchedule *)
Record DAGSchedule := mkDAGSchedule {
  sc_ID : UUID;
  sc_Name : string;
  sc_Graph : Graph;
  sc_CronExpr : string;
  sc_Condition : option DAGCondition;
  sc_Timeout : Z;
  sc_Enabled : bool;
  sc_LastRun : option DAGRun;
  sc_NextRun : Z;
  sc_EntryID : Z
}.

(* go: internal/dag/scheduler.go @39-47 DAGRunEvent *)
Inductive DAGRunEvent : Type := RunStarted | RunCompleted | RunFailed | RunSkipped | RunTimedOut.

(** Listeners are functions of the caller, here named by numbers; what a call of
    the scheduler does to them is the list of their invocations. *)
Record invocation := mkInvocation {
  inv_listener : nat;
  inv_event : DAGRunEvent;
  inv_schedule : UUID;
  inv_run : DAGRun
}.

Inductive SchedulerError : Type :=
| ErrInvalidDAG (name : string) (result : ValidationResult)
| ErrCronExpr (expr err : string)
| ErrScheduleNotFound (id : UUID).

Section scheduler.
Context {C : Type} `{CronOps C}.

(* go: internal/dag/scheduler.go type DAGScheduler *)
Record DAGScheduler := mkDAGScheduler {
  executor : DAGExecutor;
  validator : Validator;
  cron : C;
  schedules : gmap UUID DAGSchedule;
  activeRuns : gset UUID;
  listeners : list nat
}.

Definition with_cron (s : DAGScheduler) (c : C) : DAGScheduler :=
  mkDAGScheduler (executor s) (validator s) c (schedules s) (activeRuns s) (listeners s).
Definition with_schedules (s : DAGScheduler) (m : gmap UUID DAGSchedule) : DAGScheduler :=
  mkDAGScheduler (executor s) (validator s) (cron s) m (activeRuns s) (listeners s).
Definition with_activeRuns (s : DAGScheduler) (a : gset UUID) : DAGScheduler :=
  mkDAGScheduler (executor s) (validator s) (cron s) (schedules s) a (listeners s).

(** ** Operations on the table *)

(** [c] is the result of [cron.New]. *)
(* go: internal/dag/scheduler.go func NewDAGScheduler *)
Definition NewDAGScheduler (c : C) (e : DAGExecutor) : DAGScheduler :=
  mkDAGScheduler e NewValidator c ∅ ∅ [].

(** [Stop] cancels and forgets every active run. *)
(* go: internal/dag/scheduler.go func DAGScheduler.Stop *)
Definition Stop (s : DAGScheduler) : DAGScheduler * list UUID :=
  (with_activeRuns s ∅, elements (activeRuns s)).

(** [id] is what [uuid.New] returns, [rng] the map orders of [ValidateDAG]. *)
(* go: internal/dag/scheduler.go func DAGScheduler.AddSchedule *)
Definition AddSchedule (s : DAGScheduler) (rng : nat -> list UUID) (id : UUID)
  (name cronExpr : string) (graph : Graph)
  : outcome (DAGScheduler * go_result DAGSchedule SchedulerError) :=
  match ValidateDAG (validator s) rng graph with
  | NoFuel => NoFuel
  | Panics => Panics
  | Returns result =>
      if negb (vr_Valid result) then Returns (s, Err (ErrInvalidDAG name result))
      else
        match cron_AddFunc (cron s) cronExpr with
        | Err err => Returns (s, Err (ErrCronExpr cronExpr err))
        | Panic => Panics
        | Ok (c, entryID) =>
            let schedule := mkDAGSchedule id name graph cronExpr None (30 * Minute) true None 0 entryID in
            Returns (with_schedules (with_cron s c) (<[id := schedule]> (schedules s)), Ok schedule)
        end
  end.

(* go: internal/dag/scheduler.go func DAGScheduler.RemoveSchedule *)
Definition RemoveSchedule (s : DAGScheduler) (id : UUID) : DAGScheduler * bool :=
  match schedules s !! id with
  | None => (s, false)
  | Some schedule =>
      (with_schedules (with_cron s (cron_Remove (cron s) (sc_EntryID schedule))) (delete id (schedules s)), true)
  end.

(** The shape of the four setters: look the schedule up and change it in place. *)
Definition update_schedule (s : DAGScheduler) (id : UUID) (f : DAGSchedule -> DAGSchedule)
  : DAGScheduler * option SchedulerError :=
  match schedules s !! id with
  | None => (s, Some (ErrScheduleNotFound id))
  | Some schedule => (with_schedules s (<[id := f schedule]> (schedules s)), None)
  end.

Definition with_run (sc : DAGSchedule) (last : option DAGRun) (next : Z) : DAGSchedule :=
  mkDAGSchedule (sc_ID sc) (sc_Name sc) (sc_Graph sc) (sc_CronExpr sc) (sc_Condition sc) (sc_Timeout sc)
    (sc_Enabled sc) last next (sc_EntryID sc).

(* go: internal/dag/scheduler.go func DAGScheduler.SetCondition *)
Definition SetCondition (s : DAGScheduler) (id : UUID) (condition : DAGCondition) :=
  update_schedule s id (fun sc =>
    mkDAGSchedule (sc_ID sc) (sc_Name sc) (sc_Graph sc) (sc_CronExpr sc) (Some condition) (sc_Timeout sc)
      (sc_Enabled sc) (sc_LastRun sc) (sc_NextRun sc) (sc_EntryID sc)).

(* go: internal/dag/scheduler.go func DAGScheduler.SetTimeout *)
Definition SetTimeout (s : DAGScheduler) (id : UUID) (timeout : Z) :=
  update_schedule s id (fun sc =>
    mkDAGSchedule (sc_ID sc) (sc_Name sc) (sc_Graph sc) (sc_CronExpr sc) (sc_Condition sc) timeout
      (sc_Enabled sc) (sc_LastRun sc) (sc_NextRun sc) (sc_EntryID sc)).

Definition set_enabled (b : bool) (sc : DAGSchedule) : DAGSchedule :=
  mkDAGSchedule (sc_ID sc) (sc_Name sc) (sc_Graph sc) (sc_CronExpr sc) (sc_Condition sc) (sc_Timeout sc)
    b (sc_LastRun sc) (sc_NextRun sc) (sc_EntryID sc).

(* go: internal/dag/scheduler.go func DAGScheduler.EnableSchedule *)
Definition EnableSchedule (s : DAGScheduler) (id : UUID) := update_schedule s id (set_enabled true).

(* go: internal/dag/scheduler.go func DAGScheduler.DisableSchedule *)
Definition DisableSchedule (s : DAGScheduler) (id : UUID) := update_schedule s id (set_enabled false).

(* go: internal/dag/scheduler.go func DAGScheduler.AddListener *)
Definition AddListener (s : DAGScheduler) (listener : nat) : DAGScheduler :=
  mkDAGScheduler (executor s) (validator s) (cron s) (schedules s) (activeRuns s) (listeners s ++ [listener]).

(* go: internal/dag/scheduler.go func DAGScheduler.GetSchedule *)
Definition GetSchedule (s : DAGScheduler) (id : UUID) : option DAGSchedule := schedules s !! id.

(* go: internal/dag/scheduler.go func DAGScheduler.ListSchedules *)
Definition ListSchedules (ord : list UUID) (s : DAGScheduler) : list DAGSchedule :=
  omap (fun id => schedules s !! id) ord.

(** ** One run *)

(* go: internal/dag/scheduler.go func DAGScheduler.fireEvent *)
Definition fireEvent (s : DAGScheduler) (event : DAGRunEvent) (schedule : DAGSchedule) (run : DAGRun)
  : list invocation :=
  (fun l => mkInvocation l event (sc_ID schedule) run) <$> listeners s.

(** [s.cron.Entries()[schedule.EntryID].Next]: an index out of range panics. *)
(* go: internal/dag/scheduler.go @241-241 DAGScheduler.executeSchedule *)
Definition next_run (c : C) (entryID : Z) : option Z :=
  if entryID <? 0 then None else snd <$> cron_Entries c !! Z.to_nat entryID.

(** What the environment decides during one run: the new run's identifier, the
    clock at the start and at the end, the world of the executor, whether the run's
    context has expired when [Execute] has returned, and three map orders. *)
Record run_env := mkRunEnv {
  re_ID : UUID;
  re_start : Z;
  re_end : Z;
  re_world : env;
  re_expired : bool;
  re_ord1 : list UUID;
  re_ord2 : list UUID;
  re_ord3 : list UUID
}.

(** The guard on [Condition]: the run that is skipped, if it is. *)
(* go: internal/dag/scheduler.go @246-276 DAGScheduler.executeSchedule *)
Definition skipped_run (x : run_env) (schedule : DAGSchedule) : option DAGRun :=
  match sc_Condition schedule with
  | None => None
  | Some condition =>
      match condition (sc_Graph schedule) with
      | inr err => Some (mkDAGRun (re_ID x) (sc_Graph schedule) (re_start x) None None
                           (Some (ErrCondition err)) "skipped")
      | inl false => Some (mkDAGRun (re_ID x) (sc_Graph schedule) (re_start x) None None None "skipped")
      | inl true => None
      end
  end.

(** The run and its final event, from what [Execute] returned; the last component
    says whether the tail of the function records it in the schedule.  A nil result
    without an error would panic at [result.Success]. *)
(* go: internal/dag/scheduler.go @301-337 DAGScheduler.executeSchedule *)
Definition finish_run (x : run_env) (schedule : DAGSchedule)
  (res : option ExecutionResult * option ExecuteError) : option (DAGRun * DAGRunEvent * bool) :=
  let run := mkDAGRun (re_ID x) (sc_Graph schedule) (re_start x) (Some (re_end x)) in
  match res with
  | (_, Some err) => Some (run None (Some (ErrExecute err)) "failed", RunFailed, false)
  | (result, None) =>
      if re_expired x then Some (run result (Some ErrDeadline) "timed_out", RunTimedOut, false)
      else match result with
           | None => None
           | Some r => if Success r then Some (run result None "completed", RunCompleted, true)
                       else Some (run result (Some ErrNodesFailed) "failed", RunFailed, true)
           end
  end.

(** [schedule] is an object of the table, changed in place. *)
(* go: internal/dag/scheduler.go func DAGScheduler.executeSchedule *)
Definition executeSchedule (x : run_env) (s : DAGScheduler) (schedule : DAGSchedule)
  : outcome (DAGScheduler * option DAGRun * list invocation) :=
  if negb (sc_Enabled schedule) then Returns (s, None, [])
  else
    match next_run (cron s) (sc_EntryID schedule) with
    | None => Panics
    | Some next =>
        let schedule1 := with_run schedule (sc_LastRun schedule) next in
        let s1 := with_schedules s (<[sc_ID schedule := schedule1]> (schedules s)) in
        match skipped_run x schedule1 with
        | Some run => Returns (s1, Some run, fireEvent s1 RunSkipped schedule1 run)
        | None =>
            let s2 := with_activeRuns s1 ({[sc_ID schedule]} ∪ activeRuns s1) in
            let started := mkDAGRun (re_ID x) (sc_Graph schedule1) (re_start x) None None None "running" in
            let events := fireEvent s2 RunStarted schedule1 started in
            match Execute (re_world x) (executor s2) (re_ord1 x) (re_ord2 x) (re_ord3 x) (sc_Graph schedule1) with
            | NoFuel => NoFuel
            | Panics => Panics
            | Returns res =>
                match finish_run x schedule1 res with
                | None => Panics
                | Some (run, event, record) =>
                    let events' := events ++ fireEvent s2 event schedule1 run in
                    let s3 := with_activeRuns s2 (activeRuns s2 ∖ {[sc_ID schedule]}) in
                    if record
                    then match next_run (cron s3) (sc_EntryID schedule1) with
                         | None => Panics
                         | Some next' =>
                             Returns (with_schedules s3
                                        (<[sc_ID schedule := with_run schedule1 (Some run) next']> (schedules s3)),
                                      Some run, events')
                         end
                    else Returns (s3, Some run, events')
                end
            end
        end
    end.

(* go: internal/dag/scheduler.go func DAGScheduler.RunNow *)
Definition RunNow (x : run_env) (s : DAGScheduler) (id : UUID)
  : outcome (DAGScheduler * go_result (option DAGRun) SchedulerError * list invocation) :=
  match schedules s !! id with
  | None => Returns (s, Err (ErrScheduleNotFound id), [])
  | Some schedule =>
      match executeSchedule x s schedule with
      | Returns (s', run, events) => Returns (s', Ok run, events)
      | Panics => Panics
      | NoFuel => NoFuel
      end
  end.

(** ** Reachable schedulers *)

(** One call of the interface.  [uuid.New] does not repeat an identifier in use. *)
Inductive sched_step : DAGScheduler -> DAGScheduler -> Prop :=
| step_add s rng id name expr g s' r :
    schedules s !! id = None ->
    AddSchedule s rng id name expr g = Returns (s', r) -> sched_step s s'
| step_remove s id : sched_step s (RemoveSchedule s id).1
| step_condition s id c : sched_step s (SetCondition s id c).1
| step_timeout s id t : sched_step s (SetTimeout s id t).1
| step_enable s id : sched_step s (EnableSchedule s id).1
| step_disable s id : sched_step s (DisableSchedule s id).1
| step_listener s l : sched_step s (AddListener s l)
| step_stop s : sched_step s (Stop s).1
| step_run s x id s' r evs : RunNow x s id = Returns (s', r, evs) -> sched_step s s'.

(** ** The table and the cron registrations agree *)

Definition entryIDs (s : DAGScheduler) : list Z := sc_EntryID <$> values (schedules s).

Record sched_inv (s : DAGScheduler) : Prop := {
  si_ids : forall id sc, schedules s !! id = Some sc -> sc_ID sc = id;
  si_entries : (cron_Entries (cron s)).*1 ≡ₚ entryIDs s;
  si_nodup : NoDup (entryIDs s);
  si_pos : forall i, i ∈ entryIDs s -> 1 <= i
}.

Context `{!CronLaws C}.

Lemma NewDAGScheduler_inv c e : cron_Entries c = [] -> sched_inv (NewDAGScheduler c e).
Proof.
  intros Hc. split; unfold entryIDs; simpl; rewrite ?Hc; [set_solver|done|constructor|set_solver].
Qed.

Lemma AddSchedule_inv s rng id name expr g s' r :
  sched_inv s -> schedules s !! id = None ->
  AddSchedule s rng id name expr g = Returns (s', r) -> sched_inv s'.
Proof using CronLaws0.
  intros [Hi He Hn Hp] Hid Ha. unfold AddSchedule in Ha.
  repeat case_match; simplify_eq; try done.
  assert (forall sc, entryIDs (with_schedules (with_cron s c) (<[id := sc]> (schedules s)))
             ≡ₚ sc_EntryID sc :: entryIDs s) as Hperm
    by (intros sc; unfold entryIDs; simpl; by rewrite values_insert_fresh).
  pose proof (addfunc_entries _ _ _ _ H2) as Ha1. pose proof (addfunc_fresh _ _ _ _ H2) as Ha2.
  pose proof (addfunc_pos _ _ _ _ H2) as Ha3. rewrite He in Ha1, Ha2. split.
  - intros i sc. simpl. rewrite lookup_insert_Some. naive_solver.
  - rewrite Hperm. exact Ha1.
  - rewrite Hperm. simpl. by constructor.
  - intros i. rewrite Hperm. simpl. intros [->|?]%elem_of_cons; auto.
Qed.

Lemma RemoveSchedule_inv s id : sched_inv s -> sched_inv (RemoveSchedule s id).1.
Proof using CronLaws0.
  intros [Hi He Hn Hp]. unfold RemoveSchedule. destruct (schedules s !! id) as [sc|] eqn:Hid; [|done].
  set (s' := with_schedules _ _). assert (entryIDs s ≡ₚ sc_EntryID sc :: entryIDs s') as Hperm
    by (unfold entryIDs; subst s'; simpl; by rewrite (values_delete (schedules s) id sc)).
  rewrite Hperm in Hn. apply NoDup_cons in Hn as [Hn1 Hn2]. split.
  - intros i sc'. subst s'. simpl. rewrite lookup_delete_Some. naive_solver.
  - subst s'. simpl. rewrite remove_entries, He, Hperm.
    rewrite filter_cons_False by (intros Hne; by apply Hne).
    rewrite list_filter_all; [done|]. by intros i Hi' ->.
  - done.
  - intros i Hi'. apply Hp. rewrite Hperm. by right.
Qed.

(** Changing a schedule in place, apart from its identifiers, keeps the invariant. *)
Lemma insert_schedule_inv s a id sc sc' :
  sched_inv s -> schedules s !! id = Some sc -> sc_ID sc' = sc_ID sc -> sc_EntryID sc' = sc_EntryID sc ->
  sched_inv (with_activeRuns (with_schedules s (<[id := sc']> (schedules s))) a).
Proof.
  intros [Hi He Hn Hp] Hid H1 H2. set (s' := with_activeRuns _ _).
  assert (entryIDs s' ≡ₚ entryIDs s) as Hperm.
  { unfold entryIDs. subst s'. simpl. rewrite <- insert_delete_eq, values_insert_fresh by apply lookup_delete_eq.
    rewrite (values_delete (schedules s) id sc Hid). csimpl. by rewrite H2. }
  split.
  - intros i x. subst s'. simpl. rewrite lookup_insert_Some. intros [[<- <-]|[_ Hx]]; [|auto].
    rewrite H1. auto.
  - by rewrite Hperm.
  - by rewrite Hperm.
  - intros i. rewrite Hperm. auto.
Qed.

Lemma update_schedule_inv s id f :
  sched_inv s -> (forall sc, sc_ID (f sc) = sc_ID sc /\ sc_EntryID (f sc) = sc_EntryID sc) ->
  sched_inv (update_schedule s id f).1.
Proof.
  intros Hinv Hf. unfold update_schedule. destruct (schedules s !! id) as [sc|] eqn:Hid; [|done].
  destruct (Hf sc). apply (insert_schedule_inv s (activeRuns s) id sc (f sc)); auto.
Qed.

Lemma executeSchedule_inv x s sc s' r evs :
  sched_inv s -> schedules s !! sc_ID sc = Some sc ->
  executeSchedule x s sc = Returns (s', r, evs) -> sched_inv s'.
Proof.
  intros Hinv Hsc He. unfold executeSchedule in He. repeat case_match; simplify_eq; try done.
  - apply (insert_schedule_inv s (activeRuns s) (sc_ID sc) sc); auto.
  - simpl. pose proof (insert_schedule_inv s (activeRuns s) (sc_ID sc) sc
      (with_run sc (sc_LastRun sc) z) Hinv Hsc eq_refl eq_refl) as Hinv1.
    eapply (insert_schedule_inv _ _ (sc_ID sc) _ _ Hinv1); simpl; [apply lookup_insert_eq|done|done].
  - apply (insert_schedule_inv s _ (sc_ID sc) sc); auto.
Qed.

Lemma sched_step_inv s s' : sched_inv s -> sched_step s s' -> sched_inv s'.
Proof using CronLaws0.
  intros Hinv Hs. destruct Hs as [s rng id name expr g s' r Hid Ha|s id|s id c|s id t|s id|s id|s l|s|s x id s' r evs Hr].
  - by eapply AddSchedule_inv.
  - by apply RemoveSchedule_inv.
  - by apply update_schedule_inv.
  - by apply update_schedule_inv.
  - by apply update_schedule_inv.
  - by apply update_schedule_inv.
  - by destruct Hinv.
  - by destruct Hinv.
  - unfold RunNow in Hr. repeat case_match; simplify_eq; [|done].
    eapply executeSchedule_inv; [done| |done]. by rewrite (si_ids s Hinv _ _ H0).
Qed.

Lemma sched_reachable_inv c e s :
  cron_Entries c = [] -> rtc sched_step (NewDAGScheduler c e) s -> sched_inv s.
Proof using CronLaws0.
  intros Hc Hr. pose proof (NewDAGScheduler_inv c e Hc) as Hinv.
  revert Hinv. generalize (NewDAGScheduler c e), Hr. clear Hr. induction 1; eauto using sched_step_inv.
Qed.

End scheduler.
Arguments DAGScheduler : clear implicits.

(** ** A scheduler over the concrete cron table *)

Definition new_toy : DAGScheduler toy_cron := NewDAGScheduler (mkToyCron 0 []) etl.

Definition one_schedule : DAGScheduler toy_cron :=
  match AddSchedule new_toy (fun _ => [2; 5; 4; 1; 3]%N) 77 "nightly" "0 0 3 * * *" diamond with
  | Returns (s, _) => s
  | _ => new_toy
  end.

Lemma one_schedule_reachable : rtc sched_step new_toy one_schedule.
Proof.
  apply rtc_once.
  apply (step_add new_toy (fun _ => [2; 5; 4; 1; 3]%N) 77 "nightly" "0 0 3 * * *" diamond _
    (Ok (mkDAGSchedule 77 "nightly" diamond "0 0 3 * * *" None (30 * Minute) true None 0 1))); [done|].
  vm_compute. reflexivity.
Qed.

(** ** Runs *)

(** Among [n] distinct positive numbers one is at least [n]. *)
Lemma pigeonhole_large (l : list Z) :
  NoDup l -> (forall i, i ∈ l -> 1 <= i) -> l <> [] -> exists i, i ∈ l /\ Z.of_nat (length l) <= i.
Proof.
  intros Hnd Hpos Hne.
  destruct (decide (Exists (fun i => Z.of_nat (length l) <= i) l)) as [[i ?]%Exists_exists|Hn]; [by exists i|].
  exfalso. assert (l ⊆+ seqZ 1 (Z.of_nat (length l) - 1)) as Hs.
  { apply NoDup_submseteq; [done|]. intros i Hi. apply elem_of_seqZ. specialize (Hpos i Hi).
    split; [done|]. destruct (Z.lt_ge_cases i (Z.of_nat (length l))); [lia|].
    destruct Hn. apply Exists_exists. eauto. }
  apply submseteq_length in Hs. rewrite length_seqZ in Hs. destruct l; [done|]. simpl in Hs. lia.
Qed.

Lemma next_run_out_of_range {C} `{CronOps C} (c : C) i :
  Z.of_nat (length (cron_Entries c)) <= i -> next_run c i = None.
Proof.
  intros Hi. unfold next_run. destruct (Z.ltb_spec i 0); [done|].
  rewrite lookup_ge_None_2; [done|]. lia.
Qed.

(** The final event of a run that was not skipped, and whether it is recorded. *)
Inductive run_ends : DAGRun -> DAGRunEvent -> bool -> Prop :=
| ends_completed run : run_Status run = "completed" -> run_Error run = None -> run_ends run RunCompleted true
| ends_nodes run : run_Status run = "failed" -> run_Error run = Some ErrNodesFailed -> run_ends run RunFailed true
| ends_error run err : run_Status run = "failed" -> run_Error run = Some (ErrExecute err) ->
    run_ends run RunFailed false
| ends_timeout run : run_Status run = "timed_out" -> run_Error run = Some ErrDeadline ->
    run_ends run RunTimedOut false.

Lemma finish_run_ends x sc res run ev b : finish_run x sc res = Some (run, ev, b) -> run_ends run ev b.
Proof.
  unfold finish_run. intros Hf. repeat case_match; simplify_eq; by econstructor.
Qed.

(** ** Properties *)

(** In every scheduler reached from an empty one by calls of its interface, the
    cron library holds exactly one job per schedule of the table, under distinct
    identifiers, and schedules are filed under their own identifiers. *)
Theorem dag_schedules_registered {C} `{CronOps C} `{!CronLaws C} (c : C) (e : DAGExecutor) (s : DAGScheduler C)
  (Hc : cron_Entries c = []) (Hr : rtc sched_step (NewDAGScheduler c e) s) : sched_inv s.
Proof. by eapply sched_reachable_inv. Qed.

Lemma dag_schedules_registered_witness : sched_inv one_schedule.
Proof.
  apply (dag_schedules_registered (mkToyCron 0 []) etl one_schedule toy_empty one_schedule_reachable).
Defined.

(** [executeSchedule] indexes the slice of cron entries by the entry's identifier.
    In every reachable scheduler with at least one schedule, all enabled, running some
    schedule of the table panics (index out of range), whatever its graph and condition. *)
Theorem RunNow_index_panics {C} `{CronOps C} `{!CronLaws C} (c : C) (e : DAGExecutor) (s : DAGScheduler C)
  (Hc : cron_Entries c = []) (Hr : rtc sched_step (NewDAGScheduler c e) s)
  (Hne : schedules s <> ∅) (Hen : forall id sc, schedules s !! id = Some sc -> sc_Enabled sc = true) :
  exists id, is_Some (schedules s !! id) /\ forall x, RunNow x s id = Panics.
Proof.
  destruct (sched_reachable_inv c e s Hc Hr) as [Hi He Hnd Hp].
  destruct (pigeonhole_large (entryIDs s) Hnd Hp) as (i & Hin & Hle).
  { unfold entryIDs. intros Hnil%fmap_nil_inv%fmap_nil_inv%map_to_list_empty_iff. done. }
  apply list_elem_of_fmap in Hin as (sc & -> & Hin).
  apply list_elem_of_fmap in Hin as ([id sc'] & -> & Hin%elem_of_map_to_list); simpl in *.
  exists id. split; [eauto|]. intros x. unfold RunNow, executeSchedule. rewrite Hin, (Hen _ _ Hin). cbn [negb].
  rewrite next_run_out_of_range; [done|].
  apply Permutation_length in He. rewrite length_fmap in He. lia.
Qed.

Lemma RunNow_index_panics_witness :
  exists id, is_Some (schedules one_schedule !! id) /\ forall x, RunNow x one_schedule id = Panics.
Proof.
  apply (RunNow_index_panics (mkToyCron 0 []) etl one_schedule toy_empty one_schedule_reachable).
  - vm_compute. done.
  - apply (bool_decide_unpack (map_Forall (fun _ sc => sc_Enabled sc = true) (schedules one_schedule))).
    vm_compute. exact I.
Defined.

(** A run of an enabled schedule that returns leaves the active runs as they were
    and tells every listener either [RunSkipped] once, or [RunStarted] with status
    "running" and then one final event that matches the status of the run;
    [LastRun] becomes the run only when it completed or some node failed: it keeps
    its old value when the run was skipped, timed out, or ended in an error of the
    executor, which is also how a deadline that expires between two levels ends. *)
Theorem executeSchedule_run {C} `{CronOps C} (x : run_env) (s s' : DAGScheduler C) (sc : DAGSchedule)
  (run : option DAGRun) (evs : list invocation)
  (Hen : sc_Enabled sc = true) (Hact : sc_ID sc ∉ activeRuns s)
  (He : executeSchedule x s sc = Returns (s', run, evs)) :
  activeRuns s' = activeRuns s /\ exists r last next, run = Some r
    /\ schedules s' !! sc_ID sc = Some (with_run sc last next)
    /\ ((run_Status r = "skipped" /\ evs = fireEvent s RunSkipped sc r /\ last = sc_LastRun sc)
        \/ exists started ev record,
             run_Status started = "running" /\ run_ends r ev record
             /\ evs = fireEvent s RunStarted sc started ++ fireEvent s ev sc r
             /\ last = if record then Some r else sc_LastRun sc).
Proof.
  unfold executeSchedule in He. rewrite Hen in He. cbn [negb] in He.
  destruct (next_run _ _) as [next|]; [|done].
  destruct (skipped_run _ _) as [r|] eqn:Hskip.
  - simplify_eq. split; [done|]. exists r, (sc_LastRun sc), next. split_and!; [done|apply lookup_insert_eq|].
    left. split_and!; [|done|done]. unfold skipped_run in Hskip. by repeat case_match; simplify_eq.
  - destruct (Execute _ _ _ _ _ _) as [res| |]; [|done|done].
    destruct (finish_run _ _ _) as [[[r ev] record]|] eqn:Hfin; [|done].
    apply finish_run_ends in Hfin. simpl in He.
    assert (({[sc_ID sc]} ∪ activeRuns s) ∖ {[sc_ID sc]} = activeRuns s) as Ha by set_solver.
    destruct record; [destruct (next_run (cron s) (sc_EntryID sc)) as [next'|]; [|done]|]; simplify_eq; simpl;
      (split; [done|]); eexists r, _, _; (split_and!; [done|apply lookup_insert_eq|]); right;
      eexists _, _, _; (split_and!; [|exact Hfin|done|done]); done.
Qed.

Definition two_schedules : DAGScheduler toy_cron :=
  match AddSchedule one_schedule (fun _ => [2; 5; 4; 1; 3]%N) 78 "hourly" "0 0 * * * *" diamond with
  | Returns (s, _) => AddListener s 0
  | _ => one_schedule
  end.
Definition nightly : DAGSchedule :=
  mkDAGSchedule 77 "nightly" diamond "0 0 3 * * *" None (30 * Minute) true None 0 1.
Definition some_run : run_env :=
  mkRunEnv 900 100 200 quiet false [2; 5; 4; 1; 3]%N [2; 5; 4; 1; 3]%N [2; 5; 4; 1; 3]%N.

Lemma executeSchedule_run_witness :
  match executeSchedule some_run two_schedules nightly with
  | Returns (s', run, evs) =>
      activeRuns s' = activeRuns two_schedules /\ exists r last next, run = Some r
        /\ schedules s' !! sc_ID nightly = Some (with_run nightly last next)
        /\ ((run_Status r = "skipped" /\ evs = fireEvent two_schedules RunSkipped nightly r
             /\ last = sc_LastRun nightly)
            \/ exists started ev record,
                 run_Status started = "running" /\ run_ends r ev record
                 /\ evs = fireEvent two_schedules RunStarted nightly started
                            ++ fireEvent two_schedules ev nightly r
                 /\ last = if record then Some r else sc_LastRun nightly)
  | _ => False
  end.
Proof.
  destruct (executeSchedule some_run two_schedules nightly) as [[[s' run] evs]| |] eqn:He.
  - apply (executeSchedule_run some_run two_schedules s' nightly run evs); [reflexivity| |exact He].
    apply (bool_decide_unpack _). vm_compute. exact I.
  - vm_compute in He. discriminate.
  - vm_compute in He. discriminate.
Defined.
