(* ===== verification/SchedCron.v ===== *)
(** * Cron expressions: internal/scheduler/cron.go

    The questions about a cron expression on top of the parser's interface of [CronLib]:
    next runs, missed runs, and the description in words.  The clock is an argument
    [now], the default location is UTC.  The loop of [CountMissedRuns] has no bound in
    the code: it has fuel here, and [missed_runs_enough] says how much is enough.
    [CronScheduleSummary], which formats times, is left out. *)

From S2P Require Import Prelude GoStrings CronLib.

Inductive CronError : Type :=
| ErrExprEmpty
| ErrExprInvalid (expr err : string)
| ErrNotPositive (n : Z)
| ErrSinceAfterUntil.

Section cron.
Context {S : Type} `{CronParser S}.

(* go: internal/scheduler/cron.go func ParseCronExpression *)
Definition ParseCronExpression (expr : string) : go_result S CronError :=
  if String.eqb expr "" then Err ErrExprEmpty
  else match cron_Parse false expr with
       | inr err => Err (ErrExprInvalid expr err)
       | inl schedule => Ok schedule
       end.

(* go: internal/scheduler/cron.go func MustParseCronExpression *)
Definition MustParseCronExpression (expr : string) : go_result S CronError :=
  match ParseCronExpression expr with
  | Err _ => Panic
  | r => r
  end.

(** A nil location stands for UTC. *)
Definition or_UTC (loc : option string) : string := default UTC loc.

(* go: internal/scheduler/cron.go func NextRunTimeFrom *)
Definition NextRunTimeFrom (expr : string) (from : Time) (loc : option string) : go_result Time CronError :=
  (schedule <-- ParseCronExpression expr ;; Ok (cron_Next schedule (In from (or_UTC loc))))%go.

(* go: internal/scheduler/cron.go func NextRunTime *)
Definition NextRunTime (now : Time) (expr : string) (loc : option string) : go_result Time CronError :=
  (schedule <-- ParseCronExpression expr ;; Ok (cron_Next schedule (In now (or_UTC loc))))%go.

(** The loop: [n] further runs after [next]. *)
(* go: internal/scheduler/cron.go @69-72 NextNRunTimes *)
Fixpoint next_n (schedule : S) (n : nat) (next : Time) : list Time :=
  match n with
  | O => []
  | Datatypes.S n' => let next' := cron_Next schedule next in next' :: next_n schedule n' next'
  end.

(* go: internal/scheduler/cron.go func NextNRunTimes *)
Definition NextNRunTimes (now : Time) (expr : string) (n : Z) (loc : option string)
    : go_result (list Time) CronError :=
  if n <=? 0 then Err (ErrNotPositive n)
  else (schedule <-- ParseCronExpression expr ;; Ok (next_n schedule (Z.to_nat n) (In now (or_UTC loc))))%go.

(* go: internal/scheduler/cron.go func ValidateCronExpression *)
Definition ValidateCronExpression (expr : string) : option CronError :=
  match ParseCronExpression expr with
  | Err err => Some err
  | _ => None
  end.

(* go: internal/scheduler/cron.go func TimeUntilNextRun *)
Definition TimeUntilNextRun (now now' : Time) (expr : string) (loc : option string) : go_result Z CronError :=
  (next <-- NextRunTime now expr loc ;; Ok (time_Sub (t_ns next) (t_ns now')))%go.

(* go: internal/scheduler/cron.go func IsCronDue *)
Definition IsCronDue (now : Time) (expr : string) (since : Time) (loc : option string) : go_result bool CronError :=
  (schedule <-- ParseCronExpression expr ;;
   Ok (negb (After (cron_Next schedule (In since (or_UTC loc))) (In now (or_UTC loc)))))%go.

(* go: internal/scheduler/cron.go @244-250 CountMissedRuns *)
Fixpoint missed_loop (fuel : nat) (schedule : S) (until : Time) (count : Z) (next : Time) : option (Z * Time) :=
  match fuel with
  | O => None
  | Datatypes.S fuel' =>
      let next' := cron_Next schedule next in
      if After next' until then Some (count, next')
      else missed_loop fuel' schedule until (int64 (count + 1)) next'
  end.

(* go: internal/scheduler/cron.go func CountMissedRuns *)
Definition CountMissedRuns (fuel : nat) (expr : string) (since until : Time) (loc : option string)
    : option (go_result (Z * Time) CronError) :=
  if After since until then Some (Err ErrSinceAfterUntil)
  else match ParseCronExpression expr with
       | Err err => Some (Err err)
       | Panic => Some Panic
       | Ok schedule =>
           match missed_loop fuel schedule until 0 (In since (or_UTC loc)) with
           | Some r => Some (Ok r)
           | None => None
           end
       end.

(* go: internal/scheduler/cron.go func NearestFutureRun *)
Definition NearestFutureRun (now now' : Time) (expr : string) (loc : option string) : go_result Time CronError :=
  (next <-- NextRunTime now expr loc ;;
   let now'' := match loc with None => now' | Some l => In now' l end in
   if Before next now'' then NextRunTimeFrom expr (Time_Add next Second) loc else Ok next)%go.

(** ** The description in words *)

Definition star : string := "*".
Definition is_star (f : string) : bool := String.eqb f star.

(* go: internal/scheduler/cron.go func padField *)
Definition padField (f : string) : string := if (String.length f =? 1)%nat then ("0" +:+ f)%string else f.

(* go: internal/scheduler/cron.go @180-199 describeDayOfWeek *)
Definition day_name (d : string) : string :=
  let d := TrimSpace d in
  if String.eqb d "0" || String.eqb d "7" then "Sunday"
  else if String.eqb d "1" then "Monday"
  else if String.eqb d "2" then "Tuesday"
  else if String.eqb d "3" then "Wednesday"
  else if String.eqb d "4" then "Thursday"
  else if String.eqb d "5" then "Friday"
  else if String.eqb d "6" then "Saturday"
  else d.

(* go: internal/scheduler/cron.go func describeDayOfWeek *)
Definition describeDayOfWeek (dow : string) : string :=
  strings_Join (day_name <$> Split dow (Ascii.ascii_of_nat 44)) ", ".

(** The chain of conditions on the five fields. *)
(* go: internal/scheduler/cron.go @124-171 describeSchedule *)
Definition describe_fields (expr minute hour dom month dow : string) : string :=
  let eq := String.eqb in
  if is_star minute && is_star hour && is_star dom && is_star month && is_star dow then "Every minute"
  else if eq minute "0" && is_star hour && is_star dom && is_star month && is_star dow then "Every hour"
  else if eq minute "0" && eq hour "0" && is_star dom && is_star month && is_star dow then "Daily at midnight"
  else if eq minute "0" && eq hour "12" && is_star dom && is_star month && is_star dow then "Daily at noon"
  else if eq minute "0" && eq hour "0" && eq dom "1" && is_star month && is_star dow
       then "First day of every month at midnight"
  else if eq minute "0" && eq hour "9" && is_star dom && is_star month && eq dow "1" then "Every Monday at 9:00 AM"
  else if eq minute "0" && eq hour "9" && is_star dom && is_star month && eq dow "5" then "Every Friday at 9:00 AM"
  else if is_star dom && is_star month && negb (is_star dow) && negb (is_star hour) && negb (is_star minute)
       then ("Every " +:+ describeDayOfWeek dow +:+ " at " +:+ padField hour +:+ ":" +:+ padField minute)%string
  else if is_star dom && is_star month && is_star dow && negb (is_star hour) && negb (is_star minute)
       then ("Daily at " +:+ padField hour +:+ ":" +:+ padField minute)%string
  else if eq minute "*/5" && is_star hour then "Every 5 minutes"
  else if eq minute "*/10" && is_star hour then "Every 10 minutes"
  else if eq minute "*/15" && is_star hour then "Every 15 minutes"
  else if eq minute "*/30" && is_star hour then "Every 30 minutes"
  else if eq minute "0" && String.prefix "*/" hour then ("Every " +:+ TrimPrefix hour "*/" +:+ " hours")%string
  else ("Cron: " +:+ expr)%string.

(* go: internal/scheduler/cron.go func describeSchedule *)
Definition describeSchedule (expr : string) : string :=
  match Fields expr with
  | [minute; hour; dom; month; dow] | [_; minute; hour; dom; month; dow] =>
      describe_fields expr minute hour dom month dow
  | _ => ("Custom schedule: " +:+ expr)%string
  end.

(* go: internal/scheduler/cron.go func DescribeSchedule *)
Definition DescribeSchedule (expr : string) : go_result string CronError :=
  (schedule <-- ParseCronExpression expr ;; Ok (describeSchedule expr))%go.
End cron.

(** ** Missed runs *)

Section missed.
Context {S : Type} `{CronParser S, !CronParserLaws S}.
Implicit Types (s : S) (next until : Time).

(** The successive runs after [next] up to [until], and the first one beyond. *)
Inductive runs_until s until : Time -> list Time -> Time -> Prop :=
| runs_done next :
    After (cron_Next s next) until = true -> runs_until s until next [] (cron_Next s next)
| runs_more next l last :
    After (cron_Next s next) until = false -> runs_until s until (cron_Next s next) l last ->
    runs_until s until next (cron_Next s next :: l) last.

(** Between [since] and [until] the schedule always has a next run. *)
Definition productive s (since until : Time) : Prop :=
  forall t, t_ns since <= t_ns t <= t_ns until -> cron_Next s t <> zero_Time.

Definition missed_fuel (since until : Time) : nat := Z.to_nat ((t_ns until - t_ns since) / Second + 2).

Lemma productive_next s since until t :
  productive s since until -> t_ns since <= t_ns t <= t_ns until ->
  t_ns t < t_ns (cron_Next s t) /\ (Second | t_ns (cron_Next s t)).
Proof.
  intros Hp Ht. destruct (next_later s t) as [Hz|(Hl & Hd & _)]; [by apply Hp in Hz|done].
Qed.

(** The number of steps left after a run on a whole second. *)
Lemma whole_step a b u : (Second | a) -> (Second | b) -> a < b -> (u - b) / Second <= (u - a) / Second - 1.
Proof.
  unfold Second, Millisecond, Microsecond, Nanosecond. intros [x ->] [y ->] Hlt.
  transitivity ((u - x * (1000 * (1000 * (1000 * 1))) + (-1) * (1000 * (1000 * (1000 * 1)))) / (1000 * (1000 * (1000 * 1)))).
  - apply Z.div_le_mono; lia.
  - rewrite Z.div_add by done. lia.
Qed.

Lemma missed_loop_runs s since until fuel : forall next count,
  productive s since until -> t_ns since <= t_ns next <= t_ns until ->
  (Second | t_ns next) -> (t_ns until - t_ns next) / Second < Z.of_nat fuel ->
  0 <= count -> count + Z.of_nat fuel <= max_int64 ->
  exists l last, runs_until s until next l last
    /\ missed_loop fuel s until count next = Some (count + Z.of_nat (length l), last).
Proof.
  induction fuel as [|fuel IH]; intros next count Hp Hn Hd Hf Hc Hm.
  { pose proof (Z.div_pos (t_ns until - t_ns next) Second ltac:(lia) eq_refl). lia. }
  cbn [missed_loop]. destruct (productive_next s since until next Hp Hn) as [Hl Hd'].
  destruct (After (cron_Next s next) until) eqn:Ha.
  - exists [], (cron_Next s next). split; [by constructor|]. by rewrite Z.add_0_r.
  - unfold After, time_After in Ha. apply Z.ltb_ge in Ha.
    pose proof (whole_step _ _ (t_ns until) Hd Hd' Hl).
    destruct (IH (cron_Next s next) (int64 (count + 1)) Hp) as (l & last & Hr & Heq);
      rewrite ?int64_small by (unfold in_int64, min_int64 in *; lia); [lia|done|lia..|].
    exists (cron_Next s next :: l), last. split; [constructor; [|done]; unfold After, time_After; lia|].
    rewrite int64_small in Heq by (unfold in_int64, min_int64 in *; lia). rewrite Heq. simpl. do 2 f_equal. lia.
Qed.

(** Runs are listed in order, inside the interval, and the one beyond it is later. *)
Lemma runs_until_sorted s since until next l last :
  productive s since until -> t_ns since <= t_ns next <= t_ns until -> runs_until s until next l last ->
  StronglySorted Z.lt (t_ns <$> (next :: l)) /\ Forall (fun t => t_ns t <= t_ns until) l
  /\ t_ns until < t_ns last.
Proof.
  intros Hp Hn Hr. revert Hn. induction Hr as [next Ha|next l last Ha Hr IH]; intros Hn;
    unfold After, time_After in Ha.
  - split_and!; [repeat constructor|done|lia].
  - destruct (productive_next s since until next Hp Hn) as [Hl _].
    destruct IH as (Hs & Hu & Hlast); [lia|]. split_and!; [|constructor; [lia|done]|done].
    rewrite fmap_cons. constructor; [done|]. inversion Hs as [|? ? _ Hall]; subst.
    constructor; [done|]. eapply Forall_impl; [exact Hall|]. simpl. lia.
Qed.

Lemma missed_runs_enough s since until next :
  productive s since until -> t_ns since <= t_ns next <= t_ns until ->
  t_ns until - t_ns since <= max_int64 ->
  exists l last, runs_until s until next l last
    /\ missed_loop (missed_fuel since until) s until 0 next = Some (Z.of_nat (length l), last).
Proof.
  intros Hp Hn Hm. pose proof (Z.div_pos (t_ns until - t_ns since) Second ltac:(lia) eq_refl) as Hq.
  assert ((t_ns until - t_ns since) / Second < max_int64 - 2) as Hs.
  { apply Z.div_lt_upper_bound; [done|]. unfold Second, Millisecond, Microsecond, Nanosecond, max_int64 in *. lia. }
  unfold missed_fuel. rewrite <- (Nat.succ_pred (Z.to_nat _)) by lia. cbn [missed_loop].
  destruct (productive_next s since until next Hp Hn) as [Hl Hd'].
  destruct (After (cron_Next s next) until) eqn:Ha; [eexists [], _; split; [by constructor|done]|].
  unfold After, time_After in Ha. apply Z.ltb_ge in Ha.
  pose proof (Z.div_le_mono (t_ns until - t_ns (cron_Next s next)) (t_ns until - t_ns since) Second eq_refl).
  destruct (missed_loop_runs s since until (pred (Z.to_nat ((t_ns until - t_ns since) / Second + 2)))
              (cron_Next s next) 1 Hp) as (l & last & Hr & Heq); [lia|done|lia|lia|lia|].
  exists (cron_Next s next :: l), last. split; [constructor; [|done]; unfold After, time_After; lia|].
  change (int64 (0 + 1)) with 1. rewrite Heq. cbn [length]. do 2 f_equal. lia.
Qed.

(** A schedule without a run at all: the loop goes round the zero time. *)
Lemma missed_loop_never s until fuel : forall count next,
  (forall t, cron_Next s t = zero_Time) -> 0 <= t_ns until -> missed_loop fuel s until count next = None.
Proof.
  induction fuel as [|fuel IH]; intros count next Hz Hu; [done|]. cbn [missed_loop]. rewrite Hz.
  unfold After, time_After. simpl. destruct (Z.ltb_spec (t_ns until) 0); [lia|]. by apply IH.
Qed.
End missed.

(** ** Examples *)

Example february_30 : cron_Parse false "0 0 30 2 *" = inl NeverRuns.
Proof. vm_compute. done. Qed.

(** The branch for every so many hours comes after the one for a fixed hour, which takes
    its expressions first: the answer is not "Every 3 hours". *)
Example describe_hours : describeSchedule "0 */3 * * *" = "Daily at */3:00".
Proof. vm_compute. done. Qed.

(** ** Property *)

(** When the expression always has a next run, [CountMissedRuns] terminates and returns
    the number of its runs after [since] and up to [until], which are in increasing
    order, and the first run after [until].  For an expression that parses but never
    runs, as one for the thirtieth of February, its loop does not terminate. *)
Theorem CountMissedRuns_correct {S} `{CronParser S} `{!CronParserLaws S} (expr : string) (s : S)
  (since until : Time) (loc : option string)
  (Hparse : ParseCronExpression expr = Ok s) (Horder : After since until = false)
  (Hspan : t_ns until - t_ns since <= max_int64) (Hpos : 0 <= t_ns until) :
  (productive s since until -> exists l last,
     CountMissedRuns (missed_fuel since until) expr since until loc = Some (Ok (Z.of_nat (length l), last))
     /\ runs_until s until (In since (or_UTC loc)) l last
     /\ StronglySorted Z.lt (t_ns since :: (t_ns <$> l))
     /\ Forall (fun t => t_ns t <= t_ns until) l /\ t_ns until < t_ns last)
  /\ ((forall t, cron_Next s t = zero_Time) ->
        forall fuel, CountMissedRuns fuel expr since until loc = None).
Proof.
  unfold CountMissedRuns. rewrite Horder, Hparse. unfold After, time_After in Horder.
  apply Z.ltb_ge in Horder. split.
  - intros Hp. destruct (missed_runs_enough s since until (In since (or_UTC loc)) Hp) as (l & last & Hr & ->);
      [simpl; lia|done|]. exists l, last. split; [done|]. split; [done|].
    by apply (runs_until_sorted s since until (In since (or_UTC loc))); [|simpl; lia|].
  - intros Hz fuel. by rewrite missed_loop_never.
Qed.

Definition noon : Time := mkTime (720 * Minute) UTC.
Definition five_past : Time := mkTime (725 * Minute) UTC.

Lemma CountMissedRuns_correct_witness :
  (exists l last, CountMissedRuns (missed_fuel noon five_past) "* * * * *" noon five_past None
                    = Some (Ok (Z.of_nat (length l), last))
                  /\ runs_until EveryMinute five_past noon l last /\ length l = 5%nat)
  /\ forall fuel, CountMissedRuns fuel "0 0 30 2 *" noon five_past None = None.
Proof.
  split.
  - destruct (proj1 (CountMissedRuns_correct (S := toy_schedule) (H := toy_parser) "* * * * *" EveryMinute noon five_past None eq_refl eq_refl
                       ltac:(vm_compute; discriminate) ltac:(vm_compute; discriminate))) as (l & last & Hc & Hr & _).
    + intros t Ht. cbn -[Minute]. intros [=]. unfold noon in Ht. cbn -[Minute] in *.
      pose proof (Z.div_le_mono (720 * Minute) (t_ns t) Minute eq_refl (proj1 Ht)) as Hd.
      rewrite Z.div_mul in Hd by done. unfold Minute, Second, Millisecond, Microsecond, Nanosecond in *. lia.
    + exists l, last. split; [exact Hc|]. split; [exact Hr|].
      assert (CountMissedRuns (missed_fuel noon five_past) "* * * * *" noon five_past None
                = Some (Ok (5, mkTime (726 * Minute) UTC))) as He by (vm_compute; reflexivity).
      rewrite He in Hc. injection Hc as Hc. lia.
  - exact (proj2 (CountMissedRuns_correct (S := toy_schedule) (H := toy_parser) "0 0 30 2 *" NeverRuns noon five_past None eq_refl eq_refl
                    ltac:(vm_compute; discriminate) ltac:(vm_compute; discriminate)) (fun _ => eq_refl)).
Defined.
