(* ===== verification/SchedJob.v ===== *)
(** * Schedules and jobs: internal/models/schedule.go and internal/scheduler/job.go

    The stored schedule with its checks, the job made from it and one execution of the
    job.  The time zone database is an interface ([Zones]); identifiers and the clock
    are arguments.  JSON texts are kept as the values they encode: the metadata of a
    schedule is its decoded object, [None] when it is empty or not an object. *)

From S2P Require Import Prelude GoStrings CronLib.

(** ** Stored schedules *)

(* go: internal/models/schedule.go func ScheduleStatus.IsValid *)
Definition ScheduleStatus_IsValid (s : string) : bool :=
  existsb (String.eqb s) ["active"; "paused"; "failed"; "deleted"].
Definition ScheduleStatusActive : string := "active".
Definition ScheduleStatusFailed : string := "failed".

(* go: internal/models/schedule.go type Schedule *)
Record Schedule := mkSchedule {
  sch_ID : string;
  sch_PipelineID : string;
  sch_CronExpression : string;
  sch_Timezone : string;
  sch_Status : string;
  sch_Enabled : bool;
  sch_Priority : Z;
  sch_MaxConcurrentRuns : Z;
  sch_Tags : list string;
  sch_Metadata : option (gmap string any);
  sch_NextRunTimeValue : Time;
  sch_LastRunTime : option Time;
  sch_CreatedBy : string;
  sch_CreatedAt : Time;
  sch_UpdatedAt : Time
}.

Inductive ScheduleError : Type :=
| ErrRequired (field : string)
| ErrCronEmpty
| ErrTimezone (zone : string)
| ErrCron (expr err : string)
| ErrStatus (s : string)
| ErrPriority
| ErrMaxConcurrent.

(** [time.LoadLocation]; the empty name means UTC. *)
Class Zones := {
  LoadLocation : string -> option string;
  load_empty : LoadLocation "" = Some UTC
}.

#[export] Instance only_UTC : Zones := {
  LoadLocation z := if String.eqb z "" || String.eqb z UTC then Some UTC else None;
  load_empty := eq_refl
}.

Section schedule.
Context {S : Type} `{CronParser S, Zones}.

(* go: internal/models/schedule.go func Schedule.NextRunTime *)
Definition Schedule_NextRunTime (now : Time) (s : Schedule) : go_result Time ScheduleError :=
  if String.eqb (sch_CronExpression s) "" then Err ErrCronEmpty
  else match LoadLocation (sch_Timezone s) with
       | None => Err (ErrTimezone (sch_Timezone s))
       | Some loc =>
           match cron_Parse false (sch_CronExpression s) with
           | inr err => Err (ErrCron (sch_CronExpression s) err)
           | inl schedule => Ok (cron_Next schedule (In now loc))
           end
       end.

(** A location that loads is not nil. *)
(* go: internal/models/schedule.go func Schedule.Validate *)
Definition Schedule_Validate (s : Schedule) : option ScheduleError :=
  if String.eqb (sch_ID s) "" then Some (ErrRequired "id")
  else if String.eqb (sch_PipelineID s) "" then Some (ErrRequired "pipeline_id")
  else if String.eqb (sch_CronExpression s) "" then Some (ErrRequired "cron_expression")
  else if negb (ScheduleStatus_IsValid (sch_Status s)) then Some (ErrStatus (sch_Status s))
  else if sch_Priority s <? 0 then Some ErrPriority
  else if sch_MaxConcurrentRuns s <=? 0 then Some ErrMaxConcurrent
  else match LoadLocation (sch_Timezone s) with
       | None => Some (ErrTimezone (sch_Timezone s))
       | Some _ =>
           match cron_Parse false (sch_CronExpression s) with
           | inr err => Some (ErrCron (sch_CronExpression s) err)
           | inl _ => None
           end
       end.

(** The clock is read once for each operand. *)
(* go: internal/models/schedule.go func Schedule.ShouldRunNow *)
Definition ShouldRunNow (now now' : Time) (s : Schedule) : bool :=
  if negb (sch_Enabled s) then false
  else if negb (String.eqb (sch_Status s) ScheduleStatusActive) then false
  else if IsZero (sch_NextRunTimeValue s) then false
  else After now (sch_NextRunTimeValue s) || (t_ns now' =? t_ns (sch_NextRunTimeValue s)).

(* go: internal/models/schedule.go func ParseCronExpression *)
Definition models_ParseCronExpression (expr : string) : go_result S ScheduleError :=
  if String.eqb expr "" then Err ErrCronEmpty
  else match cron_Parse false expr with
       | inr err => Err (ErrCron expr err)
       | inl schedule => Ok schedule
       end.

(* go: internal/models/schedule.go func NextRunFromCron *)
Definition NextRunFromCron (now : Time) (expr : string) (loc : option string) : go_result Time ScheduleError :=
  (schedule <-- models_ParseCronExpression expr ;; Ok (cron_Next schedule (In now (default UTC loc))))%go.
End schedule.

(** ** Jobs *)

(* go: internal/scheduler/job.go func JobType.IsValid *)
Definition JobType_IsValid (t : string) : bool :=
  existsb (String.eqb t) ["pipeline"; "webhook"; "custom"].

(* go: internal/scheduler/job.go type ScheduledJob *)
Record ScheduledJob := mkScheduledJob {
  job_ID : string;
  job_ScheduleID : string;
  job_PipelineID : string;
  job_Type : string;
  job_CronExpression : string;
  job_Timezone : string;
  job_Priority : Z;
  job_MaxConcurrent : Z;
  job_Tags : list string;
  job_Metadata : option (gmap string any);
  job_NextRunAt : Time;
  job_LastRunAt : option Time;
  job_CreatedAt : Time;
  job_Disabled : bool
}.

(* go: internal/scheduler/job.go @68-76 NewScheduledJob *)
Definition job_type_of (metadata : option (gmap string any)) : string :=
  match metadata ≫= lookup "job_type" with
  | Some (AnyString t) => if JobType_IsValid t then t else "pipeline"
  | _ => "pipeline"
  end.

(** [id] is a new identifier. *)
(* go: internal/scheduler/job.go func NewScheduledJob *)
Definition NewScheduledJob {S} `{CronParser S, Zones} (id : string) (now : Time) (s : Schedule)
    : go_result ScheduledJob ScheduleError :=
  (nextRun <-- Schedule_NextRunTime now s ;;
   Ok (mkScheduledJob id (sch_ID s) (sch_PipelineID s) (job_type_of (sch_Metadata s))
         (sch_CronExpression s) (sch_Timezone s) (sch_Priority s) (sch_MaxConcurrentRuns s) (sch_Tags s)
         (sch_Metadata s) nextRun (sch_LastRunTime s) (sch_CreatedAt s) (negb (sch_Enabled s))))%go.

(* go: internal/scheduler/job.go func ScheduledJob.Key *)
Definition job_Key (j : ScheduledJob) : string := (job_ScheduleID j +:+ "/" +:+ job_PipelineID j)%string.

(* go: internal/scheduler/job.go type JobExecution *)
Record JobExecution := mkJobExecution {
  ex_ID : string;
  ex_ScheduleID : string;
  ex_PipelineID : string;
  ex_JobType : string;
  ex_TriggeredAt : Time;
  ex_ScheduledAt : Time;
  ex_Attempt : Z;
  ex_MaxAttempts : Z;
  ex_CorrelationID : string;
  ex_Tags : list string;
  ex_Metadata : option (gmap string any);
  ex_Source : string
}.

(* go: internal/scheduler/job.go func NewJobExecution *)
Definition NewJobExecution (id correlation : string) (now : Time) (j : ScheduledJob) : JobExecution :=
  mkJobExecution id (job_ScheduleID j) (job_PipelineID j) (job_Type j) (In now UTC) (job_NextRunAt j) 1 3
    correlation (job_Tags j) (job_Metadata j) "scheduler".

(* go: internal/scheduler/job.go func JobExecution.RoutingKey *)
Definition RoutingKey (e : JobExecution) : string :=
  if String.eqb (ex_JobType e) "pipeline" then ("pipeline.run." +:+ ex_PipelineID e)%string
  else if String.eqb (ex_JobType e) "webhook" then ("webhook.trigger." +:+ ex_PipelineID e)%string
  else if String.eqb (ex_JobType e) "custom" then ("custom.run." +:+ ex_PipelineID e)%string
  else ("pipeline.run." +:+ ex_PipelineID e)%string.

(** A schedule whose expression parses and whose zone loads always makes a job. *)
Lemma NewScheduledJob_ok {S} `{CronParser S, Zones} id now s schedule loc :
  sch_CronExpression s <> EmptyString -> LoadLocation (sch_Timezone s) = Some loc ->
  cron_Parse false (sch_CronExpression s) = inl schedule ->
  exists j, NewScheduledJob id now s = Ok j /\ job_NextRunAt j = cron_Next schedule (In now loc).
Proof.
  intros Hne Hl Hp. unfold NewScheduledJob, Schedule_NextRunTime.
  destruct (String.eqb_spec (sch_CronExpression s) ""); [done|]. rewrite Hl, Hp. simpl. by eexists.
Qed.
