(* ===== verification/SchedJobJson.v ===== *)
(** * The payload of a job: internal/scheduler/job.go

    An execution as it is sent ([MarshalPayload]) and read back ([UnmarshalJobExecution]).  The JSON
    object is its fields in the order of the struct, without those that omitempty leaves out; the
    metadata is a raw message, kept as the object it encodes.  The texts of times are an
    interface with what package time documents ([TimeText]). *)

From S2P Require Import Prelude GoStrings CronLib SchedJob.

(** [Time.MarshalJSON], which fails for a year of more than four digits, and [Time.UnmarshalJSON]:
    the text has the offset, not the name of the location, except for UTC. *)
Class TimeText := {
  time_MarshalJSON : Time -> option string;
  time_UnmarshalJSON : string -> option Time;
  time_roundtrip t s : time_MarshalJSON t = Some s ->
    exists t', time_UnmarshalJSON s = Some t' /\ t_ns t' = t_ns t /\ (t_loc t = UTC -> t_loc t' = UTC)
}.

Inductive job_value : Type :=
| JText (s : string)
| JInt (z : Z)
| JTexts (l : list string)
| JRaw (m : gmap string any).

Abbreviation job_object := (list (string * job_value)).

Inductive JobJsonError : Type :=
| ErrMarshalExecution
| ErrUnmarshalExecution.

Fixpoint job_field (name : string) (o : job_object) : option job_value :=
  match o with
  | [] => None
  | (n, v) :: o => if String.eqb n name then Some v else job_field name o
  end.

Section json.
Context `{TimeText}.

(* go: internal/scheduler/job.go func JobExecution.MarshalPayload *)
Definition MarshalPayload (e : JobExecution) : go_result job_object JobJsonError :=
  match time_MarshalJSON (ex_TriggeredAt e), time_MarshalJSON (ex_ScheduledAt e) with
  | Some triggered, Some scheduled =>
      Ok ([("id", JText (ex_ID e)); ("schedule_id", JText (ex_ScheduleID e)); ("pipeline_id", JText (ex_PipelineID e));
           ("job_type", JText (ex_JobType e)); ("triggered_at", JText triggered); ("scheduled_at", JText scheduled);
           ("attempt", JInt (ex_Attempt e)); ("max_attempts", JInt (ex_MaxAttempts e));
           ("correlation_id", JText (ex_CorrelationID e))]%string
          ++ (match ex_Tags e with [] => [] | tags => [("tags"%string, JTexts tags)] end)
          ++ (match ex_Metadata e with None => [] | Some m => [("metadata"%string, JRaw m)] end)
          ++ [("source"%string, JText (ex_Source e))])
  | _, _ => Err ErrMarshalExecution
  end.

(** A field that is absent keeps its zero value, one of another kind is an error. *)
Definition text_field (name : string) (o : job_object) : option string :=
  match job_field name o with None => Some ""%string | Some (JText s) => Some s | Some _ => None end.
Definition int_field (name : string) (o : job_object) : option Z :=
  match job_field name o with None => Some 0 | Some (JInt z) => Some z | Some _ => None end.
Definition texts_field (name : string) (o : job_object) : option (list string) :=
  match job_field name o with None => Some [] | Some (JTexts l) => Some l | Some _ => None end.
Definition raw_field (name : string) (o : job_object) : option (option (gmap string any)) :=
  match job_field name o with None => Some None | Some (JRaw m) => Some (Some m) | Some _ => None end.
Definition time_field (name : string) (o : job_object) : option Time :=
  match job_field name o with None => Some zero_Time | Some (JText s) => time_UnmarshalJSON s | Some _ => None end.

(* go: internal/scheduler/job.go func UnmarshalJobExecution *)
Definition UnmarshalJobExecution (o : job_object) : go_result JobExecution JobJsonError :=
  match
    id ← text_field "id" o; schedule ← text_field "schedule_id" o; pipeline ← text_field "pipeline_id" o;
    type ← text_field "job_type" o; triggered ← time_field "triggered_at" o; scheduled ← time_field "scheduled_at" o;
    attempt ← int_field "attempt" o; max ← int_field "max_attempts" o; correlation ← text_field "correlation_id" o;
    tags ← texts_field "tags" o; metadata ← raw_field "metadata" o; source ← text_field "source" o;
    Some (mkJobExecution id schedule pipeline type triggered scheduled attempt max correlation tags metadata source)
  with
  | Some e => Ok e
  | None => Err ErrUnmarshalExecution
  end.

(** Executions whose times are the same instants. *)
Definition same_execution (e e' : JobExecution) : Prop :=
  ex_ID e' = ex_ID e /\ ex_ScheduleID e' = ex_ScheduleID e /\ ex_PipelineID e' = ex_PipelineID e
  /\ ex_JobType e' = ex_JobType e /\ t_ns (ex_TriggeredAt e') = t_ns (ex_TriggeredAt e)
  /\ t_ns (ex_ScheduledAt e') = t_ns (ex_ScheduledAt e) /\ ex_Attempt e' = ex_Attempt e /\ ex_MaxAttempts e' = ex_MaxAttempts e
  /\ ex_CorrelationID e' = ex_CorrelationID e /\ ex_Tags e' = ex_Tags e /\ ex_Metadata e' = ex_Metadata e
  /\ ex_Source e' = ex_Source e.

Lemma text_time t s : time_MarshalJSON t = Some s ->
  exists t', time_UnmarshalJSON s = Some t' /\ t_ns t' = t_ns t /\ (t_loc t = UTC -> t' = t).
Proof.
  intros Ht. destruct (time_roundtrip t s Ht) as (t' & Hu & Hn & Hl). exists t'. split_and!; [done..|].
  intros Hloc. destruct t, t'; simpl in *. f_equal; [done|]. by rewrite Hloc, Hl.
Qed.

(** The payload of a job is read back.  What [MarshalPayload] encodes, [UnmarshalJobExecution] decodes
    to the same execution with the same instants and the same routing key, and to an equal one if
    its times are in UTC.  It fails exactly if one of the two times cannot be written. *)
Theorem payload_roundtrip e :
  match MarshalPayload e with
  | Ok o => exists e', UnmarshalJobExecution o = Ok e' /\ same_execution e e' /\ RoutingKey e' = RoutingKey e
      /\ (t_loc (ex_TriggeredAt e) = UTC -> t_loc (ex_ScheduledAt e) = UTC -> e' = e)
  | Err _ => time_MarshalJSON (ex_TriggeredAt e) = None \/ time_MarshalJSON (ex_ScheduledAt e) = None
  | Panic => False
  end.
Proof.
  unfold MarshalPayload. destruct (time_MarshalJSON (ex_TriggeredAt e)) as [tr|] eqn:Ht; [|by left].
  destruct (time_MarshalJSON (ex_ScheduledAt e)) as [sc|] eqn:Hs; [|by right].
  destruct (text_time _ _ Ht) as (t1 & Hu1 & Hn1 & He1). destruct (text_time _ _ Hs) as (t2 & Hu2 & Hn2 & He2).
  exists (mkJobExecution (ex_ID e) (ex_ScheduleID e) (ex_PipelineID e) (ex_JobType e) t1 t2 (ex_Attempt e) (ex_MaxAttempts e)
            (ex_CorrelationID e) (ex_Tags e) (ex_Metadata e) (ex_Source e)).
  split_and!.
  - unfold UnmarshalJobExecution, text_field, int_field, texts_field, raw_field, time_field.
    destruct (ex_Tags e) as [|tag tags], (ex_Metadata e) as [m|]; simpl; by rewrite Hu1, Hu2.
  - unfold same_execution. simpl. by split_and!.
  - done.
  - intros Hl1 Hl2. rewrite (He1 Hl1), (He2 Hl2). by destruct e.
Qed.
End json.

(** Every time in UTC, for the sake of an example: the text is one byte for each nanosecond. *)
Fixpoint tally (n : nat) : string := match n with O => EmptyString | S n => String (Ascii.ascii_of_nat 73) (tally n) end.

Lemma tally_length n : String.length (tally n) = n.
Proof. induction n; simpl; congruence. Qed.

#[export] Program Instance toy_times : TimeText := {
  time_MarshalJSON t := if t_ns t <? 0 then None else Some (tally (Z.to_nat (t_ns t)));
  time_UnmarshalJSON s := Some (mkTime (Z.of_nat (String.length s)) UTC)
}.
Next Obligation.
  intros t s. simpl. destruct (Z.ltb_spec (t_ns t) 0); [done|]. intros [= <-].
  eexists. split; [done|]. simpl. rewrite tally_length. split; [lia|done].
Qed.

Lemma payload_roundtrip_witness :
  let e := mkJobExecution "x" "s1" "p1" "pipeline" (mkTime 3 UTC) (mkTime 5 UTC) 1 3 "c" ["nightly"] (Some ∅) "scheduler" in
  exists o, MarshalPayload e = Ok o /\ UnmarshalJobExecution o = Ok e.
Proof.
  intros e. pose proof (payload_roundtrip e) as Hr.
  eexists. split; [reflexivity|].
  destruct Hr as (e' & Hu & _ & _ & He). rewrite (He eq_refl eq_refl) in Hu. exact Hu.
Defined.
