(* ===== verification/SchedRecovery.v ===== *)
(** * Recovery of missed runs: internal/scheduler/recovery.go

    The recovery engine over the interface [ScheduleStore] of store.go.  Where Go
    returns a result together with an error the model returns both.  The loop of
    [CountMissedRuns] brings its fuel; clock readings and identifiers are a record. *)

From S2P Require Import Prelude GoStrings CronLib SchedCron SchedJob.

(** ** The store *)

(** Each method returns the store after it and its answer or the text of an error. *)
(* go: internal/scheduler/store.go type ScheduleStore *)
Class ScheduleStore (St : Type) := {
  store_GetActiveSchedules : St -> St * (list Schedule + string);
  store_GetDueSchedules : Z -> St -> St * (list Schedule + string);
  store_GetSchedule : string -> St -> St * (Schedule + string);
  store_UpdateNextRunTime : string -> Time -> St -> St * option string;
  store_MarkScheduleFailed : string -> string -> St -> St * option string
}.

(** ** Data *)

(* go: internal/scheduler/recovery.go @12-19 SkipPolicy *)
Inductive SkipPolicy : Type :=
| SkipPolicyNone | SkipPolicyExecuteLatest | SkipPolicySkipAll | SkipPolicyExecuteAll
| SkipPolicyOther (n : Z).

(* go: internal/scheduler/recovery.go func SkipPolicy.String *)
Definition SkipPolicy_String (p : SkipPolicy) : string :=
  match p with
  | SkipPolicyNone => "none"
  | SkipPolicyExecuteLatest => "execute_latest"
  | SkipPolicySkipAll => "skip_all"
  | SkipPolicyExecuteAll => "execute_all"
  | SkipPolicyOther _ => "unknown"
  end.

Inductive RecoveryError : Type :=
| RecTimezone (zone : string)
| RecCount (err : CronError)
| RecUpdate (err : string)
| RecJob (err : ScheduleError)
| RecActive (err : string)
| RecGet (id err : string)
| RecDue (err : string).

(* go: internal/scheduler/recovery.go type RecoveryResult *)
Record RecoveryResult := mkRecoveryResult {
  rr_ScheduleID : string;
  rr_PipelineID : string;
  rr_MissedRuns : Z;
  rr_ExecutedRuns : Z;
  rr_SkippedRuns : Z;
  rr_NextScheduledAt : Time;
  rr_Policy : SkipPolicy;
  rr_Duration : Z;
  rr_Error : option RecoveryError
}.

(* go: internal/scheduler/recovery.go type RecoveryConfig *)
Record RecoveryConfig := mkRecoveryConfig {
  rc_Enabled : bool;
  rc_Policy : SkipPolicy;
  rc_MaxLookback : Z;
  rc_BatchSize : Z;
  rc_Interval : Z;
  rc_DryRun : bool
}.

(* go: internal/scheduler/recovery.go func DefaultRecoveryConfig *)
Definition DefaultRecoveryConfig : RecoveryConfig :=
  mkRecoveryConfig true SkipPolicyExecuteLatest (24 * Hour) 20 (5 * Minute) false.

(** What one recovery reads from outside: identifiers and clocks of its jobs, and the
    time it takes. *)
Record recovery_env := mkRecoveryEnv {
  rv_id : nat -> string;
  rv_clock : nat -> Time;
  rv_elapsed : Z
}.

Section recovery.
Context {S St : Type} `{CronParser S, Zones, ScheduleStore St}.
Implicit Types (w : recovery_env) (cfg : RecoveryConfig) (st : St) (sch : Schedule).

(** The job is made and logged; nothing is dispatched. *)
(* go: internal/scheduler/recovery.go func RecoveryEngine.executeRecoveryJob *)
Definition executeRecoveryJob w cfg (i : nat) sch : option ScheduleError :=
  if rc_DryRun cfg then None
  else match NewScheduledJob (rv_id w i) (rv_clock w i) sch with
       | Err err => Some err
       | _ => None
       end.

(* go: internal/scheduler/recovery.go func scheduleNext *)
Definition scheduleNext (expr : string) (from : Time) (loc : string) : Time :=
  match ParseCronExpression expr with
  | Ok schedule => cron_Next schedule (In from loc)
  | _ => from
  end.

(** The loop of the policy that executes all: how many jobs did not fail. *)
(* go: internal/scheduler/recovery.go @182-193 RecoveryEngine.recoverSingleSchedule *)
Fixpoint execute_all w cfg sch (i n : nat) (executeCount : Z) : Z :=
  match n with
  | O => executeCount
  | Datatypes.S n' =>
      let executeCount' :=
        if rc_DryRun cfg then executeCount + 1
        else match executeRecoveryJob w cfg i sch with
             | Some _ => executeCount
             | None => executeCount + 1
             end in
      execute_all w cfg sch (Datatypes.S i) n' executeCount'
  end.

(** The fields of the result that the policies fill in. *)
Definition result_with cfg sch (missed executed skipped : Z) (next : Time) (d : Z) : RecoveryResult :=
  mkRecoveryResult (sch_ID sch) (sch_PipelineID sch) missed executed skipped next (rc_Policy cfg) d None.

(** The switch on the policy, for at least one missed run. *)
(* go: internal/scheduler/recovery.go @160-212 RecoveryEngine.recoverSingleSchedule *)
Definition apply_policy w cfg st sch (missed : Z) (nextRun : Time) : St * RecoveryResult * option RecoveryError :=
  let update (executed skipped : Z) :=
    match store_UpdateNextRunTime (sch_ID sch) nextRun st with
    | (st', Some err) => (st', result_with cfg sch missed executed skipped nextRun 0, Some (RecUpdate err))
    | (st', None) => (st', result_with cfg sch missed executed skipped nextRun (rv_elapsed w), None)
    end in
  match rc_Policy cfg with
  | SkipPolicySkipAll => update 0 missed
  | SkipPolicyExecuteLatest =>
      match executeRecoveryJob w cfg 0 sch with
      | Some err => (st, result_with cfg sch missed 1 (missed - 1) zero_Time 0, Some (RecJob err))
      | None => update 1 (missed - 1)
      end
  | SkipPolicyExecuteAll =>
      let executed := execute_all w cfg sch 0 (Z.to_nat missed) 0 in
      if rc_DryRun cfg then (st, result_with cfg sch missed executed 0 nextRun (rv_elapsed w), None)
      else update executed 0
  | SkipPolicyNone => (st, result_with cfg sch missed missed 0 nextRun (rv_elapsed w), None)
  | SkipPolicyOther _ => (st, result_with cfg sch missed 0 missed nextRun (rv_elapsed w), None)
  end.

(** The start of the window that is searched for missed runs. *)
(* go: internal/scheduler/recovery.go @136-142 RecoveryEngine.recoverSingleSchedule *)
Definition recovery_since cfg sch (now : Time) : Time :=
  let lookbackStart := Time_Add now (int64 (- rc_MaxLookback cfg)) in
  match sch_LastRunTime sch with
  | Some lastRun => if After lastRun lookbackStart then lastRun else lookbackStart
  | None => lookbackStart
  end.

(* go: internal/scheduler/recovery.go func RecoveryEngine.recoverSingleSchedule *)
Definition recoverSingleSchedule (fuel : nat) w cfg st sch (now : Time)
    : option (St * RecoveryResult * option RecoveryError) :=
  let empty := result_with cfg sch 0 0 0 zero_Time 0 in
  if negb (sch_Enabled sch) || negb (String.eqb (sch_Status sch) ScheduleStatusActive) then Some (st, empty, None)
  else match LoadLocation (sch_Timezone sch) with
       | None => Some (st, empty, Some (RecTimezone (sch_Timezone sch)))
       | Some loc =>
           if After (sch_NextRunTimeValue sch) now
           then Some (st, result_with cfg sch 0 0 0 (sch_NextRunTimeValue sch) 0, None)
           else match CountMissedRuns fuel (sch_CronExpression sch) (recovery_since cfg sch now) now (Some loc) with
                | None => None
                | Some (Err err) => Some (st, empty, Some (RecCount err))
                | Some Panic => None
                | Some (Ok (missed, nextRun)) =>
                    if missed =? 0 then Some (st, empty, None)
                    else Some (apply_policy w cfg st sch missed nextRun)
                end
       end.

(** An error replaces the result by one that carries only the error. *)
Definition report sch (r : RecoveryResult * option RecoveryError) : RecoveryResult :=
  match r with
  | (res, None) => res
  | (_, Some err) =>
      mkRecoveryResult (sch_ID sch) (sch_PipelineID sch) 0 0 0 zero_Time SkipPolicyNone 0 (Some err)
  end.

(* go: internal/scheduler/recovery.go @93-104 RecoveryEngine.RecoverMissedJobs *)
Fixpoint recover_all (fuel : nat) w cfg st (schedules : list Schedule) (now : Time)
    : option (St * list RecoveryResult) :=
  match schedules with
  | [] => Some (st, [])
  | sch :: schedules' =>
      match recoverSingleSchedule fuel w cfg st sch now with
      | None => None
      | Some (st', res, err) =>
          match recover_all fuel w cfg st' schedules' now with
          | None => None
          | Some (st'', results) => Some (st'', report sch (res, err) :: results)
          end
      end
  end.

(* go: internal/scheduler/recovery.go func RecoveryEngine.RecoverMissedJobs *)
Definition RecoverMissedJobs (fuel : nat) w cfg st (now : Time)
    : option (St * (list RecoveryResult + RecoveryError)) :=
  if negb (rc_Enabled cfg) then Some (st, inl [])
  else match store_GetActiveSchedules st with
       | (st', inr err) => Some (st', inr (RecActive err))
       | (st', inl schedules) =>
           match recover_all fuel w cfg st' schedules (In now UTC) with
           | None => None
           | Some (st'', results) => Some (st'', inl results)
           end
       end.

(* go: internal/scheduler/recovery.go func RecoveryEngine.RecoverSpecificSchedule *)
Definition RecoverSpecificSchedule (fuel : nat) w cfg st (id : string) (now : Time)
    : option (St * option RecoveryResult * option RecoveryError) :=
  match store_GetSchedule id st with
  | (st', inr err) => Some (st', None, Some (RecGet id err))
  | (st', inl sch) =>
      match recoverSingleSchedule fuel w cfg st' sch (In now UTC) with
      | None => None
      | Some (st'', res, err) => Some (st'', Some res, err)
      end
  end.

(** A schedule is reported when a run was due between its last and its next one. *)
(* go: internal/scheduler/recovery.go func RecoveryEngine.DetectMissedSchedules *)
Definition DetectMissedSchedules cfg st : St * (list string + RecoveryError) :=
  match store_GetDueSchedules (rc_BatchSize cfg) st with
  | (st', inr err) => (st', inr (RecDue err))
  | (st', inl due) =>
      (st', inl (omap (fun sch =>
         match sch_LastRunTime sch with
         | Some lastRun =>
             if Before (scheduleNext (sch_CronExpression sch) lastRun UTC) (sch_NextRunTimeValue sch)
             then Some (sch_ID sch) else None
         | None => None
         end) due))
  end.
End recovery.

(** ** What a recovery does *)

(** Whether a policy records the next run.  [DryRun] is only respected by one of them. *)
Definition records_next (cfg : RecoveryConfig) : bool :=
  match rc_Policy cfg with
  | SkipPolicySkipAll | SkipPolicyExecuteLatest => true
  | SkipPolicyExecuteAll => negb (rc_DryRun cfg)
  | SkipPolicyNone | SkipPolicyOther _ => false
  end.

(** How many of [n] missed runs a policy counts as executed. *)
Definition executed_of (p : SkipPolicy) (n : Z) : Z :=
  match p with
  | SkipPolicyNone | SkipPolicyExecuteAll => n
  | SkipPolicyExecuteLatest => Z.min 1 n
  | SkipPolicySkipAll | SkipPolicyOther _ => 0
  end.

Section recovery_facts.
Context {S St : Type} `{CronParser S, !CronParserLaws S, Zones, ScheduleStore St}.
Context (w : recovery_env) (cfg : RecoveryConfig) (sch : Schedule) (loc : string) (s : S).
Context (Hloc : LoadLocation (sch_Timezone sch) = Some loc).
Context (Hparse : ParseCronExpression (sch_CronExpression sch) = Ok s).

Lemma executeRecoveryJob_ok i : executeRecoveryJob w cfg i sch = None.
Proof using Hloc Hparse.
  unfold executeRecoveryJob. destruct (rc_DryRun cfg); [done|].
  unfold ParseCronExpression in Hparse. destruct (String.eqb_spec (sch_CronExpression sch) ""); [done|].
  destruct (cron_Parse false (sch_CronExpression sch)) as [s'|] eqn:Hc; [|done].
  by destruct (NewScheduledJob_ok (rv_id w i) (rv_clock w i) sch s' loc) as (j & -> & _).
Qed.

Lemma execute_all_ok n i c : execute_all w cfg sch i n c = c + Z.of_nat n.
Proof using Hloc Hparse.
  revert i c. induction n as [|n IH]; intros i c; cbn [execute_all]; [lia|].
  rewrite executeRecoveryJob_ok, IH. destruct (rc_DryRun cfg); lia.
Qed.

Lemma apply_policy_ok (st : St) missed next :
  0 < missed ->
  let '(st', res, err) := apply_policy w cfg st sch missed next in
  rr_MissedRuns res = missed /\ rr_ExecutedRuns res = executed_of (rc_Policy cfg) missed
  /\ rr_ExecutedRuns res + rr_SkippedRuns res = missed /\ rr_NextScheduledAt res = next
  /\ st' = (if records_next cfg then (store_UpdateNextRunTime (sch_ID sch) next st).1 else st)
  /\ err = (if records_next cfg then RecUpdate <$> (store_UpdateNextRunTime (sch_ID sch) next st).2 else None).
Proof using Hloc Hparse.
  intros Hm. unfold apply_policy, records_next. rewrite executeRecoveryJob_ok, execute_all_ok.
  destruct (store_UpdateNextRunTime (sch_ID sch) next st) as [st' [e|]];
    destruct (rc_Policy cfg), (rc_DryRun cfg); cbn; split_and!; (reflexivity || lia).
Qed.

Lemma recovery_since_span now :
  0 <= rc_MaxLookback cfg <= max_int64 -> t_ns now - t_ns (recovery_since cfg sch now) <= max_int64.
Proof using Type.
  intros Hl. unfold recovery_since.
  rewrite int64_small by (unfold in_int64, min_int64, max_int64 in *; lia).
  destruct (sch_LastRunTime sch) as [last|]; [|simpl; lia].
  unfold After, time_After. case_match eqn:Ha; simpl in *; lia.
Qed.
End recovery_facts.

(** A store that remembers the updates, for the examples. *)
#[export] Instance logging_store : ScheduleStore (list (string * Time)) := {
  store_GetActiveSchedules st := (st, inl []);
  store_GetDueSchedules _ st := (st, inl []);
  store_GetSchedule id st := (st, inr "not found");
  store_UpdateNextRunTime id next st := (st ++ [(id, next)], None);
  store_MarkScheduleFailed _ _ st := (st, None)
}.

(** ** Property *)


Definition hourly : Schedule :=
  mkSchedule "s1" "p1" "* * * * *" "" ScheduleStatusActive true 0 1 [] None noon (Some noon) "me" noon noon.
Definition dry_run : RecoveryConfig :=
  mkRecoveryConfig true SkipPolicyExecuteLatest (24 * Hour) 20 (5 * Minute) true.
Definition some_env : recovery_env := mkRecoveryEnv (fun _ => "id") (fun _ => five_past) 0.

(** The clock after the epoch of the window, so that the minutes are positive. *)
Lemma every_minute_productive since until : 0 <= t_ns since -> productive EveryMinute since until.
Proof.
  intros Hs t Ht. cbn -[Minute]. intros [=]. pose proof (Z.div_pos (t_ns t) Minute ltac:(lia) eq_refl).
  unfold Minute, Second, Millisecond, Microsecond, Nanosecond in *. lia.
Qed.

