(* ===== verification/SchedStore.v ===== *)
(** * Stored schedules: internal/repository/schedule_repo.go and internal/scheduler/store.go

    The table schedule_config as a map of rows by identifier, with the SQL statements of
    [ScheduleRepository] as operations on it, and [PostgresScheduleStore], which keeps a
    cache of schedules in front of it.  A statement may fail for reasons of the
    database: [fail] is then the error.  A cached schedule is an object the store shares
    with its callers; here it is the value of that object in the cache.  Timestamps are
    kept as written; rows that compare equal are returned in the order [ord]. *)

From S2P Require Import Prelude GoStrings CronLib SchedCron SchedJob SchedRecovery.

(** ** The repository *)

Abbreviation table := (gmap string Schedule).

Inductive RepoError : Type :=
| RepoNotFound (id : string)
| RepoDatabase (err : string)
| RepoNextRun (err : ScheduleError).

Definition with_next_run (next : Time) (last : option Time) (updated : Time) (s : Schedule) : Schedule :=
  mkSchedule (sch_ID s) (sch_PipelineID s) (sch_CronExpression s) (sch_Timezone s) (sch_Status s)
    (sch_Enabled s) (sch_Priority s) (sch_MaxConcurrentRuns s) (sch_Tags s) (sch_Metadata s)
    next last (sch_CreatedBy s) (sch_CreatedAt s) updated.
Definition with_enabled (status : string) (enabled : bool) (updated : Time) (s : Schedule) : Schedule :=
  mkSchedule (sch_ID s) (sch_PipelineID s) (sch_CronExpression s) (sch_Timezone s) status
    enabled (sch_Priority s) (sch_MaxConcurrentRuns s) (sch_Tags s) (sch_Metadata s)
    (sch_NextRunTimeValue s) (sch_LastRunTime s) (sch_CreatedBy s) (sch_CreatedAt s) updated.

(* go: internal/repository/schedule_repo.go func ScheduleRepository.Get *)
Definition repo_Get (fail : option string) (id : string) (t : table) : Schedule + RepoError :=
  match fail with
  | Some err => inr (RepoDatabase err)
  | None => match t !! id with Some s => inl s | None => inr (RepoNotFound id) end
  end.

(* go: internal/repository/schedule_repo.go func ScheduleRepository.Delete *)
Definition repo_Delete (fail : option string) (id : string) (t : table) : table * option RepoError :=
  match fail with
  | Some err => (t, Some (RepoDatabase err))
  | None => match t !! id with Some _ => (delete id t, None) | None => (t, Some (RepoNotFound id)) end
  end.

(** A statement that updates the row of [id]. *)
Definition update_row (fail : option string) (id : string) (f : Schedule -> Schedule) (t : table)
    : table * option RepoError :=
  match fail with
  | Some err => (t, Some (RepoDatabase err))
  | None => match t !! id with Some s => (<[id := f s]> t, None) | None => (t, Some (RepoNotFound id)) end
  end.

(** The old next run becomes the last run when it lies before the new one. *)
(* go: internal/repository/schedule_repo.go func ScheduleRepository.UpdateNextRunTime *)
Definition repo_UpdateNextRunTime (fail : option string) (now : Time) (id : string) (nextRun : Time) (t : table) :=
  update_row fail id (fun s =>
    with_next_run nextRun
      (if Before (sch_NextRunTimeValue s) nextRun then Some (sch_NextRunTimeValue s) else sch_LastRunTime s)
      (In now UTC) s) t.

(* go: internal/repository/schedule_repo.go func ScheduleRepository.ToggleEnabled *)
Definition repo_ToggleEnabled (fail : option string) (now : Time) (id : string) (enabled : bool) (t : table) :=
  update_row fail id (fun s => with_enabled (sch_Status s) enabled (In now UTC) s) t.

(* go: internal/repository/schedule_repo.go type ScheduleFilter *)
Record ScheduleFilter := mkScheduleFilter {
  sf_PipelineID : string;
  sf_Status : string;
  sf_Enabled : option bool;
  sf_Limit : Z;
  sf_Offset : Z
}.

(** ORDER BY priority ASC, next_run_time ASC. *)
Definition row_before (s u : Schedule) : Prop :=
  sch_Priority s < sch_Priority u
  \/ (sch_Priority s = sch_Priority u /\ t_ns (sch_NextRunTimeValue s) <= t_ns (sch_NextRunTimeValue u)).
#[export] Instance row_before_dec s u : Decision (row_before s u).
Proof. unfold row_before. apply _. Defined.

Definition rows (ord : list string) (p : Schedule -> bool) (t : table) : list Schedule :=
  merge_sort row_before (List.filter p (omap (fun id => t !! id) ord)).

Definition matches_filter (f : ScheduleFilter) (s : Schedule) : bool :=
  (String.eqb (sf_PipelineID f) "" || String.eqb (sch_PipelineID s) (sf_PipelineID f))
  && (String.eqb (sf_Status f) "" || String.eqb (sch_Status s) (sf_Status f))
  && match sf_Enabled f with None => true | Some b => Bool.eqb (sch_Enabled s) b end.

(** A negative OFFSET is an error of the database. *)
(* go: internal/repository/schedule_repo.go func ScheduleRepository.List *)
Definition repo_List (fail : option string) (ord : list string) (f : ScheduleFilter) (t : table)
    : list Schedule + RepoError :=
  let limit := if sf_Limit f <=? 0 then 50 else sf_Limit f in
  match fail with
  | Some err => inr (RepoDatabase err)
  | None =>
      if sf_Offset f <? 0 then inr (RepoDatabase "OFFSET must not be negative")
      else inl (take (Z.to_nat limit) (drop (Z.to_nat (sf_Offset f)) (rows ord (matches_filter f) t)))
  end.

(** [now] is the clock of the database; rows locked by other sessions are not in [ord]. *)
(* go: internal/repository/schedule_repo.go func ScheduleRepository.GetDueSchedules *)
Definition repo_GetDueSchedules (fail : option string) (ord : list string) (now : Time) (limit : Z) (t : table)
    : list Schedule + RepoError :=
  match fail with
  | Some err => inr (RepoDatabase err)
  | None =>
      if limit <? 0 then inr (RepoDatabase "LIMIT must not be negative")
      else inl (take (Z.to_nat limit)
                  (rows ord (fun s => sch_Enabled s && String.eqb (sch_Status s) ScheduleStatusActive
                                      && negb (After (sch_NextRunTimeValue s) now)) t))
  end.

(** ** The store *)

(* go: internal/scheduler/store.go type cachedSchedule *)
Record cachedSchedule := mkCachedSchedule { cs_schedule : Schedule; cs_cachedAt : Z }.

(* go: internal/scheduler/store.go type PostgresScheduleStore *)
Record PostgresScheduleStore := mkStore {
  repo : table;
  cache : gmap string cachedSchedule;
  ttl : Z
}.

Definition with_cache (st : PostgresScheduleStore) (c : gmap string cachedSchedule) : PostgresScheduleStore :=
  mkStore (repo st) c (ttl st).

(* go: internal/scheduler/store.go func NewPostgresScheduleStore *)
Definition NewPostgresScheduleStore (t : table) : PostgresScheduleStore := mkStore t ∅ (30 * Second).

Definition active_filter : ScheduleFilter := mkScheduleFilter "" ScheduleStatusActive (Some true) 1000 0.

Definition cache_all (now : Time) (l : list Schedule) (c : gmap string cachedSchedule) :=
  foldl (fun c s => <[sch_ID s := mkCachedSchedule s (t_ns now)]> c) c l.

(* go: internal/scheduler/store.go func PostgresScheduleStore.GetActiveSchedules *)
Definition GetActiveSchedules (fail : option string) (ord : list string) (now : Time) (st : PostgresScheduleStore)
    : PostgresScheduleStore * (list Schedule + RepoError) :=
  match repo_List fail ord active_filter (repo st) with
  | inr err => (st, inr err)
  | inl schedules => (with_cache st (cache_all now schedules (cache st)), inl schedules)
  end.

(* go: internal/scheduler/store.go func PostgresScheduleStore.GetDueSchedules *)
Definition GetDueSchedules (fail : option string) (ord : list string) (now : Time) (limit : Z)
    (st : PostgresScheduleStore) : list Schedule + RepoError :=
  repo_GetDueSchedules fail ord now (if limit <=? 0 then 50 else limit) (repo st).

(* go: internal/scheduler/store.go func PostgresScheduleStore.getFromCache *)
Definition getFromCache (now : Time) (id : string) (st : PostgresScheduleStore) : option Schedule :=
  match cache st !! id with
  | None => None
  | Some cached => if ttl st <? time_Sub (t_ns now) (cs_cachedAt cached) then None else Some (cs_schedule cached)
  end.

(* go: internal/scheduler/store.go func PostgresScheduleStore.GetSchedule *)
Definition GetSchedule (fail : option string) (now : Time) (id : string) (st : PostgresScheduleStore)
    : PostgresScheduleStore * (Schedule + RepoError) :=
  match getFromCache now id st with
  | Some cached => (st, inl cached)
  | None =>
      match repo_Get fail id (repo st) with
      | inr err => (st, inr err)
      | inl sch => (with_cache st (<[id := mkCachedSchedule sch (t_ns now)]> (cache st)), inl sch)
      end
  end.

(* go: internal/scheduler/store.go func PostgresScheduleStore.UpdateNextRunTime *)
Definition UpdateNextRunTime (fail : option string) (now : Time) (id : string) (nextRun : Time)
    (st : PostgresScheduleStore) : PostgresScheduleStore * option RepoError :=
  match repo_UpdateNextRunTime fail now id nextRun (repo st) with
  | (_, Some err) => (st, Some err)
  | (t, None) =>
      (mkStore t (match cache st !! id with
                  | Some cached =>
                      let s := cs_schedule cached in
                      <[id := mkCachedSchedule (with_next_run nextRun (sch_LastRunTime s) (sch_UpdatedAt s) s)
                                (t_ns now)]> (cache st)
                  | None => cache st
                  end) (ttl st), None)
  end.

(** The object found is the one in the cache, and it is changed before the row is. *)
(* go: internal/scheduler/store.go func PostgresScheduleStore.MarkScheduleFailed *)
Definition MarkScheduleFailed (fail_get fail_toggle : option string) (now : Time) (id : string)
    (st : PostgresScheduleStore) : PostgresScheduleStore * option RepoError :=
  match GetSchedule fail_get now id st with
  | (st1, inr err) => (st1, Some err)
  | (st1, inl sch) =>
      let failed := with_enabled ScheduleStatusFailed false (sch_UpdatedAt sch) sch in
      let touched := match cache st1 !! id with
                     | Some cached => <[id := mkCachedSchedule failed (cs_cachedAt cached)]> (cache st1)
                     | None => cache st1
                     end in
      match repo_ToggleEnabled fail_toggle now id false (repo st1) with
      | (_, Some err) => (with_cache st1 touched, Some err)
      | (t, None) => (mkStore t (delete id touched) (ttl st1), None)
      end
  end.

(* go: internal/scheduler/store.go func PostgresScheduleStore.InvalidateCache *)
Definition InvalidateCache (id : string) (st : PostgresScheduleStore) : PostgresScheduleStore :=
  with_cache st (delete id (cache st)).

(* go: internal/scheduler/store.go func PostgresScheduleStore.ClearCache *)
Definition ClearCache (st : PostgresScheduleStore) : PostgresScheduleStore := with_cache st ∅.

(* go: internal/scheduler/store.go func PostgresScheduleStore.RefreshCache *)
Definition RefreshCache (fail : option string) (ord : list string) (now : Time) (st : PostgresScheduleStore)
    : PostgresScheduleStore * option RepoError :=
  match repo_List fail ord active_filter (repo st) with
  | inr err => (st, Some err)
  | inl schedules => (with_cache st (cache_all now schedules ∅), None)
  end.

(** ** The store behind its interface

    What each statement meets is taken from a script: whether it fails, the order of the
    rows and the clock. *)

Record stmt_env := mkStmtEnv { se_fail : option string; se_ord : list string; se_now : Time }.

Definition repo_text (err : RepoError) : string :=
  match err with
  | RepoNotFound id => ("schedule " +:+ id +:+ ": not found")%string
  | RepoDatabase err => err
  | RepoNextRun _ => "failed to compute next run time"
  end.

Definition text_of {A} (r : A + RepoError) : A + string :=
  match r with inl a => inl a | inr err => inr (repo_text err) end.

Definition scripted : Type := PostgresScheduleStore * list stmt_env.
Definition next_stmt (st : scripted) : stmt_env * list stmt_env :=
  match st.2 with
  | [] => (mkStmtEnv None [] zero_Time, [])
  | e :: es => (e, es)
  end.

#[export] Instance postgres_store : ScheduleStore scripted := {
  store_GetActiveSchedules st :=
    let '(e, es) := next_stmt st in
    let '(st', r) := GetActiveSchedules (se_fail e) (se_ord e) (se_now e) st.1 in ((st', es), text_of r);
  store_GetDueSchedules limit st :=
    let '(e, es) := next_stmt st in
    ((st.1, es), text_of (GetDueSchedules (se_fail e) (se_ord e) (se_now e) limit st.1));
  store_GetSchedule id st :=
    let '(e, es) := next_stmt st in
    let '(st', r) := GetSchedule (se_fail e) (se_now e) id st.1 in ((st', es), text_of r);
  store_UpdateNextRunTime id next st :=
    let '(e, es) := next_stmt st in
    let '(st', err) := UpdateNextRunTime (se_fail e) (se_now e) id next st.1 in ((st', es), repo_text <$> err);
  store_MarkScheduleFailed id _ st :=
    let '(e, es) := next_stmt st in
    let '(st', err) := MarkScheduleFailed (se_fail e) (se_fail e) (se_now e) id st.1 in ((st', es), repo_text <$> err)
}.

(** ** The cache against the table *)

(** Equal but for the columns that [UpdateNextRunTime] only changes in the table. *)
Definition agrees (s r : Schedule) : Prop :=
  with_next_run (sch_NextRunTimeValue s) (sch_LastRunTime r) (sch_UpdatedAt r) s = r.

Definition table_wf (t : table) : Prop := forall id r, t !! id = Some r -> sch_ID r = id.

(** Every cached schedule agrees with its row. *)
Definition coherent (st : PostgresScheduleStore) : Prop :=
  table_wf (repo st)
  /\ forall id c, cache st !! id = Some c -> exists r, repo st !! id = Some r /\ agrees (cs_schedule c) r.

(** One call of the store, in which any statement may fail, except that a schedule
    marked as failed is written back. *)
Inductive store_step : PostgresScheduleStore -> PostgresScheduleStore -> Prop :=
| st_active st fail ord now : store_step st (GetActiveSchedules fail ord now st).1
| st_get st fail now id : store_step st (GetSchedule fail now id st).1
| st_update st fail now id next : store_step st (UpdateNextRunTime fail now id next st).1
| st_mark st fail now id : store_step st (MarkScheduleFailed fail None now id st).1
| st_invalidate st id : store_step st (InvalidateCache id st)
| st_clear st : store_step st (ClearCache st)
| st_refresh st fail ord now : store_step st (RefreshCache fail ord now st).1.

Lemma agrees_refl s : agrees s s.
Proof. by destruct s. Qed.

Lemma row_of_list ord p t s : s ∈ rows ord p t -> exists id, t !! id = Some s /\ p s = true.
Proof.
  unfold rows. rewrite (merge_sort_Permutation row_before). intros Hs.
  apply list_elem_of_In, filter_In in Hs as [Hs Hp]. apply list_elem_of_In, list_elem_of_omap in Hs as (id & _ & Hid).
  by exists id.
Qed.

Lemma repo_List_rows fail ord f t l s : repo_List fail ord f t = inl l -> s ∈ l ->
  exists id, t !! id = Some s /\ matches_filter f s = true.
Proof.
  unfold repo_List. destruct fail; [done|]. case_match; [done|]. intros [= <-] Hs.
  apply elem_of_take in Hs as (i & Hs & _). rewrite lookup_drop in Hs. by eapply row_of_list, list_elem_of_lookup_2.
Qed.

Lemma cache_all_lookup now l : forall c id e, cache_all now l c !! id = Some e ->
  c !! id = Some e \/ exists s, s ∈ l /\ sch_ID s = id /\ e = mkCachedSchedule s (t_ns now).
Proof.
  induction l as [|s l IH]; intros c id e He; [by left|].
  apply IH in He as [He|(s' & Hs & Hid & ->)]; [|right; exists s'; split; [by right|done]].
  destruct (decide (sch_ID s = id)) as [<-|Hne].
  - rewrite lookup_insert_eq in He. injection He as <-. right. exists s. split; [by left|done].
  - rewrite lookup_insert_ne in He by done. by left.
Qed.

Lemma cache_all_coherent fail ord now f t l c :
  table_wf t -> repo_List fail ord f t = inl l ->
  (forall id e, c !! id = Some e -> exists r, t !! id = Some r /\ agrees (cs_schedule e) r) ->
  forall id e, cache_all now l c !! id = Some e -> exists r, t !! id = Some r /\ agrees (cs_schedule e) r.
Proof.
  intros Hwf Hl Hc id e He. apply cache_all_lookup in He as [He|(s & Hs & Hid & ->)]; [by apply Hc|].
  destruct (repo_List_rows _ _ _ _ _ s Hl Hs) as (id' & Hr & _). rewrite <- Hid, (Hwf _ _ Hr).
  exists s. split; [done|apply agrees_refl].
Qed.

Lemma GetSchedule_coherent fail now id st : coherent st -> coherent (GetSchedule fail now id st).1.
Proof.
  intros [Hwf Hc]. unfold GetSchedule, repo_Get. destruct (getFromCache now id st); [done|].
  destruct fail; [done|]. destruct (repo st !! id) as [s|] eqn:Hs; [|done]. split; [done|]. simpl.
  intros id' e [[<- <-]|[Hne He]]%lookup_insert_Some; [|by apply Hc].
  exists s. split; [done|apply agrees_refl].
Qed.

(** What [GetSchedule] returns agrees with the row. *)
Lemma GetSchedule_agrees fail now id st st' s :
  coherent st -> GetSchedule fail now id st = (st', inl s) -> exists r, repo st !! id = Some r /\ agrees s r.
Proof.
  intros [Hwf Hc]. unfold GetSchedule, getFromCache, repo_Get.
  destruct (cache st !! id) as [e|] eqn:He; [destruct (_ <? _)|].
  2: { intros [= _ <-]. by apply Hc. }
  all: destruct fail; [done|]; destruct (repo st !! id) as [r|]; [|done]; intros [= _ <-]; exists r;
    split; [done|apply agrees_refl].
Qed.

Lemma update_row_lookup fail id f t t' : update_row fail id f t = (t', None) ->
  exists s, t !! id = Some s /\ t' = <[id := f s]> t.
Proof. unfold update_row. destruct fail; [done|]. destruct (t !! id) as [s|]; [|done]. intros [= <-]. eauto. Qed.

Lemma table_wf_insert t id f s : table_wf t -> t !! id = Some s -> sch_ID (f s) = sch_ID s -> table_wf (<[id := f s]> t).
Proof.
  intros Hwf Hs Hf id' r [[<- <-]|[_ Hr]]%lookup_insert_Some; [|by apply Hwf].
  rewrite Hf. by apply Hwf.
Qed.

Lemma UpdateNextRunTime_coherent fail now id next st :
  coherent st -> coherent (UpdateNextRunTime fail now id next st).1.
Proof.
  intros [Hwf Hc]. unfold UpdateNextRunTime, repo_UpdateNextRunTime.
  destruct (update_row _ _ _ _) as [t [err|]] eqn:Hu; [done|].
  apply update_row_lookup in Hu as (s & Hs & ->). split; [by apply table_wf_insert|]. simpl.
  intros id' e He. cbv zeta in He. destruct (decide (id = id')) as [<-|Hne].
  - eexists. split; [apply lookup_insert_eq|].
    destruct (cache st !! id) as [e0|] eqn:He0; [|congruence].
    rewrite lookup_insert_eq in He. injection He as <-. destruct (Hc id e0 He0) as (r & Hr & Ha).
    rewrite Hs in Hr. injection Hr as <-. unfold agrees in *. rewrite <- Ha. by destruct (cs_schedule e0).
  - destruct (Hc id' e) as (r & Hr & Ha).
    { destruct (cache st !! id) as [e0|]; [|done]. by rewrite lookup_insert_ne in He. }
    exists r. split; [by rewrite lookup_insert_ne|done].
Qed.

Lemma MarkScheduleFailed_coherent fail now id st :
  coherent st -> coherent (MarkScheduleFailed fail None now id st).1.
Proof.
  intros Hco. pose proof (GetSchedule_coherent fail now id st Hco) as Hco1. unfold MarkScheduleFailed.
  destruct (GetSchedule fail now id st) as [st1 [sch|err]] eqn:Hg; [|done].
  apply GetSchedule_agrees in Hg as Hrow; [|done]. destruct Hrow as (r & Hr & _).
  assert (repo st1 = repo st) as Hrepo.
  { unfold GetSchedule in Hg. repeat case_match; simplify_eq; done. }
  destruct Hco1 as [Hwf1 Hc1]. simpl in *. unfold repo_ToggleEnabled, update_row. rewrite Hrepo, Hr in *.
  split; [by apply table_wf_insert|]. simpl. intros id' e [Hne He]%lookup_delete_Some.
  destruct (Hc1 id' e) as (r' & Hr' & Ha).
  { destruct (cache st1 !! id); [|done]. by rewrite lookup_insert_ne in He. }
  exists r'. split; [by rewrite lookup_insert_ne|done].
Qed.

Lemma store_step_coherent st st' : store_step st st' -> coherent st -> coherent st'.
Proof.
  destruct 1; intros Hco; pose proof Hco as [Hwf Hc].
  - unfold GetActiveSchedules. destruct (repo_List _ _ _ _) eqn:Hl; [|done]. split; [done|].
    by eapply cache_all_coherent.
  - by apply GetSchedule_coherent.
  - by apply UpdateNextRunTime_coherent.
  - by apply MarkScheduleFailed_coherent.
  - split; [done|]. simpl. intros id' e [_ He]%lookup_delete_Some. by apply Hc.
  - split; [done|]. simpl. intros id' e He. by rewrite lookup_empty in He.
  - unfold RefreshCache. destruct (repo_List _ _ _ _) eqn:Hl; [|done]. split; [done|].
    eapply cache_all_coherent; [done|done|]. intros id' e He. by rewrite lookup_empty in He.
Qed.

(** A row is found, and its object is then in the cache, fresh. *)
Lemma GetSchedule_found now id st r :
  coherent st -> repo st !! id = Some r ->
  exists st' s e, GetSchedule None now id st = (st', inl s) /\ repo st' = repo st
    /\ cache st' !! id = Some e
    /\ (forall x : Schedule, 0 <= ttl st -> (if ttl st <? time_Sub (t_ns now) (cs_cachedAt e) then None else Some x) = Some x)
    /\ ttl st' = ttl st.
Proof.
  intros _ Hr. unfold GetSchedule, getFromCache, repo_Get. rewrite Hr.
  assert (forall x : Schedule, 0 <= ttl st ->
            (if ttl st <? time_Sub (t_ns now) (t_ns now) then None else Some x) = Some x) as Hnow.
  { intros x Hx. unfold time_Sub. rewrite Z.sub_diag. destruct (Z.ltb_spec (ttl st) (Z.max min_int64 (Z.min max_int64 0))); [|done].
    unfold min_int64, max_int64 in *. lia. }
  destruct (cache st !! id) as [e|] eqn:He; [destruct (ttl st <? time_Sub (t_ns now) (cs_cachedAt e)) eqn:Hage|].
  - eexists _, _, _. split; [done|]. simpl. split_and!; [done|apply lookup_insert_eq|exact Hnow|done].
  - eexists _, _, e. split; [done|]. split_and!; try done. intros x _. by rewrite Hage.
  - eexists _, _, _. split; [done|]. simpl. split_and!; [done|apply lookup_insert_eq|exact Hnow|done].
Qed.

(** ** Property *)


Definition one_row : table := {["s1" := hourly]}.
Definition used_store : PostgresScheduleStore :=
  (UpdateNextRunTime None five_past "s1" five_past (GetSchedule None noon "s1" (NewPostgresScheduleStore one_row)).1).1.

Lemma one_row_wf : table_wf one_row.
Proof. intros id r Hr. unfold one_row in Hr. apply lookup_singleton_Some in Hr as [<- <-]. reflexivity. Qed.

Lemma used_store_run : rtc store_step (NewPostgresScheduleStore one_row) used_store.
Proof. eapply rtc_l; [apply st_get|]. eapply rtc_l; [apply st_update|]. apply rtc_refl. Qed.

