(* ===== verification/ScheduleRepo.v ===== *)
(** * Writing schedules: internal/repository/schedule_repo.go, Create and Update

    The two statements that the store does not use, on the table of [SchedStore].  A schedule
    is the caller's object, which the call changes: it is returned as it is left. *)

From S2P Require Import Prelude GoStrings CronLib SchedCron SchedJob SchedStore.

Section schedule_repo.
Context {S : Type} `{CronParser S, Zones}.

(** The defaults that [Create] writes into its argument. *)
Definition with_defaults (now : Time) (s : Schedule) : Schedule :=
  mkSchedule (sch_ID s) (sch_PipelineID s) (sch_CronExpression s)
    (if String.eqb (sch_Timezone s) "" then "UTC" else sch_Timezone s) (sch_Status s) (sch_Enabled s)
    (if sch_Priority s =? 0 then 100 else sch_Priority s)
    (if sch_MaxConcurrentRuns s <=? 0 then 1 else sch_MaxConcurrentRuns s) (sch_Tags s) (sch_Metadata s)
    (sch_NextRunTimeValue s) (sch_LastRunTime s) (sch_CreatedBy s)
    (if IsZero (sch_CreatedAt s) then In now UTC else sch_CreatedAt s)
    (if IsZero (sch_UpdatedAt s) then In now UTC else sch_UpdatedAt s).

Definition set_next (next : Time) (s : Schedule) : Schedule :=
  with_next_run next (sch_LastRunTime s) (sch_UpdatedAt s) s.

(** The clock is read for the defaults and again for the next run.  A zone that does not load or
    an expression that does not parse is an error before the statement. *)
(* go: internal/repository/schedule_repo.go func ScheduleRepository.Create *)
Definition repo_Create (fail : option string) (now now' : Time) (s : Schedule) (t : table) : Schedule * table * option RepoError :=
  let s := with_defaults now s in
  match Schedule_NextRunTime now' s with
  | Err err => (s, t, Some (RepoNextRun err))
  | Panic => (s, t, Some (RepoNextRun ErrCronEmpty))
  | Ok next =>
      match fail with
      | Some err => (s, t, Some (RepoDatabase err))
      | None =>
          match t !! sch_ID s with
          | Some _ => (s, t, Some (RepoDatabase "duplicate key value violates unique constraint"))
          | None => (set_next next s, <[sch_ID s := set_next next s]> t, None)
          end
      end
  end.

Definition set_updated (now : Time) (s : Schedule) : Schedule :=
  with_next_run (sch_NextRunTimeValue s) (sch_LastRunTime s) (In now UTC) s.

(** The columns that the statement writes into the row [r]. *)
Definition updated_row (next : Time) (s r : Schedule) : Schedule :=
  mkSchedule (sch_ID r) (sch_PipelineID r) (sch_CronExpression s) (sch_Timezone s) (sch_Status s) (sch_Enabled s)
    (sch_Priority s) (sch_MaxConcurrentRuns s) (sch_Tags s) (sch_Metadata s) next (sch_LastRunTime r) (sch_CreatedBy r)
    (sch_CreatedAt r) (sch_UpdatedAt s).

(* go: internal/repository/schedule_repo.go func ScheduleRepository.Update *)
Definition repo_Update (fail : option string) (now now' : Time) (s : Schedule) (t : table) : Schedule * table * option RepoError :=
  let s := set_updated now s in
  match Schedule_NextRunTime now' s with
  | Err err => (s, t, Some (RepoNextRun err))
  | Panic => (s, t, Some (RepoNextRun ErrCronEmpty))
  | Ok next =>
      match update_row fail (sch_ID s) (updated_row next s) t with
      | (t', Some err) => (s, t', Some err)
      | (t', None) => (set_next next s, t', None)
      end
  end.

Lemma NextRunTime_no_panic now s : Schedule_NextRunTime now s <> Panic.
Proof. unfold Schedule_NextRunTime. destruct (String.eqb (sch_CronExpression s) ""), (LoadLocation (sch_Timezone s)); try done.
  by destruct (cron_Parse false (sch_CronExpression s)). Qed.

(** A schedule that [Validate] would accept, but for the values that [Create] replaces. *)
Definition can_run (s : Schedule) : bool :=
  negb (String.eqb (sch_CronExpression s) "")
  && match LoadLocation (sch_Timezone s) with Some _ => true | None => false end
  && match cron_Parse false (sch_CronExpression s) with inl _ => true | inr _ => false end.

Lemma NextRunTime_ok now s : (exists next, Schedule_NextRunTime now s = Ok next) <-> can_run s = true.
Proof.
  unfold Schedule_NextRunTime, can_run. destruct (String.eqb (sch_CronExpression s) ""); simpl; [split; [by intros []|done]|].
  destruct (LoadLocation (sch_Timezone s)); simpl; [|split; [by intros []|done]].
  destruct (cron_Parse false (sch_CronExpression s)); split; try done; eauto. by intros [].
Qed.

(** A schedule is only ever written with a next run that its expression and its zone give: what
    does not parse or load is refused and changes nothing, and neither call checks anything
    else.  What was created is read back with the defaults and the next run.  An update keeps
    the identifier, the pipeline, the creation and the last run, and replaces the next run,
    also one that is due and has not been run. *)
Theorem schedule_writes_correct now now' s t :
  (forall s' t' err, repo_Create None now now' s t = (s', t', err) ->
     if err is None
     then t !! sch_ID s = None /\ Schedule_NextRunTime now' (with_defaults now s) = Ok (sch_NextRunTimeValue s')
          /\ repo_Get None (sch_ID s) t' = inl s' /\ sch_Priority s' <> 0 /\ 0 < sch_MaxConcurrentRuns s' /\ sch_Timezone s' <> ""%string
          /\ forall id, id <> sch_ID s -> t' !! id = t !! id
     else t' = t /\ (can_run (with_defaults now s) = false \/ is_Some (t !! sch_ID s)))
  /\ (forall s' t' err, repo_Update None now now' s t = (s', t', err) ->
     if err is None
     then exists r, t !! sch_ID s = Some r
          /\ Schedule_NextRunTime now' s = Ok (sch_NextRunTimeValue s')
          /\ t' = <[sch_ID s := updated_row (sch_NextRunTimeValue s') s' r]> t
     else t' = t /\ (can_run s = false \/ t !! sch_ID s = None)).
Proof.
  split; intros s' t' err.
  - unfold repo_Create. set (s1 := with_defaults now s).
    pose proof (NextRunTime_ok now' s1) as Hok. pose proof (NextRunTime_no_panic now' s1) as Hnp.
    change (sch_ID s1) with (sch_ID s).
    destruct (Schedule_NextRunTime now' s1) as [next|e|] eqn:Hn; [|intros [= <- <- <-]|done].
    + destruct (t !! sch_ID s) as [r|] eqn:Hr; intros [= <- <- <-]; [split; [done|]; right; eauto|].
      split_and!; try done.
      * unfold repo_Get. by rewrite lookup_insert_eq.
      * simpl. by destruct (Z.eqb_spec (sch_Priority s) 0).
      * simpl. destruct (Z.leb_spec (sch_MaxConcurrentRuns s) 0); lia.
      * simpl. by destruct (String.eqb_spec (sch_Timezone s) "").
      * intros id Hne. by apply lookup_insert_ne.
    + split; [done|]. left. destruct (can_run s1); [|done]. by destruct (proj2 Hok eq_refl).
  - unfold repo_Update. set (s1 := set_updated now s).
    assert (Schedule_NextRunTime now' s1 = Schedule_NextRunTime now' s) as -> by done.
    pose proof (NextRunTime_ok now' s) as Hok. pose proof (NextRunTime_no_panic now' s) as Hnp.
    change (sch_ID s1) with (sch_ID s).
    destruct (Schedule_NextRunTime now' s) as [next|e|] eqn:Hn; [|intros [= <- <- <-]|done].
    + unfold update_row. destruct (t !! sch_ID s) as [r|] eqn:Hr; intros [= <- <- <-]; [|split; auto]. exists r. split_and!; done.
    + split; [done|]. left. destruct (can_run s); [|done]. by destruct (proj2 Hok eq_refl).
Qed.
End schedule_repo.

(** An expression that never runs again has the zero time as its next run, which is always due. *)
Example never_runs_is_due :
  let s := mkSchedule "s" "p" "0 0 30 2 *" "" "active" true 0 0 [] None zero_Time None "ops" zero_Time zero_Time in
  let now := mkTime (Minute * 7) UTC in
  let '(s', t, err) := repo_Create None now now s ∅ in
  err = None /\ repo_GetDueSchedules None ["s"%string] now 10 t = inl [s'].
Proof. split; reflexivity. Qed.
