(* ===== verification/SchedService.v ===== *)
(** * The scheduler service: internal/scheduler/service.go

    The jobs registered with the cron library ([CronLib]), the table of active jobs, and
    the dispatch of a job through the publisher, over the store of [SchedStore] and the
    recovery of [SchedRecovery].  The closure given to [AddFunc] is the job it runs, by
    the identifier of its entry.  The library's table is made with a field for the
    seconds, the job is parsed without.  Starting and stopping of goroutines and
    tickers, and the report of [Stats], have no model. *)

From S2P Require Import Prelude GoStrings CronLib SchedCron SchedJob SchedRecovery SchedStore.

(** What the service asks of the queue's publisher: one message with its routing key and
    the number of retries; the payload is the execution it encodes. *)
Class JobPublisher (P : Type) := {
  PublishWithRetry : string -> JobExecution -> Z -> P -> P * option string
}.

Section service.
Context {C S P : Type} `{CronOps C, CronParser S, JobPublisher P, Zones}.

(* go: internal/scheduler/service.go type SchedulerService *)
Record SchedulerService := mkSchedulerService {
  ss_cron : C;
  ss_closures : gmap Z ScheduledJob;
  ss_store : PostgresScheduleStore;
  ss_publisher : P;
  ss_recovery : RecoveryConfig;
  ss_activeJobs : gmap string Z;
  ss_pollInterval : Z;
  ss_pollLimit : Z
}.

Inductive ServiceError : Type :=
| ErrCreateJob (err : ScheduleError)
| ErrAddFunc (err : string)
| ErrNotActive (id : string)
| ErrLoadActive (err : RepoError).

Definition set_jobs (s : SchedulerService) (c : C) (f : gmap Z ScheduledJob) (a : gmap string Z) : SchedulerService :=
  mkSchedulerService c f (ss_store s) (ss_publisher s) (ss_recovery s) a (ss_pollInterval s) (ss_pollLimit s).
Definition set_store (s : SchedulerService) (st : PostgresScheduleStore) : SchedulerService :=
  mkSchedulerService (ss_cron s) (ss_closures s) st (ss_publisher s) (ss_recovery s) (ss_activeJobs s)
    (ss_pollInterval s) (ss_pollLimit s).
Definition set_publisher (s : SchedulerService) (p : P) : SchedulerService :=
  mkSchedulerService (ss_cron s) (ss_closures s) (ss_store s) p (ss_recovery s) (ss_activeJobs s)
    (ss_pollInterval s) (ss_pollLimit s).

(** An option; a ticker with an interval that is not positive panics. *)
Definition SchedulerOption : Type := SchedulerService -> go_result SchedulerService unit.

(* go: internal/scheduler/service.go func WithPollingInterval *)
Definition WithPollingInterval (d : Z) : SchedulerOption := fun s =>
  if d <=? 0 then Panic
  else Ok (mkSchedulerService (ss_cron s) (ss_closures s) (ss_store s) (ss_publisher s) (ss_recovery s)
             (ss_activeJobs s) d (ss_pollLimit s)).

(* go: internal/scheduler/service.go func WithPollLimit *)
Definition WithPollLimit (limit : Z) : SchedulerOption := fun s =>
  if 0 <? limit
  then Ok (mkSchedulerService (ss_cron s) (ss_closures s) (ss_store s) (ss_publisher s) (ss_recovery s)
             (ss_activeJobs s) (ss_pollInterval s) limit)
  else Ok s.

(** [c] is the result of [cron.New(cron.WithSeconds())]. *)
(* go: internal/scheduler/service.go func NewSchedulerService *)
Definition NewSchedulerService (c : C) (t : table) (publisher : P) (recoveryCfg : RecoveryConfig)
    (opts : list SchedulerOption) : go_result SchedulerService unit :=
  foldl (fun r opt => (s <-- r ;; opt s)%go)
    (Ok (mkSchedulerService c ∅ (NewPostgresScheduleStore t) publisher recoveryCfg ∅ (15 * Second) 50)) opts.

(** [id] and [now] are those of the new job. *)
(* go: internal/scheduler/service.go func SchedulerService.AddJob *)
Definition AddJob (id : string) (now : Time) (schedule : Schedule) (s : SchedulerService)
    : SchedulerService * go_result Z ServiceError :=
  match NewScheduledJob id now schedule with
  | Err err => (s, Err (ErrCreateJob err))
  | Panic => (s, Panic)
  | Ok job =>
      match cron_AddFunc (ss_cron s) (sch_CronExpression schedule) with
      | Err err => (s, Err (ErrAddFunc err))
      | Panic => (s, Panic)
      | Ok (c, entryID) =>
          (set_jobs s c (<[entryID := job]> (ss_closures s)) (<[sch_ID schedule := entryID]> (ss_activeJobs s)),
           Ok entryID)
      end
  end.

(* go: internal/scheduler/service.go func SchedulerService.RemoveJob *)
Definition RemoveJob (scheduleID : string) (s : SchedulerService) : SchedulerService * option ServiceError :=
  match ss_activeJobs s !! scheduleID with
  | None => (s, Some (ErrNotActive scheduleID))
  | Some entryID =>
      (set_store (set_jobs s (cron_Remove (ss_cron s) entryID) (delete entryID (ss_closures s))
                    (delete scheduleID (ss_activeJobs s)))
         (InvalidateCache scheduleID (ss_store s)), None)
  end.

(** The error of [RemoveJob] is only logged. *)
(* go: internal/scheduler/service.go func SchedulerService.UpdateJob *)
Definition UpdateJob (id : string) (now : Time) (schedule : Schedule) (s : SchedulerService)
    : SchedulerService * go_result Z ServiceError :=
  AddJob id now schedule (RemoveJob (sch_ID schedule) s).1.

(* go: internal/scheduler/service.go func SchedulerService.HasJob *)
Definition HasJob (scheduleID : string) (s : SchedulerService) : bool :=
  bool_decide (is_Some (ss_activeJobs s !! scheduleID)).

(* go: internal/scheduler/service.go func SchedulerService.ActiveJobCount *)
Definition ActiveJobCount (s : SchedulerService) : Z := Z.of_nat (size (ss_activeJobs s)).

(** What one dispatch reads from outside. *)
Record dispatch_env := mkDispatchEnv {
  de_id : string;
  de_correlation : string;
  de_now : Time;
  de_next : Time;            (** the clock of [NextRunTime] *)
  de_fail : option string    (** the outcome of the store's statement *)
}.

(** The payload is always encoded.  The next run is computed in UTC, whatever the zone of
    the job. *)
(* go: internal/scheduler/service.go func SchedulerService.executeJob *)
Definition executeJob (x : dispatch_env) (job : ScheduledJob) (s : SchedulerService) : SchedulerService :=
  if job_Disabled job then s
  else
    let exec := NewJobExecution (de_id x) (de_correlation x) (de_now x) job in
    match PublishWithRetry (RoutingKey exec) exec 2 (ss_publisher s) with
    | (p, Some _) => set_publisher s p
    | (p, None) =>
        let s1 := set_publisher s p in
        match NextRunTime (de_next x) (job_CronExpression job) None with
        | Ok nextRun =>
            set_store s1 (UpdateNextRunTime (de_fail x) (de_next x) (job_ScheduleID job) nextRun (ss_store s1)).1
        | _ => s1
        end
    end.

(** The jobs that a poll starts, each in a goroutine of its own. *)
(* go: internal/scheduler/service.go @288-301 SchedulerService.pollDueSchedules *)
Fixpoint due_jobs (id : nat -> string) (clock : nat -> Time) (i : nat) (due : list Schedule) (s : SchedulerService)
    : list ScheduledJob :=
  match due with
  | [] => []
  | sch :: due' =>
      (if HasJob (sch_ID sch) s then []
       else match NewScheduledJob (id i) (clock i) sch with Ok job => [job] | _ => [] end)
      ++ due_jobs id clock (Datatypes.S i) due' s
  end.

(** The goroutines run in some order, [order]. *)
(* go: internal/scheduler/service.go func SchedulerService.pollDueSchedules *)
Definition pollDueSchedules (fail : option string) (ord : list string) (now : Time) (id : nat -> string)
    (clock : nat -> Time) (order : list ScheduledJob -> list (dispatch_env * ScheduledJob)) (s : SchedulerService)
    : SchedulerService :=
  match GetDueSchedules fail ord now (ss_pollLimit s) (ss_store s) with
  | inr _ => s
  | inl due => foldl (fun s '(x, job) => executeJob x job s) s (order (due_jobs id clock 0 due s))
  end.

(* go: internal/scheduler/service.go @339-349 SchedulerService.loadActiveJobs *)
Fixpoint load_jobs (id : nat -> string) (clock : nat -> Time) (i : nat) (schedules : list Schedule)
    (s : SchedulerService) : SchedulerService :=
  match schedules with
  | [] => s
  | sch :: schedules' => load_jobs id clock (Datatypes.S i) schedules' (AddJob (id i) (clock i) sch s).1
  end.

(* go: internal/scheduler/service.go func SchedulerService.loadActiveJobs *)
Definition loadActiveJobs (fail : option string) (ord : list string) (now : Time) (id : nat -> string)
    (clock : nat -> Time) (s : SchedulerService) : SchedulerService * option ServiceError :=
  match GetActiveSchedules fail ord now (ss_store s) with
  | (st, inr err) => (set_store s st, Some (ErrLoadActive err))
  | (st, inl schedules) => (load_jobs id clock 0 schedules (set_store s st), None)
  end.

(** The loop over the active jobs, in the order [jobs]. *)
(* go: internal/scheduler/service.go @362-365 SchedulerService.ReloadJobs *)
Definition drop_jobs (jobs : list string) (s : SchedulerService) : SchedulerService :=
  foldl (fun s id => match ss_activeJobs s !! id with
                     | None => s
                     | Some entryID => set_jobs s (cron_Remove (ss_cron s) entryID) (delete entryID (ss_closures s))
                                         (delete id (ss_activeJobs s))
                     end) s jobs.

(* go: internal/scheduler/service.go func SchedulerService.ReloadJobs *)
Definition ReloadJobs (jobs : list string) (fail : option string) (ord : list string) (now : Time)
    (id : nat -> string) (clock : nat -> Time) (s : SchedulerService) : SchedulerService * option ServiceError :=
  loadActiveJobs fail ord now id clock (drop_jobs jobs s).

(** The errors of the recovery are only logged.  [script] is what the statements of the
    store meet, one after the other. *)
(* go: internal/scheduler/service.go func SchedulerService.recoverOnStartup *)
Definition recoverOnStartup (fuel : nat) (w : recovery_env) (now : Time) (script : list stmt_env)
    (s : SchedulerService) : option (SchedulerService * option RecoveryError) :=
  match RecoverMissedJobs fuel w (ss_recovery s) (ss_store s, script) now with
  | None => None
  | Some (st, inl _) => Some (set_store s st.1, None)
  | Some (st, inr err) => Some (set_store s st.1, Some err)
  end.

(** Before the library and the poll are started. *)
(* go: internal/scheduler/service.go @92-98 SchedulerService.Start *)
Definition Start (fuel : nat) (w : recovery_env) (now : Time) (script : list stmt_env)
    (fail : option string) (ord : list string) (id : nat -> string) (clock : nat -> Time)
    (s : SchedulerService) : option (SchedulerService * option ServiceError) :=
  match recoverOnStartup fuel w now script s with
  | None => None
  | Some (s1, _) => Some (loadActiveJobs fail ord now id clock s1)
  end.

(** After the poll and the library have stopped. *)
(* go: internal/scheduler/service.go @131-136 SchedulerService.Stop *)
Definition Stop (s : SchedulerService) : SchedulerService :=
  set_store (set_jobs s (ss_cron s) (ss_closures s) ∅) (ClearCache (ss_store s)).
End service.
Arguments SchedulerService : clear implicits.

(** ** The jobs in the table and in the library *)

Section service_facts.
Context {C S P : Type} `{CronOps C, !CronLaws C, CronParser S, !CronParserLaws S, JobPublisher P, Zones,
  !CronTableParses C S}.
Implicit Types (s : SchedulerService C P).

Definition entries s : list Z := (cron_Entries (ss_cron s)).*1.

(** Every active job is an entry of the library that runs a job of its schedule. *)
Definition jobs_inv s : Prop :=
  NoDup (entries s)
  /\ (forall e job, ss_closures s !! e = Some job -> e ∈ entries s)
  /\ forall id e, ss_activeJobs s !! id = Some e ->
       exists job, ss_closures s !! e = Some job /\ job_ScheduleID job = id.

(** One call of the service. *)
Inductive service_step : SchedulerService C P -> SchedulerService C P -> Prop :=
| sv_add s id now sch : service_step s (AddJob id now sch s).1
| sv_remove s id : service_step s (RemoveJob id s).1
| sv_update s id now sch : service_step s (UpdateJob id now sch s).1
| sv_execute s x job : service_step s (executeJob x job s)
| sv_poll s fail ord now id clock order : service_step s (pollDueSchedules fail ord now id clock order s)
| sv_load s fail ord now id clock : service_step s (loadActiveJobs fail ord now id clock s).1
| sv_reload s jobs fail ord now id clock : service_step s (ReloadJobs jobs fail ord now id clock s).1
| sv_recover s fuel w now script s' err :
    recoverOnStartup fuel w now script s = Some (s', err) -> service_step s s'.

(** Two services with the same jobs. *)
Definition same_jobs s s' : Prop :=
  ss_cron s' = ss_cron s /\ ss_closures s' = ss_closures s /\ ss_activeJobs s' = ss_activeJobs s.

Lemma same_jobs_inv s s' : same_jobs s s' -> jobs_inv s -> jobs_inv s'.
Proof. unfold same_jobs, jobs_inv, entries. by intros (-> & -> & ->). Qed.

Lemma AddJob_inv id now sch s : jobs_inv s -> jobs_inv (AddJob id now sch s).1.
Proof.
  intros (Hnd & Hcl & Hact). unfold AddJob. destruct (NewScheduledJob id now sch) as [job| |] eqn:Hj; [|done..].
  destruct (cron_AddFunc _ _) as [[c e]| |] eqn:Ha; [|done..].
  pose proof (addfunc_entries _ _ _ _ Ha) as Hp. pose proof (addfunc_fresh _ _ _ _ Ha) as Hf.
  split; [|split]; unfold entries in *; simpl.
  - rewrite Hp. by constructor.
  - intros e' job' He. rewrite Hp. apply lookup_insert_Some in He as [[<- _]|[_ He]]; [by left|].
    right. by eapply Hcl.
  - intros i e' He. apply lookup_insert_Some in He as [[<- <-]|[Hne He]].
    + exists job. split; [apply lookup_insert_eq|].
      unfold NewScheduledJob in Hj. destruct (Schedule_NextRunTime now sch); [|done..]. by injection Hj as <-.
    + destruct (Hact i e' He) as (job' & Hjob & Hid). exists job'. split; [|done].
      rewrite lookup_insert_ne; [done|]. intros ->. apply Hf. by eapply Hcl.
Qed.

Lemma drop_entry_inv id e s :
  jobs_inv s -> ss_activeJobs s !! id = Some e ->
  jobs_inv (set_jobs s (cron_Remove (ss_cron s) e) (delete e (ss_closures s)) (delete id (ss_activeJobs s))).
Proof.
  intros (Hnd & Hcl & Hact) He. split; [|split]; unfold entries in *; simpl.
  - rewrite remove_entries. by apply NoDup_filter.
  - intros e' job [Hne Hj]%lookup_delete_Some. rewrite remove_entries. apply list_elem_of_filter.
    split; [done|by eapply Hcl].
  - intros i e' [Hne Hi]%lookup_delete_Some. destruct (Hact i e' Hi) as (job & Hj & Hid).
    exists job. split; [|done]. rewrite lookup_delete_ne; [done|]. intros ->.
    destruct (Hact id e' He) as (job' & Hj' & Hid'). congruence.
Qed.

Lemma RemoveJob_inv id s : jobs_inv s -> jobs_inv (RemoveJob id s).1.
Proof.
  intros Hi. unfold RemoveJob. destruct (ss_activeJobs s !! id) as [e|] eqn:He; [|done].
  eapply same_jobs_inv; [|by eapply drop_entry_inv]. done.
Qed.

Lemma load_jobs_inv id clock l : forall i s, jobs_inv s -> jobs_inv (load_jobs id clock i l s).
Proof. induction l as [|sch l IH]; intros i s Hi; [done|]. by apply IH, AddJob_inv. Qed.

Lemma loadActiveJobs_inv fail ord now id clock s : jobs_inv s -> jobs_inv (loadActiveJobs fail ord now id clock s).1.
Proof.
  intros Hi. unfold loadActiveJobs. destruct (GetActiveSchedules _ _ _ _) as [st [l|err]]; [apply load_jobs_inv|];
    by eapply same_jobs_inv; [|exact Hi].
Qed.

Lemma drop_jobs_inv jobs : forall s, jobs_inv s -> jobs_inv (drop_jobs jobs s).
Proof.
  induction jobs as [|id jobs IH]; intros s Hi; [done|]. unfold drop_jobs in *. simpl. apply IH.
  destruct (ss_activeJobs s !! id) as [e|] eqn:He; [|done]. by apply drop_entry_inv.
Qed.

Lemma executeJob_same x job s : same_jobs s (executeJob x job s).
Proof. unfold executeJob. repeat case_match; done. Qed.

Lemma service_step_inv s s' : service_step s s' -> jobs_inv s -> jobs_inv s'.
Proof.
  destruct 1; intros Hi.
  - by apply AddJob_inv.
  - by apply RemoveJob_inv.
  - by apply AddJob_inv, RemoveJob_inv.
  - eapply same_jobs_inv; [apply executeJob_same|done].
  - unfold pollDueSchedules. destruct (GetDueSchedules _ _ _ _ _) as [due|]; [|done].
    generalize (order (due_jobs id clock 0 due s)). intros l. revert s Hi.
    induction l as [|[x job] l IH]; intros s Hi; [done|]. simpl. apply IH.
    eapply same_jobs_inv; [apply executeJob_same|done].
  - by apply loadActiveJobs_inv.
  - by apply loadActiveJobs_inv, drop_jobs_inv.
  - unfold recoverOnStartup in *. repeat case_match; simplify_eq; by eapply same_jobs_inv; [|exact Hi].
Qed.

(** The two parsers agree on descriptors only. *)
Lemma AddJob_needs_descriptor id now sch s :
  is_descriptor (sch_CronExpression sch) = false ->
  exists err, AddJob id now sch s = (s, Err err).
Proof.
  intros Hd. unfold AddJob, NewScheduledJob, Schedule_NextRunTime.
  destruct (String.eqb (sch_CronExpression sch) ""); [by eexists|].
  destruct (LoadLocation (sch_Timezone sch)); [|by eexists].
  destruct (cron_Parse false (sch_CronExpression sch)) as [sc|] eqn:Hp; [|by eexists]. simpl.
  pose proof (parse_fields _ _ _ Hp Hd) as H5.
  destruct (cron_AddFunc _ _) as [[c e]|err|] eqn:Ha; [|by eexists|by apply addfunc_no_panic in Ha].
  destruct (addfunc_parses _ _ _ _ Ha) as [sc' Hp']. pose proof (parse_fields _ _ _ Hp' Hd) as H6. congruence.
Qed.
End service_facts.

(** A publisher that keeps what it is given. *)
#[export] Instance outbox : JobPublisher (list (string * JobExecution)) := {
  PublishWithRetry key e _ p := (p ++ [(key, e)], None)
}.

Definition fresh_service : SchedulerService toy_cron (list (string * JobExecution)) :=
  mkSchedulerService (mkToyCron 0 []) ∅ (NewPostgresScheduleStore one_row) [] DefaultRecoveryConfig ∅ (15 * Second) 50.
Definition with_expression (expr : string) : Schedule :=
  mkSchedule "s1" "p1" expr "" ScheduleStatusActive true 0 1 [] None noon None "me" noon noon.
Definition one_job : SchedulerService toy_cron (list (string * JobExecution)) :=
  (AddJob "j1" noon (with_expression "@hourly") fresh_service).1.

(** ** Property *)

(** C27: in every run of a service whose library starts without entries, each active job is
    an entry of the library that runs a job of its own schedule.  A schedule can only
    be added with a descriptor such as "@daily": its expression must parse without a
    field for the seconds and be accepted by a library made with one, so every other
    expression is refused and changes nothing.  Adding a schedule that is active
    already leaves its old entry in the library, so its job runs twice each time. *)
Theorem service_jobs_correct {C S P} `{CronOps C} `{!CronLaws C} `{CronParser S} `{!CronParserLaws S}
  `{JobPublisher P} `{Zones} `{!CronTableParses C S} (s0 s : SchedulerService C P)
  (Hc : cron_Entries (ss_cron s0) = []) (Hcl : ss_closures s0 = ∅) (Ha : ss_activeJobs s0 = ∅)
  (Hrun : rtc service_step s0 s) :
  (forall id e, ss_activeJobs s !! id = Some e ->
     e ∈ entries s /\ exists job, ss_closures s !! e = Some job /\ job_ScheduleID job = id)
  /\ (forall jid now sch, is_descriptor (sch_CronExpression sch) = false ->
        exists err, AddJob jid now sch s = (s, Err err))
  /\ (forall jid now sch s' old new, ss_activeJobs s !! sch_ID sch = Some old ->
        AddJob jid now sch s = (s', Ok new) ->
        ss_activeJobs s' !! sch_ID sch = Some new /\ new <> old /\ old ∈ entries s' /\ new ∈ entries s'
        /\ exists job, ss_closures s' !! old = Some job /\ job_ScheduleID job = sch_ID sch).
Proof.
  assert (jobs_inv s) as (Hnd & Hin & Hact).
  { revert Hrun. apply (rtc_ind_r jobs_inv).
    - unfold jobs_inv, entries. rewrite Hc, Hcl, Ha. split; [constructor|].
      split; [intros e job He|intros id e He]; by rewrite lookup_empty in He.
    - intros s1 s2 _ Hstep. by apply service_step_inv. }
  split_and!.
  - intros id e He. destruct (Hact id e He) as (job & Hj & Hid). split; [by eapply Hin|eauto].
  - intros jid now sch. apply AddJob_needs_descriptor.
  - intros jid now sch s' old new Hold Hadd. unfold AddJob in Hadd.
    destruct (NewScheduledJob jid now sch) as [j| |]; [|done..].
    destruct (cron_AddFunc _ _) as [[c' e]| |] eqn:Hf; [|done..]. injection Hadd as <- <-.
    pose proof (addfunc_entries _ _ _ _ Hf) as Hp. pose proof (addfunc_fresh _ _ _ _ Hf) as Hfresh.
    destruct (Hact _ _ Hold) as (job & Hj & Hid). pose proof (Hin _ _ Hj) as Hmem. unfold entries in *. simpl.
    assert (e <> old) as Hne by (intros ->; done). split_and!.
    + apply lookup_insert_eq.
    + done.
    + rewrite Hp. by right.
    + rewrite Hp. by left.
    + exists job. by rewrite lookup_insert_ne.
Qed.

Lemma service_jobs_correct_witness :
  (exists err, AddJob "j2" noon (with_expression "0 0 * * *") one_job = (one_job, Err err))
  /\ exists s', AddJob "j2" noon (with_expression "@hourly") one_job = (s', Ok 2) /\ 1 ∈ entries s' /\ 2 ∈ entries s'.
Proof.
  assert (rtc service_step fresh_service one_job) as Hrun by (eapply rtc_l; [apply sv_add|apply rtc_refl]).
  destruct (service_jobs_correct fresh_service one_job toy_empty eq_refl eq_refl Hrun)
    as (_ & Hd & Hl). split.
  - apply Hd. reflexivity.
  - exists (AddJob "j2" noon (with_expression "@hourly") one_job).1. split; [vm_compute; reflexivity|].
    destruct (Hl "j2" noon (with_expression "@hourly")
                (AddJob "j2" noon (with_expression "@hourly") one_job).1 1 2) as (_ & _ & H1 & H2 & _);
      [vm_compute; reflexivity..|]. split; [exact H1|exact H2].
Defined.
