(* ===== verification/SchedLife.v ===== *)
(** * Starting and stopping the scheduler's service: internal/scheduler/service.go

    [SchedService] has what the service does with its jobs; here are the calls of [Start] and
    [Stop], the goroutine of the poll and the channel [pollDone] that ties them together, as steps
    that interleave.  A call of [Stop] waits for the channel to be closed; the loop closes it when
    it returns, and closing it twice ends the program. *)

From S2P Require Import Prelude CronLib SchedCron SchedJob SchedRecovery SchedStore SchedService.

Section life.
Context {C S P : Type} `{CronOps C, CronParser S, JobPublisher P, Zones}.

(** [lf_loops] polls run, [lf_stops] calls of [Stop] wait, [lf_starts] calls of [Start] have
    succeeded; [lf_cron] is whether the cron library runs. *)
Record life := mkLife {
  lf_svc : SchedulerService C P;
  lf_startedAt : option Time;
  lf_cancelled : bool;
  lf_loops : nat;
  lf_done : bool;
  lf_cron : bool;
  lf_stops : nat;
  lf_starts : nat;
  lf_crashed : bool
}.

Definition new_life (s : SchedulerService C P) : life := mkLife s None false 0 false false 0 0 false.

Definition set_svc (s : SchedulerService C P) (l : life) : life :=
  mkLife s (lf_startedAt l) (lf_cancelled l) (lf_loops l) (lf_done l) (lf_cron l) (lf_stops l) (lf_starts l) (lf_crashed l).

(** What [Start] reads: its clock, the recovery's and the loading's environments. *)
Record start_env := mkStartEnv {
  se_now : Time;
  se_fuel : nat;
  se_recovery : recovery_env;
  se_script : list stmt_env;
  se_fail : option string;
  se_ord : list string;
  se_id : nat -> string;
  se_clock : nat -> Time
}.

(** The whole call; [None] if the recovery does not come to an end. *)
(* go: internal/scheduler/service.go func SchedulerService.Start *)
Definition Start_call (w : start_env) (l : life) : option (life * option ServiceError) :=
  match Start (se_fuel w) (se_recovery w) (se_now w) (se_script w) (se_fail w) (se_ord w) (se_id w) (se_clock w) (lf_svc l) with
  | None => None
  | Some (s, Some err) =>
      Some (mkLife s (Some (se_now w)) (lf_cancelled l) (lf_loops l) (lf_done l) (lf_cron l) (lf_stops l) (lf_starts l) (lf_crashed l),
            Some err)
  | Some (s, None) =>
      Some (mkLife s (Some (se_now w)) (lf_cancelled l) (Datatypes.S (lf_loops l)) (lf_done l) true (lf_stops l)
              (Datatypes.S (lf_starts l)) (lf_crashed l), None)
  end.

(** The call until it waits for the poll. *)
(* go: internal/scheduler/service.go @113-121 SchedulerService.Stop *)
Definition Stop_begin (l : life) : life :=
  mkLife (lf_svc l) (lf_startedAt l) true (lf_loops l) (lf_done l) (lf_cron l) (Datatypes.S (lf_stops l)) (lf_starts l) (lf_crashed l).

(** The rest of the call; whether the library stops in time is only logged. *)
(* go: internal/scheduler/service.go @121-141 SchedulerService.Stop *)
Definition Stop_end (l : life) : life :=
  mkLife (Stop (lf_svc l)) (lf_startedAt l) (lf_cancelled l) (lf_loops l) (lf_done l) false (Nat.pred (lf_stops l)) (lf_starts l)
    (lf_crashed l).

(** One round of the loop: the end of the context, which closes [pollDone], or a tick. *)
(* go: internal/scheduler/service.go func SchedulerService.pollLoop *)
Definition poll_round (tick : option (SchedulerService C P -> SchedulerService C P)) (l : life) : life :=
  match tick with
  | Some poll => set_svc (poll (lf_svc l)) l
  | None =>
      mkLife (lf_svc l) (lf_startedAt l) (lf_cancelled l) (Nat.pred (lf_loops l)) true (lf_cron l) (lf_stops l) (lf_starts l)
        (lf_crashed l || lf_done l)
  end.

(* go: internal/scheduler/service.go func SchedulerService.Uptime *)
Definition Uptime (now : Time) (l : life) : Z := time_Sub (t_ns now) (t_ns (default zero_Time (lf_startedAt l))).

(** A crashed program does nothing more; the other steps are taken in any order.  When the context
    is over and a tick is due, either may be taken. *)
Inductive life_step : life -> life -> Prop :=
| ls_start w l l' err : lf_crashed l = false -> Start_call w l = Some (l', err) -> life_step l l'
| ls_stop l : lf_crashed l = false -> life_step l (Stop_begin l)
| ls_tick l fail ord now id clock order : lf_crashed l = false -> (0 < lf_loops l)%nat ->
    life_step l (poll_round (Some (pollDueSchedules fail ord now id clock order)) l)
| ls_exit l : lf_crashed l = false -> (0 < lf_loops l)%nat -> lf_cancelled l = true -> life_step l (poll_round None l)
| ls_stopped l : lf_crashed l = false -> (0 < lf_stops l)%nat -> lf_done l = true -> life_step l (Stop_end l)
| ls_job l x job : lf_crashed l = false -> lf_cron l = true -> life_step l (set_svc (executeJob x job (lf_svc l)) l).

(** Every loop that was started runs or has closed the channel; only a call of [Stop] ends the
    context. *)
Definition life_inv (l : life) : Prop :=
  (if lf_crashed l then (2 <= lf_starts l)%nat
   else lf_starts l = lf_loops l + (if lf_done l then 1 else 0))%nat
  /\ (lf_done l = true -> lf_cancelled l = true) /\ ((0 < lf_stops l)%nat -> lf_cancelled l = true).

(** A step keeps the invariant, never takes a start back, and ends a call of [Stop] only if the
    channel is closed. *)
Lemma step_inv l l' :
  life_inv l -> life_step l l' ->
  life_inv l' /\ (lf_starts l <= lf_starts l')%nat /\ (lf_done l = false -> (lf_stops l <= lf_stops l')%nat).
Proof.
  unfold life_inv. intros (Hn & Hd & Hst0) Hs.
  destruct Hs as [w l l' err Hc Hst|l Hc|l fail ord now id clock order Hc Hl|l Hc Hl Hca|l Hc Hl Hdone|l x job Hc Hcr];
    rewrite Hc in Hn; simpl; rewrite ?Hc; simpl.
  - unfold Start_call in Hst. destruct (Start _ _ _ _ _ _ _ _ _) as [[s [e|]]|]; [| |done]; injection Hst as <- <-; simpl; rewrite Hc;
      split_and!; auto with lia.
  - split_and!; auto with lia.
  - split_and!; auto with lia.
  - split_and!; auto with lia. destruct (lf_done l); lia.
  - split_and!; auto with lia. intros; congruence.
  - split_and!; auto with lia.
Qed.

Lemma run_inv s l : rtc life_step (new_life s) l -> life_inv l.
Proof.
  assert (life_inv (new_life s)) as E0 by (unfold life_inv; simpl; split_and!; auto with lia).
  revert l. apply (rtc_ind_r life_inv); [done|]. intros l1 l2 _ Hs Hi. by apply (step_inv l1 l2).
Qed.

Lemma starts_monotone l l' : life_inv l -> rtc life_step l l' -> (lf_starts l <= lf_starts l')%nat.
Proof.
  intros Hi Hr. induction Hr as [|l l1 l2 Hs _ IH]; [done|]. destruct (step_inv _ _ Hi Hs) as (E1 & E2 & _). specialize (IH E1). lia.
Qed.

(** Once the channel is closed the calls of [Stop] that wait can all return. *)
Lemma stops_return n l :
  lf_stops l = n -> lf_crashed l = false -> lf_done l = true -> exists l', rtc life_step l l' /\ lf_stops l' = 0%nat /\ lf_crashed l' = false.
Proof.
  revert l. induction n as [|n IH]; intros l Hn Hc Hd; [by exists l|].
  destruct (IH (Stop_end l)) as (l' & Hr & Hl'); [by simpl; rewrite Hn|done..|].
  exists l'. split; [|done]. eapply rtc_l; [|exact Hr]. apply ls_stopped; [done|lia|done].
Qed.

End life.

Definition first_start : start_env :=
  mkStartEnv noon 5 some_env [] None ["s1"%string] (fun _ => "j"%string) (fun _ => noon).
Definition started : life := from_option fst (new_life fresh_service) (Start_call first_start (new_life fresh_service)).

