(* ===== verification/SchedStats.v ===== *)
(** * Reports of the scheduler: internal/scheduler and internal/models/schedule.go

    The statistics of the store and of the service, the summary of a cron expression, and the
    records for them.  The texts of times and durations are arguments. *)

From S2P Require Import Prelude GoStrings CronLib SchedCron SchedJob SchedRecovery SchedStore SchedService SchedLife.

(** ** The store *)

(* go: internal/models/schedule.go type ScheduleTrigger *)
Record ScheduleTrigger := mkScheduleTrigger {
  tr_ScheduleID : string;
  tr_PipelineID : string;
  tr_TriggeredAt : Time;
  tr_SkipReason : string;
  tr_Executed : bool
}.

(* go: internal/models/schedule.go type ScheduleStats *)
Record ScheduleStats := mkScheduleStats {
  TotalSchedules : Z;
  ActiveSchedules : Z;
  PausedSchedules : Z;
  FailedSchedules : Z;
  DueNow : Z;
  ByStatus : gmap string Z
}.

(* go: internal/models/schedule.go func Schedule.HumanReadableNextRun *)
Definition HumanReadableNextRun (rfc3339 : Time -> string) (s : Schedule) : string :=
  if IsZero (sch_NextRunTimeValue s) then "never" else rfc3339 (sch_NextRunTimeValue s).

(** One round of the loop; the clock is read twice for a schedule. *)
(* go: internal/scheduler/store.go @172-180 PostgresScheduleStore.Stats *)
Definition count_schedule (now now' : Time) (st : ScheduleStats) (s : Schedule) : ScheduleStats :=
  mkScheduleStats (TotalSchedules st)
    (if String.eqb (sch_Status s) ScheduleStatusActive && sch_Enabled s then ActiveSchedules st + 1 else ActiveSchedules st)
    (PausedSchedules st) (FailedSchedules st)
    (if sch_Enabled s && ShouldRunNow now now' s then DueNow st + 1 else DueNow st)
    (<[sch_Status s := default 0 (ByStatus st !! sch_Status s) + 1]> (ByStatus st)).

(* go: internal/scheduler/store.go func PostgresScheduleStore.Stats *)
Definition Stats (fail : option string) (ord : list string) (now now' : Time) (st : PostgresScheduleStore)
    : ScheduleStats + RepoError :=
  match repo_List fail ord (mkScheduleFilter "" "" None 10000 0) (repo st) with
  | inr err => inr err
  | inl schedules =>
      inl (foldl (count_schedule now now') (mkScheduleStats (Z.of_nat (length schedules)) 0 0 0 0 ∅) schedules)
  end.

(** ** The service *)

Record service_stats := mkServiceStats {
  vs_active_jobs : Z;
  vs_started_at : string;
  vs_uptime : string;
  vs_poll_limit : Z;
  vs_poll_interval : string
}.

(* go: internal/scheduler/service.go func SchedulerService.Stats *)
Definition service_Stats {C P} (rfc3339 : Time -> string) (duration_text : Z -> string) (now : Time) (l : @life C P) : service_stats :=
  mkServiceStats (ActiveJobCount (lf_svc l)) (rfc3339 (default zero_Time (lf_startedAt l))) (duration_text (Uptime now l))
    (ss_pollLimit (lf_svc l)) (duration_text (ss_pollInterval (lf_svc l))).

(** ** A cron expression *)

(** The zero time of Go is a Monday. *)
(* go: internal/scheduler/cron.go @81-89 weekdayNames *)
Definition weekdayNames : list string :=
  ["Monday"; "Tuesday"; "Wednesday"; "Thursday"; "Friday"; "Saturday"; "Sunday"]%string.

(** The day of the week of an instant in UTC. *)
Definition weekday (t : Time) : string := nth (Z.to_nat ((t_ns t / (24 * Hour)) mod 7)) weekdayNames "".

Record cron_summary := mkCronSummary {
  cs_expression : string;
  cs_valid : bool;
  cs_description : string;
  cs_next_run : string;
  cs_next_dow : string;
  cs_timezone : string;
  cs_upcoming_runs : list string;
  cs_seconds : Z
}.

Section summary.
Context {S : Type} `{CronParser S}.
Context (rfc3339 : Time -> string).

(** [now] is the clock at the first reading, [now'] at that of [NextNRunTimes], whose error and
    that of the description are dropped. *)
(* go: internal/scheduler/cron.go func CronScheduleSummary *)
Definition CronScheduleSummary (now now' : Time) (expr : string) : go_result cron_summary CronError :=
  (schedule <-- ParseCronExpression expr ;;
   let nextFive := match NextNRunTimes now' expr 5 (Some UTC) with Ok l => l | _ => [] end in
   let description := match DescribeSchedule expr with Ok d => d | _ => ""%string end in
   let nextDate := cron_Next schedule (In now UTC) in
   Ok (mkCronSummary expr true description (rfc3339 nextDate) (weekday nextDate) "UTC" (rfc3339 <$> nextFive) 0))%go.
End summary.

(** ** Facts *)

Definition count (p : Schedule -> bool) (l : list Schedule) : Z := Z.of_nat (length (List.filter p l)).

Lemma count_cons p s l : count p (s :: l) = (if p s then 1 else 0) + count p l.
Proof. unfold count. simpl. destruct (p s); simpl; lia. Qed.

Lemma fold_counts now now' l st :
  let r := foldl (count_schedule now now') st l in
  TotalSchedules r = TotalSchedules st /\ PausedSchedules r = PausedSchedules st /\ FailedSchedules r = FailedSchedules st
  /\ ActiveSchedules r = ActiveSchedules st + count (fun s => String.eqb (sch_Status s) ScheduleStatusActive && sch_Enabled s) l
  /\ DueNow r = DueNow st + count (fun s => sch_Enabled s && ShouldRunNow now now' s) l
  /\ forall status, default 0 (ByStatus r !! status) = default 0 (ByStatus st !! status) + count (fun s => String.eqb (sch_Status s) status) l.
Proof.
  revert st. induction l as [|s l IH]; intros st; [simpl; split_and!; intros; unfold count; simpl; lia|].
  cbn [foldl]. destruct (IH (count_schedule now now' st s)) as (-> & -> & -> & -> & -> & Hs). simpl. split_and!; try done.
  - rewrite count_cons. destruct (_ && _); lia.
  - rewrite count_cons. destruct (_ && _); lia.
  - intros status. rewrite Hs, count_cons. simpl. destruct (String.eqb_spec (sch_Status s) status) as [->|Hne].
    + rewrite lookup_insert_eq. simpl. lia.
    + rewrite lookup_insert_ne by done. lia.
Qed.

(** The statistics count the rows, those that are active, those that are due and those of each
    status; the paused and the failed schedules are never counted in their own fields. *)
Theorem Stats_correct ord now now' st stats :
  Stats None ord now now' st = inl stats -> Z.of_nat (length (rows ord (fun _ => true) (repo st))) <= 10000 ->
  exists l, l ≡ₚ omap (fun id => repo st !! id) ord
  /\ TotalSchedules stats = Z.of_nat (length l)
  /\ ActiveSchedules stats = count (fun s => String.eqb (sch_Status s) ScheduleStatusActive && sch_Enabled s) l
  /\ DueNow stats = count (ShouldRunNow now now') l
  /\ (forall status, default 0 (ByStatus stats !! status) = count (fun s => String.eqb (sch_Status s) status) l)
  /\ PausedSchedules stats = 0 /\ FailedSchedules stats = 0.
Proof.
  unfold Stats. intros Hst Hlen.
  assert (repo_List None ord (mkScheduleFilter "" "" None 10000 0) (repo st)
          = inl (take (Z.to_nat 10000) (drop (Z.to_nat 0) (rows ord (fun _ => true) (repo st))))) as Hl by reflexivity.
  rewrite Hl in Hst. change (Z.to_nat 0) with 0%nat in Hst. rewrite drop_0, take_ge in Hst by lia. injection Hst as <-.
  set (l := rows ord (fun _ => true) (repo st)). exists l.
  destruct (fold_counts now now' l (mkScheduleStats (Z.of_nat (length l)) 0 0 0 0 ∅)) as (-> & -> & -> & -> & -> & Hs).
  split_and!; simpl; try done.
  - unfold l, rows. rewrite (merge_sort_Permutation row_before).
    induction (omap (fun id => repo st !! id) ord) as [|s k IH]; [done|]. simpl. by rewrite IH.
  - rewrite Z.add_0_l. unfold count. do 2 f_equal. apply List.filter_ext. intros s. unfold ShouldRunNow. by destruct (sch_Enabled s).
Qed.
