(* ===== verification/QueueMessage.v ===== *)
(** * Messages: internal/queue/message.go

    The envelope of a message, its checks, and its JSON form.  JSON is kept as a tree:
    the text of encoding/json is not modelled, nor the base64 text of a byte slice
    ([JBytes]) and the RFC 3339 text of a time ([JTime]).  The tags of the struct decide the
    names and which empty fields are left out.  A nil map or slice is [None].  Texts are valid
    UTF-8, which encoding/json would enforce; fields have the names of the tags, each once; a
    header's value is not an array or an object. *)

From S2P Require Import Prelude GoFloat.

(** ** JSON *)

#[warnings="-register-all"]
Inductive json : Type :=
| JNull
| JBool (b : bool)
| JNum (z : Z)
| JString (s : string)
| JBytes (s : string)
| JTime (t : Z)
| JObject (fields : list (string * json)).

Fixpoint field (name : string) (l : list (string * json)) : option json :=
  match l with
  | [] => None
  | (n, v) :: l' => if String.eqb n name then Some v else field name l'
  end.

(** The values of headers.  A number comes back as a float64, [AnyOther] of its value. *)
Definition json_of_any (v : any) : json :=
  match v with
  | AnyNil => JNull
  | AnyBool b => JBool b
  | AnyString s => JString s
  | AnyInt z | AnyDuration z | AnyOther z => JNum z
  end.

Definition any_of_json (j : json) : option any :=
  match j with
  | JNull => Some AnyNil
  | JBool b => Some (AnyBool b)
  | JString s | JBytes s => Some (AnyString s)
  | JNum z => Some (AnyOther (f64_to_int64 min_int64 (f64_of_Z z)))
  | _ => None
  end.

(** ** Headers and envelopes *)

Abbreviation Headers := (gmap string any).

(* go: internal/queue/message.go func Headers.Get *)
Definition Headers_Get (h : Headers) (key : string) : option any := h !! key.
(* go: internal/queue/message.go func Headers.Set *)
Definition Headers_Set (h : Headers) (key : string) (v : any) : Headers := <[key := v]> h.
(* go: internal/queue/message.go func Headers.String *)
Definition Headers_String (h : Headers) (key : string) : string :=
  match h !! key with Some (AnyString s) => s | _ => EmptyString end.

(* go: internal/queue/message.go type Envelope *)
Record Envelope := mkEnvelope {
  env_ID : string;
  env_Type : string;
  env_Source : string;
  env_Version : string;
  env_Timestamp : Z;
  env_Headers : option Headers;
  env_Payload : option string;
  env_ContentType : string;
  env_Encoding : string;
  env_CorrelationID : string;
  env_ReplyTo : string;
  env_Priority : Z;
  env_TTL : Z;
  env_RetryCount : Z
}.

Inductive EnvelopeError : Type :=
| ErrInvalidMessageType
| ErrInvalidPayload
| ErrEmptyData
| ErrMarshal
| ErrUnmarshal.

(* go: internal/queue/message.go func NewEnvelope *)
Definition NewEnvelope (now : Z) (msgType : string) (payload : option string) : Envelope :=
  mkEnvelope "" msgType "" "" now (Some ∅) payload "" "" "" "" 0 0 0.

(* go: internal/queue/message.go func NewEnvelopeWithID *)
Definition NewEnvelopeWithID (now : Z) (id msgType : string) (payload : option string) : Envelope :=
  mkEnvelope id msgType "" "" now (Some ∅) payload "" "" "" "" 0 0 0.

(* go: internal/queue/message.go func Envelope.Validate *)
Definition Validate (e : Envelope) : option EnvelopeError :=
  if String.eqb (env_Type e) "" then Some ErrInvalidMessageType
  else match env_Payload e with None => Some ErrInvalidPayload | Some _ => None end.

Definition with_headers (h : option Headers) (e : Envelope) : Envelope :=
  mkEnvelope (env_ID e) (env_Type e) (env_Source e) (env_Version e) (env_Timestamp e) h (env_Payload e)
    (env_ContentType e) (env_Encoding e) (env_CorrelationID e) (env_ReplyTo e) (env_Priority e) (env_TTL e)
    (env_RetryCount e).

(* go: internal/queue/message.go func Envelope.WithHeader *)
Definition WithHeader (key : string) (v : any) (e : Envelope) : Envelope :=
  with_headers (Some (Headers_Set (default ∅ (env_Headers e)) key v)) e.
(* go: internal/queue/message.go func Envelope.WithCorrelationID *)
Definition WithCorrelationID (id : string) (e : Envelope) : Envelope :=
  mkEnvelope (env_ID e) (env_Type e) (env_Source e) (env_Version e) (env_Timestamp e) (env_Headers e)
    (env_Payload e) (env_ContentType e) (env_Encoding e) id (env_ReplyTo e) (env_Priority e) (env_TTL e)
    (env_RetryCount e).
(* go: internal/queue/message.go func Envelope.WithReplyTo *)
Definition WithReplyTo (queue : string) (e : Envelope) : Envelope :=
  mkEnvelope (env_ID e) (env_Type e) (env_Source e) (env_Version e) (env_Timestamp e) (env_Headers e)
    (env_Payload e) (env_ContentType e) (env_Encoding e) (env_CorrelationID e) queue (env_Priority e) (env_TTL e)
    (env_RetryCount e).
(* go: internal/queue/message.go func Envelope.WithTTL *)
Definition WithTTL (ttl : Z) (e : Envelope) : Envelope :=
  mkEnvelope (env_ID e) (env_Type e) (env_Source e) (env_Version e) (env_Timestamp e) (env_Headers e)
    (env_Payload e) (env_ContentType e) (env_Encoding e) (env_CorrelationID e) (env_ReplyTo e) (env_Priority e) ttl
    (env_RetryCount e).
(* go: internal/queue/message.go func Envelope.WithPriority *)
Definition WithPriority (p : Z) (e : Envelope) : Envelope :=
  mkEnvelope (env_ID e) (env_Type e) (env_Source e) (env_Version e) (env_Timestamp e) (env_Headers e)
    (env_Payload e) (env_ContentType e) (env_Encoding e) (env_CorrelationID e) (env_ReplyTo e) p (env_TTL e)
    (env_RetryCount e).

(** The copy has a map and a slice of its own, neither of them nil. *)
(* go: internal/queue/message.go func Envelope.Clone *)
Definition Clone (e : Envelope) : Envelope :=
  mkEnvelope (env_ID e) (env_Type e) (env_Source e) (env_Version e) (env_Timestamp e)
    (Some (default ∅ (env_Headers e))) (Some (default EmptyString (env_Payload e)))
    (env_ContentType e) (env_Encoding e) (env_CorrelationID e) (env_ReplyTo e) (env_Priority e) (env_TTL e)
    (env_RetryCount e).

(** ** The JSON form *)

(** A field with the tag omitempty. *)
Definition omit_string (name s : string) : list (string * json) :=
  if String.eqb s "" then [] else [(name, JString s)].
Definition omit_num (name : string) (z : Z) : list (string * json) := if z =? 0 then [] else [(name, JNum z)].
Definition omit_headers (h : option Headers) : list (string * json) :=
  match h with
  | None => []
  | Some m => if decide (m = ∅) then [] else [("headers", JObject (prod_map id json_of_any <$> map_to_list m))]
  end.

(** The fields in the order of the struct, with their tags. *)
(* go: internal/queue/message.go @50-65 Envelope *)
Definition envelope_json (e : Envelope) : json :=
  JObject ([("id", JString (env_ID e)); ("type", JString (env_Type e))]
    ++ omit_string "source" (env_Source e) ++ omit_string "version" (env_Version e)
    ++ [("timestamp", JTime (env_Timestamp e))] ++ omit_headers (env_Headers e)
    ++ [("payload", match env_Payload e with None => JNull | Some p => JBytes p end)]
    ++ omit_string "content_type" (env_ContentType e) ++ omit_string "encoding" (env_Encoding e)
    ++ omit_string "correlation_id" (env_CorrelationID e) ++ omit_string "reply_to" (env_ReplyTo e)
    ++ omit_num "priority" (env_Priority e) ++ omit_num "ttl" (env_TTL e) ++ omit_num "retry_count" (env_RetryCount e)).

(** Decoding a field: absent or null leaves the zero value, another kind is an error. *)
Definition get_string (l : list (string * json)) (name : string) : option string :=
  match field name l with
  | None | Some JNull => Some EmptyString
  | Some (JString s) => Some s
  | _ => None
  end.
Definition get_num (l : list (string * json)) (name : string) : option Z :=
  match field name l with
  | None | Some JNull => Some 0
  | Some (JNum z) => Some z
  | _ => None
  end.
Definition get_time (l : list (string * json)) (name : string) : option Z :=
  match field name l with
  | None | Some JNull => Some 0
  | Some (JTime t) => Some t
  | _ => None
  end.
Definition get_bytes (l : list (string * json)) (name : string) : option (option string) :=
  match field name l with
  | None | Some JNull => Some None
  | Some (JBytes s) => Some (Some s)
  | _ => None
  end.
Definition get_headers (l : list (string * json)) (name : string) : option (option Headers) :=
  match field name l with
  | None | Some JNull => Some None
  | Some (JObject fs) =>
      (fun kvs => Some (list_to_map kvs)) <$> mapM (fun '(k, j) => (fun v => (k, v)) <$> any_of_json j) fs
  | _ => None
  end.

(** [json.Unmarshal] into an envelope of zero values. *)
(* go: internal/queue/message.go @50-65 Envelope *)
Definition json_envelope (j : json) : option Envelope :=
  match j with
  | JObject l =>
      id ← get_string l "id"; type ← get_string l "type"; source ← get_string l "source";
      version ← get_string l "version"; timestamp ← get_time l "timestamp"; headers ← get_headers l "headers";
      payload ← get_bytes l "payload"; content_type ← get_string l "content_type";
      encoding ← get_string l "encoding"; correlation_id ← get_string l "correlation_id";
      reply_to ← get_string l "reply_to"; priority ← get_num l "priority"; ttl ← get_num l "ttl";
      retry_count ← get_num l "retry_count";
      Some (mkEnvelope id type source version timestamp headers payload content_type encoding correlation_id
              reply_to priority ttl retry_count)
  | _ => None
  end.

(** Times outside the years 0 to 9999 cannot be encoded: the bounds in nanoseconds. *)
Definition min_json_time : Z := - 366 * 24 * Hour.
Definition max_json_time : Z := 3652059 * 24 * Hour.
Definition json_time_ok (t : Z) : bool := (min_json_time <=? t) && (t <? max_json_time).

(** The envelope is changed: its headers get the type and the version. *)
(* go: internal/queue/message.go func Envelope.Marshal *)
Definition Marshal (e : Envelope) : Envelope * go_result json EnvelopeError :=
  match Validate e with
  | Some err => (e, Err err)
  | None =>
      let h := Headers_Set (Headers_Set (default ∅ (env_Headers e)) "x-message-type" (AnyString (env_Type e)))
                 "x-message-version" (AnyString (env_Version e)) in
      let e' := with_headers (Some h) e in
      (e', if json_time_ok (env_Timestamp e) then Ok (envelope_json e') else Err ErrMarshal)
  end.

(** Into an envelope of zero values; [None] is empty data. *)
(* go: internal/queue/message.go func Envelope.Unmarshal *)
Definition Unmarshal (data : option json) : go_result Envelope EnvelopeError :=
  match data with
  | None => Err ErrEmptyData
  | Some j =>
      match json_envelope j with
      | None => Err ErrUnmarshal
      | Some e =>
          let e' := match env_Headers e with None => with_headers (Some ∅) e | Some _ => e end in
          match Validate e' with Some err => Err err | None => Ok e' end
      end
  end.

(* go: internal/queue/message.go func Deserialize *)
Definition Deserialize (data : option json) : go_result Envelope EnvelopeError := Unmarshal data.

(** The payload is read by encoding/json into a value of the caller. *)
(* go: internal/queue/message.go func Envelope.DecodePayload *)
Definition DecodePayload {V} (json_Unmarshal : string -> V + string) (e : Envelope) : go_result V EnvelopeError :=
  match env_Payload e with
  | None | Some EmptyString => Err ErrInvalidPayload
  | Some data => match json_Unmarshal data with inl v => Ok v | inr _ => Err ErrUnmarshal end
  end.

(** The fields of [amqp.Delivery] that the package reads; the body is its JSON tree. *)
Record Delivery := mkDelivery {
  d_Body : option json;
  d_ConsumerTag : string;
  d_DeliveryTag : Z;
  d_Redelivered : bool;
  d_Exchange : string;
  d_RoutingKey : string
}.

(* go: internal/queue/message.go type DeliveryInfo *)
Record DeliveryInfo := mkDeliveryInfo {
  di_ConsumerTag : string;
  di_DeliveryTag : Z;
  di_Redelivered : bool;
  di_Exchange : string;
  di_RoutingKey : string;
  di_Queue : string
}.

(* go: internal/queue/message.go func EnvelopeFromDelivery *)
Definition EnvelopeFromDelivery (d : Delivery) : go_result (Envelope * DeliveryInfo) EnvelopeError :=
  (env <-- Deserialize (d_Body d) ;;
   Ok (env, mkDeliveryInfo (d_ConsumerTag d) (d_DeliveryTag d) (d_Redelivered d) (d_Exchange d) (d_RoutingKey d) ""))%go.

(** [data] is the outcome of encoding the payload. *)
(* go: internal/queue/message.go func Serialize *)
Definition Serialize (now : Z) (msgType : string) (data : option string) : go_result Envelope EnvelopeError :=
  match data with
  | None => Err ErrMarshal
  | Some d => Ok (NewEnvelope now msgType (Some d))
  end.

(** ** Fields *)

Lemma field_app name l1 l2 :
  field name (l1 ++ l2) = match field name l1 with Some v => Some v | None => field name l2 end.
Proof. induction l1 as [|[n v] l1 IH]; [done|]. simpl. by destruct (String.eqb n name). Qed.

Lemma field_cons name n v l : field name ((n, v) :: l) = if String.eqb n name then Some v else field name l.
Proof. done. Qed.

Lemma or_none {A} (o : option A) : match o with Some v => Some v | None => None end = o.
Proof. by destruct o. Qed.

Lemma field_nil name : field name [] = None.
Proof. done. Qed.

Lemma field_omit_string name n s :
  field name (omit_string n s) = if String.eqb n name then (if String.eqb s "" then None else Some (JString s)) else None.
Proof. unfold omit_string. destruct (String.eqb s ""); simpl; by destruct (String.eqb n name). Qed.

Lemma field_omit_num name n z :
  field name (omit_num n z) = if String.eqb n name then (if z =? 0 then None else Some (JNum z)) else None.
Proof. unfold omit_num. destruct (z =? 0); simpl; by destruct (String.eqb n name). Qed.

Definition headers_json (h : option Headers) : option json :=
  match h with
  | None => None
  | Some m => if decide (m = ∅) then None else Some (JObject (prod_map id json_of_any <$> map_to_list m))
  end.

Lemma field_omit_headers name h :
  field name (omit_headers h) = if String.eqb "headers" name then headers_json h else None.
Proof.
  unfold omit_headers, headers_json. destruct h as [m|]; [destruct (decide (m = ∅))|]; cbn [field];
    by destruct (String.eqb "headers" name).
Qed.

Create Rewrite HintDb fields.
#[export] Hint Rewrite @or_none field_app field_cons field_nil field_omit_string field_omit_num field_omit_headers : fields.

Lemma omitted_string s :
  match (if String.eqb s "" then None else Some (JString s)) with
  | None | Some JNull => Some EmptyString
  | Some (JString s) => Some s
  | _ => None
  end = Some s.
Proof. by destruct (String.eqb_spec s "") as [->|]. Qed.

Lemma omitted_num z :
  match (if z =? 0 then None else Some (JNum z)) with
  | None | Some JNull => Some 0
  | Some (JNum z) => Some z
  | _ => None
  end = Some z.
Proof. by destruct (Z.eqb_spec z 0) as [->|]. Qed.

(** What JSON makes of a header's value: itself, unless it is a number. *)
Definition json_value (v : any) : any :=
  match v with
  | AnyInt z | AnyDuration z | AnyOther z => AnyOther (f64_to_int64 min_int64 (f64_of_Z z))
  | _ => v
  end.

Lemma headers_of_json (m : Headers) :
  mapM (fun '(k, j) => (fun v => (k, v)) <$> any_of_json j) (prod_map id json_of_any <$> map_to_list m)
    = Some (prod_map id json_value <$> map_to_list m).
Proof.
  apply mapM_Some_2, Forall2_fmap, Forall_Forall2_diag, Forall_true. intros [k v]. by destruct v.
Qed.

Lemma get_headers_json l (m : Headers) :
  m <> ∅ -> field "headers" l = headers_json (Some m) -> get_headers l "headers" = Some (Some (json_value <$> m)).
Proof.
  intros Hm Hf. unfold get_headers. rewrite Hf. unfold headers_json. rewrite decide_False by done.
  rewrite headers_of_json. simpl. by rewrite list_to_map_fmap, list_to_map_to_list.
Qed.

(** Compare the constant names of fields. *)
Ltac eval_names :=
  repeat match goal with
         | |- context [String.eqb ?a ?b] => is_ground a; is_ground b;
             let v := eval vm_compute in (String.eqb a b) in change (String.eqb a b) with v
         end; cbv iota.

Lemma get_headers_envelope e (m : Headers) l :
  env_Headers e = Some m -> m <> ∅ -> envelope_json e = JObject l ->
  get_headers l "headers" = Some (Some (json_value <$> m)).
Proof.
  intros Hh Hm [= <-]. apply get_headers_json; [done|]. autorewrite with fields. eval_names.
  rewrite Hh. by destruct (headers_json _).
Qed.

(** Decoding inverts encoding, for headers that are not empty. *)
Lemma json_envelope_json e (m : Headers) :
  env_Headers e = Some m -> m <> ∅ -> json_envelope (envelope_json e) = Some (with_headers (Some (json_value <$> m)) e).
Proof.
  intros Hh Hm. unfold json_envelope. destruct (envelope_json e) as [| | | | | |l] eqn:El; try discriminate El.
  rewrite (get_headers_envelope e m l Hh Hm El). injection El as <-.
  unfold get_string, get_num, get_time, get_bytes. autorewrite with fields. eval_names.
  autorewrite with fields. rewrite !omitted_string, !omitted_num. cbn.
  unfold with_headers. by destruct (env_Payload e).
Qed.

(** ** Round trip *)

(** A header whose value survives JSON. *)
Definition plain_any (v : any) : bool :=
  match v with AnyNil | AnyBool _ | AnyString _ => true | _ => false end.

Lemma json_value_plain v : plain_any v = true -> json_value v = v.
Proof. by destruct v. Qed.

Lemma Validate_with_headers h e : Validate (with_headers h e) = Validate e.
Proof. done. Qed.

(** The headers after [Marshal]. *)
Definition stamped (e : Envelope) : Headers :=
  Headers_Set (Headers_Set (default ∅ (env_Headers e)) "x-message-type" (AnyString (env_Type e)))
    "x-message-version" (AnyString (env_Version e)).

Lemma stamped_nonempty e : stamped e <> ∅.
Proof. apply insert_non_empty. Qed.

Lemma stamped_fixed e k v : stamped e !! k = Some v ->
  (exists h, env_Headers e = Some h /\ h !! k = Some v) \/ (k = "x-message-type"%string /\ v = AnyString (env_Type e))
  \/ (k = "x-message-version"%string /\ v = AnyString (env_Version e)).
Proof.
  unfold stamped, Headers_Set. rewrite !lookup_insert_Some.
  intros [[<- <-]|[_ [[<- <-]|[_ Hk]]]]; [by auto..|]. left. destruct (env_Headers e) as [h|]; [|simpl in Hk; by rewrite lookup_empty in Hk].
  by exists h.
Qed.

Lemma json_value_headers (m : Headers) :
  (forall k v, m !! k = Some v -> plain_any v = true) -> json_value <$> m = m.
Proof.
  intros Hm. apply map_eq. intros k. rewrite lookup_fmap. destruct (m !! k) as [v|] eqn:Hk; simpl; [|done].
  by rewrite json_value_plain by eauto.
Qed.


