(* ===== verification/QueueRabbit.v ===== *)
(** * The connection to RabbitMQ: internal/queue/rabbitmq.go

    The pool of channels, the state of the connection, its health check, the loop that
    reconnects, and the shutdown.  The AMQP library with the broker behind it is the
    interface [Amqp], over a state [W] of its own.  A buffered Go channel is the list it
    holds with the capacity [cfg_ChannelPoolSize]; sending to a full one blocks.  A call
    that has to wait is the value [Blocks]: a connection that waits for room in the pool
    ([rmq_pending]) holds [mu], and every call that needs [mu] waits for it. *)

From S2P Require Import Prelude QueueMessage.

(** ** The AMQP library *)

(** The fields of [amqp.Publishing] that the package sets. *)
Record Publishing := mkPublishing {
  pb_Body : string;
  pb_ContentType : string;
  pb_Timestamp : Z;
  pb_Priority : Z;
  pb_AppId : string;
  pb_MessageId : string;
  pb_Headers : option Headers;
  pb_DeliveryMode : Z;
  pb_Expiration : string
}.

(** Connections and channels are named by numbers; an error is its text. *)
Class Amqp (W : Type) := {
  amqp_DialTLS : string -> W -> W * go_result nat string;
  amqp_DialConfig : string -> Z -> string -> W -> W * go_result nat string;
  conn_Channel : nat -> W -> W * go_result nat string;
  conn_IsClosed : nat -> W -> bool;
  conn_Close : nat -> W -> W * option string;
  ch_IsClosed : nat -> W -> bool;
  ch_Close : nat -> W -> W * option string;
  ch_QueueDeclarePassive : nat -> string -> W -> W * option string;
  ch_Confirm : nat -> W -> W * option string;
  ch_Publish : nat -> string -> string -> bool -> Publishing -> W -> W * option string;
  ch_Qos : nat -> Z -> bool -> W -> W * option string;
  ch_Consume : nat -> string -> string -> W -> W * option string;
  ch_ExchangeDeclare : nat -> string -> string -> bool -> option Headers -> W -> W * option string;
  ch_QueueDeclare : nat -> string -> bool -> Headers -> W -> W * option string;
  ch_QueueBind : nat -> string -> string -> string -> W -> W * option string;
  ch_QueuePurge : nat -> string -> W -> W * go_result Z string;
  ch_QueueInspect : nat -> string -> W -> W * go_result Z string
}.

(** ** Data *)

(* go: internal/queue/rabbitmq.go type ConnectionState *)
Inductive ConnectionState : Type :=
| StateDisconnected
| StateConnecting
| StateConnected
| StateReconnecting.

(** [TLSConfig] is whether there is one. *)
(* go: internal/queue/rabbitmq.go type Config *)
Record Config := mkConfig {
  cfg_URL : string;
  cfg_TLSConfig : bool;
  cfg_MaxRetry : Z;
  cfg_ReconnectBase : Z;
  cfg_ReconnectMax : Z;
  cfg_Heartbeat : Z;
  cfg_ConnectionName : string;
  cfg_ChannelPoolSize : Z
}.

(* go: internal/queue/rabbitmq.go func DefaultConfig *)
Definition DefaultConfig : Config := mkConfig "" false 10 Second (30 * Second) (10 * Second) "" 5.

Inductive RabbitError : Type :=
| ErrNoURL
| ErrDial (err : string)
| ErrPoolInit (i : nat) (err : string)
| ErrConnectionClosed
| ErrOpenChannel (err : string)
| ErrNotConnected
| ErrCtx
| ErrHealthQueue (err : string)
| ErrCloseConnection (err : string).

(** A call returns, fails, panics ([Done]), or waits. *)
Inductive call (A : Type) : Type :=
| Done (r : go_result A RabbitError)
| Blocks.
Arguments Done {A} r.
Arguments Blocks {A}.

(** A [connect] that waits to send the channel [pd_ch] to the pool, before the round [pd_i] and
    [pd_n] rounds in all; the loop would go on with the attempt [pd_attempt], and [pd_left]
    in all. *)
Record pending := mkPending {
  pd_conn : nat;
  pd_ch : nat;
  pd_i : nat;
  pd_n : nat;
  pd_attempt : Z;
  pd_left : nat
}.


(* go: internal/queue/rabbitmq.go type RabbitMQ *)
Record RabbitMQ (W : Type) := mkRabbitMQ {
  rmq_cfg : Config;
  rmq_world : W;
  rmq_conn : option nat;
  rmq_state : ConnectionState;
  rmq_channels : list nat;
  rmq_chansClosed : bool;
  rmq_done : bool;
  rmq_pending : option pending
}.
Arguments mkRabbitMQ {W}.
Arguments rmq_cfg {W}.
Arguments rmq_world {W}.
Arguments rmq_conn {W}.
Arguments rmq_state {W}.
Arguments rmq_channels {W}.
Arguments rmq_chansClosed {W}.
Arguments rmq_done {W}.
Arguments rmq_pending {W}.

(* go: internal/queue/rabbitmq.go func min *)
Definition min (a b : Z) : Z := if a <? b then a else b.

(** [nanos] is the clock. *)
(* go: internal/queue/rabbitmq.go func randInt64 *)
Definition randInt64 (nanos n : Z) : Z := Z.rem nanos n.

(** The attempts count from 1. *)
(* go: internal/queue/rabbitmq.go func calculateBackoff *)
Definition calculateBackoff (nanos attempt base max : Z) : Z :=
  let d := int64 (base * int64 (2 ^ min (attempt - 1) 30)) in
  let d := if max <? d then max else d in
  let jitter := if Millisecond <? d then randInt64 nanos (Z.quot d 4) else 0 in
  int64 (d + jitter).

Section rabbit.
Context {W : Type} `{Amqp W}.
Implicit Types r : RabbitMQ W.

Definition set_world (w : W) r : RabbitMQ W :=
  mkRabbitMQ (rmq_cfg r) w (rmq_conn r) (rmq_state r) (rmq_channels r) (rmq_chansClosed r) (rmq_done r) (rmq_pending r).
Definition set_channels (l : list nat) r : RabbitMQ W :=
  mkRabbitMQ (rmq_cfg r) (rmq_world r) (rmq_conn r) (rmq_state r) l (rmq_chansClosed r) (rmq_done r) (rmq_pending r).
Definition set_conn (c : nat) r : RabbitMQ W :=
  mkRabbitMQ (rmq_cfg r) (rmq_world r) (Some c) (rmq_state r) (rmq_channels r) (rmq_chansClosed r) (rmq_done r) (rmq_pending r).
Definition set_pending (p : option pending) r : RabbitMQ W :=
  mkRabbitMQ (rmq_cfg r) (rmq_world r) (rmq_conn r) (rmq_state r) (rmq_channels r) (rmq_chansClosed r) (rmq_done r) p.
Definition set_done r : RabbitMQ W :=
  mkRabbitMQ (rmq_cfg r) (rmq_world r) (rmq_conn r) (rmq_state r) (rmq_channels r) (rmq_chansClosed r) true (rmq_pending r).
Definition close_channels r : RabbitMQ W :=
  mkRabbitMQ (rmq_cfg r) (rmq_world r) (rmq_conn r) (rmq_state r) [] true (rmq_done r) (rmq_pending r).

(* go: internal/queue/rabbitmq.go func RabbitMQ.setState *)
Definition setState (s : ConnectionState) r : RabbitMQ W :=
  mkRabbitMQ (rmq_cfg r) (rmq_world r) (rmq_conn r) s (rmq_channels r) (rmq_chansClosed r) (rmq_done r) (rmq_pending r).

(* go: internal/queue/rabbitmq.go func RabbitMQ.IsConnected *)
Definition IsConnected r : bool := match rmq_state r with StateConnected => true | _ => false end.

(** Room for one more channel. *)
Definition has_room r : bool := Z.of_nat (length (rmq_channels r)) <? cfg_ChannelPoolSize (rmq_cfg r).

(** [mu] is held by a call that waits. *)
Definition rmq_locked r : bool := bool_decide (is_Some (rmq_pending r)).

(** ** Channels *)

(* go: internal/queue/rabbitmq.go func RabbitMQ.newChannel *)
Definition newChannel r : RabbitMQ W * call nat :=
  if rmq_locked r then (r, Blocks)
  else match rmq_conn r with
       | None => (r, Done (Err ErrConnectionClosed))
       | Some c =>
           if conn_IsClosed c (rmq_world r) then (r, Done (Err ErrConnectionClosed))
           else match conn_Channel c (rmq_world r) with
                | (w, Ok ch) => (set_world w r, Done (Ok ch))
                | (w, Err err) => (set_world w r, Done (Err (ErrOpenChannel err)))
                | (w, Panic) => (set_world w r, Done Panic)
                end
       end.

(** A closed pool hands out nil, and [IsClosed] of nil panics. *)
(* go: internal/queue/rabbitmq.go func RabbitMQ.AcquireChannel *)
Definition AcquireChannel r : RabbitMQ W * call nat :=
  match rmq_channels r with
  | ch :: l =>
      let r1 := set_channels l r in
      if ch_IsClosed ch (rmq_world r) then newChannel r1 else (r1, Done (Ok ch))
  | [] => if rmq_chansClosed r then (r, Done Panic) else newChannel r
  end.

(** Sending on a closed Go channel panics. *)
(* go: internal/queue/rabbitmq.go func RabbitMQ.ReleaseChannel *)
Definition ReleaseChannel (ch : option nat) r : RabbitMQ W * call unit :=
  match ch with
  | None => (r, Done (Ok ()))
  | Some ch =>
      if rmq_chansClosed r then (r, Done Panic)
      else if has_room r then (set_channels (rmq_channels r ++ [ch]) r, Done (Ok ()))
      else (set_world (ch_Close ch (rmq_world r)).1 r, Done (Ok ()))
  end.

(** The rounds [i], ... of the loop, [n] of them. *)
(* go: internal/queue/rabbitmq.go func RabbitMQ.initChannelPool *)
Fixpoint initChannelPool (c : nat) (i n : nat) r : RabbitMQ W * call unit :=
  match n with
  | O => (r, Done (Ok ()))
  | S n =>
      match conn_Channel c (rmq_world r) with
      | (w, Err err) => (set_world w r, Done (Err (ErrPoolInit i err)))
      | (w, Panic) => (set_world w r, Done Panic)
      | (w, Ok ch) =>
          let r1 := set_world w r in
          if rmq_chansClosed r then (r1, Done Panic)
          else if has_room r1 then initChannelPool c (S i) n (set_channels (rmq_channels r1 ++ [ch]) r1)
          else (set_pending (Some (mkPending c ch (S i) n 0 0)) r1, Blocks)
      end
  end.

(** The heartbeat and the name do not reach [DialTLS]. *)
Definition dial r : W * go_result nat string :=
  if cfg_TLSConfig (rmq_cfg r) then amqp_DialTLS (cfg_URL (rmq_cfg r)) (rmq_world r)
  else amqp_DialConfig (cfg_URL (rmq_cfg r)) (cfg_Heartbeat (rmq_cfg r)) (cfg_ConnectionName (rmq_cfg r)) (rmq_world r).

(** What [connect] does with the outcome for the pool. *)
Definition finish_connect (c : nat) (p : RabbitMQ W * call unit) : RabbitMQ W * call unit :=
  match p with
  | (r, Done (Err err)) => (setState StateDisconnected (set_world (conn_Close c (rmq_world r)).1 r), Done (Err err))
  | _ => p
  end.

(* go: internal/queue/rabbitmq.go func RabbitMQ.connect *)
Definition connect r : RabbitMQ W * call unit :=
  if rmq_locked r then (r, Blocks)
  else
    let r1 := setState StateConnecting r in
    match dial r1 with
    | (w, Err err) => (setState StateDisconnected (set_world w r1), Done (Err (ErrDial err)))
    | (w, Panic) => (set_world w r1, Done Panic)
    | (w, Ok c) =>
        let r2 := setState StateConnected (set_conn c (set_world w r1)) in
        finish_connect c (initChannelPool c 0 (Z.to_nat (cfg_ChannelPoolSize (rmq_cfg r2))) r2)
    end.

Definition or_default (z d : Z) : Z := if z =? 0 then d else z.

(** [MaxRetry] has no default. *)
(* go: internal/queue/rabbitmq.go func NewRabbitMQ *)
Definition NewRabbitMQ (cfg : Config) (w : W) : W * call (RabbitMQ W) :=
  if String.eqb (cfg_URL cfg) "" then (w, Done (Err ErrNoURL))
  else
    let cfg := mkConfig (cfg_URL cfg) (cfg_TLSConfig cfg) (cfg_MaxRetry cfg)
                 (or_default (cfg_ReconnectBase cfg) (cfg_ReconnectBase DefaultConfig))
                 (or_default (cfg_ReconnectMax cfg) (cfg_ReconnectMax DefaultConfig))
                 (or_default (cfg_Heartbeat cfg) (cfg_Heartbeat DefaultConfig)) (cfg_ConnectionName cfg)
                 (or_default (cfg_ChannelPoolSize cfg) (cfg_ChannelPoolSize DefaultConfig)) in
    if cfg_ChannelPoolSize cfg <? 0 then (w, Done Panic)
    else match connect (mkRabbitMQ cfg w None StateDisconnected [] false false None) with
         | (r, Done (Ok _)) => (rmq_world r, Done (Ok r))
         | (r, Done (Err err)) => (rmq_world r, Done (Err err))
         | (r, Done Panic) => (rmq_world r, Done Panic)
         | (r, Blocks) => (rmq_world r, Blocks)
         end.

(** ** Reconnection *)

(** What an attempt reads from outside: whether [done] is closed at its start and during
    its pause, and the clock. *)
Record attempt_env := mkAttemptEnv {
  ae_done : bool;
  ae_doneWait : bool;
  ae_nanos : Z
}.

Inductive loop_end : Type :=
| LoopDone
| LoopReconnected
| LoopExhausted
| LoopPanicked
| LoopBlocked.

(** The pause of an attempt, then the old connection is closed and a new one made. *)
Definition close_old r : RabbitMQ W :=
  match rmq_conn r with
  | Some c => if conn_IsClosed c (rmq_world r) then r else set_world (conn_Close c (rmq_world r)).1 r
  | None => r
  end.

Definition set_retry (attempt : Z) (left : nat) r : RabbitMQ W :=
  match rmq_pending r with
  | Some p => set_pending (Some (mkPending (pd_conn p) (pd_ch p) (pd_i p) (pd_n p) attempt left)) r
  | None => r
  end.

(** [n] attempts from [attempt] on, with the pauses made.  A panic is recovered and ends the
    loop. *)
(* go: internal/queue/rabbitmq.go @158-196 RabbitMQ.reconnectLoop *)
Fixpoint reconnect (env : Z -> attempt_env) (n : nat) (attempt : Z) r : RabbitMQ W * list Z * loop_end :=
  match n with
  | O => (setState StateDisconnected r, [], LoopExhausted)
  | S n =>
      if ae_done (env attempt) then (r, [], LoopDone)
      else
        let r1 := setState StateReconnecting r in
        let backoff := calculateBackoff (ae_nanos (env attempt)) attempt (cfg_ReconnectBase (rmq_cfg r))
                         (cfg_ReconnectMax (rmq_cfg r)) in
        if ae_doneWait (env attempt) then (r1, [backoff], LoopDone)
        else if rmq_locked r1 then (r1, [backoff], LoopBlocked)
        else
          match connect (close_old r1) with
          | (r2, Done (Ok _)) => (r2, [backoff], LoopReconnected)
          | (r2, Done (Err _)) =>
              let '(r3, pauses, e) := reconnect env n (attempt + 1) r2 in (r3, backoff :: pauses, e)
          | (r2, Done Panic) => (r2, [backoff], LoopPanicked)
          | (r2, Blocks) => (set_retry (attempt + 1) n r2, [backoff], LoopBlocked)
          end
  end.

(** The waiting [connect] goes on when there is room. *)
Definition resume (env : Z -> attempt_env) r : RabbitMQ W :=
  match rmq_pending r with
  | None => r
  | Some p =>
      if has_room r then
        match finish_connect (pd_conn p)
                (initChannelPool (pd_conn p) (pd_i p) (pd_n p)
                   (set_pending None (set_channels (rmq_channels r ++ [pd_ch p]) r))) with
        | (r2, Done (Err _)) => (reconnect env (pd_left p) (pd_attempt p) r2).1.1
        | (r2, Blocks) => set_retry (pd_attempt p) (pd_left p) r2
        | (r2, _) => r2
        end
      else r
  end.

(** What ends the wait for the connection to close. *)
Inductive close_event : Type :=
| ShutDown
| ClosedByUs
| ClosedByError.

(* go: internal/queue/rabbitmq.go func RabbitMQ.reconnectLoop *)
Definition reconnectLoop (ev : close_event) (env : Z -> attempt_env) r : RabbitMQ W * list Z * loop_end :=
  match ev with
  | ShutDown | ClosedByUs => (r, [], LoopDone)
  | ClosedByError => reconnect env (Z.to_nat (cfg_MaxRetry (rmq_cfg r))) 1 r
  end.

(** ** Health and shutdown *)

(** The call's own result, after the deferred release of the channel. *)
Definition released (ch : nat) (p : RabbitMQ W * call unit) : RabbitMQ W * call unit :=
  match ReleaseChannel (Some ch) p.1 with
  | (r, Done (Ok _)) => (r, p.2)
  | (r, res) => (r, res)
  end.

(* go: internal/queue/rabbitmq.go func RabbitMQ.HealthCheck *)
Definition HealthCheck (ctxDone : bool) r : RabbitMQ W * call unit :=
  if negb (IsConnected r) then (r, Done (Err ErrNotConnected))
  else match AcquireChannel r with
       | (r1, Done (Err err)) => (r1, Done (Err err))
       | (r1, Done Panic) => (r1, Done Panic)
       | (r1, Blocks) => (r1, Blocks)
       | (r1, Done (Ok ch)) =>
           released ch
             (if ctxDone then (r1, Done (Err ErrCtx))
              else match ch_QueueDeclarePassive ch "" (rmq_world r1) with
                   | (w, Some err) => (setState StateDisconnected (set_world w r1), Done (Err (ErrHealthQueue err)))
                   | (w, None) => (set_world w r1, Done (Ok ()))
                   end)
       end.

Fixpoint close_all (l : list nat) (w : W) : W :=
  match l with
  | [] => w
  | ch :: l => close_all l (if ch_IsClosed ch w then w else (ch_Close ch w).1)
  end.

(** [ctxFirst]: the context is done and the select takes its branch.  Nothing is ever added to
    the wait group, so that the other branch is always ready. *)
(* go: internal/queue/rabbitmq.go func RabbitMQ.Shutdown *)
Definition Shutdown (ctxFirst : bool) r : RabbitMQ W * call unit :=
  if rmq_done r then (r, Done Panic)
  else
    let r1 := set_done r in
    if ctxFirst then (r1, Done (Err ErrCtx))
    else if rmq_locked r1 then (r1, Blocks)
    else
      let r2 := close_channels (set_world (close_all (rmq_channels r1) (rmq_world r1)) r1) in
      match rmq_conn r2 with
      | None => (setState StateDisconnected r2, Done (Ok ()))
      | Some c =>
          if conn_IsClosed c (rmq_world r2) then (setState StateDisconnected r2, Done (Ok ()))
          else match conn_Close c (rmq_world r2) with
               | (w, Some err) => (set_world w r2, Done (Err (ErrCloseConnection err)))
               | (w, None) => (setState StateDisconnected (set_world w r2), Done (Ok ()))
               end
      end.

(** A call of a client, the loop after the connection was lost, or anything that happens at
    the broker. *)
Inductive rabbit_op : Type :=
| OpAcquire
| OpRelease (ch : option nat)
| OpHealthCheck (ctxDone : bool)
| OpReconnect (env : Z -> attempt_env)
| OpResume (env : Z -> attempt_env)
| OpShutdown (ctxFirst : bool)
| OpBroker (w : W).

Definition rabbit_step (op : rabbit_op) r : RabbitMQ W :=
  match op with
  | OpAcquire => (AcquireChannel r).1
  | OpRelease ch => (ReleaseChannel ch r).1
  | OpHealthCheck d => (HealthCheck d r).1
  | OpReconnect env => (reconnectLoop ClosedByError env r).1.1
  | OpResume env => resume env r
  | OpShutdown b => (Shutdown b r).1
  | OpBroker w => set_world w r
  end.

Definition rabbit_run (ops : list rabbit_op) r : RabbitMQ W := foldl (fun r op => rabbit_step op r) r ops.

(** ** The pool *)

(** Never more channels than its capacity; a closed pool is empty, and only [Shutdown]
    closes it. *)
Definition pool_ok r : Prop :=
  Z.of_nat (length (rmq_channels r)) <= Z.max 0 (cfg_ChannelPoolSize (rmq_cfg r))
  /\ (rmq_chansClosed r = true -> rmq_channels r = [] /\ rmq_done r = true /\ rmq_pending r = None).

Lemma pool_ok_push r ch : pool_ok r -> has_room r = true -> rmq_chansClosed r = false -> pool_ok (set_channels (rmq_channels r ++ [ch]) r).
Proof.
  unfold pool_ok, has_room. simpl. rewrite length_app. intros [Hl _] Hr%Z.ltb_lt Hc. simpl. split; [lia|congruence].
Qed.

Lemma newChannel_state r : exists w, (newChannel r).1 = set_world w r.
Proof.
  assert (exists w, r = set_world w r) as Hr by (exists (rmq_world r); by destruct r).
  unfold newChannel. destruct (rmq_locked r); [done|]. destruct (rmq_conn r); [|done].
  destruct (conn_IsClosed _ _); [done|]. destruct (conn_Channel _ _) as [w []]; eauto.
Qed.

Lemma AcquireChannel_state r : exists w l, (AcquireChannel r).1 = set_world w (set_channels l r)
  /\ (l = rmq_channels r \/ exists ch, rmq_channels r = ch :: l).
Proof.
  assert (r = set_world (rmq_world r) (set_channels (rmq_channels r) r)) as Hr by (by destruct r).
  unfold AcquireChannel. destruct (rmq_channels r) as [|ch l] eqn:Hc.
  - destruct (rmq_chansClosed r); [simpl; eauto|]. destruct (newChannel_state r) as [w ->]. exists w, [].
    rewrite Hr at 1. simpl. rewrite <- Hc. by auto.
  - destruct (ch_IsClosed ch _); [|exists (rmq_world r), l; by eauto].
    destruct (newChannel_state (set_channels l r)) as [w ->]. exists w, l. by eauto.
Qed.

Lemma AcquireChannel_ok r : pool_ok r -> pool_ok (AcquireChannel r).1.
Proof.
  destruct (AcquireChannel_state r) as (w & l & -> & Hl). unfold pool_ok. simpl.
  destruct Hl as [->|[ch Hch]]; [done|]. rewrite Hch. simpl. intros [Hs Hd]. split; [lia|].
  intros Hc. by destruct (Hd Hc).
Qed.

Lemma ReleaseChannel_ok ch r : pool_ok r -> pool_ok (ReleaseChannel ch r).1.
Proof.
  intros Hr. unfold ReleaseChannel. destruct ch as [ch|]; [|done].
  destruct (rmq_chansClosed r) eqn:Hc; [done|]. destruct (has_room r) eqn:Hroom; [|done]. by apply pool_ok_push.
Qed.

Lemma released_ok ch p : pool_ok p.1 -> pool_ok (released ch p).1.
Proof.
  intros Hp%(ReleaseChannel_ok (Some ch)). unfold released. by destruct (ReleaseChannel _ _) as [? [[]|]].
Qed.

Lemma HealthCheck_ok d r : pool_ok r -> pool_ok (HealthCheck d r).1.
Proof.
  intros Hr. pose proof (AcquireChannel_ok r Hr) as Ha. unfold HealthCheck. destruct (negb _); [done|].
  destruct (AcquireChannel r) as [r1 [[ch| |]|]]; try done. apply released_ok.
  destruct d; [done|]. by destruct (ch_QueueDeclarePassive _ _ _) as [w []].
Qed.

Lemma initChannelPool_ok c n : forall i r, pool_ok r -> pool_ok (initChannelPool c i n r).1.
Proof.
  induction n as [|n IH]; intros i r Hr; [done|]. simpl.
  destruct (conn_Channel c _) as [w [ch| |]]; try done.
  destruct (rmq_chansClosed r) eqn:Hc; [done|]. destruct (has_room (set_world w r)) eqn:Hroom.
  - apply IH. by apply (pool_ok_push (set_world w r)).
  - destruct Hr as [Hl _]. split; simpl; [done|congruence].
Qed.

Lemma finish_connect_ok c p : pool_ok p.1 -> pool_ok (finish_connect c p).1.
Proof. by destruct p as [r [[]|]]. Qed.

Lemma connect_ok r : pool_ok r -> pool_ok (connect r).1.
Proof.
  intros Hr. unfold connect. destruct (rmq_locked r); [done|].
  destruct (dial _) as [w [c| |]]; try done. apply finish_connect_ok. by apply initChannelPool_ok.
Qed.

Lemma set_retry_ok a n r : pool_ok r -> pool_ok (set_retry a n r).
Proof.
  unfold set_retry. destruct (rmq_pending r) as [p|] eqn:Hp; [|done].
  intros [Hl Hc]. split; [done|]. intros (_ & _ & ?)%Hc. congruence.
Qed.

Lemma close_old_world r : exists w, close_old r = set_world w r.
Proof.
  assert (exists w, r = set_world w r) as Hr by (exists (rmq_world r); by destruct r).
  unfold close_old. destruct (rmq_conn r); [|done]. destruct (conn_IsClosed _ _); eauto.
Qed.

Lemma reconnect_ok env n : forall attempt r, pool_ok r -> pool_ok (reconnect env n attempt r).1.1.
Proof.
  induction n as [|n IH]; intros attempt r Hr; [done|]. simpl.
  destruct (ae_done _); [done|]. destruct (ae_doneWait _); [done|]. destruct (rmq_locked _); [done|].
  destruct (close_old_world (setState StateReconnecting r)) as [w ->].
  assert (pool_ok (connect (set_world w (setState StateReconnecting r))).1) as Hc by by apply connect_ok.
  destruct (connect _) as [r2 [[[]|err|]|]]; try done; [|by apply set_retry_ok].
  specialize (IH (attempt + 1) r2 Hc). by destruct (reconnect env n _ r2) as [[r3 ps] e].
Qed.

Lemma unpend_ok r : pool_ok r -> pool_ok (set_pending None r).
Proof. intros [Hl Hc]. split; [done|]. intros (? & ? & ?)%Hc. done. Qed.

Lemma resume_ok env r : pool_ok r -> pool_ok (resume env r).
Proof.
  intros Hr. unfold resume. destruct (rmq_pending r) as [p|] eqn:Hp; [|done].
  assert (rmq_chansClosed r = false) as Hc.
  { destruct Hr as [_ Hr]. destruct (rmq_chansClosed r); [|done]. destruct (Hr eq_refl) as (_ & _ & ?). congruence. }
  destruct (has_room r) eqn:Hroom; [|done].
  pose proof (unpend_ok _ (pool_ok_push r (pd_ch p) Hr Hroom Hc)) as Hpush.
  match goal with |- context [finish_connect ?c ?q] =>
    pose proof (finish_connect_ok c q (initChannelPool_ok _ _ _ _ Hpush)) as Hf;
    destruct (finish_connect c q) as [r2 [[u|e|]|]] end; [done|by apply reconnect_ok|done|by apply set_retry_ok].
Qed.

Lemma unlocked r : rmq_locked r = false -> rmq_pending r = None.
Proof. unfold rmq_locked. by destruct (rmq_pending r). Qed.

Lemma Shutdown_ok b r : pool_ok r -> pool_ok (Shutdown b r).1.
Proof.
  intros Hr. unfold Shutdown. destruct (rmq_done r) eqn:Hd; [done|]. destruct Hr as [Hl Hc].
  assert (rmq_chansClosed r = false) as Hf.
  { destruct (rmq_chansClosed r); [|done]. destruct (Hc eq_refl) as (_ & ? & _). congruence. }
  destruct b; [split; simpl; [done|congruence]|]. destruct (rmq_locked _) eqn:Hk; [split; simpl; [done|congruence]|].
  apply unlocked in Hk. simpl in Hk.
  assert (pool_ok (close_channels (set_done r))) as Hp by (split; simpl; [lia|done]).
  simpl. destruct (rmq_conn r) as [c|]; [|done]. destruct (conn_IsClosed _ _); [done|].
  by destruct (conn_Close _ _) as [w []].
Qed.

Lemma rabbit_step_ok op r : pool_ok r -> pool_ok (rabbit_step op r).
Proof.
  destruct op; simpl; [apply AcquireChannel_ok|apply ReleaseChannel_ok|apply HealthCheck_ok|apply reconnect_ok|apply resume_ok|
    apply Shutdown_ok|done].
Qed.

Lemma rabbit_run_ok ops : forall r, pool_ok r -> pool_ok (rabbit_run ops r).
Proof. induction ops as [|op ops IH]; intros r Hr; [done|]. by apply IH, rabbit_step_ok. Qed.

(** ** Reconnecting with channels left in the pool *)

(** Every channel asked of the connection is opened. *)
Definition opens (c : nat) : Prop := forall w, exists w' ch, conn_Channel c w = (w', Ok ch).

Definition pool_size r : nat := Z.to_nat (cfg_ChannelPoolSize (rmq_cfg r)).
Definition free r : nat := pool_size r - length (rmq_channels r).

Lemma has_room_free r : has_room r = true <-> (0 < free r)%nat.
Proof. unfold has_room, free, pool_size. rewrite Z.ltb_lt. lia. Qed.

(** The rounds of the loop fill the pool, then wait. *)
Lemma initChannelPool_fills c n : forall i r, opens c -> rmq_chansClosed r = false ->
  exists r' res, initChannelPool c i n r = (r', res) /\ rmq_cfg r' = rmq_cfg r /\ rmq_state r' = rmq_state r
    /\ rmq_chansClosed r' = false
    /\ ((n <= free r)%nat /\ res = Done (Ok ()) /\ length (rmq_channels r') = (length (rmq_channels r) + n)%nat
          /\ rmq_pending r' = rmq_pending r
       \/ (free r < n)%nat /\ res = Blocks /\ length (rmq_channels r') = (length (rmq_channels r) + free r)%nat
          /\ exists p, rmq_pending r' = Some p /\ pd_conn p = c /\ (S (pd_n p) + free r = n)%nat).
Proof.
  induction n as [|n IH]; intros i r Ho Hc.
  { eexists r, _. split; [done|]. repeat (split; [done|]). left. repeat split; [lia..]. }
  simpl. destruct (Ho (rmq_world r)) as (w & ch & ->). rewrite Hc.
  destruct (has_room (set_world w r)) eqn:Hroom.
  - apply has_room_free in Hroom.
    destruct (IH (S i) (set_channels (rmq_channels r ++ [ch]) (set_world w r)) Ho Hc)
      as (r' & res & -> & Hcfg & Hst & Hcc & Hres).
    unfold free, pool_size in *. simpl in *. rewrite length_app in Hres. simpl in Hres.
    eexists r', res. split; [done|]. repeat (split; [done|]).
    destruct Hres as [(? & ? & ? & ?)|(? & ? & ? & p & ? & ? & ?)]; [left|right].
    + repeat split; [lia|done|lia|done].
    + repeat split; [lia|done|lia|]. exists p. repeat split; [done..|lia].
  - assert (free r = 0%nat) as Hf.
    { destruct (decide (free r = 0%nat)) as [|Hn]; [done|]. exfalso. apply not_true_iff_false in Hroom.
      apply Hroom, has_room_free. unfold free, pool_size in *. simpl. lia. }
    eexists _, _. split; [done|]. repeat (split; [done|]). right. repeat split; [lia|simpl; lia|].
    eexists. split; [done|]. simpl. split; [done|lia].
Qed.

(** A connection waits, and [k] receives from the pool are needed before it is done. *)
Definition waiting (k : nat) r : Prop :=
  rmq_chansClosed r = false
  /\ exists p, rmq_pending r = Some p /\ opens (pd_conn p) /\ (k + free r <= S (pd_n p))%nat.

Lemma waiting_locked k r : waiting k r -> rmq_locked r = true.
Proof. intros (_ & p & Hp & _). unfold rmq_locked. rewrite Hp. by apply bool_decide_eq_true. Qed.

Lemma waiting_free k r r' : waiting k r -> rmq_pending r' = rmq_pending r -> rmq_chansClosed r' = rmq_chansClosed r ->
  (free r' <= free r)%nat -> waiting k r'.
Proof. intros (Hc & p & Hp & Ho & Hk) Ep Ec Hf. split; [congruence|]. exists p. repeat split; [congruence|done|lia]. Qed.

Lemma waiting_acquire k r : waiting (S k) r -> waiting k (AcquireChannel r).1.
Proof.
  intros (Hc & p & Hp & Ho & Hk). destruct (AcquireChannel_state r) as (w & l & -> & Hl).
  split; [done|]. exists p. repeat split; [done..|]. unfold free, pool_size in *. simpl.
  destruct Hl as [->|[ch Hl]]; [lia|]. rewrite Hl in Hk. simpl in Hk. lia.
Qed.

Lemma waiting_release k ch r : waiting k r -> waiting k (ReleaseChannel ch r).1.
Proof.
  intros Hw. unfold ReleaseChannel. destruct ch as [ch|]; [|done].
  destruct (rmq_chansClosed r); [done|]. apply (waiting_free k r); destruct (has_room r); try done.
  unfold free, pool_size. simpl. rewrite length_app. lia.
Qed.

Lemma waiting_health k d r : waiting (S k) r -> waiting k (HealthCheck d r).1.
Proof.
  intros Hw. unfold HealthCheck. destruct (negb _).
  { destruct Hw as (? & p & ? & ? & ?). split; [done|]. exists p. repeat split; [done..|simpl; lia]. }
  pose proof (waiting_acquire k r Hw) as Ha. destruct (AcquireChannel r) as [r1 [[ch| |]|]]; try done.
  assert (forall q : RabbitMQ W * call unit, waiting k q.1 -> waiting k (released ch q).1) as Hrel.
  { intros q Hq%(waiting_release k (Some ch)). unfold released. by destruct (ReleaseChannel _ _) as [? [[]|]]. }
  apply Hrel. destruct d; [done|]. by destruct (ch_QueueDeclarePassive _ _ _) as [w []].
Qed.

Lemma waiting_resume k env r : waiting (S k) r -> waiting (S k) (resume env r).
Proof.
  intros (Hc & p & Hp & Ho & Hk). unfold resume. rewrite Hp.
  destruct (has_room r) eqn:Hroom; [|split; [done|]; by exists p].
  apply has_room_free in Hroom.
  destruct (initChannelPool_fills (pd_conn p) (pd_n p) (pd_i p)
              (set_pending None (set_channels (rmq_channels r ++ [pd_ch p]) r)) Ho Hc)
    as (r' & res & -> & Hcfg & Hst & Hcc & Hres).
  unfold free, pool_size in *. simpl in *. rewrite length_app in Hres. simpl in Hres.
  destruct Hres as [(? & _)|(_ & -> & Hlen & q & Hq & Hqc & Hqn)]; [lia|].
  unfold finish_connect, set_retry. rewrite Hq. split; [done|]. eexists. split; [done|].
  unfold free, pool_size. simpl. split; [by rewrite Hqc|]. rewrite Hcfg, Hlen. lia.
Qed.

Lemma waiting_reconnect k env r : waiting k r -> waiting k (reconnectLoop ClosedByError env r).1.1.
Proof.
  intros Hw. simpl. destruct (Z.to_nat _) as [|n]; [done|]. simpl.
  destruct (ae_done _); [done|]. destruct (ae_doneWait _); [done|].
  by rewrite (waiting_locked k (setState StateReconnecting r) Hw).
Qed.

Lemma waiting_shutdown k b r : waiting k r -> waiting k (Shutdown b r).1.
Proof.
  intros Hw. unfold Shutdown. destruct (rmq_done r); [done|]. destruct b; [done|].
  by rewrite (waiting_locked k (set_done r) Hw).
Qed.

(** The calls that receive from the pool. *)
Definition receives (op : rabbit_op) : bool :=
  match op with OpAcquire | OpHealthCheck _ => true | _ => false end.

Fixpoint receive_count (ops : list rabbit_op) : nat :=
  match ops with [] => 0 | op :: ops => (if receives op then 1 else 0) + receive_count ops end.

Lemma waiting_run ops : forall k r, waiting (k + receive_count ops) r -> (0 < k)%nat -> waiting k (rabbit_run ops r).
Proof.
  induction ops as [|op ops IH]; intros k r Hw Hk; [by rewrite Nat.add_0_r in Hw|].
  apply IH; [|done]. revert Hw. destruct k as [|k]; [lia|].
  destruct op; cbn -[reconnectLoop AcquireChannel ReleaseChannel HealthCheck Shutdown resume]; rewrite ?Nat.add_succ_r; intros Hw;
    [by apply waiting_acquire|by apply waiting_release|by apply waiting_health|by apply waiting_reconnect
    |by apply waiting_resume|by apply waiting_shutdown|done].
Qed.

(** ** Theorems *)

Lemma pool_ok_size r : pool_ok r -> (length (rmq_channels r) <= pool_size r)%nat.
Proof. unfold pool_ok, pool_size. lia. Qed.

(** A new connection fills the pool only if the pool is empty.  Let [connect] dial and open
    its channels without errors.  With an empty pool it returns, connected, with the pool
    full.  If channels of the old connection are left in the pool (nothing removes them when a
    connection is lost), [connect] waits in [initChannelPool] for room, with the state already
    [StateConnected] and [mu] locked: whatever clients and broker do, as long as fewer
    channels are received from the pool than were left in it, it still waits, every call that
    needs a new channel waits, and [Shutdown] does not succeed. *)
Theorem connect_waits_for_pool r w c :
  rmq_locked r = false -> rmq_chansClosed r = false -> pool_ok r ->
  dial (setState StateConnecting r) = (w, Ok c) -> opens c ->
  exists r' res, connect r = (r', res) /\ IsConnected r' = true /\ length (rmq_channels r') = pool_size r
    /\ (rmq_channels r = [] -> res = Done (Ok ()) /\ rmq_locked r' = false)
    /\ (rmq_channels r <> [] -> res = Blocks
        /\ forall ops, (receive_count ops < length (rmq_channels r))%nat ->
              let s := rabbit_run ops r' in
              rmq_locked s = true /\ newChannel s = (s, Blocks) /\ (Shutdown false s).2 <> Done (Ok ())).
Proof.
  intros Hk Hc Hr%pool_ok_size Hd Ho. unfold connect. rewrite Hk, Hd.
  destruct (initChannelPool_fills c (Z.to_nat (cfg_ChannelPoolSize (rmq_cfg r))) 0
              (setState StateConnected (set_conn c (set_world w (setState StateConnecting r)))) Ho Hc)
    as (r' & res & Hi & Hcfg & Hst & Hcc & Hres). simpl in Hi |- *. rewrite Hi. unfold free, pool_size in *. simpl in *.
  exists r', res. destruct Hres as [(Hn & -> & Hlen & Hp)|(Hn & -> & Hlen & p & Hp & Hpc & Hpn)]; simpl.
  - split; [done|]. split; [unfold IsConnected; by rewrite Hst|]. split; [lia|].
    split; [intros _; split; [done|unfold rmq_locked in *; by rewrite Hp]|].
    intros Hne. destruct (rmq_channels r); [done|simpl in *; lia].
  - split; [done|]. split; [unfold IsConnected; by rewrite Hst|]. split; [lia|].
    split; [intros He; rewrite He in *; simpl in *; lia|]. intros _. split; [done|]. intros ops Hops.
    assert (waiting 1 (rabbit_run ops r')) as Hw.
    { apply waiting_run; [|lia]. split; [done|]. exists p. rewrite Hpc. split; [done|]. split; [done|].
      unfold free, pool_size. rewrite Hcfg. simpl. lia. }
    simpl. repeat split.
    + by apply waiting_locked in Hw.
    + unfold newChannel. by rewrite (waiting_locked _ _ Hw).
    + unfold Shutdown. destruct (rmq_done _); [done|].
      by rewrite (waiting_locked _ (set_done (rabbit_run ops r')) Hw).
Qed.

Lemma NewRabbitMQ_ok cfg w w' r : NewRabbitMQ cfg w = (w', Done (Ok r)) -> pool_ok r.
Proof.
  unfold NewRabbitMQ. destruct (String.eqb _ _); [done|]. cbv zeta. destruct (_ <? _); [done|].
  match goal with |- context [connect ?r0] => assert (pool_ok (connect r0).1) as Hc
    by (apply connect_ok; split; simpl; [lia|done]); destruct (connect r0) as [r1 [[[]| |]|]] end; simpl in *; congruence.
Qed.

(** Only reconnecting changes the state from disconnected. *)
Definition reconnects (op : rabbit_op) : bool :=
  match op with OpReconnect _ | OpResume _ => true | _ => false end.

Lemma released_state ch p : rmq_state (released ch p).1 = rmq_state p.1.
Proof.
  unfold released, ReleaseChannel. destruct (rmq_chansClosed _); [done|]. by destruct (has_room _).
Qed.

Lemma released_err ch p err : (released ch p).2 = Done (Err err) -> p.2 = Done (Err err).
Proof. unfold released, ReleaseChannel. destruct (rmq_chansClosed _); [done|]. by destruct (has_room _). Qed.

Lemma AcquireChannel_no_health r err : (AcquireChannel r).2 <> Done (Err (ErrHealthQueue err)).
Proof.
  assert (forall r, (newChannel r).2 <> Done (Err (ErrHealthQueue err))) as Hn.
  { intros r0. unfold newChannel. destruct (rmq_locked r0); [done|]. destruct (rmq_conn r0); [|done].
    destruct (conn_IsClosed _ _); [done|]. by destruct (conn_Channel _ _) as [w []]. }
  unfold AcquireChannel. destruct (rmq_channels r); [by destruct (rmq_chansClosed r)|]. by destruct (ch_IsClosed _ _).
Qed.

Lemma HealthCheck_refused d r err :
  (HealthCheck d r).2 = Done (Err (ErrHealthQueue err)) -> rmq_state (HealthCheck d r).1 = StateDisconnected.
Proof.
  unfold HealthCheck. destruct (negb _); [done|]. pose proof (AcquireChannel_no_health r err) as Hn.
  destruct (AcquireChannel r) as [r1 [[ch|e|]|]]; try done; [|intros [= ->]; by destruct Hn].
  intros Hr%released_err. rewrite released_state. destruct d; [done|].
  by destruct (ch_QueueDeclarePassive _ _ _) as [w []].
Qed.

Lemma disconnected_step op r :
  reconnects op = false -> rmq_state r = StateDisconnected -> rmq_state (rabbit_step op r) = StateDisconnected.
Proof.
  destruct op as [|ch|d| | |b|w]; simpl; try done; intros _ Hr.
  - by destruct (AcquireChannel_state r) as (w & l & -> & _).
  - unfold ReleaseChannel. destruct ch; [|done]. destruct (rmq_chansClosed r); [done|]. by destruct (has_room r).
  - unfold HealthCheck, IsConnected. by rewrite Hr.
  - unfold Shutdown. destruct (rmq_done r); [done|]. destruct b; [done|]. destruct (rmq_locked _); [done|].
    simpl. destruct (rmq_conn r); [|done]. destruct (conn_IsClosed _ _); [done|].
    by destruct (conn_Close _ _) as [w []].
Qed.

Lemma disconnected_run ops : forall r,
  forallb (fun op => negb (reconnects op)) ops = true -> rmq_state r = StateDisconnected ->
  rmq_state (rabbit_run ops r) = StateDisconnected.
Proof.
  induction ops as [|op ops IH]; intros r Ho Hr; [done|]. simpl in Ho. apply andb_prop in Ho as [H1%negb_true_iff H2].
  by apply IH, disconnected_step.
Qed.


(** ** Pauses of the reconnection *)

Lemma calculateBackoff_range nanos attempt base max :
  0 <= nanos -> 1 <= attempt -> 0 <= base -> base * 2 ^ 30 <= max_int64 -> 0 <= max -> 2 * max <= max_int64 ->
  let d := Z.min (base * 2 ^ Z.min (attempt - 1) 30) max in
  d <= calculateBackoff nanos attempt base max <= d + d / 4.
Proof.
  intros Hn Ha Hb Hb2 Hm Hm2 d. unfold calculateBackoff, min, randInt64.
  assert (0 <= Z.min (attempt - 1) 30 <= 30) as He by lia.
  replace (if attempt - 1 <? 30 then attempt - 1 else 30) with (Z.min (attempt - 1) 30)
    by (destruct (Z.ltb_spec (attempt - 1) 30); lia).
  assert (0 < 2 ^ Z.min (attempt - 1) 30 <= 2 ^ 30) as Hp.
  { split; [apply Z.pow_pos_nonneg; lia|]. apply Z.pow_le_mono_r; lia. }
  assert (base * 2 ^ Z.min (attempt - 1) 30 <= base * 2 ^ 30) as Hle by (apply Z.mul_le_mono_nonneg_l; lia).
  unfold max_int64 in *. rewrite (int64_small (2 ^ _)) by (unfold in_int64, min_int64, max_int64; lia).
  rewrite (int64_small (base * _)) by (unfold in_int64, min_int64, max_int64; nia).
  replace (if max <? _ then max else _) with d
    by (unfold d; destruct (Z.ltb_spec max (base * 2 ^ Z.min (attempt - 1) 30)); lia).
  assert (0 <= d <= max) as Hd by (unfold d; nia). clearbody d.
  destruct (Z.ltb_spec Millisecond d) as [Hms|Hms].
  - rewrite Z.quot_div_nonneg by lia. assert (0 < d / 4 <= d) as Hq.
    { unfold Millisecond, Microsecond, Nanosecond in Hms. split; [apply Z.div_str_pos; lia|]. apply Z.div_le_upper_bound; lia. }
    pose proof (Z.rem_bound_pos nanos (d / 4) ltac:(lia) ltac:(lia)).
    rewrite int64_small by (unfold in_int64, min_int64, max_int64; lia). lia.
  - rewrite int64_small by (unfold in_int64, min_int64, max_int64; lia).
    assert (0 <= d / 4) by (apply Z.div_pos; lia). lia.
Qed.

Lemma initChannelPool_frame c n : forall i r,
  let '(r', res) := initChannelPool c i n r in
  rmq_cfg r' = rmq_cfg r /\ rmq_state r' = rmq_state r /\ (res <> Blocks -> rmq_pending r' = rmq_pending r).
Proof.
  induction n as [|n IH]; intros i r; [done|]. simpl. destruct (conn_Channel c _) as [w [ch| |]]; [|done..].
  destruct (rmq_chansClosed r); [done|]. destruct (has_room _); [|done].
  specialize (IH (S i) (set_channels (rmq_channels (set_world w r) ++ [ch]) (set_world w r))). by destruct (initChannelPool _ _ _ _).
Qed.

Lemma connect_frame r : let '(r', res) := connect r in
  rmq_cfg r' = rmq_cfg r /\ (res = Done (Ok ()) -> IsConnected r' = true /\ rmq_locked r' = false).
Proof.
  unfold connect. destruct (rmq_locked r) eqn:Hk; [done|]. destruct (dial _) as [w [c| |]]; [|done..].
  match goal with |- context [initChannelPool c 0 ?n ?r2] =>
    pose proof (initChannelPool_frame c n 0 r2) as Hf; destruct (initChannelPool c 0 n r2) as [r3 res] end.
  destruct Hf as (Hc & Hs & Hp). destruct res as [[[]|e|]|]; simpl; (split; [done|]); try done.
  intros _. unfold IsConnected, rmq_locked in *. rewrite Hs, Hp by done. done.
Qed.

Lemma close_old_cfg r : rmq_cfg (close_old r) = rmq_cfg r.
Proof. by destruct (close_old_world r) as [w ->]. Qed.

(** The pause before the attempt [attempt], without its random part. *)
Definition plain_pause (cfg : Config) (attempt : Z) : Z :=
  Z.min (cfg_ReconnectBase cfg * 2 ^ Z.min (attempt - 1) 30) (cfg_ReconnectMax cfg).

(** Pauses that 64 bits hold. *)
Definition pauses_fit (cfg : Config) : Prop :=
  0 <= cfg_ReconnectBase cfg /\ cfg_ReconnectBase cfg * 2 ^ 30 <= max_int64
  /\ 0 <= cfg_ReconnectMax cfg /\ 2 * cfg_ReconnectMax cfg <= max_int64.

Lemma reconnect_spec env n : forall attempt r r' pauses e,
  (forall i, 0 <= ae_nanos (env i)) -> pauses_fit (rmq_cfg r) -> 1 <= attempt ->
  reconnect env n attempt r = (r', pauses, e) ->
  (length pauses <= n)%nat
  /\ (forall i p, pauses !! i = Some p -> let d := plain_pause (rmq_cfg r) (attempt + Z.of_nat i) in d <= p <= d + d / 4)
  /\ (e = LoopReconnected -> IsConnected r' = true /\ rmq_locked r' = false)
  /\ (e = LoopExhausted -> length pauses = n /\ rmq_state r' = StateDisconnected).
Proof.
  induction n as [|n IH]; intros attempt r r' pauses e Hn Hfit Ha; simpl.
  { intros [= <- <- <-]. done. }
  destruct (ae_done _); [intros [= <- <- <-]; split_and!; [simpl; lia|done..]|].
  set (b := calculateBackoff _ _ _ _).
  assert (forall ps : list Z,
    (forall i p, ps !! i = Some p -> let d := plain_pause (rmq_cfg r) (attempt + 1 + Z.of_nat i) in d <= p <= d + d / 4) ->
    forall i p, (b :: ps) !! i = Some p -> let d := plain_pause (rmq_cfg r) (attempt + Z.of_nat i) in d <= p <= d + d / 4) as Hb.
  { intros ps Hps [|i] p; simpl.
    - intros [= <-]. rewrite Z.add_0_r. destruct Hfit as (? & ? & ? & ?). by apply calculateBackoff_range.
    - intros Hi. specialize (Hps i p Hi). replace (attempt + Z.of_nat (S i)) with (attempt + 1 + Z.of_nat i) by lia. done. }
  assert (forall i p, [b] !! i = Some p -> let d := plain_pause (rmq_cfg r) (attempt + Z.of_nat i) in d <= p <= d + d / 4)
    as Hb1 by (apply Hb; by intros i p).
  destruct (ae_doneWait _); [intros [= <- <- <-]; split_and!; [simpl; lia|done..]|].
  destruct (rmq_locked _); [intros [= <- <- <-]; split_and!; [simpl; lia|done..]|].
  pose proof (connect_frame (close_old (setState StateReconnecting r))) as Hc.
  destruct (connect _) as [r2 [[[]|err|]|]]; destruct Hc as [Hcfg Hconn]; rewrite close_old_cfg in Hcfg.
  - intros [= <- <- <-]. split_and!; [simpl; lia|done|by auto|done].
  - destruct (reconnect env n _ r2) as [[r3 ps] e'] eqn:Hr. intros [= <- <- <-].
    apply IH in Hr as (Hl & Hp & Hre & Hex); [|done|by rewrite Hcfg|lia]. rewrite Hcfg in Hp.
    split_and!; [simpl; lia|by apply Hb|done|]. intros He%Hex. simpl. by destruct He as [-> ?].
  - intros [= <- <- <-]. split_and!; [simpl; lia|done..].
  - intros [= <- <- <-]. split_and!; [simpl; lia|done..].
Qed.

(** Reconnecting after the connection was lost.  There are at most [MaxRetry] attempts; the
    pause before attempt [i] is [ReconnectBase * 2^(i-1)], with the exponent capped at 30,
    but at most [ReconnectMax], and up to a quarter more at random; when the loop reports
    success the state is connected and [mu] is free, and when it gives up it has made all
    the attempts and the state is disconnected. *)
Theorem reconnect_pauses env r r' pauses e :
  reconnectLoop ClosedByError env r = (r', pauses, e) -> (forall i, 0 <= ae_nanos (env i)) -> pauses_fit (rmq_cfg r) ->
  (length pauses <= Z.to_nat (cfg_MaxRetry (rmq_cfg r)))%nat
  /\ (forall i p, pauses !! i = Some p -> let d := plain_pause (rmq_cfg r) (1 + Z.of_nat i) in d <= p <= d + d / 4)
  /\ (e = LoopReconnected -> IsConnected r' = true /\ rmq_locked r' = false)
  /\ (e = LoopExhausted -> length pauses = Z.to_nat (cfg_MaxRetry (rmq_cfg r)) /\ rmq_state r' = StateDisconnected).
Proof. intros Hr Hn Hfit. by apply (reconnect_spec env _ 1 r r' pauses e). Qed.
End rabbit.

(** A base of nine seconds overflows: the pause is negative and the timer fires at once. *)
Example backoff_overflow : calculateBackoff 0 31 (9 * Second) (30 * Second) < 0.
Proof. reflexivity. Qed.

(** ** A broker for examples *)

(** It numbers what it opens from [tb_next] on; nothing fails. *)
Record toy := mkToy {
  tb_next : nat;
  tb_closed : list nat;
  tb_log : list (string * string * Publishing)
}.

Definition toy_open (t : toy) : toy * go_result nat string :=
  (mkToy (S (tb_next t)) (tb_closed t) (tb_log t), Ok (tb_next t)).
Definition toy_close (n : nat) (t : toy) : toy * option string :=
  (mkToy (tb_next t) (n :: tb_closed t) (tb_log t), None).
Definition toy_closed (n : nat) (t : toy) : bool := existsb (Nat.eqb n) (tb_closed t).

#[export] Instance toy_amqp : Amqp toy := {
  amqp_DialTLS _ t := toy_open t;
  amqp_DialConfig _ _ _ t := toy_open t;
  conn_Channel _ t := toy_open t;
  conn_IsClosed := toy_closed;
  conn_Close := toy_close;
  ch_IsClosed := toy_closed;
  ch_Close := toy_close;
  ch_QueueDeclarePassive _ name t := (t, if String.eqb name "" then Some "no queue"%string else None);
  ch_Confirm _ t := (t, None);
  ch_Publish ch exchange key _ pb t :=
    if toy_closed ch t then (t, Some "channel closed"%string)
    else (mkToy (tb_next t) (tb_closed t) (tb_log t ++ [(exchange, key, pb)]), None);
  ch_Qos _ _ _ t := (t, None);
  ch_Consume _ _ _ t := (t, None);
  ch_ExchangeDeclare _ _ _ _ _ t := (t, None);
  ch_QueueDeclare _ _ _ _ t := (t, None);
  ch_QueueBind _ _ _ _ t := (t, None);
  ch_QueuePurge _ _ t := (t, Ok 0);
  ch_QueueInspect _ _ t := (t, Ok 0)
}.

Definition toy_cfg : Config := mkConfig "amqp://mq" false 10 Second (30 * Second) 0 "" 2.
Definition toy_new : toy := mkToy 0 [] [].

(** Two channels, both opened before the connection is lost. *)
Definition toy_rabbit : RabbitMQ toy :=
  match NewRabbitMQ toy_cfg toy_new with
  | (_, Done (Ok r)) => r
  | _ => mkRabbitMQ toy_cfg toy_new None StateDisconnected [] false false None
  end.

Lemma connect_waits_for_pool_witness :
  exists r' res, connect toy_rabbit = (r', res) /\ res = Blocks
    /\ rmq_locked (rabbit_run [OpAcquire; OpResume (fun _ => mkAttemptEnv false false 0); OpRelease (Some 9%nat)] r') = true.
Proof.
  destruct (connect_waits_for_pool toy_rabbit (mkToy 4 [] []) 3) as (r' & res & Hc & _ & _ & _ & Hn);
    [reflexivity|reflexivity|split; [vm_compute; by intros|done]|reflexivity|intros w; by eexists _, _|].
  assert (rmq_channels toy_rabbit <> []) as Hne by (vm_compute; discriminate).
  exists r', res. split; [exact Hc|]. destruct (Hn Hne) as [Hb Ho]. split; [exact Hb|].
  apply (Ho [OpAcquire; OpResume (fun _ => mkAttemptEnv false false 0); OpRelease (Some 9%nat)]).
  vm_compute. lia.
Defined.


Lemma reconnect_pauses_witness :
  let '(r', pauses, e) := reconnectLoop ClosedByError (fun _ => mkAttemptEnv false false 7) (set_channels [] toy_rabbit) in
  e = LoopReconnected /\ IsConnected r' = true /\ (length pauses <= 10)%nat.
Proof.
  destruct (reconnectLoop _ _ _) as [[r' pauses] e] eqn:Hr.
  assert (e = LoopReconnected) as He by (vm_compute in Hr; congruence).
  apply reconnect_pauses in Hr as (Hl & _ & Hc & _); [|done|split_and!; vm_compute; by intros].
  split; [exact He|]. split; [by apply Hc|exact Hl].
Defined.
