(* ===== verification/QueuePublish.v ===== *)
(** * Publishing: internal/queue/publisher.go

    The options of a publication, one message, a batch, and the loop with retries, over the
    connection of [QueueRabbit].  What the broker answers to a publication in confirm mode
    is an argument.  The text of a body is opaque. *)

From S2P Require Import Prelude QueueMessage QueueRabbit.

(** ** Options *)

(* go: internal/queue/publisher.go type PublishMode *)
Inductive PublishMode : Type :=
| PublishModeNormal
| PublishModeConfirm
| PublishModeMandatory.

#[export] Instance publish_mode_eq_dec : EqDecision PublishMode.
Proof. solve_decision. Defined.

(* go: internal/queue/publisher.go type publishConfig *)
Record publishConfig := mkPublishConfig {
  pc_mode : PublishMode;
  pc_exchange : string;
  pc_headers : option Headers;
  pc_contentType : string;
  pc_priority : Z;
  pc_expiration : string;
  pc_timestamp : Z;
  pc_appID : string;
  pc_userID : string;
  pc_messageID : string
}.

(* go: internal/queue/publisher.go type PublishOption *)
Definition PublishOption : Type := publishConfig -> publishConfig.

(* go: internal/queue/publisher.go func defaultPublishConfig *)
Definition defaultPublishConfig (now : Z) : publishConfig :=
  mkPublishConfig PublishModeNormal "" None "application/json" 0 "" now "" "" "".

Definition set_mode (m : PublishMode) : PublishOption := fun c =>
  mkPublishConfig m (pc_exchange c) (pc_headers c) (pc_contentType c) (pc_priority c) (pc_expiration c)
    (pc_timestamp c) (pc_appID c) (pc_userID c) (pc_messageID c).
Definition set_exchange (x : string) : PublishOption := fun c =>
  mkPublishConfig (pc_mode c) x (pc_headers c) (pc_contentType c) (pc_priority c) (pc_expiration c)
    (pc_timestamp c) (pc_appID c) (pc_userID c) (pc_messageID c).

(* go: internal/queue/publisher.go func WithConfirmMode *)
Definition WithConfirmMode : PublishOption := set_mode PublishModeConfirm.
(* go: internal/queue/publisher.go func WithMandatoryMode *)
Definition WithMandatoryMode : PublishOption := set_mode PublishModeMandatory.
(* go: internal/queue/publisher.go func WithHeaders *)
Definition WithHeaders (h : option Headers) : PublishOption := fun c =>
  mkPublishConfig (pc_mode c) (pc_exchange c) h (pc_contentType c) (pc_priority c) (pc_expiration c)
    (pc_timestamp c) (pc_appID c) (pc_userID c) (pc_messageID c).
(* go: internal/queue/publisher.go func WithContentType *)
Definition WithContentType (ct : string) : PublishOption := fun c =>
  mkPublishConfig (pc_mode c) (pc_exchange c) (pc_headers c) ct (pc_priority c) (pc_expiration c)
    (pc_timestamp c) (pc_appID c) (pc_userID c) (pc_messageID c).
(* go: internal/queue/publisher.go func WithPriority *)
Definition WithPriority (p : Z) : PublishOption := fun c =>
  mkPublishConfig (pc_mode c) (pc_exchange c) (pc_headers c) (pc_contentType c) p (pc_expiration c)
    (pc_timestamp c) (pc_appID c) (pc_userID c) (pc_messageID c).
(* go: internal/queue/publisher.go func WithExpiration *)
Definition WithExpiration (e : string) : PublishOption := fun c =>
  mkPublishConfig (pc_mode c) (pc_exchange c) (pc_headers c) (pc_contentType c) (pc_priority c) e
    (pc_timestamp c) (pc_appID c) (pc_userID c) (pc_messageID c).
(* go: internal/queue/publisher.go func WithAppID *)
Definition WithAppID (a : string) : PublishOption := fun c =>
  mkPublishConfig (pc_mode c) (pc_exchange c) (pc_headers c) (pc_contentType c) (pc_priority c) (pc_expiration c)
    (pc_timestamp c) a (pc_userID c) (pc_messageID c).
(* go: internal/queue/publisher.go func WithMessageID *)
Definition WithMessageID (m : string) : PublishOption := fun c =>
  mkPublishConfig (pc_mode c) (pc_exchange c) (pc_headers c) (pc_contentType c) (pc_priority c) (pc_expiration c)
    (pc_timestamp c) (pc_appID c) (pc_userID c) m.

(** The delivery mode 2 is [amqp.Persistent]. *)
(* go: internal/queue/publisher.go func Publisher.buildPublishing *)
Definition buildPublishing (body : string) (cfg : publishConfig) : Publishing :=
  mkPublishing body (pc_contentType cfg) (pc_timestamp cfg) (pc_priority cfg) (pc_appID cfg) (pc_messageID cfg)
    (pc_headers cfg) 2 (pc_expiration cfg).

Definition apply_options (now : Z) (exchange : string) (opts : list PublishOption) : publishConfig :=
  set_exchange exchange (foldl (fun c opt => opt c) (defaultPublishConfig now) opts).

(** ** Errors *)

#[warnings="-register-all"]
Inductive PublishError : Type :=
| ErrAcquire (err : RabbitError)
| ErrConfirmMode (err : string)
| ErrPublish (err : string)
| ErrContext
| ErrConfirmClosed
| ErrNotConfirmed (tag : Z)
| ErrBatchItem (i : nat) (err : string)
| ErrBatchClosed (confirmed total : nat)
| ErrBatchNotConfirmed (tag : Z)
| ErrEnvelope (err : EnvelopeError)
| ErrEncode
| ErrRetries (maxRetries : Z) (last : option PublishError).

(** What ends the wait for a confirmation. *)
Inductive confirm_event : Type :=
| ContextDone
| ConfirmsClosed
| Confirmation (ack : bool) (tag : Z).

Inductive pub_call : Type :=
| Answer (r : go_result unit PublishError)
| Waits.

Section publisher.
Context {W : Type} `{Amqp W}.
Implicit Types r : RabbitMQ W.

(** [exchange] is the publisher's.  The deferred release comes last, whatever the body
    does. *)
Definition with_channel r (body : nat -> RabbitMQ W -> RabbitMQ W * go_result unit PublishError)
    : RabbitMQ W * pub_call :=
  match AcquireChannel r with
  | (r1, Done (Err err)) => (r1, Answer (Err (ErrAcquire err)))
  | (r1, Done Panic) => (r1, Answer Panic)
  | (r1, Blocks) => (r1, Waits)
  | (r1, Done (Ok ch)) =>
      let '(r2, res) := body ch r1 in
      match ReleaseChannel (Some ch) r2 with
      | (r3, Done (Ok _)) => (r3, Answer res)
      | (r3, _) => (r3, Answer Panic)
      end
  end.

Definition is_mandatory (cfg : publishConfig) : bool := bool_decide (pc_mode cfg = PublishModeMandatory).

(** The deferred close of a channel in confirm mode. *)
Definition closing (ch : nat) (p : RabbitMQ W * go_result unit PublishError) : RabbitMQ W * go_result unit PublishError :=
  (set_world (ch_Close ch (rmq_world p.1)).1 p.1, p.2).

Definition publish_one (cfg : publishConfig) (key body : string) (wrap : string -> PublishError) (ch : nat) r
    : RabbitMQ W * go_result unit PublishError :=
  match ch_Publish ch (pc_exchange cfg) key (is_mandatory cfg) (buildPublishing body cfg) (rmq_world r) with
  | (w, Some err) => (set_world w r, Err (wrap err))
  | (w, None) => (set_world w r, Ok ())
  end.

Definition confirm_result (ev : confirm_event) : go_result unit PublishError :=
  match ev with
  | ContextDone => Err ErrContext
  | ConfirmsClosed => Err ErrConfirmClosed
  | Confirmation true _ => Ok ()
  | Confirmation false tag => Err (ErrNotConfirmed tag)
  end.

(* go: internal/queue/publisher.go func Publisher.Publish *)
Definition Publish (now : Z) (ev : confirm_event) (exchange routingKey body : string) (opts : list PublishOption) r
    : RabbitMQ W * pub_call :=
  let cfg := apply_options now exchange opts in
  with_channel r (fun ch r =>
    if decide (pc_mode cfg = PublishModeConfirm) then
      match ch_Confirm ch (rmq_world r) with
      | (w, Some err) => (set_world w r, Err (ErrConfirmMode err))
      | (w, None) =>
          closing ch
            (match publish_one cfg routingKey body ErrPublish ch (set_world w r) with
             | (r1, Ok _) => (r1, confirm_result ev)
             | p => p
             end)
      end
    else publish_one cfg routingKey body ErrPublish ch r).

(** The items [i], ... of a batch, up to the first error. *)
Fixpoint publish_all (cfg : publishConfig) (key : string) (i : nat) (bodies : list string) (ch : nat) r
    : RabbitMQ W * go_result unit PublishError :=
  match bodies with
  | [] => (r, Ok ())
  | body :: bodies =>
      match publish_one cfg key body (ErrBatchItem i) ch r with
      | (r1, Ok _) => publish_all cfg key (S i) bodies ch r1
      | p => p
      end
  end.

(** [n] confirmations are awaited after [confirmed] of [total]; [evs] gives them in turn. *)
Fixpoint await_confirms (evs : nat -> confirm_event) (n confirmed total : nat) : go_result unit PublishError :=
  match n with
  | O => Ok ()
  | S n =>
      match evs confirmed with
      | ContextDone => Err ErrContext
      | ConfirmsClosed => Err (ErrBatchClosed confirmed total)
      | Confirmation false tag => Err (ErrBatchNotConfirmed tag)
      | Confirmation true _ => await_confirms evs n (S confirmed) total
      end
  end.

(* go: internal/queue/publisher.go func Publisher.PublishBatch *)
Definition PublishBatch (now : Z) (evs : nat -> confirm_event) (exchange routingKey : string) (bodies : list string)
    (opts : list PublishOption) r : RabbitMQ W * pub_call :=
  match bodies with
  | [] => (r, Answer (Ok ()))
  | _ =>
      let cfg := apply_options now exchange opts in
      with_channel r (fun ch r =>
        if decide (pc_mode cfg = PublishModeConfirm) then
          match ch_Confirm ch (rmq_world r) with
          | (w, Some err) => (set_world w r, Err (ErrConfirmMode err))
          | (w, None) =>
              closing ch
                (match publish_all cfg routingKey 0 bodies ch (set_world w r) with
                 | (r1, Ok _) => (r1, await_confirms evs (length bodies) 0 (length bodies))
                 | p => p
                 end)
          end
        else publish_all cfg routingKey 0 bodies ch r)
  end.

(** [body] is the outcome of encoding the value. *)
(* go: internal/queue/publisher.go func Publisher.PublishJSON *)
Definition PublishJSON (now : Z) (ev : confirm_event) (exchange routingKey : string) (body : option string)
    (opts : list PublishOption) r : RabbitMQ W * pub_call :=
  match body with
  | None => (r, Answer (Err ErrEncode))
  | Some body => Publish now ev exchange routingKey body opts r
  end.

(** [text] is the text of a JSON tree.  The headers of the envelope come after the caller's
    options. *)
(* go: internal/queue/publisher.go func Publisher.PublishEnvelope *)
Definition PublishEnvelope (text : json -> string) (now : Z) (ev : confirm_event) (exchange routingKey : string)
    (env : Envelope) (opts : list PublishOption) r : RabbitMQ W * Envelope * pub_call :=
  match Marshal env with
  | (env', Err err) => (r, env', Answer (Err (ErrEnvelope err)))
  | (env', Panic) => (r, env', Answer Panic)
  | (env', Ok data) =>
      let '(r', res) := Publish now ev exchange routingKey (text data) (opts ++ [WithHeaders (env_Headers env')]) r in
      (r', env', res)
  end.

(** What the attempt [i] reads from outside: whether the context ends its pause, the clock and
    the confirmation. *)
Record retry_env := mkRetryEnv {
  re_cancel : bool;
  re_now : Z;
  re_event : confirm_event
}.

(** The rounds from [attempt] on, [n] of them, with the pauses made and the number of
    publications tried. *)
Fixpoint publish_loop (env : nat -> retry_env) (exchange routingKey body : string) (maxRetries : Z)
    (opts : list PublishOption) (n attempt : nat) (lastErr : option PublishError) r
    : RabbitMQ W * list Z * nat * pub_call :=
  match n with
  | O => (r, [], O, Answer (Err (ErrRetries maxRetries lastErr)))
  | S n =>
      let pause := if decide (attempt = O) then [] else [int64 (Z.of_nat attempt * 100 * Millisecond)] in
      if bool_decide (attempt <> O) && re_cancel (env attempt) then (r, pause, O, Answer (Err ErrContext))
      else
        match Publish (re_now (env attempt)) (re_event (env attempt)) exchange routingKey body opts r with
        | (r1, Answer (Ok _)) => (r1, pause, 1%nat, Answer (Ok ()))
        | (r1, Answer (Err err)) =>
            let '(r2, pauses, tried, res) :=
              publish_loop env exchange routingKey body maxRetries opts n (S attempt) (Some err) r1 in
            (r2, pause ++ pauses, S tried, res)
        | (r1, res) => (r1, pause, 1%nat, res)
        end
  end.

(* go: internal/queue/publisher.go func Publisher.PublishWithRetry *)
Definition PublishWithRetry (env : nat -> retry_env) (exchange routingKey body : string) (maxRetries : Z)
    (opts : list PublishOption) r : RabbitMQ W * list Z * nat * pub_call :=
  publish_loop env exchange routingKey body maxRetries opts (Z.to_nat (maxRetries + 1)) O None r.

(** ** One message *)

Lemma pc_exchange_options now exchange opts : pc_exchange (apply_options now exchange opts) = exchange.
Proof. done. Qed.

Lemma with_channel_open r ch l body :
  rmq_channels r = ch :: l -> ch_IsClosed ch (rmq_world r) = false ->
  with_channel r body =
    let '(r2, res) := body ch (set_channels l r) in
    match ReleaseChannel (Some ch) r2 with
    | (r3, Done (Ok _)) => (r3, Answer res)
    | (r3, _) => (r3, Answer Panic)
    end.
Proof. intros Hc Ho. unfold with_channel, AcquireChannel. by rewrite Hc, Ho. Qed.

(** The channel taken from a full or partly filled pool has room to go back. *)
Lemma release_after_take r ch l w :
  pool_ok r -> rmq_chansClosed r = false -> rmq_channels r = ch :: l ->
  ReleaseChannel (Some ch) (set_world w (set_channels l r)) = (set_world w (set_channels (l ++ [ch]) r), Done (Ok ())).
Proof.
  intros [Hl _] Hc Hch. unfold ReleaseChannel. simpl. rewrite Hc.
  rewrite (proj2 (has_room_free _)); [done|]. unfold free, pool_size. simpl. rewrite Hch in Hl. simpl in Hl. lia.
Qed.

Lemma take_release r ch l body w res :
  pool_ok r -> rmq_chansClosed r = false -> rmq_channels r = ch :: l -> ch_IsClosed ch (rmq_world r) = false ->
  body ch (set_channels l r) = (set_world w (set_channels l r), res) ->
  with_channel r body = (set_world w (set_channels (l ++ [ch]) r), Answer res).
Proof.
  intros Hr Hc Hch Ho Hb. rewrite (with_channel_open r ch l) by done. rewrite Hb.
  by rewrite release_after_take.
Qed.

Definition first_error (err : option string) (wrap : string -> PublishError) (ok : go_result unit PublishError)
    : go_result unit PublishError :=
  match err with Some e => Err (wrap e) | None => ok end.

(** One message published on an open channel of the pool.  The broker is asked once, with
    the exchange of the publisher, the key, and a persistent message of the options; the
    channel goes to the back of the pool on every path.  Without confirmations the answer is
    the broker's.  In confirm mode the message is not mandatory, the answer is nil exactly
    when the broker took the message and confirmed it, and the channel that goes back to the
    pool is one that was just closed: taking it later means opening another. *)
Theorem Publish_correct now ev exchange key body opts r ch l :
  pool_ok r -> rmq_chansClosed r = false -> rmq_channels r = ch :: l -> ch_IsClosed ch (rmq_world r) = false ->
  let cfg := apply_options now exchange opts in
  let msg := buildPublishing body cfg in
  let back w := set_world w (set_channels (l ++ [ch]) r) in
  pb_DeliveryMode msg = 2 /\ pb_Body msg = body /\
  (pc_mode cfg <> PublishModeConfirm ->
     let '(w, err) := ch_Publish ch exchange key (is_mandatory cfg) msg (rmq_world r) in
     Publish now ev exchange key body opts r = (back w, Answer (first_error err ErrPublish (Ok ()))))
  /\ (pc_mode cfg = PublishModeConfirm ->
     let '(w1, cerr) := ch_Confirm ch (rmq_world r) in
     let '(w2, perr) := ch_Publish ch exchange key false msg w1 in
     match cerr with
     | Some e => Publish now ev exchange key body opts r = (back w1, Answer (Err (ErrConfirmMode e)))
     | None =>
         let w3 := (ch_Close ch w2).1 in
         let res := first_error perr ErrPublish (confirm_result ev) in
         Publish now ev exchange key body opts r = (back w3, Answer res)
         /\ (res = Ok () <-> perr = None /\ exists tag, ev = Confirmation true tag)
         /\ (l = [] -> ch_IsClosed ch w3 = true ->
              AcquireChannel (back w3) = newChannel (set_world w3 (set_channels [] r)))
     end).
Proof.
  intros Hr Hc Hch Ho cfg msg back. split; [done|]. split; [done|]. split.
  - intros Hm. destruct (ch_Publish _ _ _ _ _ _) as [w err] eqn:Hp. unfold Publish, back.
    apply take_release; [done..|]. fold cfg. rewrite decide_False by done. unfold publish_one.
    change (rmq_world (set_channels l r)) with (rmq_world r). fold msg.
    replace (pc_exchange cfg) with exchange by done. rewrite Hp. by destruct err.
  - intros Hm. destruct (ch_Confirm _ _) as [w1 cerr] eqn:Hcf.
    destruct (ch_Publish _ _ _ _ _ _) as [w2 perr] eqn:Hp.
    assert (is_mandatory cfg = false) as Hman by (unfold is_mandatory; by rewrite Hm).
    destruct cerr as [e|].
    { unfold Publish, back. apply take_release; [done..|]. fold cfg. rewrite decide_True by done. simpl. by rewrite Hcf. }
    split; [|split].
    + unfold Publish, back. apply take_release; [done..|]. fold cfg. rewrite decide_True by done. simpl.
      rewrite Hcf. unfold publish_one. simpl. fold msg. replace (pc_exchange cfg) with exchange by done.
      rewrite Hman, Hp. by destruct perr.
    + destruct perr, ev as [| |[]]; simpl; naive_solver.
    + intros -> Hcl. unfold AcquireChannel, back. simpl. by rewrite Hcl.
Qed.

(** ** Retries *)

Section retry.
Context (env : nat -> retry_env) (exchange key body : string) (opts : list PublishOption) (r0 : RabbitMQ W).

Definition publish_try (i : nat) (r : RabbitMQ W) : RabbitMQ W * pub_call :=
  Publish (re_now (env i)) (re_event (env i)) exchange key body opts r.

(** The connection after [k] tries, and the answer of the try [k]. *)
Fixpoint after (k : nat) : RabbitMQ W :=
  match k with O => r0 | S k => (publish_try k (after k)).1 end.
Definition answer (k : nat) : pub_call := (publish_try k (after k)).2.

(** The try [i] fails, and the context lets its pause end. *)
Definition fails (i : nat) (err : PublishError) : Prop := answer i = Answer (Err err).
Definition goes_on (i : nat) : Prop := i <> O -> re_cancel (env i) = false.

(** The pauses before the tries from [attempt] on; the first try has none. *)
Definition pauses_from (attempt : nat) (pauses : list Z) : Prop :=
  forall i p, pauses !! i = Some p -> p = int64 (Z.of_nat (Nat.max attempt 1 + i) * 100 * Millisecond).

(** What the rounds from [attempt] on, [n] of them, come to. *)
Definition loop_spec (maxRetries : Z) (attempt n : nat) (lastErr : option PublishError)
    (x : RabbitMQ W * list Z * nat * pub_call) : Prop :=
  let '(r', pauses, tried, res) := x in
  (tried <= n)%nat /\ r' = after (attempt + tried) /\ pauses_from attempt pauses
  /\ (res = Answer (Ok ()) <-> exists k, (k < n)%nat /\ tried = S k /\ answer (attempt + k) = Answer (Ok ())
        /\ (forall i, (i < k)%nat -> exists err, fails (attempt + i) err) /\ forall i, (i <= k)%nat -> goes_on (attempt + i))
  /\ ((forall i, (i < n)%nat -> goes_on (attempt + i) /\ exists err, fails (attempt + i) err) ->
        tried = n /\ exists last, res = Answer (Err (ErrRetries maxRetries last))
        /\ match n with O => last = lastErr | S m => exists err, last = Some err /\ fails (attempt + m) err end).

Lemma after_succ attempt m : after (attempt + S m) = after (S attempt + m).
Proof. by rewrite Nat.add_succ_r. Qed.

Lemma loop_cancel M attempt n lastErr pauses :
  pauses_from attempt pauses -> attempt <> O -> re_cancel (env attempt) = true ->
  loop_spec M attempt (S n) lastErr (after attempt, pauses, O, Answer (Err ErrContext)).
Proof.
  intros Hp Ha Hc. unfold loop_spec. rewrite Nat.add_0_r. split_and!; [lia|done|done|..].
  - split; [done|]. intros (k & _ & ? & _). lia.
  - intros Hall. destruct (Hall 0%nat) as [Hg _]; [lia|]. rewrite Nat.add_0_r in Hg. specialize (Hg Ha). congruence.
Qed.

Lemma loop_stop M attempt n lastErr pauses ans :
  pauses_from attempt pauses -> goes_on attempt -> answer attempt = ans -> (forall err, ans <> Answer (Err err)) ->
  loop_spec M attempt (S n) lastErr (after (S attempt), pauses, 1%nat, ans).
Proof.
  intros Hp Hg Ha Hne. unfold loop_spec. rewrite after_succ, Nat.add_0_r. split_and!; [lia|done|done|..].
  - split.
    + intros ->. exists 0%nat. rewrite Nat.add_0_r. split_and!; [lia|done|done|by intros; lia|].
      intros i Hi. by replace (attempt + i)%nat with attempt by lia.
    + intros (k & _ & [= <-] & Hk & _). rewrite Nat.add_0_r in Hk. congruence.
  - intros Hall. destruct (Hall 0%nat) as [_ [err He]]; [lia|]. unfold fails in He. rewrite Nat.add_0_r in He.
    exfalso. apply (Hne err). congruence.
Qed.

Lemma loop_next M attempt n lastErr err ps r2 pauses tried res :
  goes_on attempt -> fails attempt err -> pauses_from attempt (ps ++ pauses) ->
  loop_spec M (S attempt) n (Some err) (r2, pauses, tried, res) ->
  loop_spec M attempt (S n) lastErr (r2, ps ++ pauses, S tried, res).
Proof.
  intros Hgo Hans Hps (Hl & Hr2 & _ & Hok & Hfail). unfold loop_spec. rewrite after_succ. split_and!; [lia|done|done|..].
  - rewrite Hok. split.
    + intros (k & Hk & -> & Hak & Hfk & Hgk). exists (S k). rewrite Nat.add_succ_r. split_and!; [lia|done|done|..].
      * intros [|i] Hi; [rewrite Nat.add_0_r; by exists err|]. rewrite Nat.add_succ_r. apply Hfk. lia.
      * intros [|i] Hi; [by rewrite Nat.add_0_r|]. rewrite Nat.add_succ_r. apply Hgk. lia.
    + intros ([|k] & Hk & Htr & Hak & Hfk & Hgk); [unfold fails in Hans; rewrite Nat.add_0_r in Hak; congruence|].
      rewrite Nat.add_succ_r in Hak. exists k. split_and!; [lia|lia|done|..]; intros i Hi.
      * specialize (Hfk (S i) ltac:(lia)). by rewrite Nat.add_succ_r in Hfk.
      * specialize (Hgk (S i) ltac:(lia)). by rewrite Nat.add_succ_r in Hgk.
  - intros Hall. destruct Hfail as (-> & last & -> & Hlast).
    { intros i Hi. specialize (Hall (S i) ltac:(lia)). by rewrite Nat.add_succ_r in Hall. }
    split; [done|]. exists last. split; [done|]. destruct n as [|m].
    + exists err. rewrite Nat.add_0_r. by split.
    + by rewrite Nat.add_succ_r.
Qed.

Lemma publish_loop_spec M n : forall attempt lastErr,
  loop_spec M attempt n lastErr (publish_loop env exchange key body M opts n attempt lastErr (after attempt)).
Proof.
  induction n as [|n IH]; intros attempt lastErr; simpl.
  { unfold loop_spec. rewrite Nat.add_0_r. split_and!; [lia|done|done|split; [done|]; intros (? & ? & _); lia|].
    intros _. split; [done|]. by eexists. }
  set (ps := if decide (attempt = 0%nat) then [] else _).
  assert (forall pauses, pauses_from (S attempt) pauses -> pauses_from attempt (ps ++ pauses)) as Hps.
  { intros pauses Hp i p. unfold ps. case_decide as Ha; simpl.
    - intros Hi. rewrite (Hp _ _ Hi). do 3 f_equal. lia.
    - destruct i as [|i]; simpl; [intros [= <-]; do 3 f_equal; lia|].
      intros Hi. rewrite (Hp _ _ Hi). do 3 f_equal. lia. }
  assert (pauses_from attempt ps) as Hps0 by (rewrite <- (app_nil_r ps); by apply Hps).
  destruct (bool_decide (attempt <> 0%nat) && re_cancel (env attempt)) eqn:Hcan.
  { apply andb_prop in Hcan as [Ha%bool_decide_eq_true Hcan]. by apply loop_cancel. }
  assert (goes_on attempt) as Hgo by (intros Ha; by rewrite bool_decide_true in Hcan).
  change (Publish (re_now (env attempt)) (re_event (env attempt)) exchange key body opts (after attempt))
    with (publish_try attempt (after attempt)).
  destruct (publish_try attempt (after attempt)) as [r1 ans] eqn:Ht.
  assert (answer attempt = ans) as Hans by (unfold answer; by rewrite Ht).
  assert (r1 = after (S attempt)) as -> by (simpl; by rewrite Ht).
  destruct ans as [[[]|err|]|]; try by apply loop_stop.
  specialize (IH (S attempt) (Some err)). destruct (publish_loop _ _ _ _ _ _ _ _ _ _) as [[[r2 pauses] tried] res].
  apply (loop_next _ _ _ _ err); [done|done| |done]. apply Hps. by destruct IH as (_ & _ & ? & _).
Qed.
End retry.

(** Publishing with retries.  The loop makes at most [maxRetries + 1] tries, one after the
    other ([after] is the connection after some tries, [answer] what a try answers), and
    pauses 100 ms times its number before each but the first.  It answers nil exactly when
    some try [k <= maxRetries] answered nil, all before it failed and the context let every
    pause end; it then stops.  When every try fails the error keeps the last one; with a
    negative [maxRetries] nothing is published and that is an error too. *)
Theorem PublishWithRetry_correct env exchange key body maxRetries opts r r' pauses tried res :
  PublishWithRetry env exchange key body maxRetries opts r = (r', pauses, tried, res) ->
  let after := after env exchange key body opts r in
  let answer := answer env exchange key body opts r in
  (Z.of_nat tried <= Z.max 0 (maxRetries + 1)) /\ r' = after tried
  /\ (forall i p, pauses !! i = Some p -> p = int64 (Z.of_nat (1 + i) * 100 * Millisecond))
  /\ (res = Answer (Ok ()) <-> exists k, Z.of_nat k <= maxRetries /\ tried = S k /\ answer k = Answer (Ok ())
        /\ (forall i, (i < k)%nat -> exists err, answer i = Answer (Err err))
        /\ forall i, (0 < i <= k)%nat -> re_cancel (env i) = false)
  /\ ((forall i, Z.of_nat i <= maxRetries -> (i <> O -> re_cancel (env i) = false) /\ exists err, answer i = Answer (Err err)) ->
        Z.of_nat tried = Z.max 0 (maxRetries + 1)
        /\ (maxRetries < 0 -> res = Answer (Err (ErrRetries maxRetries None)))
        /\ (0 <= maxRetries -> exists err, answer (Z.to_nat maxRetries) = Answer (Err err)
              /\ res = Answer (Err (ErrRetries maxRetries (Some err))))).
Proof.
  intros Hr. simpl. unfold PublishWithRetry in Hr.
  pose proof (publish_loop_spec env exchange key body opts r maxRetries (Z.to_nat (maxRetries + 1)) 0 None) as Hs.
  simpl in Hs. rewrite Hr in Hs. destruct Hs as (Hl & Hr' & Hp & Hok & Hfail). simpl in *.
  split_and!; [lia|done|done|..].
  - rewrite Hok. split; intros (k & ? & ? & ? & ? & Hg); exists k; split_and!; try done; try lia.
    + intros i Hi. apply Hg; lia.
    + intros i Hi ?. apply Hg; lia.
  - intros Hall. destruct Hfail as (-> & last & -> & Hlast).
    { intros i Hi. apply Hall. lia. }
    split_and!; [lia|..].
    + intros Hneg. replace (Z.to_nat (maxRetries + 1)) with 0%nat in Hlast by lia. by rewrite Hlast.
    + intros Hpos. replace (Z.to_nat (maxRetries + 1)) with (S (Z.to_nat maxRetries)) in Hlast by lia.
      destruct Hlast as (err & -> & He). by exists err.
Qed.
End publisher.

(** The broker of [QueueRabbit]: a message in confirm mode that is refused once, then taken. *)
Lemma PublishWithRetry_correct_witness :
  let env i := mkRetryEnv false 0 (Confirmation (negb (Nat.eqb i 0)) 1) in
  let '(r', pauses, tried, res) := PublishWithRetry env "x" "k" "{}" 3 [WithConfirmMode] toy_rabbit in
  res = Answer (Ok ()) /\ pauses = [100 * Millisecond] /\ tried = 2%nat /\ length (tb_log (rmq_world r')) = 2%nat
  /\ exists k, Z.of_nat k <= 3 /\ tried = S k.
Proof.
  intros env. destruct (PublishWithRetry _ _ _ _ _ _ _) as [[[r' pauses] tried] res] eqn:Hr.
  assert ((res = Answer (Ok ()) /\ pauses = [100 * Millisecond]) /\ (tried = 2%nat /\ length (tb_log (rmq_world r')) = 2%nat))
    as [[Hres Hpa] [Ht Hlog]] by (vm_compute in Hr; injection Hr as <- <- <- <-; vm_compute; auto).
  pose proof (PublishWithRetry_correct _ _ _ _ _ _ _ _ _ _ _ Hr) as (_ & _ & _ & Hok & _).
  split; [exact Hres|]. split; [exact Hpa|]. split; [exact Ht|]. split; [exact Hlog|].
  apply Hok in Hres as (k & Hk & Hk2 & _). by exists k.
Defined.

Lemma Publish_correct_witness :
  exists r', Publish 0 ContextDone "x" "k" "{}" [] toy_rabbit = (r', Answer (Ok ()))
    /\ rmq_channels toy_rabbit = [1; 2]%nat /\ rmq_channels r' = [2; 1]%nat.
Proof.
  assert (rmq_channels toy_rabbit = 1%nat :: [2%nat]) as Hc by reflexivity.
  assert (ch_IsClosed 1 (rmq_world toy_rabbit) = false) as Hcl by reflexivity.
  assert (pool_ok toy_rabbit) as Hp by (split; [vm_compute; by intros|done]).
  destruct (Publish_correct 0 ContextDone "x" "k" "{}" [] toy_rabbit 1 [2%nat] Hp eq_refl Hc Hcl) as (_ & _ & Hn & _).
  assert (pc_mode (apply_options 0 "x" []) <> PublishModeConfirm) as Hm by (vm_compute; discriminate).
  specialize (Hn Hm). eexists. split; [exact Hn|]. split; [exact Hc|]. reflexivity.
Defined.
