(* ===== verification/QueueConsumer.v ===== *)
(** * Consuming: internal/queue/consumer.go

    What a worker does with one message (its attempts, pauses and how it is settled), the
    loop of a worker, starting and cancelling a consumer over the connection of
    [QueueRabbit], and the pool of consumers.  What the handler answers and when the context
    is done are arguments.  Cancelling waits for the workers, or for its timeout: either way
    it goes on. *)

From S2P Require Import Prelude QueueMessage QueueRabbit.

(** ** Configuration *)

(** [Args] is never set. *)
(* go: internal/queue/consumer.go type ConsumerConfig *)
Record ConsumerConfig := mkConsumerConfig {
  cc_Queue : string;
  cc_ConsumerTag : string;
  cc_AutoAck : bool;
  cc_Exclusive : bool;
  cc_NoLocal : bool;
  cc_NoWait : bool;
  cc_PrefetchCount : Z;
  cc_PrefetchGlobal : bool;
  cc_Concurrency : Z;
  cc_RequeueOnFail : bool;
  cc_MaxRetry : Z;
  cc_RetryDelay : Z;
  cc_ShutdownTimeout : Z
}.

(** [nanos] is the clock. *)
(* go: internal/queue/consumer.go func DefaultConsumerConfig *)
Definition DefaultConsumerConfig (nanos : Z) (queue : string) : ConsumerConfig :=
  mkConsumerConfig queue ("consumer-" +:+ queue +:+ "-" +:+ itoa nanos) false false false false 10 false 1 true 3
    Second (10 * Second).

(** ** One message *)

(** How a message is settled with the broker. *)
Inductive settlement : Type :=
| Acked
| Nacked (requeue : bool).

(** What an attempt reads from outside: whether the context is done before it and during its
    pause, and what the handler answers. *)
Record process_env := mkProcessEnv {
  pe_done : bool;
  pe_doneWait : bool;
  pe_err : option string
}.

(** The calls of the handler, the pauses, and the settlement sent. *)
Record processed := mkProcessed {
  pr_calls : nat;
  pr_pauses : list Z;
  pr_settled : option settlement
}.

(* go: internal/queue/consumer.go func Consumer.nack *)
Definition nack (cfg : ConsumerConfig) (requeue : bool) : option settlement :=
  if cc_AutoAck cfg then None else Some (Nacked requeue).

(** The pause before an attempt that is not the first. *)
Definition retry_delay (cfg : ConsumerConfig) (attempt : nat) : Z :=
  int64 (cc_RetryDelay cfg * int64 (2 ^ (Z.of_nat attempt - 1))).

Definition call_first (p : processed) : processed := mkProcessed (S (pr_calls p)) (pr_pauses p) (pr_settled p).
Definition pause_first (d : list Z) (p : processed) : processed :=
  mkProcessed (pr_calls p) (d ++ pr_pauses p) (pr_settled p).

(** [n] rounds from [attempt] on. *)
(* go: internal/queue/consumer.go @142-185 Consumer.processMessage *)
Fixpoint process_loop (cfg : ConsumerConfig) (env : nat -> process_env) (n attempt : nat) : processed :=
  match n with
  | O => mkProcessed 0 [] (nack cfg (cc_RequeueOnFail cfg))
  | S n =>
      let e := env attempt in
      let delay := if decide (attempt = O) then [] else [retry_delay cfg attempt] in
      if pe_done e then mkProcessed 0 [] (nack cfg false)
      else pause_first delay
        (if bool_decide (attempt <> O) && pe_doneWait e then mkProcessed 0 [] (nack cfg false)
         else call_first
           (match pe_err e with
            | Some _ => process_loop cfg env n (S attempt)
            | None => mkProcessed 0 [] (if cc_AutoAck cfg then None else Some Acked)
            end))
  end.

(* go: internal/queue/consumer.go func Consumer.processMessage *)
Definition processMessage (cfg : ConsumerConfig) (env : nat -> process_env) : processed :=
  process_loop cfg env (Z.to_nat (cc_MaxRetry cfg + 1)) O.

(** ** A worker *)

(** What one round of the loop receives. *)
Inductive worker_event : Type :=
| WorkerDone
| DeliveriesClosed
| Message (d : Delivery) (env : nat -> process_env).

(** The messages processed, with how; [None] when the loop still waits. *)
(* go: internal/queue/consumer.go func Consumer.workerLoop *)
Fixpoint workerLoop (cfg : ConsumerConfig) (evs : list worker_event) : list (Delivery * processed) * bool :=
  match evs with
  | [] => ([], false)
  | WorkerDone :: _ | DeliveriesClosed :: _ => ([], true)
  | Message d env :: evs =>
      let '(l, stopped) := workerLoop cfg evs in ((d, processMessage cfg env) :: l, stopped)
  end.

(** ** Starting and cancelling *)

Inductive ConsumerError : Type :=
| ErrAlreadyRunning
| ErrAcquireChannel (err : RabbitError)
| ErrQos (err : string)
| ErrConsume (err : string)
| ErrStartConsumer (tag : string) (err : ConsumerError).

(** [con_cancel] is set once there is a context to cancel; [con_workers] counts the workers
    started, and [con_channel] is the channel that is given back when the context is
    done. *)
(* go: internal/queue/consumer.go type Consumer *)
Record Consumer := mkConsumer {
  con_cfg : ConsumerConfig;
  con_running : bool;
  con_cancel : bool;
  con_workers : Z;
  con_channel : option nat
}.

(* go: internal/queue/consumer.go func NewConsumer *)
Definition NewConsumer (cfg : ConsumerConfig) : Consumer := mkConsumer cfg false false 0 None.

(* go: internal/queue/consumer.go func Consumer.IsRunning *)
Definition IsRunning (c : Consumer) : bool := con_running c.

Inductive start_call : Type :=
| StartAnswer (r : go_result unit ConsumerError)
| StartWaits.

Section consumer.
Context {W : Type} `{Amqp W}.
Implicit Types r : RabbitMQ W.

(** An error after the channel was taken gives it back. *)
Definition release_err (ch : nat) (err : ConsumerError) r : RabbitMQ W * start_call :=
  match ReleaseChannel (Some ch) r with
  | (r1, Done (Ok _)) => (r1, StartAnswer (Err err))
  | (r1, _) => (r1, StartAnswer Panic)
  end.

(** [running] is set before anything can fail. *)
(* go: internal/queue/consumer.go func Consumer.Start *)
Definition Start (c : Consumer) r : Consumer * RabbitMQ W * start_call :=
  if con_running c then (c, r, StartAnswer (Err ErrAlreadyRunning))
  else
    let cfg := con_cfg c in
    let c1 := mkConsumer cfg true true (con_workers c) (con_channel c) in
    match AcquireChannel r with
    | (r1, Done (Err err)) => (c1, r1, StartAnswer (Err (ErrAcquireChannel err)))
    | (r1, Done Panic) => (c1, r1, StartAnswer Panic)
    | (r1, Blocks) => (c1, r1, StartWaits)
    | (r1, Done (Ok ch)) =>
        match ch_Qos ch (cc_PrefetchCount cfg) (cc_PrefetchGlobal cfg) (rmq_world r1) with
        | (w, Some err) => let '(r2, res) := release_err ch (ErrQos err) (set_world w r1) in (c1, r2, res)
        | (w, None) =>
            match ch_Consume ch (cc_Queue cfg) (cc_ConsumerTag cfg) w with
            | (w, Some err) => let '(r2, res) := release_err ch (ErrConsume err) (set_world w r1) in (c1, r2, res)
            | (w, None) =>
                (mkConsumer cfg true true (con_workers c + Z.max 0 (cc_Concurrency cfg)) (Some ch), set_world w r1,
                 StartAnswer (Ok ()))
            end
        end
    end.

(** The context ends, by [cancel] or by its parent: the workers stop, and the channel goes
    back to the pool, by a goroutine that may panic. *)
(* go: internal/queue/consumer.go @107-110 Consumer.Start *)
Definition end_context (c : Consumer) r : Consumer * RabbitMQ W * call unit :=
  let '(r1, res) := ReleaseChannel (con_channel c) r in
  (mkConsumer (con_cfg c) (con_running c) (con_cancel c) 0 None, r1, res).

Definition set_running (b : bool) (c : Consumer) : Consumer :=
  mkConsumer (con_cfg c) b (con_cancel c) (con_workers c) (con_channel c).

(* go: internal/queue/consumer.go func Consumer.Cancel *)
Definition Cancel (c : Consumer) r : Consumer * RabbitMQ W * call unit :=
  if con_running c then
    let '(c1, r1, res) := if con_cancel c then end_context c r else (c, r, Done (Ok ())) in
    (set_running false c1, r1, res)
  else (c, r, Done (Ok ())).

(** ** The pool of consumers *)

(* go: internal/queue/consumer.go type ConsumerPool *)
Definition ConsumerPool : Type := list Consumer.

(* go: internal/queue/consumer.go func NewConsumerPool *)
Definition NewConsumerPool : ConsumerPool := [].
(* go: internal/queue/consumer.go func ConsumerPool.Add *)
Definition Add (c : Consumer) (p : ConsumerPool) : ConsumerPool := p ++ [c].

(** The first consumer that fails ends the loop. *)
(* go: internal/queue/consumer.go func ConsumerPool.StartAll *)
Fixpoint StartAll (p : ConsumerPool) r : ConsumerPool * RabbitMQ W * start_call :=
  match p with
  | [] => ([], r, StartAnswer (Ok ()))
  | c :: p =>
      match Start c r with
      | (c1, r1, StartAnswer (Ok _)) => let '(p1, r2, res) := StartAll p r1 in (c1 :: p1, r2, res)
      | (c1, r1, StartAnswer (Err err)) =>
          (c1 :: p, r1, StartAnswer (Err (ErrStartConsumer (cc_ConsumerTag (con_cfg c)) err)))
      | (c1, r1, res) => (c1 :: p, r1, res)
      end
  end.

(* go: internal/queue/consumer.go func ConsumerPool.StopAll *)
Fixpoint StopAll (p : ConsumerPool) r : ConsumerPool * RabbitMQ W :=
  match p with
  | [] => ([], r)
  | c :: p =>
      let '(c1, r1, _) := Cancel c r in
      let '(p1, r2) := StopAll p r1 in (c1 :: p1, r2)
  end.
End consumer.

(** ** Settling a message *)

Inductive attempt_outcome : Type :=
| Cancelled
| Succeeded
| Failed.

(** What an attempt comes to. *)
Definition outcome_of (env : nat -> process_env) (i : nat) : attempt_outcome :=
  if pe_done (env i) || (bool_decide (i <> O) && pe_doneWait (env i)) then Cancelled
  else match pe_err (env i) with None => Succeeded | Some _ => Failed end.

Section settle.
Context (cfg : ConsumerConfig) (env : nat -> process_env).

(** Where the rounds from [attempt] on, [n] of them, end: at the first that does not fail. *)
Definition settled_spec (n attempt : nat) (p : processed) : Prop :=
  (exists k, (k < n)%nat /\ (forall i, (i < k)%nat -> outcome_of env (attempt + i) = Failed)
     /\ (outcome_of env (attempt + k) = Succeeded /\ pr_calls p = S k
            /\ pr_settled p = (if cc_AutoAck cfg then None else Some Acked)
          \/ outcome_of env (attempt + k) = Cancelled /\ pr_calls p = k /\ pr_settled p = nack cfg false))
  \/ (forall i, (i < n)%nat -> outcome_of env (attempt + i) = Failed) /\ pr_calls p = n
     /\ pr_settled p = nack cfg (cc_RequeueOnFail cfg).

Lemma settled_next n attempt p :
  outcome_of env attempt = Failed -> settled_spec n (S attempt) p -> settled_spec (S n) attempt (call_first p).
Proof.
  intros Hf [(k & Hk & Hi & Hc)|(Hi & Hc & Hs)].
  - left. exists (S k). rewrite Nat.add_succ_r. split; [lia|]. split.
    + intros [|i] Hlt; [by rewrite Nat.add_0_r|]. rewrite Nat.add_succ_r. apply Hi. lia.
    + destruct Hc as [(? & ? & ?)|(? & ? & ?)]; [left|right]; simpl; repeat split; done || lia.
  - right. split; [|by simpl; rewrite Hc].
    intros [|i] Hlt; [by rewrite Nat.add_0_r|]. rewrite Nat.add_succ_r. apply Hi. lia.
Qed.

(** A round that ends the loop. *)
Lemma settled_here n attempt p :
  (outcome_of env attempt = Succeeded /\ pr_calls p = 1%nat /\ pr_settled p = (if cc_AutoAck cfg then None else Some Acked)
   \/ outcome_of env attempt = Cancelled /\ pr_calls p = 0%nat /\ pr_settled p = nack cfg false) ->
  settled_spec (S n) attempt p.
Proof. intros Hp. left. exists 0%nat. rewrite Nat.add_0_r. split; [lia|]. split; [by intros; lia|done]. Qed.

Lemma process_loop_spec n : forall attempt, settled_spec n attempt (process_loop cfg env n attempt).
Proof.
  induction n as [|n IH]; intros attempt; [right; split; [by intros; lia|done]|]. simpl.
  pose proof (eq_refl : outcome_of env attempt = outcome_of env attempt) as Ho. unfold outcome_of in Ho at 2.
  destruct (pe_done (env attempt)); [by apply settled_here; right|].
  destruct (bool_decide (attempt <> 0%nat) && pe_doneWait (env attempt)); simpl in Ho; [by apply settled_here; right|].
  destruct (pe_err (env attempt)); [|by apply settled_here; left].
  by apply settled_next.
Qed.

Lemma process_loop_pauses n : forall attempt i d,
  pr_pauses (process_loop cfg env n attempt) !! i = Some d -> d = retry_delay cfg (Nat.max attempt 1 + i).
Proof.
  assert (forall attempt ps, (forall i d, ps !! i = Some d -> d = retry_delay cfg (S attempt + i)) -> forall i d,
    ((if decide (attempt = 0%nat) then [] else [retry_delay cfg attempt]) ++ ps) !! i = Some d ->
    d = retry_delay cfg (Nat.max attempt 1 + i)) as Hps.
  { intros attempt ps Hp i d. case_decide as Ha; simpl.
    - intros Hi. rewrite (Hp _ _ Hi). f_equal. lia.
    - destruct i as [|i]; simpl; [intros [= <-]; f_equal; lia|]. intros Hi. rewrite (Hp _ _ Hi). f_equal. lia. }
  induction n as [|n IH]; intros attempt i d; simpl; [done|].
  destruct (pe_done (env attempt)); [done|]. apply Hps. clear i d. intros i d.
  destruct (bool_decide (attempt <> 0%nat) && pe_doneWait (env attempt)); [done|].
  destruct (pe_err (env attempt)); [|done]. simpl. intros Hd%IH. by rewrite Hd, Nat.max_l by lia.
Qed.
End settle.


(** Every message a worker receives is settled by it, in order. *)
Lemma workerLoop_processes cfg evs d p : (d, p) ∈ (workerLoop cfg evs).1 -> exists env, p = processMessage cfg env.
Proof.
  induction evs as [|[| |d' env] evs IH]; simpl; [set_solver..|].
  destruct (workerLoop cfg evs) as [l b]. simpl in *. rewrite elem_of_cons. intros [[= -> ->]|Hin]; eauto.
Qed.

(** With the default configuration a message whose handler always fails is put back in the
    queue, each time after four calls. *)
Example default_requeues env : (forall i, outcome_of env i = Failed) ->
  processMessage (DefaultConsumerConfig 0 "q") env
  = mkProcessed 4 [Second; 2 * Second; 4 * Second] (Some (Nacked true)).
Proof.
  intros Hf. unfold processMessage. change (Z.to_nat _) with 4%nat. unfold process_loop.
  pose proof (Hf 0%nat) as H0. pose proof (Hf 1%nat) as H1. pose proof (Hf 2%nat) as H2. pose proof (Hf 3%nat) as H3.
  unfold outcome_of in *. simpl in *.
  destruct (pe_done (env 0%nat)), (pe_err (env 0%nat)), (pe_done (env 1%nat)), (pe_doneWait (env 1%nat)), (pe_err (env 1%nat)),
    (pe_done (env 2%nat)), (pe_doneWait (env 2%nat)), (pe_err (env 2%nat)), (pe_done (env 3%nat)), (pe_doneWait (env 3%nat)),
    (pe_err (env 3%nat)); done.
Qed.

(** ** Starting and stopping *)

Section lifecycle.
Context {W : Type} `{Amqp W}.
Implicit Types r : RabbitMQ W.

Lemma Start_running c r : con_running (Start c r).1.1 = true.
Proof.
  unfold Start. destruct (con_running c) eqn:Hr; [done|].
  destruct (AcquireChannel r) as [r1 [[ch|e|]|]]; try done. destruct (ch_Qos _ _ _ _) as [w [e|]].
  - by destruct (release_err _ _ _).
  - destruct (ch_Consume _ _ _ _) as [w' [e|]]; [|done]. by destruct (release_err _ _ _).
Qed.

Lemma Start_cfg c r : con_cfg (Start c r).1.1 = con_cfg c.
Proof.
  unfold Start. destruct (con_running c) eqn:Hr; [done|].
  destruct (AcquireChannel r) as [r1 [[ch|e|]|]]; try done. destruct (ch_Qos _ _ _ _) as [w [e|]].
  - by destruct (release_err _ _ _).
  - destruct (ch_Consume _ _ _ _) as [w' [e|]]; [|done]. by destruct (release_err _ _ _).
Qed.
Lemma Start_running_err c r : con_running c = true -> Start c r = (c, r, StartAnswer (Err ErrAlreadyRunning)).
Proof. intros Hc. unfold Start. by rewrite Hc. Qed.

Lemma release_err_not_ok ch err r : (release_err ch err r).2 <> StartAnswer (Ok ()).
Proof. unfold release_err. by destruct (ReleaseChannel _ _) as [r1 [[]|]]. Qed.

(** A consumer that did not start has no workers. *)
Lemma Start_failed c r c1 r1 res :
  Start c r = (c1, r1, res) -> con_running c = false -> res <> StartAnswer (Ok ()) ->
  con_workers c1 = con_workers c /\ con_channel c1 = con_channel c.
Proof.
  intros Hs Hc Hr. revert Hs. unfold Start. rewrite Hc.
  destruct (AcquireChannel r) as [r2 [[ch|e|]|]]; [|intros [= <- _ _]; done..].
  destruct (ch_Qos _ _ _ _) as [w [e|]]; [destruct (release_err _ _ _); by intros [= <- _ _]|].
  destruct (ch_Consume _ _ _ _) as [w' [e|]]; [destruct (release_err _ _ _); by intros [= <- _ _]|].
  by intros [= <- _ <-].
Qed.

Lemma Start_started c r c1 r1 :
  Start c r = (c1, r1, StartAnswer (Ok ())) ->
  con_running c = false /\ con_workers c1 = con_workers c + Z.max 0 (cc_Concurrency (con_cfg c))
  /\ exists ch, con_channel c1 = Some ch.
Proof.
  unfold Start. destruct (con_running c); [done|]. destruct (AcquireChannel r) as [r2 [[ch|e|]|]]; [|done..].
  assert (forall e w, release_err ch e w <> (r1, StartAnswer (Ok ()))) as Hne.
  { intros e w He. pose proof (release_err_not_ok ch e w) as Hn. by rewrite He in Hn. }
  destruct (ch_Qos _ _ _ _) as [w [e|]].
  { destruct (release_err _ _ _) as [r3 res] eqn:He. intros [= _ -> ->]. by apply Hne in He. }
  destruct (ch_Consume _ _ _ _) as [w' [e|]].
  { destruct (release_err _ _ _) as [r3 res] eqn:He. intros [= _ -> ->]. by apply Hne in He. }
  intros [= <- _]. split; [done|]. split; [done|]. by exists ch.
Qed.

Lemma Cancel_stops c r : con_running c = true -> con_cancel c = true -> let c1 := (Cancel c r).1.1 in
  con_running c1 = false /\ con_workers c1 = 0 /\ con_channel c1 = None.
Proof.
  intros Hr Hc. unfold Cancel, end_context. rewrite Hr, Hc. by destruct (ReleaseChannel _ _) as [r1 res].
Qed.

(** A consumer that has not been started, or was cancelled. *)
Definition idle (c : Consumer) : Prop := con_running c = false /\ con_workers c = 0 /\ con_channel c = None.

(** One that runs: its workers, and the channel to give back. *)
Definition active (c : Consumer) : Prop :=
  con_running c = true /\ con_cancel c = true /\ con_workers c = Z.max 0 (cc_Concurrency (con_cfg c))
  /\ exists ch, con_channel c = Some ch.

(** Marked as running, without workers. *)
Definition half_started (c : Consumer) : Prop :=
  con_running c = true /\ con_cancel c = true /\ con_workers c = 0 /\ con_channel c = None.

Lemma Start_cancel c r : con_running c = false -> con_cancel (Start c r).1.1 = true.
Proof.
  intros Hr. unfold Start. rewrite Hr. destruct (AcquireChannel r) as [r1 [[ch|e|]|]]; try done.
  destruct (ch_Qos _ _ _ _) as [w [e|]]; [by destruct (release_err _ _ _)|].
  destruct (ch_Consume _ _ _ _) as [w' [e|]]; [|done]. by destruct (release_err _ _ _).
Qed.

(** What starting an idle consumer makes of it. *)
Lemma Start_idle c r c1 r1 res : idle c -> Start c r = (c1, r1, res) ->
  con_cfg c1 = con_cfg c /\ (res = StartAnswer (Ok ()) /\ active c1 \/ res <> StartAnswer (Ok ()) /\ half_started c1).
Proof.
  intros (Hi & Hw & Hc) Hs. pose proof (Start_running c r) as Hr. pose proof (Start_cfg c r) as Hcfg.
  pose proof (Start_cancel c r Hi) as Hcan. rewrite Hs in Hr, Hcfg, Hcan. simpl in *. split; [done|].
  assert (res <> StartAnswer (Ok ()) -> half_started c1) as Hh.
  { intros Hne. destruct (Start_failed _ _ _ _ _ Hs Hi Hne) as [Hw1 Hc1]. split_and!; congruence. }
  destruct res as [[[]|e|]|]; [left|right; split; [done|by apply Hh]..]. split; [done|].
  destruct (Start_started _ _ _ _ Hs) as (_ & Hw1 & ch & Hch).
  split_and!; [done|done|rewrite Hw1, Hw, Hcfg; lia|by exists ch].
Qed.

Lemma StopAll_idle p : forall r, Forall (fun c => active c \/ half_started c \/ idle c) p -> Forall idle (StopAll p r).1.
Proof.
  induction p as [|c p IH]; intros r Hp; [constructor|]. apply Forall_cons in Hp as [Hc Hp]. simpl.
  assert (idle (Cancel c r).1.1) as Hi.
  { destruct Hc as [(? & ? & _)|[(? & ? & _)|Hc]]; [by apply Cancel_stops..|].
    unfold Cancel. destruct Hc as (Hr & ? & ?). by rewrite Hr. }
  destruct (Cancel c r) as [[c1 r1] res]. specialize (IH r1 Hp). destruct (StopAll p r1) as [p1 r2].
  simpl in *. by constructor.
Qed.

(** The pool after [StartAll]: all started, or the first failure splits it. *)
Definition pool_shape (p1 : ConsumerPool) (res : start_call) : Prop :=
  (res = StartAnswer (Ok ()) /\ Forall active p1)
  \/ (res <> StartAnswer (Ok ()) /\ exists l c rest, p1 = l ++ c :: rest /\ Forall active l /\ half_started c
       /\ Forall idle rest).

Lemma pool_shape_fail c p res : half_started c -> Forall idle p -> res <> StartAnswer (Ok ()) -> pool_shape (c :: p) res.
Proof. intros Hc Hp Hr. right. split; [done|]. by exists [], c, p. Qed.

Lemma pool_shape_cons c p res : active c -> pool_shape p res -> pool_shape (c :: p) res.
Proof.
  intros Hc [[-> Ha]|(Hr & l & c' & rest & -> & Hl & Hh & Hre)]; [left; by auto|right].
  split; [done|]. exists (c :: l), c', rest. by auto.
Qed.

Lemma StartAll_shape p : forall r p1 r1 res,
  Forall idle p -> StartAll p r = (p1, r1, res) -> pool_shape p1 res /\ length p1 = length p.
Proof.
  induction p as [|c p IH]; intros r p1 r1 res Hi; simpl; [intros [= <- <- <-]; split; [by left|done]|].
  apply Forall_cons in Hi as [Hc Hi]. destruct (Start c r) as [[c1 r2] st] eqn:Hst.
  destruct (Start_idle _ _ _ _ _ Hc Hst) as [_ Ho].
  destruct st as [[[]|err|]|]; [|destruct Ho as [[? _]|[_ Hh]]; [done|]; intros [= <- <- <-];
    split; [by apply pool_shape_fail|done]..].
  destruct Ho as [[_ Ha]|[? _]]; [|done]. destruct (StartAll p r2) as [[p2 r3] res2] eqn:Hall.
  intros [= <- <- <-]. destruct (IH _ _ _ _ Hi Hall) as [Hp Hlen]. split; [by apply pool_shape_cons|simpl; lia].
Qed.

Lemma pool_shape_any p res : pool_shape p res -> Forall (fun c => active c \/ half_started c \/ idle c) p.
Proof.
  intros [[_ Ha]|(_ & l & c & rest & -> & Ha & Hh & Hre)]; [by eapply Forall_impl; [done|auto]|].
  apply Forall_app. split; [by eapply Forall_impl; [done|auto]|]. constructor; [by auto|]. by eapply Forall_impl; [done|auto].
Qed.

(** Starting a pool of idle consumers, and stopping it.  Either all start, each with its
    workers and a channel to give back; or the first that fails is left marked as running
    without workers, those before it run and those after it are untouched.  In both cases a
    second [StartAll] does nothing and fails at the first consumer, which is already
    running: a failed start is only repaired by [StopAll], after which every consumer is
    idle again. *)
Theorem StartAll_correct p r p1 r1 res :
  p <> [] -> Forall idle p -> StartAll p r = (p1, r1, res) ->
  ((res = StartAnswer (Ok ()) /\ Forall active p1)
   \/ (res <> StartAnswer (Ok ()) /\ exists l c rest, p1 = l ++ c :: rest /\ Forall active l /\ half_started c
         /\ Forall idle rest))
  /\ length p1 = length p
  /\ (exists tag, forall r', StartAll p1 r' = (p1, r', StartAnswer (Err (ErrStartConsumer tag ErrAlreadyRunning))))
  /\ forall r', Forall idle (StopAll p1 r').1.
Proof.
  intros Hne Hi Hs. destruct (StartAll_shape _ _ _ _ _ Hi Hs) as [Hp Hl].
  split; [done|]. split; [done|]. split; [|intros r'; by eapply StopAll_idle, pool_shape_any].
  destruct p1 as [|c p1]; [by destruct p|]. exists (cc_ConsumerTag (con_cfg c)). intros r'. simpl.
  rewrite Start_running_err; [done|].
  destruct Hp as [[_ Ha]|(_ & [|c' l] & c'' & rest & [= -> ->] & Ha & Hh & _)];
    [by apply Forall_cons in Ha as [[? _] _]|by destruct Hh|by apply Forall_cons in Ha as [[? _] _]].
Qed.
End lifecycle.

(** A pool of two, over a connection that has been shut down by the broker: the first cannot
    start. *)
Lemma StartAll_correct_witness :
  let p := Add (NewConsumer (DefaultConsumerConfig 0 "b")) (Add (NewConsumer (DefaultConsumerConfig 0 "a")) NewConsumerPool) in
  let r := set_channels [] (set_world (mkToy 3 [0%nat] []) toy_rabbit) in
  let p1 := (StartAll p r).1.1 in
  IsRunning (default (NewConsumer (DefaultConsumerConfig 0 "a")) (head p1)) = true
  /\ exists tag, StartAll p1 toy_rabbit = (p1, toy_rabbit, StartAnswer (Err (ErrStartConsumer tag ErrAlreadyRunning))).
Proof.
  intros p r p1. split; [reflexivity|]. assert (p <> []) as Hne by discriminate.
  assert (Forall idle p) as Hi by (repeat constructor).
  destruct (StartAll p r) as [[q r1] res] eqn:Hs.
  destruct (StartAll_correct p r q r1 res Hne Hi Hs) as (_ & _ & (tag & Ht) & _).
  exists tag. unfold p1. apply Ht.
Defined.
