(* ===== verification/QueueTopology.v ===== *)
(** * The topology of the broker: internal/queue/topology.go

    The descriptions of exchanges, queues and bindings, the arguments a queue is declared
    with, the builder that declares them all, and the topology the program declares. *)

From S2P Require Import Prelude GoStrings QueueMessage QueueRabbit.

Abbreviation ExchangeType := string.
Definition ExchangeDirect : ExchangeType := "direct".
Definition ExchangeTopic : ExchangeType := "topic".
Definition ExchangeFanout : ExchangeType := "fanout".
Definition ExchangeHeaders : ExchangeType := "headers".
Definition ExchangeDelayed : ExchangeType := "x-delayed-message".

(* go: internal/queue/topology.go type ExchangeConfig *)
Record ExchangeConfig := mkExchangeConfig {
  ec_Name : string;
  ec_Type : ExchangeType;
  ec_Durable : bool;
  ec_AutoDelete : bool;
  ec_Internal : bool;
  ec_NoWait : bool;
  ec_Args : option Headers
}.

(* go: internal/queue/topology.go type QueueConfig *)
Record QueueConfig := mkQueueConfig {
  qc_Name : string;
  qc_Durable : bool;
  qc_AutoDelete : bool;
  qc_Exclusive : bool;
  qc_NoWait : bool;
  qc_Args : option Headers;
  qc_DLX : string;
  qc_DLQ : string;
  qc_DLXRouting : string;
  qc_MessageTTL : Z;
  qc_MaxLength : Z;
  qc_MaxLengthBytes : Z;
  qc_MaxPriority : Z
}.

(* go: internal/queue/topology.go type BindingConfig *)
Record BindingConfig := mkBindingConfig {
  bc_Queue : string;
  bc_Exchange : string;
  bc_Routing : string;
  bc_NoWait : bool;
  bc_Args : option Headers
}.

(* go: internal/queue/topology.go func defaultExchangeArgs *)
Definition defaultExchangeArgs (exchange : string) : Headers := {["x-delayed-type" := AnyString "direct"]}.

Definition arg_string (cond key v : string) (args : Headers) : Headers :=
  if String.eqb cond "" then args else <[key := AnyString v]> args.
Definition arg_int (key : string) (v : Z) (args : Headers) : Headers :=
  if 0 <? v then <[key := AnyInt v]> args else args.

(** The routing key is set when there is a [DLQ]. *)
(* go: internal/queue/topology.go func defaultQueueArgs *)
Definition defaultQueueArgs (qc : QueueConfig) : Headers :=
  arg_int "x-max-priority" (qc_MaxPriority qc)
    (arg_int "x-max-length-bytes" (qc_MaxLengthBytes qc)
       (arg_int "x-max-length" (qc_MaxLength qc)
          (arg_int "x-message-ttl" (qc_MessageTTL qc)
             (arg_string (qc_DLQ qc) "x-dead-letter-routing-key" (qc_DLXRouting qc)
                (arg_string (qc_DLX qc) "x-dead-letter-exchange" (qc_DLX qc) ∅))))).

(** What a queue is declared with: its own arguments win. *)
(* go: internal/queue/topology.go @146-151 DeclareQueue *)
Definition queue_args (qc : QueueConfig) : Headers :=
  match qc_Args qc with Some args => args ∪ defaultQueueArgs qc | None => defaultQueueArgs qc end.

(* go: internal/queue/topology.go type TopologyBuilder *)
Record TopologyBuilder := mkTopologyBuilder {
  tb_exchanges : list ExchangeConfig;
  tb_queues : list QueueConfig;
  tb_bindings : list BindingConfig
}.

(* go: internal/queue/topology.go func NewTopologyBuilder *)
Definition NewTopologyBuilder : TopologyBuilder := mkTopologyBuilder [] [] [].
(* go: internal/queue/topology.go func TopologyBuilder.AddExchange *)
Definition AddExchange (x : ExchangeConfig) (tb : TopologyBuilder) : TopologyBuilder :=
  mkTopologyBuilder (tb_exchanges tb ++ [x]) (tb_queues tb) (tb_bindings tb).
(* go: internal/queue/topology.go func TopologyBuilder.AddQueue *)
Definition AddQueue (q : QueueConfig) (tb : TopologyBuilder) : TopologyBuilder :=
  mkTopologyBuilder (tb_exchanges tb) (tb_queues tb ++ [q]) (tb_bindings tb).
(* go: internal/queue/topology.go func TopologyBuilder.AddBinding *)
Definition AddBinding (b : BindingConfig) (tb : TopologyBuilder) : TopologyBuilder :=
  mkTopologyBuilder (tb_exchanges tb) (tb_queues tb) (tb_bindings tb ++ [b]).

Inductive TopologyError : Type :=
| ErrDeclareExchange (name err : string)
| ErrDeclareQueue (name err : string)
| ErrBindQueue (queue exchange err : string)
| ErrTopologyChannel (err : RabbitError)
| ErrPurge (queue err : string)
| ErrInspect (queue err : string).

Section declare.
Context {W : Type} `{Amqp W}.

(** The flags other than durability are never set. *)
(* go: internal/queue/topology.go func DeclareExchange *)
Definition DeclareExchange (ch : nat) (x : ExchangeConfig) (w : W) : W * option string :=
  ch_ExchangeDeclare ch (ec_Name x) (ec_Type x) (ec_Durable x) (ec_Args x) w.
(* go: internal/queue/topology.go func DeclareQueue *)
Definition DeclareQueue (ch : nat) (q : QueueConfig) (w : W) : W * option string :=
  ch_QueueDeclare ch (qc_Name q) (qc_Durable q) (queue_args q) w.
(* go: internal/queue/topology.go func BindQueue *)
Definition BindQueue (ch : nat) (b : BindingConfig) (w : W) : W * option string :=
  ch_QueueBind ch (bc_Queue b) (bc_Routing b) (bc_Exchange b) w.

(** Declare in order, up to the first error. *)
Fixpoint declare_list {A} (f : A -> W -> W * option string) (wrap : A -> string -> TopologyError) (l : list A) (w : W)
    : W * option TopologyError :=
  match l with
  | [] => (w, None)
  | a :: l =>
      match f a w with
      | (w1, Some err) => (w1, Some (wrap a err))
      | (w1, None) => declare_list f wrap l w1
      end
  end.

(* go: internal/queue/topology.go func TopologyBuilder.DeclareAll *)
Definition DeclareAll (tb : TopologyBuilder) (ch : nat) (w : W) : W * option TopologyError :=
  match declare_list (DeclareExchange ch) (fun x => ErrDeclareExchange (ec_Name x)) (tb_exchanges tb) w with
  | (w1, Some err) => (w1, Some err)
  | (w1, None) =>
      match declare_list (DeclareQueue ch) (fun q => ErrDeclareQueue (qc_Name q)) (tb_queues tb) w1 with
      | (w2, Some err) => (w2, Some err)
      | (w2, None) =>
          declare_list (BindQueue ch) (fun b => ErrBindQueue (bc_Queue b) (bc_Exchange b)) (tb_bindings tb) w2
      end
  end.

(** ** The topology of the program *)

Definition exchange (name : string) (t : ExchangeType) : ExchangeConfig := mkExchangeConfig name t true false false false None.
Definition plain_queue (name : string) (args : option Headers) (dlx routing : string) : QueueConfig :=
  mkQueueConfig name true false false false args dlx "" routing 0 0 0 0.
Definition bind (queue x routing : string) : BindingConfig := mkBindingConfig queue x routing false None.

(* go: internal/queue/topology.go @185-257 DeclareTopology *)
Definition topology : TopologyBuilder :=
  AddBinding (bind "nexuspipe.notifications" "nexuspipe.topic" "notification.#")
  (AddBinding (bind "nexuspipe.events" "nexuspipe.topic" "event.#")
  (AddQueue (plain_queue "nexuspipe.notifications" None "nexuspipe.dlx" "dead-letter")
  (AddQueue (plain_queue "nexuspipe.events" None "nexuspipe.dlx" "dead-letter")
  (AddExchange (exchange "nexuspipe.fanout" ExchangeFanout)
  (AddExchange (exchange "nexuspipe.topic" ExchangeTopic)
  (AddExchange (exchange "nexuspipe.direct" ExchangeDirect)
  (AddBinding (bind "nexuspipe.dlq" "nexuspipe.dlx" "dead-letter")
  (AddQueue (plain_queue "nexuspipe.dlq"
               (Some {["x-message-ttl" := AnyInt 60000; "x-dead-letter-exchange" := AnyString "nexuspipe.direct"]}) "" "")
  (AddExchange (exchange "nexuspipe.dlx" ExchangeDirect) NewTopologyBuilder))))))))).

Inductive topology_call : Type :=
| Declared (r : go_result unit TopologyError)
| DeclareWaits.

(* go: internal/queue/topology.go func DeclareTopology *)
Definition DeclareTopology (r : RabbitMQ W) : RabbitMQ W * topology_call :=
  match AcquireChannel r with
  | (r1, Done (Err err)) => (r1, Declared (Err (ErrTopologyChannel err)))
  | (r1, Done Panic) => (r1, Declared Panic)
  | (r1, Blocks) => (r1, DeclareWaits)
  | (r1, Done (Ok ch)) =>
      let '(w, err) := DeclareAll topology ch (rmq_world r1) in
      match ReleaseChannel (Some ch) (set_world w r1) with
      | (r2, Done (Ok _)) => (r2, Declared (match err with Some e => Err e | None => Ok () end))
      | (r2, _) => (r2, Declared Panic)
      end
  end.

(* go: internal/queue/topology.go func PurgeQueue *)
Definition PurgeQueue (ch : nat) (queue : string) (w : W) : W * go_result Z TopologyError :=
  match ch_QueuePurge ch queue w with
  | (w1, Ok count) => (w1, Ok count)
  | (w1, Err err) => (w1, Err (ErrPurge queue err))
  | (w1, Panic) => (w1, Panic)
  end.

(* go: internal/queue/topology.go func QueueLength *)
Definition QueueLength (ch : nat) (queue : string) (w : W) : W * go_result Z TopologyError :=
  match ch_QueueInspect ch queue w with
  | (w1, Ok count) => (w1, Ok count)
  | (w1, Err err) => (w1, Err (ErrInspect queue err))
  | (w1, Panic) => (w1, Panic)
  end.

(** ** Declaring *)

(** The error is that of the first item that fails; those before it have been declared. *)
Lemma declare_list_spec {A} (f : A -> W -> W * option string) wrap (l : list A) : forall w w' res,
  declare_list f wrap l w = (w', res) ->
  match res with
  | None => foldl (fun p a => match p with (w, None) => f a w | _ => p end) (w, None) l = (w', None)
  | Some e => exists l1 a l2 w1 err, l = l1 ++ a :: l2 /\ e = wrap a err
      /\ foldl (fun p a => match p with (w, None) => f a w | _ => p end) (w, None) l1 = (w1, None)
      /\ f a w1 = (w', Some err)
  end.
Proof.
  induction l as [|a l IH]; intros w w' res; simpl; [by intros [= <- <-]|].
  destruct (f a w) as [w1 [err|]] eqn:Hf.
  - intros [= <- <-]. by exists [], a, l, w, err.
  - intros Hl%IH. destruct res as [e|]; [|done]. destruct Hl as (l1 & b & l2 & w2 & err & -> & -> & Hl & Hb).
    exists (a :: l1), b, l2, w2, err. simpl. by rewrite Hf.
Qed.
End declare.

(** ** Dead letters *)

(** What AMQP and RabbitMQ document: where a queue sends a message that it gives up, by its
    arguments, and which queues a direct exchange sends a message to. *)
Class DeadLetters := {
  dead_letter : Headers -> string -> option (string * string);
  routed : TopologyBuilder -> string -> string -> string -> Prop
}.

Class DeadLetterLaws `{DeadLetters} := {
  dead_letter_own_key args key x :
    args !! "x-dead-letter-exchange" = Some (AnyString x) -> args !! "x-dead-letter-routing-key" = None ->
    dead_letter args key = Some (x, key);
  dead_letter_set_key args key x k :
    args !! "x-dead-letter-exchange" = Some (AnyString x) -> args !! "x-dead-letter-routing-key" = Some (AnyString k) ->
    dead_letter args key = Some (x, k);
  routed_direct tb x key queue :
    (exists e, e ∈ tb_exchanges tb /\ ec_Name e = x /\ ec_Type e = ExchangeDirect) ->
    routed tb x key queue <-> exists b, b ∈ tb_bindings tb /\ bc_Exchange b = x /\ bc_Routing b = key /\ bc_Queue b = queue
}.

Lemma elem_of_head {A} (x : A) l : x ∈ x :: l.
Proof. by left. Qed.

Section dead_letters.
Context `{DeadLetterLaws}.

(** The queue where a dead letter of queue [q] with routing key [key] arrives. *)
Definition buried (q : QueueConfig) (key queue : string) : Prop :=
  exists x k, dead_letter (queue_args q) key = Some (x, k) /\ routed topology x k queue.

Lemma routed_dlx key queue : routed topology "nexuspipe.dlx" key queue <-> key = "dead-letter"%string /\ queue = "nexuspipe.dlq"%string.
Proof.
  rewrite routed_direct by (eexists; split; [apply elem_of_head|done]).
  split.
  - intros (b & Hb & Hx & <- & <-). unfold topology in Hb. simpl in Hb.
    repeat (apply elem_of_cons in Hb as [->|Hb]; [done|]). by apply elem_of_nil in Hb.
  - intros [-> ->]. eexists. split; [apply elem_of_head|done].
Qed.

Lemma routed_direct_none key queue : ~ routed topology "nexuspipe.direct" key queue.
Proof.
  rewrite routed_direct by (eexists; split; [right; apply elem_of_head|done]).
  intros (b & Hb & Hx & _). unfold topology in Hb. simpl in Hb.
  repeat (apply elem_of_cons in Hb as [->|Hb]; [done|]). by apply elem_of_nil in Hb.
Qed.

(** Dead letters of the declared topology.  The queues for events and notifications name a
    dead-letter exchange, and a routing key "dead-letter" that only takes effect when a
    [DLQ] is set too, which it is not: their dead letters keep their own keys, and reach
    the dead-letter queue only if that key happens to be "dead-letter"; any other is
    dropped.  What does reach the dead-letter queue is sent on after a minute to an exchange
    to which no queue is bound, and dropped. *)
Theorem topology_dead_letters (q : QueueConfig) (key queue : string) :
  q ∈ tb_queues topology ->
  (qc_DLX q = "nexuspipe.dlx"%string -> qc_DLXRouting q = "dead-letter"%string
     /\ (buried q key queue <-> key = "dead-letter"%string /\ queue = "nexuspipe.dlq"%string))
  /\ (qc_DLX q <> "nexuspipe.dlx"%string -> qc_Name q = "nexuspipe.dlq"%string
     /\ queue_args q !! "x-message-ttl" = Some (AnyInt 60000) /\ ~ buried q key queue)
  /\ (buried (mkQueueConfig (qc_Name q) true false false false None "nexuspipe.dlx" "nexuspipe.dlq" "dead-letter" 0 0 0 0) key queue
      <-> queue = "nexuspipe.dlq"%string).
Proof.
  intros Hq. split; [|split].
  - intros Hd. assert (qc_DLXRouting q = "dead-letter"%string /\ dead_letter (queue_args q) key = Some ("nexuspipe.dlx"%string, key))
      as [Hr Hdl].
    { unfold topology in Hq. simpl in Hq. repeat (apply elem_of_cons in Hq as [->|Hq]; [try discriminate Hd|]);
        try (by apply elem_of_nil in Hq); (split; [done|by apply dead_letter_own_key]). }
    split; [done|]. unfold buried. rewrite Hdl, <- routed_dlx. split; [by intros (x & k & [= <- <-] & ?)|intros; by eexists _, _].
  - intros Hd. unfold topology in Hq. simpl in Hq.
    repeat (apply elem_of_cons in Hq as [->|Hq]; [try (by destruct Hd)|]); try (by apply elem_of_nil in Hq).
    split; [done|]. split; [done|]. unfold buried. rewrite (dead_letter_own_key _ _ "nexuspipe.direct") by done.
    intros (x & k & [= <- <-] & Hr). by apply routed_direct_none in Hr.
  - unfold buried. rewrite (dead_letter_set_key _ _ "nexuspipe.dlx" "dead-letter") by done. split.
    + intros (x & k & [= <- <-] & Hr). by apply routed_dlx in Hr as [_ ->].
    + intros ->. eexists _, _. split; [done|]. by apply routed_dlx.
Qed.
End dead_letters.

(** A broker that does what is documented. *)
Definition toy_dead_letter (args : Headers) (key : string) : option (string * string) :=
  match args !! "x-dead-letter-exchange", args !! "x-dead-letter-routing-key" with
  | Some (AnyString x), Some (AnyString k) => Some (x, k)
  | Some (AnyString x), None => Some (x, key)
  | _, _ => None
  end.

#[export] Instance toy_dead_letters : DeadLetters := {
  dead_letter := toy_dead_letter;
  routed tb x key queue := exists b, b ∈ tb_bindings tb /\ bc_Exchange b = x /\ bc_Routing b = key /\ bc_Queue b = queue
}.

#[export] Instance toy_dead_letter_laws : DeadLetterLaws.
Proof.
  split; [intros args key x Hx Hk|intros args key x k Hx Hk|done]; simpl; unfold toy_dead_letter; by rewrite Hx, Hk.
Qed.

Lemma topology_dead_letters_witness :
  let q := plain_queue "nexuspipe.events" None "nexuspipe.dlx" "dead-letter" in
  q ∈ tb_queues topology /\ ~ buried q "event.created" "nexuspipe.dlq".
Proof.
  intros q. assert (q ∈ tb_queues topology) as Hq by (right; apply elem_of_head). split; [exact Hq|].
  destruct (topology_dead_letters q "event.created" "nexuspipe.dlq" Hq) as (Hd & _ & _).
  destruct (Hd eq_refl) as [_ Hb]. intros [Hk _]%Hb. discriminate Hk.
Defined.
