(* ===== verification/WorkerPool.v ===== *)
(** * The worker pool: internal/worker/pool.go

    The pool's configuration, its workers with their goroutines, the channel of tasks, the
    loops that scale it and check its workers, and its metrics.  A worker's pointer is its
    number in the order of creation: [wp_store] holds the workers with what their goroutine
    does, also when they are no longer in the slice [wp_workers].  [wp_muHeld] is a goroutine
    that waits for ever with [mu]: [mu] is not reentrant, and two methods lock it twice.  Logging
    is left out. *)

From S2P Require Import Prelude GoFloat QueueMessage.

(** ** Data *)

(* go: internal/worker/pool.go type WorkerMetrics *)
Record WorkerMetrics := mkWorkerMetrics {
  wm_WorkerID : string;
  wm_TasksProcessed : Z;
  wm_TasksSucceeded : Z;
  wm_TasksFailed : Z;
  wm_TasksRetried : Z;
  wm_TotalDuration : Z;
  wm_AvgDuration : Z;
  wm_LastActivity : Z;
  wm_IsBusy : bool;
  wm_CurrentTaskID : string;
  wm_Panics : Z
}.

(* go: internal/worker/pool.go type PoolConfig *)
Record PoolConfig := mkPoolConfig {
  pc_MinWorkers : Z;
  pc_MaxWorkers : Z;
  pc_ScaleUpFactor : float64;
  pc_ScaleDownFactor : float64;
  pc_IdleThreshold : Z;
  pc_CheckInterval : Z;
  pc_QueueLength : Z;
  pc_TaskTimeout : Z;
  pc_ShutdownTimeout : Z
}.

(** The constants 0.75 and 0.25. *)
(* go: internal/worker/pool.go func DefaultPoolConfig *)
Definition DefaultPoolConfig : PoolConfig :=
  mkPoolConfig 1 20 (f64_div (f64_of_Z 3) (f64_of_Z 4)) f64_quarter
    (30 * Second) (5 * Second) 100 (60 * Second) (15 * Second).

(** [pw_current] is what the [atomic.Value] holds, [None] before the first store. *)
(* go: internal/worker/pool.go type poolWorker *)
Record poolWorker := mkPoolWorker {
  pw_id : string;
  pw_index : nat;
  pw_started : Z;
  pw_tasks : Z;
  pw_panics : Z;
  pw_lastTask : Z;
  pw_busy : bool;
  pw_current : option string
}.

(** A Go channel of capacity 1 for results, made for each task and reachable by its task only. *)
Record result_chan := mkResultChan {
  rc_buf : list (option string);
  rc_closed : bool
}.

(** The context is only asked whether it is done; the delivery and its information are carried
    along and never read. *)
(* go: internal/worker/pool.go type workerTask *)
Record workerTask := mkWorkerTask {
  wt_msg : Delivery;
  wt_env : option Envelope;
  wt_info : option DeliveryInfo;
  wt_result : result_chan
}.

(** What the goroutine of a worker does: it waits in its select, is inside [processTask] since
    a time, or has returned. *)
Inductive goroutine : Type :=
| Waiting
| Processing (start : Z) (task : workerTask)
| Exited.

Inductive PoolError : Type :=
| ErrPoolNotRunning
| ErrPoolCtx
| ErrQueueFull (capacity : Z).

(** [cancel] has no other effect than to end the loops that watch the context: [wp_loops]
    counts those that have not returned. *)
(* go: internal/worker/pool.go type WorkerPool *)
Record WorkerPool := mkWorkerPool {
  wp_cfg : PoolConfig;
  wp_workers : list nat;
  wp_store : gmap nat (poolWorker * goroutine);
  wp_taskCh : list workerTask;
  wp_metrics : gmap string WorkerMetrics;
  wp_running : bool;
  wp_errors : list string;
  wp_workerSeq : nat;
  wp_loops : nat;
  wp_muHeld : bool
}.

(* go: internal/worker/pool.go type PoolMetrics *)
Record PoolMetrics := mkPoolMetrics {
  pm_TotalWorkers : Z;
  pm_BusyWorkers : Z;
  pm_IdleWorkers : Z;
  pm_QueueDepth : Z;
  pm_QueueCapacity : Z
}.

(** A call that needs [mu] may wait for ever. *)
Inductive pool_call (A : Type) : Type :=
| Finished (a : A)
| Waits.
Arguments Finished {A} a.
Arguments Waits {A}.

(** A field of a record replaced. *)
Definition set_workers (l : list nat) (p : WorkerPool) : WorkerPool :=
  mkWorkerPool (wp_cfg p) l (wp_store p) (wp_taskCh p) (wp_metrics p) (wp_running p) (wp_errors p)
    (wp_workerSeq p) (wp_loops p) (wp_muHeld p).
Definition set_store (s : gmap nat (poolWorker * goroutine)) (p : WorkerPool) : WorkerPool :=
  mkWorkerPool (wp_cfg p) (wp_workers p) s (wp_taskCh p) (wp_metrics p) (wp_running p) (wp_errors p)
    (wp_workerSeq p) (wp_loops p) (wp_muHeld p).
Definition set_taskCh (q : list workerTask) (p : WorkerPool) : WorkerPool :=
  mkWorkerPool (wp_cfg p) (wp_workers p) (wp_store p) q (wp_metrics p) (wp_running p) (wp_errors p)
    (wp_workerSeq p) (wp_loops p) (wp_muHeld p).
Definition set_running (b : bool) (p : WorkerPool) : WorkerPool :=
  mkWorkerPool (wp_cfg p) (wp_workers p) (wp_store p) (wp_taskCh p) (wp_metrics p) b (wp_errors p)
    (wp_workerSeq p) (wp_loops p) (wp_muHeld p).
Definition set_loops (n : nat) (p : WorkerPool) : WorkerPool :=
  mkWorkerPool (wp_cfg p) (wp_workers p) (wp_store p) (wp_taskCh p) (wp_metrics p) (wp_running p) (wp_errors p)
    (wp_workerSeq p) n (wp_muHeld p).
Definition set_metrics (m : gmap string WorkerMetrics) (errs : list string) (p : WorkerPool) : WorkerPool :=
  mkWorkerPool (wp_cfg p) (wp_workers p) (wp_store p) (wp_taskCh p) m (wp_running p) errs
    (wp_workerSeq p) (wp_loops p) (wp_muHeld p).
Definition hold_mu (p : WorkerPool) : WorkerPool :=
  mkWorkerPool (wp_cfg p) (wp_workers p) (wp_store p) (wp_taskCh p) (wp_metrics p) (wp_running p) (wp_errors p)
    (wp_workerSeq p) (wp_loops p) true.

(** ** Workers *)

(** A negative capacity of a channel panics. *)
(* go: internal/worker/pool.go func NewWorkerPool *)
Definition NewWorkerPool (cfg : PoolConfig) : go_result WorkerPool PoolError :=
  let min := if pc_MinWorkers cfg <=? 0 then 1 else pc_MinWorkers cfg in
  let max := if pc_MaxWorkers cfg <? min then min else pc_MaxWorkers cfg in
  let cfg := mkPoolConfig min max (pc_ScaleUpFactor cfg) (pc_ScaleDownFactor cfg) (pc_IdleThreshold cfg)
               (pc_CheckInterval cfg) (pc_QueueLength cfg) (pc_TaskTimeout cfg) (pc_ShutdownTimeout cfg) in
  if pc_QueueLength cfg <? 0 then Panic
  else Ok (mkWorkerPool cfg [] ∅ [] ∅ false [] 0 0 false).

Definition worker_id (seq : nat) : string := ("worker-" +:+ itoa (Z.of_nat seq))%string.

(** The body under [mu]. *)
Definition add_locked (now : Z) (p : WorkerPool) : WorkerPool :=
  let seq := S (wp_workerSeq p) in
  let w := mkPoolWorker (worker_id seq) (length (wp_workers p)) now 0 0 0 false None in
  mkWorkerPool (wp_cfg p) (wp_workers p ++ [seq]) (<[seq := (w, Waiting)]> (wp_store p)) (wp_taskCh p)
    (wp_metrics p) (wp_running p) (wp_errors p) seq (wp_loops p) (wp_muHeld p).

(* go: internal/worker/pool.go func WorkerPool.addWorker *)
Definition addWorker (now : Z) (p : WorkerPool) : WorkerPool * pool_call unit :=
  if wp_muHeld p then (p, Waits) else (add_locked now p, Finished ()).

Fixpoint addWorkers (now : Z) (n : nat) (p : WorkerPool) : WorkerPool * pool_call unit :=
  match n with
  | O => (p, Finished ())
  | S n =>
      match addWorker now p with
      | (p', Finished _) => addWorkers now n p'
      | (p', Waits) => (p', Waits)
      end
  end.

(** The caller waits if [mu] is held, as [checkWorkerHealth] does itself. *)
(* go: internal/worker/pool.go func WorkerPool.removeWorker *)
Definition removeWorker (index : Z) (p : WorkerPool) : WorkerPool * pool_call unit :=
  if wp_muHeld p then (p, Waits)
  else if (index <? 0) || (Z.of_nat (length (wp_workers p)) <=? index) then (p, Finished ())
  else (set_workers (take (Z.to_nat index) (wp_workers p) ++ drop (S (Z.to_nat index)) (wp_workers p)) p, Finished ()).

(** [time.NewTicker] panics for an interval that is not positive, in the goroutines of the
    loops: this ends the process. *)
(* go: internal/worker/pool.go func WorkerPool.Start *)
Definition Start (now : Z) (p : WorkerPool) : go_result (WorkerPool * pool_call unit) PoolError :=
  match addWorkers now (Z.to_nat (pc_MinWorkers (wp_cfg p))) (set_running true p) with
  | (p', Waits) => Ok (p', Waits)
  | (p', Finished _) =>
      if pc_CheckInterval (wp_cfg p) <=? 0 then Panic
      else Ok (set_loops (wp_loops p' + 2) p', Finished ())
  end.

Definition exited (x : poolWorker * goroutine) : bool := match x.2 with Exited => true | _ => false end.
(** The count of the wait group is zero. *)
Definition all_exited (p : WorkerPool) : bool := forallb (fun kx => exited kx.2) (map_to_list (wp_store p)).

(** The result tells whether the wait timed out.  What the workers do during the wait can be
    taken before it: nothing of [Stop] depends on it but the count of the wait group. *)
(* go: internal/worker/pool.go func WorkerPool.Stop *)
Definition Stop (p : WorkerPool) : WorkerPool * pool_call bool :=
  if negb (wp_running p) then (p, Finished false)
  else
    let p' := set_running false p in
    if wp_muHeld p then (p', Waits) else (set_workers [] p', Finished (negb (all_exited p))).

(** ** Tasks *)

Definition waiting (k : nat) (p : WorkerPool) : bool :=
  match wp_store p !! k with Some (_, Waiting) => true | _ => false end.

(** Room in the buffer of the channel. *)
Definition has_room (p : WorkerPool) : bool := Z.of_nat (length (wp_taskCh p)) <? pc_QueueLength (wp_cfg p).

(** [w.current.Store(task.env.ID)] panics for a nil envelope, before the deferred function of
    [processTask] is in place; [workerRun] recovers, counts the panic and returns. *)
(* go: internal/worker/pool.go @293-297 WorkerPool.processTask *)
Definition task_begin (k : nat) (now : Z) (task : workerTask) (p : WorkerPool) : WorkerPool :=
  match wp_store p !! k with
  | Some (w, Waiting) =>
      match wt_env task with
      | Some env =>
          set_store (<[k := (mkPoolWorker (pw_id w) (pw_index w) (pw_started w) (int64 (pw_tasks w + 1)) (pw_panics w)
                              (pw_lastTask w) true (Some (env_ID env)), Processing now task)]> (wp_store p)) p
      | None =>
          set_store (<[k := (mkPoolWorker (pw_id w) (pw_index w) (pw_started w) (int64 (pw_tasks w + 1))
                              (int64 (pw_panics w + 1)) (pw_lastTask w) true (pw_current w), Exited)]> (wp_store p)) p
      end
  | _ => p
  end.

(** The select of a worker: the context of [cancelContext] is never done, and the channel of
    tasks is never closed, so that it only ever takes a task. *)
(* go: internal/worker/pool.go @264-289 WorkerPool.workerRun *)
Definition worker_take (k : nat) (now : Z) (p : WorkerPool) : WorkerPool :=
  match wp_taskCh p with
  | task :: q => if waiting k p then task_begin k now task (set_taskCh q p) else p
  | [] => p
  end.

(** [select { case task.result <- nil: case <-task.ctx.Done(): }] and [close]. *)
Definition settle_result (pickCtx : bool) (r : result_chan) : result_chan :=
  mkResultChan (if pickCtx then rc_buf r else rc_buf r ++ [None]) true.

(** [err] has the text of the error that the channel holds. *)
Definition receive_result (r : result_chan) : option string :=
  match rc_buf r with e :: _ => e | [] => None end.

(* go: internal/worker/pool.go func WorkerPool.addError *)
Definition addError (err : string) (errs : list string) : list string :=
  let l := errs ++ [err] in
  if (1000 <? length l)%nat then drop (length l - 500) l else l.

(* go: internal/worker/pool.go func WorkerPool.updateMetrics *)
Definition updateMetrics (w : poolWorker) (start now : Z) (r : result_chan) (p : WorkerPool) : WorkerPool :=
  let err := receive_result r in
  let m := mkWorkerMetrics (pw_id w) (pw_tasks w) (if err is Some _ then 0 else 1) (if err is Some _ then 1 else 0) 0
             (time_Sub now start) 0 now false "" (pw_panics w) in
  set_metrics (<[pw_id w := m]> (wp_metrics p))
    (match err with Some e => addError e (wp_errors p) | None => wp_errors p end) p.

(** [pickCtx] is whether the context is done and its case was taken. *)
(* go: internal/worker/pool.go @299-317 WorkerPool.processTask *)
Definition task_end (k : nat) (now : Z) (pickCtx : bool) (p : WorkerPool) : WorkerPool :=
  match wp_store p !! k with
  | Some (w, Processing start task) =>
      let r := settle_result pickCtx (wt_result task) in
      let w' := mkPoolWorker (pw_id w) (pw_index w) (pw_started w) (pw_tasks w) (pw_panics w) now false (Some EmptyString) in
      updateMetrics w' start now r (set_store (<[k := (w', Waiting)]> (wp_store p)) p)
  | _ => p
  end.

(** [ctxDone]: the context is done; [pickCtx]: of the two cases that are ready, its case is
    taken; [recv]: the waiting worker that receives from a channel without a buffer. *)
(* go: internal/worker/pool.go func WorkerPool.Submit *)
Definition Submit (ctxDone pickCtx : bool) (recv : option nat) (now : Z) (msg : Delivery) (env : option Envelope)
    (info : option DeliveryInfo) (p : WorkerPool) : WorkerPool * option PoolError :=
  if negb (wp_running p) then (p, Some ErrPoolNotRunning)
  else
    let task := mkWorkerTask msg env info (mkResultChan [] false) in
    let receiver := if pc_QueueLength (wp_cfg p) =? 0 then recv else None in
    let handoff := match receiver with Some k => waiting k p | None => false end in
    let ready := has_room p || handoff in
    if ctxDone && (pickCtx || negb ready) then (p, Some ErrPoolCtx)
    else if has_room p then (set_taskCh (wp_taskCh p ++ [task]) p, None)
    else match receiver with
         | Some k => if waiting k p then (task_begin k now task p, None) else (p, Some (ErrQueueFull (pc_QueueLength (wp_cfg p))))
         | None => (p, Some (ErrQueueFull (pc_QueueLength (wp_cfg p))))
         end.

(** ** Inspection *)

(** [ord] is the order of the range over the map. *)
(* go: internal/worker/pool.go func WorkerPool.Metrics *)
Definition Metrics (ord : list string) (p : WorkerPool) : list WorkerMetrics := omap (fun k => wp_metrics p !! k) ord.

Definition busy (p : WorkerPool) (k : nat) : bool :=
  match wp_store p !! k with Some (w, _) => pw_busy w | None => false end.

Definition busy_count (p : WorkerPool) : nat := length (filter (fun k => busy p k = true) (wp_workers p)).

(** The name clashes with the type of its result. *)
(* go: internal/worker/pool.go func WorkerPool.PoolMetrics *)
Definition WorkerPool_PoolMetrics (p : WorkerPool) : PoolMetrics :=
  let total := Z.of_nat (length (wp_workers p)) in
  let b := Z.of_nat (busy_count p) in
  mkPoolMetrics total b (total - b) (Z.of_nat (length (wp_taskCh p))) (pc_QueueLength (wp_cfg p)).

(* go: internal/worker/pool.go func WorkerPool.Errors *)
Definition Errors (p : WorkerPool) : list string := wp_errors p.

(* go: internal/worker/pool.go func WorkerPool.IsRunning *)
Definition IsRunning (p : WorkerPool) : bool := wp_running p.

(** ** The loops *)

Definition panicked (p : WorkerPool) (k : nat) : bool :=
  match wp_store p !! k with Some (w, _) => 3 <? pw_panics w | None => false end.

(** The removal of a worker locks [mu], of which the caller has the read lock: it waits for
    ever. *)
(* go: internal/worker/pool.go func WorkerPool.checkWorkerHealth *)
Definition checkWorkerHealth (p : WorkerPool) : WorkerPool * pool_call unit :=
  if wp_muHeld p then (p, Waits)
  else if existsb (panicked p) (wp_workers p) then (hold_mu p, Waits) else (p, Finished ()).

(** [max(1, int(float64(n)*0.25))]; [out] is the conversion of a value out of range. *)
Definition quarter (out n : Z) : Z :=
  Z.max 1 (f64_to_int64 out (f64_mul (f64_of_Z n) f64_quarter)).

(** The rounds [i], [i - 1], ... of the loop that shortens the slice; a length is far below
    the bounds of an int. *)
Fixpoint trim_workers (i : nat) (removeFrom min : Z) (l : list nat) : list nat :=
  match i with
  | O => if (removeFrom <=? 0) && (min <=? 0) then take 0 l else l
  | S i' =>
      if (removeFrom <=? Z.of_nat i) && (min <=? Z.of_nat i) then trim_workers i' removeFrom min (take i l) else l
  end.

Definition up_by (out : Z) (p : WorkerPool) : Z :=
  let total := Z.of_nat (length (wp_workers p)) in
  let scaleBy := quarter out total in
  if pc_MaxWorkers (wp_cfg p) <? total + scaleBy then pc_MaxWorkers (wp_cfg p) - total else scaleBy.

(** An empty pool locks [mu] for [addWorker], which locks it again: it waits for ever. *)
(* go: internal/worker/pool.go func WorkerPool.scale *)
Definition scale (now out : Z) (p : WorkerPool) : WorkerPool * pool_call unit :=
  if wp_muHeld p then (p, Waits)
  else
    let cfg := wp_cfg p in
    let total := Z.of_nat (length (wp_workers p)) in
    let queueLen := Z.of_nat (length (wp_taskCh p)) in
    if total =? 0 then (hold_mu p, Waits)
    else
      let utilization := f64_div (f64_of_Z queueLen) (f64_of_Z (pc_QueueLength cfg)) in
      if f64_le (pc_ScaleUpFactor cfg) utilization && (total <? pc_MaxWorkers cfg) then
        addWorkers now (Z.to_nat (up_by out p)) p
      else
        let busyCount := Z.of_nat (busy_count p) in
        let idleRatio := f64_div (f64_of_Z (total - busyCount)) (f64_of_Z total) in
        if f64_le (pc_ScaleDownFactor cfg) idleRatio && (pc_MinWorkers cfg <? total) && (queueLen =? 0) then
          let removeFrom := Z.max (total - quarter out total) (pc_MinWorkers cfg) in
          (set_workers (trim_workers (length (wp_workers p) - 1) removeFrom (pc_MinWorkers cfg) (wp_workers p)) p, Finished ())
        else (p, Finished ()).

(** ** Runs

    The steps of the callers, of the workers' goroutines and of the loops.  A tick needs a
    loop that has not returned; a loop may return once its context is done, and until then
    a tick that is ready as well may be taken. *)

Inductive pool_op : Type :=
| OpStart (now : Z)
| OpStop
| OpSubmit (ctxDone pickCtx : bool) (recv : option nat) (now : Z) (msg : Delivery) (env : option Envelope)
    (info : option DeliveryInfo)
| OpTake (k : nat) (now : Z)
| OpEnd (k : nat) (now : Z) (pickCtx : bool)
| OpScaleTick (now out : Z)
| OpHealthTick
| OpLoopEnds.

Definition pool_step (op : pool_op) (p : WorkerPool) : WorkerPool :=
  match op with
  | OpStart now => match Start now p with Ok (p', _) => p' | _ => p end
  | OpStop => (Stop p).1
  | OpSubmit d c recv now msg env info => (Submit d c recv now msg env info p).1
  | OpTake k now => worker_take k now p
  | OpEnd k now c => task_end k now c p
  | OpScaleTick now out => if (wp_loops p =? 0)%nat then p else (scale now out p).1
  | OpHealthTick => if (wp_loops p =? 0)%nat then p else (checkWorkerHealth p).1
  | OpLoopEnds => if wp_running p then p else set_loops (pred (wp_loops p)) p
  end.

(** The tasks that a step accepts, and those it begins. *)
Definition accepted (op : pool_op) (p : WorkerPool) : list workerTask :=
  match op with
  | OpSubmit d c recv now msg env info =>
      match (Submit d c recv now msg env info p).2 with
      | None => [mkWorkerTask msg env info (mkResultChan [] false)]
      | Some _ => []
      end
  | _ => []
  end.

Definition begun (op : pool_op) (p : WorkerPool) : list workerTask :=
  match op with
  | OpTake k _ => if waiting k p then take 1 (wp_taskCh p) else []
  | OpSubmit _ _ _ _ _ _ _ => if has_room p then [] else accepted op p
  | _ => []
  end.

Fixpoint pool_run (ops : list pool_op) (p : WorkerPool) : WorkerPool * list workerTask * list workerTask :=
  match ops with
  | [] => (p, [], [])
  | op :: ops =>
      let '(p', sub, beg) := pool_run ops (pool_step op p) in (p', accepted op p ++ sub, begun op p ++ beg)
  end.

(** A pool is only started when it does not run: a second [Start] of a running pool would add
    [MinWorkers] more, over the maximum. *)
Fixpoint proper (ops : list pool_op) (p : WorkerPool) : bool :=
  match ops with
  | [] => true
  | op :: ops =>
      match op with OpStart _ => negb (wp_running p) | _ => true end && proper ops (pool_step op p)
  end.

(** ** The invariant *)

Definition goroutine_ok (x : poolWorker * goroutine) : Prop :=
  match x.2 with
  | Waiting => pw_busy x.1 = false /\ pw_panics x.1 = 0
  | Processing _ task => pw_busy x.1 = true /\ pw_panics x.1 = 0 /\ rc_buf (wt_result task) = []
  | Exited => pw_busy x.1 = true /\ pw_panics x.1 = 1
  end.

Definition metrics_ok (id : string) (m : WorkerMetrics) : Prop :=
  wm_WorkerID m = id /\ wm_TasksSucceeded m = 1 /\ wm_TasksFailed m = 0 /\ wm_TasksRetried m = 0 /\ wm_AvgDuration m = 0 /\ wm_Panics m = 0.

Record pool_base (p : WorkerPool) : Prop := mkPoolBase {
  inv_cfg : 1 <= pc_MinWorkers (wp_cfg p) <= pc_MaxWorkers (wp_cfg p) /\ 0 <= pc_QueueLength (wp_cfg p);
  inv_queue : Z.of_nat (length (wp_taskCh p)) <= pc_QueueLength (wp_cfg p);
  inv_fresh : Forall (fun t => rc_buf (wt_result t) = []) (wp_taskCh p);
  inv_nodup : NoDup (wp_workers p);
  inv_members : Forall (fun k => is_Some (wp_store p !! k)) (wp_workers p);
  inv_store : forall k x, wp_store p !! k = Some x -> (1 <= k <= wp_workerSeq p)%nat /\ pw_id x.1 = worker_id k /\ goroutine_ok x;
  inv_errors : wp_errors p = [];
  inv_metrics : forall id m, wp_metrics p !! id = Some m -> metrics_ok id m
}.

(** The bounds of the number of workers. *)
Definition pool_sized (p : WorkerPool) : Prop :=
  Z.of_nat (length (wp_workers p)) <= pc_MaxWorkers (wp_cfg p)
  /\ (wp_muHeld p = false ->
       if wp_running p then pc_MinWorkers (wp_cfg p) <= Z.of_nat (length (wp_workers p)) else wp_workers p = []).

Definition pool_inv (p : WorkerPool) : Prop := pool_base p /\ pool_sized p.

Lemma NewWorkerPool_inv cfg p : NewWorkerPool cfg = Ok p -> pool_inv p.
Proof.
  unfold NewWorkerPool. set (min := if pc_MinWorkers cfg <=? 0 then 1 else pc_MinWorkers cfg).
  assert (1 <= min) by (unfold min; destruct (Z.leb_spec (pc_MinWorkers cfg) 0); lia).
  set (max := if pc_MaxWorkers cfg <? min then min else pc_MaxWorkers cfg).
  assert (min <= max) by (unfold max; destruct (Z.ltb_spec (pc_MaxWorkers cfg) min); lia).
  simpl. destruct (Z.ltb_spec (pc_QueueLength cfg) 0); intros Hp; simplify_eq.
  split; [split|split]; simpl; try done; try lia; constructor.
Qed.

(** ** Changes that keep the invariant *)

Lemma add_locked_base now p : pool_base p -> pool_base (add_locked now p).
Proof.
  intros [Hc Hq Hf Hnd Hm Hs He Hmm].
  assert (wp_store p !! S (wp_workerSeq p) = None) as Hnew.
  { destruct (wp_store p !! S (wp_workerSeq p)) as [x|] eqn:Hx; [|done]. apply Hs in Hx. lia. }
  split; simpl; try done.
  - apply NoDup_app. split_and!; [done| |apply NoDup_singleton].
    intros k Hk ->%list_elem_of_singleton. rewrite Forall_forall in Hm. apply Hm in Hk. rewrite Hnew in Hk. by destruct Hk.
  - apply Forall_app. split.
    + eapply Forall_impl; [exact Hm|]. intros k [x Hx]. simpl. rewrite lookup_insert_is_Some'. eauto.
    + apply Forall_singleton. rewrite lookup_insert_eq. eauto.
  - intros k x. destruct (decide (k = S (wp_workerSeq p))) as [->|Hne].
    + rewrite lookup_insert_eq. intros [= <-]. by split_and!; [lia|lia| |].
    + rewrite lookup_insert_ne by done. intros Hx. destruct (Hs k x Hx) as ([] & ? & ?). split_and!; [lia|lia|done|done].
Qed.

Lemma addWorkers_held now n p : wp_muHeld p = true -> (0 < n)%nat -> addWorkers now n p = (p, Waits).
Proof. intros Hh Hn. destruct n; [lia|]. simpl. unfold addWorker. by rewrite Hh. Qed.

Lemma addWorkers_spec now n : forall p, wp_muHeld p = false ->
  exists p', addWorkers now n p = (p', Finished ()) /\ length (wp_workers p') = (length (wp_workers p) + n)%nat
    /\ wp_workerSeq p' = (wp_workerSeq p + n)%nat /\ wp_muHeld p' = false /\ wp_cfg p' = wp_cfg p
    /\ wp_running p' = wp_running p /\ wp_taskCh p' = wp_taskCh p /\ wp_loops p' = wp_loops p /\ (pool_base p -> pool_base p').
Proof.
  induction n as [|n IH]; intros p Hh.
  { exists p. by rewrite !Nat.add_0_r. }
  simpl. unfold addWorker. rewrite Hh.
  destruct (IH (add_locked now p)) as (p' & -> & Hl & Hs & ? & ? & ? & ? & ? & Hb); [done|].
  exists p'. split_and!; try done.
  - rewrite Hl. simpl. rewrite length_app. simpl. lia.
  - rewrite Hs. simpl. lia.
  - intros Hp. apply Hb. by apply add_locked_base.
Qed.

Lemma set_workers_base l p : pool_base p -> l `sublist_of` wp_workers p -> pool_base (set_workers l p).
Proof.
  intros [Hc Hq Hf Hnd Hm Hs He Hmm] Hl. split; simpl; try done.
  - by eapply sublist_NoDup.
  - rewrite Forall_forall in Hm |- *. intros k Hk. apply Hm. by eapply elem_of_sublist.
Qed.

Lemma set_flags_base b n p : pool_base p -> pool_base (set_running b p) /\ pool_base (set_loops n p) /\ pool_base (hold_mu p).
Proof. intros [Hc Hq Hf Hnd Hm Hs He Hmm]. by split_and!; split. Qed.

(** Steps of the goroutines leave the slice and the flags alone. *)
Definition same_pool (p p' : WorkerPool) : Prop :=
  wp_workers p' = wp_workers p /\ wp_cfg p' = wp_cfg p /\ wp_running p' = wp_running p /\ wp_muHeld p' = wp_muHeld p
  /\ wp_workerSeq p' = wp_workerSeq p /\ wp_loops p' = wp_loops p.

Lemma same_pool_sized p p' : same_pool p p' -> pool_sized p -> pool_sized p'.
Proof. unfold pool_sized. by intros (-> & -> & -> & -> & _). Qed.

Lemma store_update_base p k x y : pool_base p -> wp_store p !! k = Some x -> pw_id y.1 = pw_id x.1 -> goroutine_ok y ->
  pool_base (set_store (<[k := y]> (wp_store p)) p).
Proof.
  intros [Hc Hq Hf Hnd Hm Hs He Hmm] Hx Hid Hy. split; simpl; try done.
  - eapply Forall_impl; [exact Hm|]. intros j [z Hz]. simpl. rewrite lookup_insert_is_Some'. eauto.
  - intros j z. destruct (decide (j = k)) as [->|Hne].
    + rewrite lookup_insert_eq. intros [= <-]. destruct (Hs k x Hx) as (? & Hix & _). rewrite Hid. done.
    + rewrite lookup_insert_ne by done. apply Hs.
Qed.

Lemma task_begin_frame k now task p : same_pool p (task_begin k now task p) /\ wp_taskCh (task_begin k now task p) = wp_taskCh p.
Proof. unfold task_begin. by destruct (wp_store p !! k) as [[w []]|], (wt_env task). Qed.

Lemma task_begin_base k now task p : pool_base p -> rc_buf (wt_result task) = [] -> pool_base (task_begin k now task p).
Proof.
  intros Hb Hr. unfold task_begin. destruct (wp_store p !! k) as [[w []]|] eqn:Hk; try done.
  destruct (inv_store _ Hb _ _ Hk) as (_ & _ & Hw & Hp). simpl in *.
  destruct (wt_env task); (eapply store_update_base; [done|exact Hk|done|]); [done|].
  split; [done|]. simpl. by rewrite Hp.
Qed.

Lemma set_taskCh_base q p : pool_base p -> Z.of_nat (length q) <= pc_QueueLength (wp_cfg p) ->
  Forall (fun t => rc_buf (wt_result t) = []) q -> pool_base (set_taskCh q p).
Proof. intros [Hc Hq Hf Hnd Hm Hs He Hmm] ??. by split. Qed.

Lemma worker_take_ok k now p : pool_base p -> pool_base (worker_take k now p) /\ same_pool p (worker_take k now p).
Proof.
  intros Hb. unfold worker_take. destruct (wp_taskCh p) as [|task q] eqn:Hq; [by split|].
  destruct (waiting k p); [|by split].
  pose proof (inv_queue _ Hb) as Hl. pose proof (inv_fresh _ Hb) as Hf. rewrite Hq in Hl, Hf. apply Forall_cons in Hf as [Ht Hf].
  split; [|apply (task_begin_frame k now task (set_taskCh q p))].
  apply task_begin_base; [|done]. apply set_taskCh_base; [done| |done]. simpl in Hl. lia.
Qed.

Lemma receive_settled c r : rc_buf r = [] -> receive_result (settle_result c r) = None.
Proof. intros Hr. unfold receive_result, settle_result. rewrite Hr. by destruct c. Qed.

Lemma task_end_ok k now c p : pool_base p -> pool_base (task_end k now c p) /\ same_pool p (task_end k now c p).
Proof.
  intros Hb. unfold task_end. destruct (wp_store p !! k) as [[w []]|] eqn:Hk; try by split.
  destruct (inv_store _ Hb _ _ Hk) as (_ & Hid & Hw & Hp & Hr). simpl in *.
  split; [|done]. unfold updateMetrics. rewrite receive_settled by done.
  match goal with |- pool_base (set_metrics _ _ (set_store (<[k := ?y]> _) p)) =>
    pose proof (store_update_base p k _ y Hb Hk eq_refl (conj eq_refl Hp)) as [Hc' Hq' Hf' Hnd' Hm' Hs' He' Hmm'] end.
  split; simpl; try done. intros id m. destruct (decide (id = pw_id w)) as [->|Hne].
  - rewrite lookup_insert_eq. intros [= <-]. by split_and!.
  - rewrite lookup_insert_ne by done. apply (inv_metrics _ Hb).
Qed.

Lemma Submit_ok d c recv now msg env info p : pool_base p ->
  pool_base (Submit d c recv now msg env info p).1 /\ same_pool p (Submit d c recv now msg env info p).1.
Proof.
  intros Hb. unfold Submit. destruct (wp_running p) eqn:Hrun; [simpl|by split].
  destruct (d && _); [by split|]. destruct (has_room p) eqn:Hroom.
  - split; [|done]. simpl. apply set_taskCh_base; [done| |].
    + unfold has_room in Hroom. apply Z.ltb_lt in Hroom. rewrite length_app. simpl. lia.
    + apply Forall_app. split; [apply (inv_fresh _ Hb)|by apply Forall_singleton].
  - destruct (pc_QueueLength (wp_cfg p) =? 0); [|by split]. destruct recv as [k|]; [|by split].
    destruct (waiting k p); [|by split]. split; [by apply task_begin_base|apply task_begin_frame].
Qed.

(** ** Sizes *)

Lemma trim_workers_take removeFrom min : forall i l, 1 <= min -> min <= removeFrom -> (length l <= S i)%nat ->
  trim_workers i removeFrom min l = take (Z.to_nat removeFrom) l.
Proof.
  induction i as [|i IH]; intros l Hm Hr Hl; cbn [trim_workers].
  - destruct (Z.leb_spec removeFrom 0); [lia|]. simpl. rewrite take_ge by lia. done.
  - destruct (Z.leb_spec removeFrom (Z.of_nat (S i))).
    + destruct (Z.leb_spec min (Z.of_nat (S i))); [|lia]. simpl andb. cbv iota.
      rewrite IH by (rewrite ?length_take; lia). rewrite take_take. f_equal. lia.
    + simpl. rewrite take_ge by lia. done.
Qed.

Lemma quarter_pos out n : 1 <= quarter out n.
Proof. unfold quarter. lia. Qed.

Lemma up_by_bounds out p : Z.of_nat (length (wp_workers p)) < pc_MaxWorkers (wp_cfg p) ->
  1 <= up_by out p <= pc_MaxWorkers (wp_cfg p) - Z.of_nat (length (wp_workers p)).
Proof.
  intros Hl. unfold up_by. pose proof (quarter_pos out (Z.of_nat (length (wp_workers p)))).
  destruct (Z.ltb_spec (pc_MaxWorkers (wp_cfg p)) (Z.of_nat (length (wp_workers p)) + quarter out (Z.of_nat (length (wp_workers p))))); lia.
Qed.

Lemma scale_ok now out p : pool_inv p -> pool_inv (scale now out p).1.
Proof.
  intros Hp. pose proof Hp as [Hb [Hmax Hmin]]. unfold scale. destruct (wp_muHeld p) eqn:Hh; [done|].
  specialize (Hmin eq_refl). pose proof (inv_cfg _ Hb) as [Hcfg _].
  destruct (Z.eqb_spec (Z.of_nat (length (wp_workers p))) 0) as [H0|H0].
  { split; [by apply (set_flags_base false 0)|split; [done|by simpl]]. }
  assert (wp_running p = true) as Hrun by (destruct (wp_running p); [done|]; rewrite Hmin in H0; done).
  rewrite Hrun in Hmin. cbv zeta. destruct (_ && (_ <? pc_MaxWorkers (wp_cfg p))) eqn:Hup.
  - apply andb_true_iff in Hup as [_ Hlt%Z.ltb_lt]. pose proof (up_by_bounds out p Hlt) as Hby.
    destruct (addWorkers_spec now (Z.to_nat (up_by out p)) p Hh) as (p' & -> & Hl & _ & Hh' & Hc & Hr & _ & _ & Hb'). simpl.
    split; [auto|]. split; rewrite Hc, ?Hr, ?Hrun, Hl; lia.
  - destruct (_ && _ && _) eqn:Hdown; [|done].
    apply andb_true_iff in Hdown as [[_ Hlt%Z.ltb_lt]%andb_true_iff _]. simpl.
    rewrite trim_workers_take by lia. split; [apply set_workers_base; [done|apply sublist_take]|].
    pose proof (quarter_pos out (Z.of_nat (length (wp_workers p)))).
    split; simpl; rewrite ?Hrun, length_take; lia.
Qed.

(** No worker panics more than once: its goroutine ends with the first panic. *)
Lemma checkWorkerHealth_ok p : pool_base p -> (checkWorkerHealth p).1 = p.
Proof.
  intros Hb. unfold checkWorkerHealth. destruct (wp_muHeld p); [done|].
  destruct (existsb (panicked p) (wp_workers p)) eqn:He; [|done].
  apply existsb_exists in He as (k & _ & Hk). unfold panicked in Hk.
  destruct (wp_store p !! k) as [[w g]|] eqn:Hx; [|done].
  destruct (inv_store _ Hb _ _ Hx) as (_ & _ & Hg). apply Z.ltb_lt in Hk.
  unfold goroutine_ok in Hg. simpl in Hg. destruct g; lia.
Qed.

Lemma Start_ok now p p' r : pool_inv p -> wp_running p = false -> Start now p = Ok (p', r) -> pool_inv p'.
Proof.
  intros [Hb [Hmax Hmin]] Hrun. unfold Start. pose proof (inv_cfg _ Hb) as [Hcfg _].
  destruct (wp_muHeld p) eqn:Hh.
  - rewrite addWorkers_held by (simpl; auto; lia). intros [= <- _].
    split; [by apply (set_flags_base true 0)|]. split; [done|simpl; by rewrite Hh].
  - specialize (Hmin eq_refl). rewrite Hrun in Hmin.
    destruct (addWorkers_spec now (Z.to_nat (pc_MinWorkers (wp_cfg p))) (set_running true p) Hh)
      as (q & -> & Hl & _ & Hh' & Hc & Hr & _ & _ & Hb').
    destruct (_ <=? 0); [done|]. intros [= <- _]. simpl in *. rewrite Hmin in Hl. simpl in Hl.
    split; [apply (set_flags_base false), Hb'; by apply (set_flags_base true 0)|].
    split; simpl; rewrite Hc, ?Hr, Hl; simpl; lia.
Qed.

Lemma Stop_ok p : pool_inv p -> pool_inv (Stop p).1.
Proof.
  intros Hp. pose proof Hp as [Hb [Hmax Hmin]]. unfold Stop. destruct (wp_running p) eqn:Hrun; [simpl|done].
  destruct (wp_muHeld p) eqn:Hh; simpl.
  - split; [by apply (set_flags_base false 0)|]. split; [done|simpl; by rewrite Hh].
  - split; [apply set_workers_base; [by apply (set_flags_base false 0)|apply sublist_nil_l]|].
    pose proof (inv_cfg _ Hb). split; simpl; [lia|done].
Qed.

Lemma pool_step_inv op p : pool_inv p -> (forall now, op = OpStart now -> wp_running p = false) -> pool_inv (pool_step op p).
Proof.
  intros Hp Hst. pose proof Hp as [Hb Hsz]. destruct op; cbn [pool_step].
  - destruct (Start now p) as [[p' r]| |] eqn:HS; [by eapply Start_ok; eauto|done|done].
  - by apply Stop_ok.
  - destruct (Submit_ok ctxDone pickCtx recv now msg env info p Hb). split; [done|by eapply same_pool_sized].
  - destruct (worker_take_ok k now p Hb). split; [done|by eapply same_pool_sized].
  - destruct (task_end_ok k now pickCtx p Hb). split; [done|by eapply same_pool_sized].
  - destruct (_ =? _)%nat; [done|by apply scale_ok].
  - destruct (_ =? _)%nat; [done|by rewrite checkWorkerHealth_ok].
  - destruct (wp_running p) eqn:Hr; [done|]. split; [by apply (set_flags_base false)|done].
Qed.

Lemma pool_run_inv ops : forall p p' sub beg,
  pool_inv p -> proper ops p = true -> pool_run ops p = (p', sub, beg) -> pool_inv p'.
Proof.
  induction ops as [|op ops IH]; intros p p' sub beg Hp Hpr Hrun; simpl in *; [by simplify_eq|].
  destruct (pool_run ops (pool_step op p)) as [[q s] b] eqn:Hq. simplify_eq.
  apply andb_true_iff in Hpr as [Hop Hpr]. eapply IH; [|done|done].
  apply pool_step_inv; [done|]. intros now ->. by apply negb_true_iff in Hop.
Qed.

(** ** Scaling *)

Lemma addWorkers_workers now n : forall p, wp_muHeld p = false ->
  exists p', addWorkers now n p = (p', Finished ()) /\ wp_workers p' = wp_workers p ++ seq (S (wp_workerSeq p)) n.
Proof.
  induction n as [|n IH]; intros p Hh; [exists p; by rewrite app_nil_r|].
  simpl. unfold addWorker. rewrite Hh. destruct (IH (add_locked now p) Hh) as (p' & -> & Hw).
  exists p'. split; [done|]. rewrite Hw. simpl. by rewrite <- app_assoc.
Qed.

Lemma quarter_exact out n : 0 < n < 2 ^ 53 -> quarter out n = Z.max 1 (n / 4).
Proof. intros Hn. unfold quarter. by rewrite quarter_to_int64. Qed.

(** One tick of the scaling loop, in exact numbers although the code counts in float64.
    Where the channel is as full as the factor and the maximum is not reached, a quarter
    of the workers, at least one, is added at the end of the slice, up to the maximum; else,
    where enough workers are idle and nothing waits, a quarter is dropped from the end, down
    to the minimum; else nothing changes. *)
Theorem scale_correct now out p :
  pool_inv p -> wp_running p = true -> wp_muHeld p = false ->
  let cfg := wp_cfg p in
  let l := wp_workers p in
  let n := Z.of_nat (length l) in
  n < 2 ^ 53 ->
  let full := f64_le (pc_ScaleUpFactor cfg) (f64_div (f64_of_Z (Z.of_nat (length (wp_taskCh p)))) (f64_of_Z (pc_QueueLength cfg))) in
  let idle := f64_le (pc_ScaleDownFactor cfg) (f64_div (f64_of_Z (n - Z.of_nat (busy_count p))) (f64_of_Z n)) in
  (scale now out p).2 = Finished ()
  /\ wp_workers (scale now out p).1 =
       if full && (n <? pc_MaxWorkers cfg) then
         l ++ seq (S (wp_workerSeq p)) (Z.to_nat (Z.min (pc_MaxWorkers cfg) (n + Z.max 1 (n / 4)) - n))
       else if idle && (pc_MinWorkers cfg <? n) && (Z.of_nat (length (wp_taskCh p)) =? 0) then
         take (Z.to_nat (Z.max (pc_MinWorkers cfg) (n - Z.max 1 (n / 4)))) l
       else l.
Proof.
  intros [Hb [Hmax Hmin]] Hr Hh cfg l n Hn full idle. specialize (Hmin Hh). rewrite Hr in Hmin.
  pose proof (inv_cfg _ Hb) as [Hcfg _]. fold cfg l n in Hmin, Hmax, Hcfg.
  unfold scale. rewrite Hh. fold cfg l. fold n. destruct (Z.eqb_spec n 0) as [|_]; [lia|]. cbv zeta.
  fold full. destruct (full && (n <? pc_MaxWorkers cfg)) eqn:Hup.
  - apply andb_true_iff in Hup as [_ Hlt%Z.ltb_lt].
    destruct (addWorkers_workers now (Z.to_nat (up_by out p)) p Hh) as (p' & -> & Hw). split; [done|]. simpl. rewrite Hw.
    do 3 f_equal. unfold up_by. fold l. fold n. fold cfg. rewrite quarter_exact by lia.
    destruct (Z.ltb_spec (pc_MaxWorkers cfg) (n + Z.max 1 (n / 4))); lia.
  - fold idle. destruct (idle && _ && _) eqn:Hdown; [|done]. split; [done|]. simpl.
    apply andb_true_iff in Hdown as [[_ Hlt%Z.ltb_lt]%andb_true_iff _].
    rewrite quarter_exact, trim_workers_take by lia. f_equal. f_equal. lia.
Qed.

(** ** The order of tasks *)

Lemma Start_taskCh now p p' r : Start now p = Ok (p', r) -> wp_taskCh p' = wp_taskCh p.
Proof.
  unfold Start. destruct (wp_muHeld p) eqn:Hh.
  - destruct (Z.to_nat _) as [|n].
    + simpl. destruct (_ <=? 0); [done|]. by intros [= <- _].
    + rewrite addWorkers_held by (simpl; auto; lia). by intros [= <- _].
  - destruct (addWorkers_spec now (Z.to_nat (pc_MinWorkers (wp_cfg p))) (set_running true p) Hh)
      as (q & -> & _ & _ & _ & _ & _ & Hq & _). destruct (_ <=? 0); [done|]. intros [= <- _]. done.
Qed.

Lemma scale_taskCh now out p : wp_taskCh (scale now out p).1 = wp_taskCh p.
Proof.
  unfold scale. destruct (wp_muHeld p) eqn:Hh; [done|]. destruct (_ =? 0); [done|]. cbv zeta.
  destruct (_ && _).
  - by destruct (addWorkers_spec now (Z.to_nat (up_by out p)) p Hh) as (q & -> & _ & _ & _ & _ & _ & Hq & _).
  - by destruct (_ && _ && _).
Qed.

Lemma pool_step_fifo op p : pool_base p ->
  begun op p ++ wp_taskCh (pool_step op p) = wp_taskCh p ++ accepted op p.
Proof.
  intros Hb. destruct op; cbn [pool_step begun accepted]; rewrite ?app_nil_r; try done.
  - destruct (Start now p) as [[p' r]| |] eqn:HS; [by eapply Start_taskCh|done|done].
  - unfold Stop. destruct (wp_running p), (wp_muHeld p); done.
  - unfold Submit. destruct (wp_running p); [simpl|by destruct (has_room p); rewrite app_nil_r].
    destruct (ctxDone && _); [by destruct (has_room p); rewrite app_nil_r|].
    destruct (has_room p) eqn:Hroom; [done|].
    destruct (Z.eqb_spec (pc_QueueLength (wp_cfg p)) 0) as [H0|]; [|by rewrite app_nil_r].
    destruct recv as [k|]; [|by rewrite app_nil_r]. destruct (waiting k p); [|by rewrite app_nil_r].
    simpl. destruct (task_begin_frame k now (mkWorkerTask msg env info (mkResultChan [] false)) p) as [_ ->].
    pose proof (inv_queue _ Hb) as Hl. destruct (wp_taskCh p); [done|simpl in Hl; lia].
  - unfold worker_take. destruct (wp_taskCh p) as [|task q] eqn:Hq; [by destruct (waiting k p)|].
    destruct (waiting k p); [|done]. simpl. f_equal. by destruct (task_begin_frame k now task (set_taskCh q p)) as [_ ->].
  - unfold task_end. by destruct (wp_store p !! k) as [[w []]|].
  - destruct (_ =? _)%nat; [done|apply scale_taskCh].
  - destruct (_ =? _)%nat; [done|by rewrite checkWorkerHealth_ok].
  - by destruct (wp_running p).
Qed.

Lemma pool_run_fifo ops : forall p p' sub beg, pool_inv p -> proper ops p = true -> pool_run ops p = (p', sub, beg) ->
  wp_taskCh p ++ sub = beg ++ wp_taskCh p'.
Proof.
  induction ops as [|op ops IH]; intros p p' sub beg Hp Hpr Hrun; simpl in *; [simplify_eq; by rewrite app_nil_r|].
  destruct (pool_run ops (pool_step op p)) as [[q s] b] eqn:Hq. simplify_eq.
  apply andb_true_iff in Hpr as [Hop Hpr].
  assert (pool_inv (pool_step op p)) as Hs
    by (apply pool_step_inv; [done|]; intros now ->; by apply negb_true_iff in Hop).
  rewrite <- app_assoc, <- (IH _ _ _ _ Hs Hpr Hq), !app_assoc. f_equal. symmetry. apply pool_step_fifo, Hp.
Qed.


(** ** Goroutines that do not end *)

(** Every worker ever started still has its goroutine, and no task will end one. *)
Definition live (p : WorkerPool) : Prop :=
  (forall k, (1 <= k <= wp_workerSeq p)%nat -> exists w g, wp_store p !! k = Some (w, g) /\ g <> Exited)
  /\ Forall (fun t => is_Some (wt_env t)) (wp_taskCh p).

Definition enveloped (op : pool_op) : Prop :=
  match op with OpSubmit _ _ _ _ _ env _ => is_Some env | _ => True end.

Lemma add_locked_live now p : live p -> live (add_locked now p).
Proof.
  intros [Hl Ht]. split; [|done]. intros k Hk. simpl in *. destruct (decide (k = S (wp_workerSeq p))) as [->|].
  - rewrite lookup_insert_eq. by do 2 eexists.
  - rewrite lookup_insert_ne by done. apply Hl. lia.
Qed.

Lemma addWorkers_live now n : forall p, live p -> live (addWorkers now n p).1.
Proof.
  induction n as [|n IH]; intros p Hl; [done|]. simpl. unfold addWorker.
  destruct (wp_muHeld p); [done|]. by apply IH, add_locked_live.
Qed.

Lemma update_live p k w g : live p -> g <> Exited -> live (set_store (<[k := (w, g)]> (wp_store p)) p).
Proof.
  intros [Hl Ht] Hg. split; [|done]. intros j Hj. simpl. destruct (decide (j = k)) as [->|].
  - rewrite lookup_insert_eq. by do 2 eexists.
  - rewrite lookup_insert_ne by done. by apply Hl.
Qed.

Lemma task_begin_live k now task p : live p -> is_Some (wt_env task) -> live (task_begin k now task p).
Proof.
  intros Hl [env He]. unfold task_begin. destruct (wp_store p !! k) as [[w []]|]; try done.
  rewrite He. by apply update_live.
Qed.

Lemma pool_step_live op p : live p -> enveloped op -> live (pool_step op p).
Proof.
  intros Hlv He. pose proof Hlv as [Hl Ht]. destruct op; cbn [pool_step].
  - unfold Start. pose proof (addWorkers_live now (Z.to_nat (pc_MinWorkers (wp_cfg p))) (set_running true p) Hlv) as Ha.
    destruct (addWorkers _ _ _) as [q [[]|]]; [destruct (_ <=? 0)|]; done.
  - unfold Stop. destruct (wp_running p), (wp_muHeld p); done.
  - unfold Submit. destruct (negb _); [done|]. destruct (_ && _); [done|]. destruct (has_room p).
    + split; [done|]. simpl. apply Forall_app. split; [done|]. by apply Forall_singleton.
    + destruct (_ =? 0); [|done]. destruct recv as [k|]; [|done]. destruct (waiting k p); [|done]. by apply task_begin_live.
  - unfold worker_take. destruct (wp_taskCh p) as [|task q] eqn:Hq; [done|]. destruct (waiting k p); [|done].
    apply Forall_cons in Ht as [Htask Ht]. by apply task_begin_live.
  - unfold task_end. destruct (wp_store p !! k) as [[w []]|]; try done. unfold updateMetrics.
    by apply (update_live p k _ Waiting).
  - destruct (_ =? _)%nat; [done|]. unfold scale. destruct (wp_muHeld p); [done|]. destruct (_ =? 0); [done|].
    cbv zeta. destruct (_ && _); [by apply addWorkers_live|]. by destruct (_ && _ && _).
  - destruct (_ =? _)%nat; [done|]. unfold checkWorkerHealth. destruct (wp_muHeld p); [done|]. by destruct (existsb _ _).
  - by destruct (wp_running p).
Qed.

Lemma pool_run_live ops : forall p p' sub beg,
  live p -> Forall enveloped ops -> pool_run ops p = (p', sub, beg) -> live p'.
Proof.
  induction ops as [|op ops IH]; intros p p' sub beg Hl He Hrun; simpl in *; [by simplify_eq|].
  destruct (pool_run ops (pool_step op p)) as [[q s] b] eqn:Hq. simplify_eq.
  apply Forall_cons in He as [Hop He]. eapply IH; [|done|done]. by apply pool_step_live.
Qed.

(** The goroutine of a worker never ends as long as every task has an envelope: after any
    run each worker ever started, also one that the pool has scaled down or forgotten at a
    stop, waits for tasks or processes one; so that stopping a pool that runs always waits
    until its time-out. *)
Theorem workers_never_end cfg p0 ops p sub beg :
  NewWorkerPool cfg = Ok p0 -> proper ops p0 = true -> Forall enveloped ops -> pool_run ops p0 = (p, sub, beg) ->
  (forall k, (1 <= k <= wp_workerSeq p)%nat -> exists w g, wp_store p !! k = Some (w, g) /\ g <> Exited)
  /\ (wp_running p = true -> wp_muHeld p = false ->
        Stop p = (set_workers [] (set_running false p), Finished true)).
Proof.
  intros Hnew Hpr He Hrun. pose proof (NewWorkerPool_inv _ _ Hnew) as H0.
  assert (live p0) as Hl0.
  { unfold NewWorkerPool in Hnew. simpl in Hnew. destruct (_ <? 0) in Hnew; simplify_eq. split; [simpl; lia|done]. }
  pose proof (pool_run_inv _ _ _ _ _ H0 Hpr Hrun) as [Hb [Hmax Hmin]].
  pose proof (pool_run_live _ _ _ _ _ Hl0 He Hrun) as [Hl _]. split; [done|].
  intros Hr Hh. unfold Stop. rewrite Hr, Hh. simpl. do 2 f_equal. apply negb_true_iff.
  specialize (Hmin Hh). rewrite Hr in Hmin. pose proof (inv_cfg _ Hb).
  destruct (wp_workers p) as [|k l] eqn:Hw; [simpl in Hmin; lia|].
  pose proof (inv_members _ Hb) as Hm. rewrite Hw in Hm. apply Forall_cons in Hm as [[[w g] Hx] _].
  destruct (inv_store _ Hb _ _ Hx) as (Hk & _). destruct (Hl k Hk) as (w' & g' & Hx' & Hg). simplify_eq.
  unfold all_exited. destruct (forallb _ _) eqn:Hall; [|done]. rewrite forallb_forall in Hall.
  specialize (Hall (k, (w, g))). rewrite <- list_elem_of_In, elem_of_map_to_list in Hall. specialize (Hall Hx).
  by destruct g.
Qed.

(** ** A tick after a stop *)

Lemma held_step op p : wp_muHeld p = true -> 1 <= pc_MinWorkers (wp_cfg p) ->
  wp_muHeld (pool_step op p) = true /\ wp_cfg (pool_step op p) = wp_cfg p
  /\ wp_workers (pool_step op p) = wp_workers p.
Proof.
  intros Hh Hm. destruct op; cbn [pool_step].
  - unfold Start. rewrite addWorkers_held by (simpl; auto; lia). done.
  - unfold Stop. rewrite Hh. by destruct (wp_running p).
  - unfold Submit. destruct (negb _); [done|]. destruct (_ && _); [done|]. destruct (has_room p); [done|].
    destruct (_ =? 0); [|done]. destruct recv as [k|]; [|done]. destruct (waiting k p); [|done].
    by match goal with |- context [task_begin ?k ?n ?t ?q] =>
      destruct (task_begin_frame k n t q) as [(? & ? & _ & ? & _) _] end; simpl in *; split_and!; congruence.
  - unfold worker_take. destruct (wp_taskCh p) as [|task q]; [done|]. destruct (waiting k p); [|done].
    by match goal with |- context [task_begin ?k ?n ?t ?q] =>
      destruct (task_begin_frame k n t q) as [(? & ? & _ & ? & _) _] end; simpl in *; split_and!; congruence.
  - unfold task_end. by destruct (wp_store p !! k) as [[w []]|].
  - unfold scale. rewrite Hh. by destruct (_ =? _)%nat.
  - unfold checkWorkerHealth. rewrite Hh. by destruct (_ =? _)%nat.
  - by destruct (wp_running p).
Qed.

Lemma held_run ops : forall p p' sub beg, wp_muHeld p = true -> 1 <= pc_MinWorkers (wp_cfg p) -> pool_run ops p = (p', sub, beg) ->
  wp_muHeld p' = true /\ wp_cfg p' = wp_cfg p /\ wp_workers p' = wp_workers p.
Proof.
  induction ops as [|op ops IH]; intros p p' sub beg Hh Hm Hrun; simpl in *; [by simplify_eq|].
  destruct (pool_run ops (pool_step op p)) as [[q s] b] eqn:Hq. simplify_eq.
  destruct (held_step op p Hh Hm) as (Hh' & Hc & Hw). rewrite <- Hc in Hm.
  destruct (IH _ _ _ _ Hh' Hm Hq) as (-> & -> & ->). done.
Qed.

(** A stopped pool can be locked up for good.  The loop that scales it may take one more
    tick after [Stop] has emptied the pool; this tick locks the mutex twice and waits for
    ever.  Whatever happens then, the pool keeps no worker, and starting or scaling it
    waits for ever too. *)
Theorem tick_after_stop_deadlocks p now out :
  pool_inv p -> wp_running p = true -> wp_muHeld p = false -> (0 < wp_loops p)%nat ->
  let p1 := pool_step OpStop p in
  let p2 := pool_step (OpScaleTick now out) p1 in
  scale now out p1 = (p2, Waits)
  /\ (forall ops p' sub beg, pool_run ops p2 = (p', sub, beg) ->
        wp_workers p' = []
        /\ (forall now, Start now p' = Ok (set_running true p', Waits))
        /\ (forall now out, scale now out p' = (p', Waits))).
Proof.
  intros [Hb _] Hr Hh Hl p1 p2. pose proof (inv_cfg _ Hb) as [Hcfg _].
  assert (p1 = set_workers [] (set_running false p)) as Hp1 by (unfold p1; cbn [pool_step]; unfold Stop; by rewrite Hr, Hh).
  assert (scale now out p1 = (hold_mu p1, Waits)) as Hs by (unfold scale; rewrite Hp1; simpl; by rewrite Hh).
  assert (p2 = hold_mu p1) as Hp2
    by (unfold p2; cbn [pool_step]; rewrite Hs, Hp1; simpl; destruct (Nat.eqb_spec (wp_loops p) 0); [lia|done]).
  split; [by rewrite Hp2|]. intros ops p' sub beg Hrun. rewrite Hp2 in Hrun.
  assert (1 <= pc_MinWorkers (wp_cfg (hold_mu p1))) as Hmin by (rewrite Hp1; simpl; lia).
  destruct (held_run ops (hold_mu p1) p' sub beg eq_refl Hmin Hrun) as (Hh' & Hc & Hw).
  split; [by rewrite Hw, Hp1|]. rewrite <- Hc in Hmin. split; [|intros ??; unfold scale; by rewrite Hh'].
  intros now'. unfold Start. by rewrite addWorkers_held by (simpl; auto; lia).
Qed.

(** ** Examples *)

Definition sample_msg : Delivery := mkDelivery None "" 1 false "" "".
Definition sample_env : option Envelope := Some (NewEnvelopeWithID 0 "t1" "task" (Some "{}")).
Definition sample_cfg : PoolConfig :=
  mkPoolConfig 1 3 (pc_ScaleUpFactor DefaultPoolConfig) (pc_ScaleDownFactor DefaultPoolConfig) 0 Second 2 0 Second.
Definition sample_submit : pool_op := OpSubmit false false None 2 sample_msg sample_env None.
(** Two tasks fill the channel, the pool grows to its maximum, and shrinks when it is idle. *)
Definition sample_ops : list pool_op :=
  [OpStart 1; sample_submit; sample_submit; OpScaleTick 3 0; OpScaleTick 3 0; OpTake 1 4; OpEnd 1 5 false;
   OpTake 2 6; OpEnd 2 7 true; OpScaleTick 8 0].
Definition sample_pool : WorkerPool := mkWorkerPool sample_cfg [] ∅ [] ∅ false [] 0 0 false.


Lemma workers_never_end_witness :
  exists p sub beg, pool_run sample_ops sample_pool = (p, sub, beg) /\ (Stop p).2 = Finished true.
Proof.
  destruct (pool_run sample_ops sample_pool) as [[p sub] beg] eqn:Hrun. exists p, sub, beg.
  assert (NewWorkerPool sample_cfg = Ok sample_pool) as Hnew by (vm_compute; reflexivity).
  assert (proper sample_ops sample_pool = true) as Hpr by (vm_compute; reflexivity).
  assert (Forall enveloped sample_ops) as He by (repeat constructor; eexists; reflexivity).
  destruct (workers_never_end sample_cfg sample_pool sample_ops p sub beg Hnew Hpr He Hrun) as [_ Hstop].
  split; [reflexivity|]. rewrite Hstop; [reflexivity|vm_compute in Hrun; by injection Hrun as <- <- <-..].
Defined.

Definition started_pool : WorkerPool := (pool_run [OpStart 1] sample_pool).1.1.

Lemma started_pool_inv : pool_inv started_pool.
Proof.
  assert (NewWorkerPool sample_cfg = Ok sample_pool) as Hnew by (vm_compute; reflexivity).
  apply (pool_run_inv [OpStart 1] sample_pool started_pool [] []); [by eapply NewWorkerPool_inv|done|reflexivity].
Qed.

Lemma tick_after_stop_deadlocks_witness :
  scale 5 0 (pool_step OpStop started_pool) = (hold_mu (pool_step OpStop started_pool), Waits).
Proof.
  assert (0 < wp_loops started_pool)%nat as Hl by (vm_compute; lia).
  destruct (tick_after_stop_deadlocks started_pool 5 0 started_pool_inv eq_refl eq_refl Hl) as [Hs _].
  rewrite Hs. reflexivity.
Defined.

(** Sixteen workers become twenty, the maximum, when the channel is full. *)
Definition busy_cfg : PoolConfig :=
  mkPoolConfig 16 20 (pc_ScaleUpFactor DefaultPoolConfig) (pc_ScaleDownFactor DefaultPoolConfig) 0 Second 1 0 Second.
Definition busy_new : WorkerPool := mkWorkerPool busy_cfg [] ∅ [] ∅ false [] 0 0 false.
Definition busy_pool : WorkerPool := (pool_run [OpStart 1; sample_submit] busy_new).1.1.

Lemma busy_pool_inv : pool_inv busy_pool.
Proof.
  assert (NewWorkerPool busy_cfg = Ok busy_new) as Hnew by (vm_compute; reflexivity).
  destruct (pool_run [OpStart 1; sample_submit] busy_new) as [[p sub] beg] eqn:Hrun.
  assert (busy_pool = p) as -> by (unfold busy_pool; by rewrite Hrun).
  apply (pool_run_inv [OpStart 1; sample_submit] busy_new p sub beg); [by eapply NewWorkerPool_inv|done|done].
Qed.

Lemma scale_correct_witness :
  (scale 3 0 busy_pool).2 = Finished () /\ wp_workers (scale 3 0 busy_pool).1 = seq 1 20.
Proof.
  assert (Z.of_nat (length (wp_workers busy_pool)) < 2 ^ 53) as Hn by (vm_compute; reflexivity).
  destruct (scale_correct 3 0 busy_pool busy_pool_inv eq_refl eq_refl Hn) as [Hs Hw].
  split; [exact Hs|]. rewrite Hw. vm_compute. reflexivity.
Defined.

(** Scaled down and up again, a pool of at most three workers has four goroutines. *)
Example goroutines_leak :
  let p := (pool_run (sample_ops ++ [sample_submit; sample_submit; OpScaleTick 9 0]) sample_pool).1.1 in
  length (wp_workers p) = 3%nat /\ size (wp_store p) = 4%nat /\ all_exited p = false.
Proof. vm_compute. done. Qed.

(** Started twice, it has more workers than its maximum. *)
Example started_twice :
  let p := (pool_run [OpStart 1; OpSubmit false false None 2 sample_msg sample_env None; OpStart 1] 
              (mkWorkerPool (mkPoolConfig 3 3 (f64_of_Z 1) (f64_of_Z 1) 0 Second 2 0 Second) [] ∅ [] ∅ false [] 0 0 false)).1.1 in
  length (wp_workers p) = 6%nat.
Proof. vm_compute. done. Qed.

(** Recorded errors never exceed a thousand. *)
Lemma addError_bounded err errs : (length errs <= 1000)%nat -> (length (addError err errs) <= 1000)%nat.
Proof.
  intros Hl. unfold addError. rewrite length_app. simpl. destruct (Nat.ltb_spec 1000 (length errs + 1)).
  - rewrite length_drop, length_app. simpl. lia.
  - rewrite length_app. simpl. lia.
Qed.
