(* ===== verification/WorkerProcessor.v ===== *)
(** * The task processor: internal/worker/processor.go

    The classes of errors, and what becomes of a task of each type.  The HTTP client, the
    shell, encoding/json and the text of an identifier are the interface [Services]: what
    they answer to a request, a command or a text.  An error is its text.  Logging is left out. *)

From S2P Require Import Prelude GoFloat GoStrings GoHttp PipelineModels.

(** ** Classes of errors *)

(* go: internal/worker/processor.go type ErrorType *)
Inductive ErrorType : Type :=
| ErrorTypeUnknown
| ErrorTypeNetwork
| ErrorTypeTimeout
| ErrorTypeValidation
| ErrorTypeAuth
| ErrorTypeRateLimit
| ErrorTypeResource
| ErrorTypeInternal.

#[export] Instance ErrorType_eq_dec : EqDecision ErrorType.
Proof. solve_decision. Defined.

(* go: internal/worker/processor.go func ErrorType.String *)
Definition ErrorType_String (e : ErrorType) : string :=
  match e with
  | ErrorTypeNetwork => "network"
  | ErrorTypeTimeout => "timeout"
  | ErrorTypeValidation => "validation"
  | ErrorTypeAuth => "auth"
  | ErrorTypeRateLimit => "rate_limit"
  | ErrorTypeResource => "resource"
  | ErrorTypeInternal => "internal"
  | ErrorTypeUnknown => "unknown"
  end.

(* go: internal/worker/processor.go func ErrorType.IsRetryable *)
Definition ErrorType_IsRetryable (e : ErrorType) : bool :=
  match e with
  | ErrorTypeNetwork | ErrorTypeTimeout | ErrorTypeRateLimit | ErrorTypeResource => true
  | _ => false
  end.

(* go: internal/worker/processor.go func classifyError *)
Definition classifyError (err : option string) : ErrorType :=
  match err with
  | None => ErrorTypeUnknown
  | Some e =>
      let msg := ToLower e in
      if Contains msg "timeout" || Contains msg "deadline" then ErrorTypeTimeout
      else if Contains msg "connection" || Contains msg "network" then ErrorTypeNetwork
      else if Contains msg "no rows" || Contains msg "not found" then ErrorTypeValidation
      else if Contains msg "rate" || Contains msg "too many" then ErrorTypeRateLimit
      else if Contains msg "auth" || Contains msg "unauthorized" then ErrorTypeAuth
      else if Contains msg "resource" || Contains msg "memory" then ErrorTypeResource
      else ErrorTypeInternal
  end.

(** ** Results *)

(* go: internal/worker/processor.go type TaskResult *)
Record TaskResult := mkTaskResult {
  tr_TaskID : string;
  tr_Status : string;
  tr_Output : option string;
  tr_Error : string;
  tr_ErrorType : ErrorType;
  tr_Duration : Z;
  tr_Retryable : bool;
  tr_RetryCount : Z
}.

(** The two forms of the literals below; fields that are not given are zero. *)
Definition completed (output : option string) : TaskResult :=
  mkTaskResult "" TaskStatusCompleted output "" ErrorTypeUnknown 0 false 0.
Definition failed (err : string) (et : ErrorType) (retryable : bool) (output : option string) : TaskResult :=
  mkTaskResult "" TaskStatusFailed output err et 0 retryable 0.

(** ** Services *)

Record http_request := mkHttpRequest {
  hr_Method : string;
  hr_URL : string;
  hr_Body : option string;
  hr_Header : Header
}.

(** What the client makes of a request: it fails, the body cannot be read, or an answer. *)
Inductive http_answer : Type :=
| DoError (err : string)
| ReadError (err : string)
| Answered (code : Z) (body : string).

(** What becomes of a command: its standard output, or an error with the standard error. *)
Inductive run_answer : Type :=
| RunOk (stdout : string)
| RunError (err stderr : string).

(** The client and the shell are given the time-out of their context.  [sv_MarshalSQL] is
    the encoding of the map that [executeSQL] builds of the query and the time. *)
Class Services := {
  sv_data : Type;
  sv_NewRequest : string -> string -> option string -> option string;
  sv_Do : Z -> http_request -> http_answer;
  sv_Run : Z -> string -> run_answer;
  sv_Unmarshal : string -> sv_data + string;
  sv_Marshal : sv_data -> string + string;
  sv_MarshalSQL : string -> Z -> string + string;
  uuid_String : UUID -> string
}.

Section processor.
Context `{Services}.

(** The headers in an order of the range over their map. *)
Definition task_headers (ord : list string) (cfg : TaskConfig) : Header :=
  set_all (omap (fun k => (fun v => (k, v)) <$> tc_Headers cfg !! k) ord) ∅.

(* go: internal/worker/processor.go func DefaultProcessor.processHTTP *)
Definition processHTTP (timeout : Z) (ord : list string) (task : Task) : TaskResult :=
  let cfg := t_Config task in
  let method := ToUpper (tc_Method cfg) in
  let method := if String.eqb method "" then "GET"%string else method in
  let body := if String.eqb (tc_Body cfg) "" then None else Some (tc_Body cfg) in
  match sv_NewRequest method (tc_URL cfg) body with
  | Some err => failed ("create request: " +:+ err)%string (classifyError (Some err)) true None
  | None =>
      match sv_Do timeout (mkHttpRequest method (tc_URL cfg) body (task_headers ord cfg)) with
      | DoError err => failed ("http request: " +:+ err)%string (classifyError (Some err)) true None
      | ReadError err => failed ("read response: " +:+ err)%string ErrorTypeInternal false None
      | Answered code resp =>
          if 500 <=? code then
            failed ("server error: " +:+ itoa code +:+ " " +:+ resp)%string ErrorTypeNetwork true (Some resp)
          else if 400 <=? code then
            let '(et, retryable) := if code =? 429 then (ErrorTypeRateLimit, true) else (ErrorTypeValidation, false) in
            failed ("client error: " +:+ itoa code +:+ " " +:+ resp)%string et retryable (Some resp)
          else completed (Some resp)
      end
  end.

(* go: internal/worker/processor.go func DefaultProcessor.processGRPC *)
Definition processGRPC (task : Task) : TaskResult :=
  failed "gRPC task processing not yet implemented" ErrorTypeInternal false None.

(* go: internal/worker/processor.go func DefaultProcessor.executeSQL *)
Definition executeSQL (now : Z) (cfg : TaskConfig) : string + string := sv_MarshalSQL (tc_SQL cfg) now.

(* go: internal/worker/processor.go func DefaultProcessor.processSQL *)
Definition processSQL (now : Z) (task : Task) : TaskResult :=
  let cfg := t_Config task in
  if String.eqb (tc_SQL cfg) "" then failed "empty SQL query" ErrorTypeValidation false None
  else match executeSQL now cfg with
       | inl result => completed (Some result)
       | inr err =>
           let et := classifyError (Some err) in
           failed ("sql execution: " +:+ err)%string et (ErrorType_IsRetryable et) None
       end.

(* go: internal/worker/processor.go func DefaultProcessor.processScript *)
Definition processScript (timeout : Z) (task : Task) : TaskResult :=
  let cfg := t_Config task in
  if String.eqb (tc_Script cfg) "" then failed "empty script content" ErrorTypeValidation false None
  else match sv_Run timeout (tc_Script cfg) with
       | RunOk stdout => completed (Some stdout)
       | RunError err stderr =>
           let errMsg := if String.eqb stderr "" then err else stderr in
           let et := classifyError (Some err) in
           failed ("script execution: " +:+ errMsg)%string et (ErrorType_IsRetryable et) None
       end.

(* go: internal/worker/processor.go func DefaultProcessor.processShell *)
Definition processShell (timeout : Z) (task : Task) : TaskResult :=
  let cfg := t_Config task in
  if String.eqb (tc_Command cfg) "" then failed "empty shell command" ErrorTypeValidation false None
  else match sv_Run timeout (tc_Command cfg) with
       | RunOk stdout => completed (Some stdout)
       | RunError err stderr => failed ("shell command: " +:+ stderr)%string (classifyError (Some err)) true None
       end.

(* go: internal/worker/processor.go func DefaultProcessor.processWebhook *)
Definition processWebhook (timeout : Z) (ord : list string) (task : Task) : TaskResult := processHTTP timeout ord task.

(* go: internal/worker/processor.go func DefaultProcessor.processTransform *)
Definition processTransform (task : Task) : TaskResult :=
  let input := default EmptyString (t_Input task) in
  if String.eqb input "" then completed None
  else match sv_Unmarshal input with
       | inl data =>
           match sv_Marshal data with
           | inl output => completed (Some output)
           | inr err => failed ("marshal output: " +:+ err)%string ErrorTypeInternal false None
           end
       | inr err => failed ("unmarshal input: " +:+ err)%string ErrorTypeValidation false None
       end.

(** The context's time-out, which wraps; [took] is the time measured. *)
(* go: internal/worker/processor.go func DefaultProcessor.ProcessTask *)
Definition ProcessTask (now took : Z) (ord : list string) (task : Task) : TaskResult * option string :=
  let timeout := int64 (t_Timeout task * Second) in
  let type := t_Type task in
  let result :=
    if String.eqb type "http" then processHTTP timeout ord task
    else if String.eqb type "grpc" then processGRPC task
    else if String.eqb type "sql" then processSQL now task
    else if String.eqb type "script" then processScript timeout task
    else if String.eqb type "shell" then processShell timeout task
    else if String.eqb type "webhook" then processWebhook timeout ord task
    else if String.eqb type "transform" then processTransform task
    else failed ("unsupported task type: " +:+ type)%string ErrorTypeValidation false None in
  (mkTaskResult (uuid_String (t_ID task)) (tr_Status result) (tr_Output result) (tr_Error result) (tr_ErrorType result)
     took (tr_Retryable result) (tr_RetryCount result), None).

(** ** What it does *)

(** The request that a task describes. *)
Definition task_request (ord : list string) (cfg : TaskConfig) : http_request :=
  mkHttpRequest (if String.eqb (tc_Method cfg) "" then "GET" else ToUpper (tc_Method cfg)) (tc_URL cfg)
    (if String.eqb (tc_Body cfg) "" then None else Some (tc_Body cfg)) (task_headers ord cfg).

Definition request_made (rq : http_request) : bool :=
  match sv_NewRequest (hr_Method rq) (hr_URL rq) (hr_Body rq) with None => true | Some _ => false end.

(** Whether a task succeeds, by its type. *)
Definition succeeds (now : Z) (ord : list string) (task : Task) : bool :=
  let cfg := t_Config task in
  let timeout := int64 (t_Timeout task * Second) in
  let nonempty s := negb (String.eqb s "") in
  let ran script := match sv_Run timeout script with RunOk _ => true | _ => false end in
  if bool_decide (t_Type task ∈ ["http"; "webhook"]%string) then
    let rq := task_request ord cfg in
    request_made rq && match sv_Do timeout rq with Answered code _ => code <? 400 | _ => false end
  else if String.eqb (t_Type task) "sql" then
    nonempty (tc_SQL cfg) && match executeSQL now cfg with inl _ => true | _ => false end
  else if String.eqb (t_Type task) "script" then nonempty (tc_Script cfg) && ran (tc_Script cfg)
  else if String.eqb (t_Type task) "shell" then nonempty (tc_Command cfg) && ran (tc_Command cfg)
  else if String.eqb (t_Type task) "transform" then
    let input := default EmptyString (t_Input task) in
    String.eqb input ""
    || match sv_Unmarshal input with
       | inl data => match sv_Marshal data with inl _ => true | _ => false end
       | _ => false
       end
  else false.

(** Whether a failure may be retried. *)
Definition retries (now : Z) (ord : list string) (task : Task) : bool :=
  let cfg := t_Config task in
  let timeout := int64 (t_Timeout task * Second) in
  let nonempty s := negb (String.eqb s "") in
  let class err := ErrorType_IsRetryable (classifyError (Some err)) in
  if bool_decide (t_Type task ∈ ["http"; "webhook"]%string) then
    let rq := task_request ord cfg in
    negb (request_made rq)
    || match sv_Do timeout rq with
       | DoError _ => true
       | ReadError _ => false
       | Answered code _ => (500 <=? code) || (code =? 429)
       end
  else if String.eqb (t_Type task) "sql" then
    nonempty (tc_SQL cfg) && match executeSQL now cfg with inr err => class err | _ => false end
  else if String.eqb (t_Type task) "script" then
    nonempty (tc_Script cfg) && match sv_Run timeout (tc_Script cfg) with RunError err _ => class err | _ => false end
  else if String.eqb (t_Type task) "shell" then nonempty (tc_Command cfg)
  else false.

(** A result says the same with its status, its error, its class and its retries. *)
Definition consistent (r : TaskResult) (ok retry : bool) : Prop :=
  if ok then r = mkTaskResult (tr_TaskID r) TaskStatusCompleted (tr_Output r) "" ErrorTypeUnknown (tr_Duration r) false 0
  else tr_Status r = TaskStatusFailed /\ tr_Error r <> EmptyString /\ tr_ErrorType r <> ErrorTypeUnknown
       /\ tr_Retryable r = retry /\ tr_RetryCount r = 0.

Lemma classify_known e : classifyError (Some e) <> ErrorTypeUnknown.
Proof. simpl. by repeat (destruct (_ || _); [done|]). Qed.

Lemma consistent_completed o retry : consistent (completed o) true retry.
Proof. done. Qed.

Lemma consistent_failed err et retryable retry o :
  err <> EmptyString -> et <> ErrorTypeUnknown -> retryable = retry -> consistent (failed err et retryable o) false retry.
Proof. intros ???. done. Qed.

#[local] Hint Resolve classify_known : core.

Ltac consistency :=
  first [ apply consistent_completed | apply consistent_failed; [discriminate| |]; try done; try apply classify_known ].

Lemma ToUpper_empty s : String.eqb (ToUpper s) "" = String.eqb s "".
Proof. by destruct s. Qed.

Lemma processHTTP_consistent timeout ord task :
  let rq := task_request ord (t_Config task) in
  consistent (processHTTP timeout ord task)
    (request_made rq && match sv_Do timeout rq with Answered code _ => code <? 400 | _ => false end)
    (negb (request_made rq) || match sv_Do timeout rq with
                              | DoError _ => true | ReadError _ => false
                              | Answered code _ => (500 <=? code) || (code =? 429) end).
Proof.
  intros rq. unfold processHTTP, request_made. rewrite ToUpper_empty.
  change (hr_Method rq) with (if String.eqb (tc_Method (t_Config task)) "" then "GET" else ToUpper (tc_Method (t_Config task)))%string.
  simpl hr_URL. simpl hr_Body. unfold rq, task_request.
  destruct (sv_NewRequest _ _ _) as [err|]; [consistency|].
  simpl. destruct (sv_Do _ _) as [err|err|code body]; [consistency..|].
  destruct (Z.leb_spec 500 code).
  { destruct (Z.ltb_spec code 400); [lia|]. consistency. }
  destruct (Z.leb_spec 400 code), (Z.ltb_spec code 400); try lia; [|consistency].
  destruct (code =? 429); consistency.
Qed.

(** C22: a task always gets a result, never an error: it is completed, without an error or a
    retry, exactly if the request is answered below 400, the query can be encoded, the
    command of the script or shell task is not empty and succeeds, or the input of the
    transformation is empty or JSON; else it is failed with a text and a class, and may be
    retried exactly for a request that cannot be made or sent or is answered by 429 or from
    500 on, for every shell command that was run, and for the classes of errors that are
    retried in the others. *)
Theorem ProcessTask_correct now took ord task :
  exists r, ProcessTask now took ord task = (r, None)
    /\ tr_TaskID r = uuid_String (t_ID task) /\ tr_Duration r = took
    /\ consistent r (succeeds now ord task) (retries now ord task).
Proof.
  unfold ProcessTask. eexists. split; [reflexivity|]. split; [done|]. split; [done|].
  match goal with |- consistent (mkTaskResult _ (tr_Status ?r) _ _ _ _ _ _) ?ok ?retry =>
    cut (consistent r ok retry); [generalize r; intros r'; destruct r', ok; unfold consistent; simpl; congruence|] end.
  unfold succeeds, retries, processWebhook, executeSQL.
  destruct (String.eqb_spec (t_Type task) "http") as [->|Hh]; [apply processHTTP_consistent|].
  destruct (String.eqb_spec (t_Type task) "grpc") as [->|Hg]; [consistency|].
  destruct (String.eqb_spec (t_Type task) "sql") as [->|Hs].
  { cbn -[classifyError ErrorType_IsRetryable consistent]. unfold processSQL, executeSQL.
    destruct (String.eqb _ ""); [consistency|]. destruct (sv_MarshalSQL _ _); consistency. }
  destruct (String.eqb_spec (t_Type task) "script") as [->|Hc].
  { cbn -[classifyError ErrorType_IsRetryable consistent]. unfold processScript.
    destruct (String.eqb _ ""); [consistency|]. destruct (sv_Run _ _); consistency. }
  destruct (String.eqb_spec (t_Type task) "shell") as [->|Hl].
  { cbn -[classifyError ErrorType_IsRetryable consistent]. unfold processShell.
    destruct (String.eqb _ ""); [consistency|]. destruct (sv_Run _ _); consistency. }
  destruct (String.eqb_spec (t_Type task) "webhook") as [->|Hw]; [apply processHTTP_consistent|].
  destruct (String.eqb_spec (t_Type task) "transform") as [->|Ht].
  { cbn -[classifyError ErrorType_IsRetryable consistent]. unfold processTransform.
    destruct (String.eqb _ ""); [consistency|]. simpl. destruct (sv_Unmarshal _) as [d|]; [|consistency].
    destruct (sv_Marshal d); consistency. }
  rewrite bool_decide_eq_false_2 by set_solver. consistency.
Qed.
End processor.

(** ** Errors worth a retry *)

(** An error is taken for one that a retry may cure exactly if its text in lower case has
    one of "timeout", "deadline", "connection", "network"; or none of "no rows", "not found"
    but "rate" or "too many", even inside another word; or none of these nor "auth" but
    "resource" or "memory". *)
Theorem classifyError_retryable e :
  let has w := occurs w (ToLower e) in
  ErrorType_IsRetryable (classifyError (Some e)) = true <->
    has "timeout"%string \/ has "deadline"%string \/ has "connection"%string \/ has "network"%string
    \/ (~ has "no rows"%string /\ ~ has "not found"%string
        /\ (has "rate"%string \/ has "too many"%string
            \/ (~ has "auth"%string /\ ~ has "unauthorized"%string /\ (has "resource"%string \/ has "memory"%string)))).
Proof.
  cbn zeta. rewrite <- !Contains_spec. cbn [classifyError]. generalize (ToLower e). intros msg.
  repeat match goal with |- context [if ?a || ?b then _ else _] => destruct a eqn:?, b eqn:?; simpl end;
    split; intros; try done; intuition congruence.
Qed.

(** "generate" has the word "rate" in it. *)
Example generate_retried : classifyError (Some "cannot generate a key") = ErrorTypeRateLimit.
Proof. vm_compute. reflexivity. Qed.

(** ** Example *)

#[local] Instance toy_services : Services := {
  sv_data := string;
  sv_NewRequest := fun m u b => if String.eqb u "" then Some "empty url"%string else None;
  sv_Do := fun t rq => Answered 503 "busy";
  sv_Run := fun t c => RunError "exit status 1" "";
  sv_Unmarshal := inl;
  sv_Marshal := inl;
  sv_MarshalSQL := fun q t => inl q;
  uuid_String := fun _ => "id"%string
}.

(** A failed script is not retried, the same command as a shell task is. *)
Example script_and_shell :
  let run t := (ProcessTask 0 0 [] (mkTask 1 1 None None "n" t "pending" 0 0 None None ""
    (mkTaskConfig "" "" ∅ ∅ "" "exit 1" "exit 1" "" "" "" "" false 0 "" "" ∅ false "") 0 0 60 "" None None 0 None 0 0)).1 in
  tr_Error (run "script"%string) = "script execution: exit status 1"%string /\ tr_Retryable (run "script"%string) = false
  /\ tr_Error (run "shell"%string) = "shell command: "%string /\ tr_Retryable (run "shell"%string) = true.
Proof. vm_compute. done. Qed.
