(* ===== verification/WorkerRegistry.v ===== *)
(** * The registry of handlers: internal/worker/registry.go

    Handlers by the type of their tasks, with validators that run before them, and the eight
    built-in handlers.  A handler and a validator are functions of the task; their context and
    their effects are their own.  A registered handler is a pointer that its caller shares:
    [Register] returns it as it leaves it.  Logging is left out. *)

From S2P Require Import Prelude PipelineModels WorkerProcessor.

(** ** Data *)

(* go: internal/worker/registry.go type HandlerFunc *)
Definition HandlerFunc : Type := Task -> option TaskResult * option string.
(* go: internal/worker/registry.go type HandlerValidator *)
Definition HandlerValidator : Type := Task -> option string.

(* go: internal/worker/registry.go type RegisteredHandler *)
Record RegisteredHandler := mkRegisteredHandler {
  rh_Name : string;
  rh_Handler : option HandlerFunc;
  rh_Description : string;
  rh_TaskType : string;
  rh_Version : string;
  rh_Validators : list HandlerValidator
}.

(** [HandlerRegistry] is its map of handlers by the type of their tasks. *)
Abbreviation HandlerRegistry := (gmap string RegisteredHandler).

Inductive RegistryError : Type :=
| ErrNilHandler
| ErrTypeRequired
| ErrFunctionRequired (taskType : string)
| ErrInvalidType (taskType : string)
| ErrAlreadyRegistered (taskType : string)
| ErrNoHandler (taskType : string)
| ErrValidate (id : UUID) (err : RegistryError)
| ErrValidation (id : UUID) (taskType err : string)
| ErrHandler (err : string).

Definition set_name (name : string) (h : RegisteredHandler) : RegisteredHandler :=
  mkRegisteredHandler name (rh_Handler h) (rh_Description h) (rh_TaskType h) (rh_Version h) (rh_Validators h).
Definition set_validators (l : list HandlerValidator) (h : RegisteredHandler) : RegisteredHandler :=
  mkRegisteredHandler (rh_Name h) (rh_Handler h) (rh_Description h) (rh_TaskType h) (rh_Version h) l.

(** ** Operations *)

(** With the handler that the pointer has afterwards. *)
(* go: internal/worker/registry.go func HandlerRegistry.Register *)
Definition Register (handler : option RegisteredHandler) (r : HandlerRegistry)
    : option RegisteredHandler * HandlerRegistry * option RegistryError :=
  match handler with
  | None => (None, r, Some ErrNilHandler)
  | Some h =>
      if String.eqb (rh_TaskType h) "" then (Some h, r, Some ErrTypeRequired)
      else match rh_Handler h with
           | None => (Some h, r, Some (ErrFunctionRequired (rh_TaskType h)))
           | Some _ =>
               let h := if String.eqb (rh_Name h) "" then set_name (rh_TaskType h) h else h in
               if negb (TaskType_IsValid (rh_TaskType h)) then (Some h, r, Some (ErrInvalidType (rh_TaskType h)))
               else match r !! rh_TaskType h with
                    | Some _ => (Some h, r, Some (ErrAlreadyRegistered (rh_TaskType h)))
                    | None => (Some h, <[rh_TaskType h := h]> r, None)
                    end
           end
  end.

(** A nil handler panics here. *)
(* go: internal/worker/registry.go func HandlerRegistry.RegisterWithValidation *)
Definition RegisterWithValidation (handler : option RegisteredHandler) (validators : list HandlerValidator) (r : HandlerRegistry)
    : go_result (option RegisteredHandler * HandlerRegistry * option RegistryError) RegistryError :=
  match handler with
  | None => Panic
  | Some h => Ok (Register (Some (set_validators (rh_Validators h ++ validators) h)) r)
  end.

(* go: internal/worker/registry.go func HandlerRegistry.Get *)
Definition Get (taskType : string) (r : HandlerRegistry) : go_result RegisteredHandler RegistryError :=
  match r !! taskType with
  | Some h => Ok h
  | None => Err (ErrNoHandler taskType)
  end.

(* go: internal/worker/registry.go func HandlerRegistry.MustGet *)
Definition MustGet (taskType : string) (r : HandlerRegistry) : go_result RegisteredHandler RegistryError :=
  match Get taskType r with Err _ => Panic | x => x end.

(* go: internal/worker/registry.go func HandlerRegistry.Has *)
Definition Has (taskType : string) (r : HandlerRegistry) : bool := bool_decide (is_Some (r !! taskType)).

(** [ord] is an order of the range over the map. *)
(* go: internal/worker/registry.go func HandlerRegistry.List *)
Definition List (ord : list string) (r : HandlerRegistry) : list RegisteredHandler := omap (fun t => r !! t) ord.
(* go: internal/worker/registry.go func HandlerRegistry.Types *)
Definition Types (ord : list string) (r : HandlerRegistry) : list string := filter (fun t => is_Some (r !! t)) ord.

(* go: internal/worker/registry.go func HandlerRegistry.Unregister *)
Definition Unregister (taskType : string) (r : HandlerRegistry) : HandlerRegistry * option RegistryError :=
  match r !! taskType with
  | None => (r, Some (ErrNoHandler taskType))
  | Some _ => (delete taskType r, None)
  end.

(** The first validator that refuses the task. *)
Fixpoint first_error (l : list HandlerValidator) (task : Task) : option string :=
  match l with
  | [] => None
  | v :: l => match v task with Some err => Some err | None => first_error l task end
  end.

(* go: internal/worker/registry.go func HandlerRegistry.Validate *)
Definition Validate (task : Task) (r : HandlerRegistry) : option RegistryError :=
  match Get (t_Type task) r with
  | Ok handler =>
      match first_error (rh_Validators handler) task with
      | Some err => Some (ErrValidation (t_ID task) (t_Type task) err)
      | None => None
      end
  | Err err => Some (ErrValidate (t_ID task) err)
  | Panic => None
  end.

(** Calling a nil function panics. *)
(* go: internal/worker/registry.go func HandlerRegistry.Execute *)
Definition Execute (task : Task) (r : HandlerRegistry) : go_result (option TaskResult * option RegistryError) RegistryError :=
  match Get (t_Type task) r with
  | Err err => Ok (None, Some err)
  | Panic => Panic
  | Ok handler =>
      match Validate task r with
      | Some err => Ok (None, Some err)
      | None =>
          match rh_Handler handler with
          | None => Panic
          | Some f => let '(res, err) := f task in Ok (res, ErrHandler <$> err)
          end
      end
  end.

(** ** Built-in handlers *)

Definition refuse (msg : string) : HandlerFunc := fun _ => (None, Some msg).
(** A validator that wants a text not to be empty. *)
Definition wants (f : TaskConfig -> string) (msg : string) : HandlerValidator :=
  fun task => if String.eqb (f (t_Config task)) "" then Some msg else None.

Definition http_methods : list string := ["GET"; "POST"; "PUT"; "DELETE"; "PATCH"; "HEAD"; "OPTIONS"]%string.

(* go: internal/worker/registry.go @187-217 registerBuiltins *)
Definition httpHandler : RegisteredHandler :=
  mkRegisteredHandler "http_handler" (Some (refuse "http handler: use DefaultProcessor for execution"))
    "Handles HTTP request tasks" "http" "1.0.0"
    [wants tc_URL "http task requires a URL";
     fun task => let method := tc_Method (t_Config task) in
                 if negb (String.eqb method "") && negb (existsb (String.eqb method) http_methods)
                 then Some ("invalid HTTP method: " +:+ method)%string else None].

(* go: internal/worker/registry.go @219-239 registerBuiltins *)
Definition grpcHandler : RegisteredHandler :=
  mkRegisteredHandler "grpc_handler" (Some (refuse "grpc handler: use DefaultProcessor for execution"))
    "Handles gRPC call tasks" "grpc" "1.0.0"
    [fun task => if String.eqb (tc_ServiceName (t_Config task)) "" then Some "gRPC task requires a service name"%string
                 else if String.eqb (tc_Endpoint (t_Config task)) "" then Some "gRPC task requires an endpoint"%string
                 else None].

(* go: internal/worker/registry.go @241-258 registerBuiltins *)
Definition sqlHandler : RegisteredHandler :=
  mkRegisteredHandler "sql_handler" (Some (refuse "sql handler: use DefaultProcessor for execution"))
    "Handles SQL query execution tasks" "sql" "1.0.0" [wants tc_SQL "SQL task requires a query"].

(* go: internal/worker/registry.go @260-277 registerBuiltins *)
Definition scriptHandler : RegisteredHandler :=
  mkRegisteredHandler "script_handler" (Some (refuse "script handler: use DefaultProcessor for execution"))
    "Handles script execution tasks" "script" "1.0.0" [wants tc_Script "script task requires script content"].

(* go: internal/worker/registry.go @279-296 registerBuiltins *)
Definition shellHandler : RegisteredHandler :=
  mkRegisteredHandler "shell_handler" (Some (refuse "shell handler: use DefaultProcessor for execution"))
    "Handles shell command execution tasks" "shell" "1.0.0" [wants tc_Command "shell task requires a command"].

(* go: internal/worker/registry.go @298-315 registerBuiltins *)
Definition webhookHandler : RegisteredHandler :=
  mkRegisteredHandler "webhook_handler" (Some (refuse "webhook handler: use DefaultProcessor for execution"))
    "Handles webhook trigger tasks" "webhook" "1.0.0" [wants tc_URL "webhook task requires a URL"].

(* go: internal/worker/registry.go @317-326 registerBuiltins *)
Definition transformHandler : RegisteredHandler :=
  mkRegisteredHandler "transform_handler" (Some (refuse "transform handler: use DefaultProcessor for execution"))
    "Handles data transformation tasks" "transform" "1.0.0" [].

Section registry.
Context (uuid_text : UUID -> string).

(* go: internal/worker/registry.go @328-348 registerBuiltins *)
Definition notificationHandler : RegisteredHandler :=
  mkRegisteredHandler "notification_handler"
    (Some (fun task => (Some (mkTaskResult (uuid_text (t_ID task)) TaskStatusCompleted None "" ErrorTypeUnknown 0 false 0), None)))
    "Handles notification dispatch tasks" "notification" "1.0.0"
    [wants tc_NotifyChannel "notification task requires a notify channel"].

Definition builtins : list RegisteredHandler :=
  [httpHandler; grpcHandler; sqlHandler; scriptHandler; shellHandler; webhookHandler; transformHandler; notificationHandler].

(* go: internal/worker/registry.go func NewHandlerRegistry *)
Definition NewHandlerRegistry : HandlerRegistry :=
  foldl (fun r h => <[rh_TaskType h := h]> r) ∅ builtins.

(** ** Runs *)

Inductive registry_op : Type :=
| OpRegister (h : option RegisteredHandler)
| OpRegisterWithValidation (h : option RegisteredHandler) (l : list HandlerValidator)
| OpUnregister (t : string).

Definition registry_step (op : registry_op) (r : HandlerRegistry) : HandlerRegistry :=
  match op with
  | OpRegister h => (Register h r).1.2
  | OpRegisterWithValidation h l => match RegisterWithValidation h l r with Ok x => x.1.2 | _ => r end
  | OpUnregister t => (Unregister t r).1
  end.

Definition registry_run (ops : list registry_op) : HandlerRegistry :=
  foldl (fun r op => registry_step op r) NewHandlerRegistry ops.

Definition handler_ok (t : string) (h : RegisteredHandler) : Prop :=
  rh_TaskType h = t /\ TaskType_IsValid t = true /\ rh_Name h <> EmptyString /\ is_Some (rh_Handler h).

Definition registry_ok (r : HandlerRegistry) : Prop := map_Forall handler_ok r.

Lemma NewHandlerRegistry_ok : registry_ok NewHandlerRegistry.
Proof.
  unfold NewHandlerRegistry, builtins. simpl.
  repeat (apply map_Forall_insert_2; [split_and!; [done|reflexivity|done|by eexists]|]). apply map_Forall_empty.
Qed.

Lemma Register_ok h r : registry_ok r -> registry_ok (Register h r).1.2.
Proof.
  intros Hr. unfold Register. destruct h as [h|]; [|done].
  destruct (String.eqb_spec (rh_TaskType h) "") as [|Ht]; [done|]. destruct (rh_Handler h) as [f|] eqn:Hf; [|done].
  cbv zeta. set (h' := if String.eqb (rh_Name h) "" then set_name (rh_TaskType h) h else h).
  assert (rh_TaskType h' = rh_TaskType h /\ rh_Handler h' = Some f /\ rh_Name h' <> EmptyString) as (Ht' & Hf' & Hn)
    by (unfold h'; destruct (String.eqb_spec (rh_Name h) ""); done).
  destruct (TaskType_IsValid (rh_TaskType h')) eqn:Hv; [|done]. simpl.
  destruct (r !! rh_TaskType h'); [done|]. simpl. apply map_Forall_insert_2; [|done].
  split_and!; [done|done|done|by eexists].
Qed.

Lemma registry_step_ok op r : registry_ok r -> registry_ok (registry_step op r).
Proof.
  intros Hr. destruct op as [h|[h|] l|t]; cbn [registry_step RegisterWithValidation]; [by apply Register_ok|by apply Register_ok|done|].
  unfold Unregister. destruct (r !! t); [by apply map_Forall_delete|done].
Qed.

Lemma registry_run_ok ops : registry_ok (registry_run ops).
Proof.
  unfold registry_run. induction ops as [|op ops IH] using rev_ind; [apply NewHandlerRegistry_ok|].
  rewrite foldl_app. by apply registry_step_ok.
Qed.

Lemma first_error_spec l task :
  match first_error l task with
  | Some err => exists l1 v l2, l = l1 ++ v :: l2 /\ Forall (fun v => v task = None) l1 /\ v task = Some err
  | None => Forall (fun v => v task = None) l
  end.
Proof.
  induction l as [|v l IH]; simpl; [constructor|]. destruct (v task) as [err|] eqn:Hv.
  - exists [], v, l. split_and!; [done|constructor|done].
  - destruct (first_error l task); [|by constructor].
    destruct IH as (l1 & w & l2 & -> & Hl & Hw). exists (v :: l1), w, l2. by split_and!; [|constructor|].
Qed.

(** After any registrations each handler is found under its own valid type, with a name and
    a function; executing a task never panics: without a handler for its type that is the
    error, else the first validator that refuses the task is, and only a task that all
    accept is handed to the handler. *)
Theorem registry_Execute_correct ops task :
  let r := registry_run ops in
  registry_ok r
  /\ match r !! t_Type task with
     | None => Execute task r = Ok (None, Some (ErrNoHandler (t_Type task)))
     | Some h =>
         exists f, rh_Handler h = Some f
           /\ ((exists l1 v l2 err, rh_Validators h = l1 ++ v :: l2 /\ Forall (fun v => v task = None) l1 /\ v task = Some err
                  /\ Execute task r = Ok (None, Some (ErrValidation (t_ID task) (t_Type task) err)))
               \/ (Forall (fun v => v task = None) (rh_Validators h)
                   /\ Execute task r = Ok ((f task).1, ErrHandler <$> (f task).2)))
     end.
Proof.
  intros r. pose proof (registry_run_ok ops) as Hr. fold r in Hr. split; [done|].
  unfold Execute, Validate, Get. destruct (r !! t_Type task) as [h|] eqn:Hh; [|done].
  destruct (Hr _ _ Hh) as (_ & _ & _ & [f Hf]). exists f. split; [done|].
  pose proof (first_error_spec (rh_Validators h) task) as Hfirst.
  destruct (first_error (rh_Validators h) task) as [err|].
  - left. destruct Hfirst as (l1 & v & l2 & ? & ? & ?). by exists l1, v, l2, err.
  - right. split; [done|]. rewrite Hf. by destruct (f task).
Qed.

Lemma NewHandlerRegistry_lookup t :
  NewHandlerRegistry !! t = List.find (fun h => String.eqb (rh_TaskType h) t) (rev builtins).
Proof.
  unfold NewHandlerRegistry, builtins. cbn [foldl rev app List.find]. rewrite !lookup_insert, lookup_empty.
  cbn [rh_TaskType notificationHandler transformHandler webhookHandler shellHandler scriptHandler sqlHandler grpcHandler httpHandler].
  repeat match goal with |- context [String.eqb ?a t] => destruct (String.eqb_spec a t) as [<-|?]; [reflexivity|] end.
  by rewrite !decide_False by done.
Qed.

Lemma builtins_cases h : h ∈ builtins ->
  h = notificationHandler \/ (rh_TaskType h <> "notification"%string /\ exists msg, rh_Handler h = Some (refuse msg)).
Proof.
  unfold builtins. rewrite !elem_of_cons, elem_of_nil.
  intros [->|[->|[->|[->|[->|[->|[->|[->|[]]]]]]]]]; try (right; split; [done|by eexists]). by left.
Qed.

(** A new registry has a handler for every valid type but "custom", so that registering one
    of these fails; and it carries out no task but a notification with a channel, for which
    nothing is sent: every other task is refused by a validator or by the handler. *)
Theorem builtins_refuse task :
  (forall t, Has t NewHandlerRegistry = TaskType_IsValid t && negb (String.eqb t "custom"))
  /\ (forall res, Execute task NewHandlerRegistry = Ok (Some res, None) <->
        t_Type task = "notification"%string /\ tc_NotifyChannel (t_Config task) <> EmptyString
        /\ res = mkTaskResult (uuid_text (t_ID task)) TaskStatusCompleted None "" ErrorTypeUnknown 0 false 0).
Proof.
  split.
  - intros t. unfold Has. rewrite NewHandlerRegistry_lookup. unfold TaskType_IsValid, builtins.
    cbn [List.find rev app existsb rh_TaskType notificationHandler transformHandler webhookHandler shellHandler scriptHandler
         sqlHandler grpcHandler httpHandler].
    repeat match goal with |- context [String.eqb ?a t] => destruct (String.eqb_spec a t) as [<-|?]; [reflexivity|] end.
    repeat match goal with H : ?a <> t |- _ => rewrite (proj2 (String.eqb_neq t a) (not_eq_sym H)); clear H end.
    by destruct (String.eqb t "custom").
  - intros res. unfold Execute, Validate, Get. rewrite NewHandlerRegistry_lookup.
    destruct (List.find _ _) as [h|] eqn:Hf.
    + apply find_some in Hf as [Hin%in_rev Ht%String.eqb_eq].
      destruct (builtins_cases h) as [->|[Hn [msg Hm]]]; [by apply list_elem_of_In|..].
      * cbn [rh_Validators notificationHandler first_error rh_Handler]. unfold wants. simpl in Ht. rewrite <- Ht.
        destruct (String.eqb_spec (tc_NotifyChannel (t_Config task)) "") as [|Hc]; [naive_solver|].
        split; [by intros [= <-]|by intros (_ & _ & ->)].
      * rewrite <- Ht. destruct (first_error _ _); [naive_solver|]. rewrite Hm. simpl. naive_solver.
    + split; [done|]. intros (Ht & _). by rewrite Ht in Hf.
Qed.
End registry.

(** ** Example *)

Definition custom_handler : RegisteredHandler :=
  mkRegisteredHandler "" (Some (fun task => (None, Some "no"%string))) "" "custom" "" [].

(** A handler of a built-in type can only be registered after the built-in one is removed. *)
Example register_again :
  let r := NewHandlerRegistry (fun _ => "id"%string) in
  let mine := mkRegisteredHandler "mine" (Some (refuse "x")) "" "http" "" [] in
  (Register (Some mine) r).2 = Some (ErrAlreadyRegistered "http")
  /\ (Register (Some mine) (Unregister "http" r).1).2 = None
  /\ rh_Name <$> (Register (Some custom_handler) r).1.1 = Some "custom"%string.
Proof. vm_compute. done. Qed.
