(* ===== verification/TaskRepo.v ===== *)
(** * Stored tasks: internal/repository/task_repo.go

    The table task_executions as a map of rows by identifier, and the SQL statements of
    [TaskRepository] as operations on it.  The columns are those of the statements
    (models.TaskExecution, which the file names, is declared nowhere in the sources).  A
    statement may fail for reasons of the database: [fail] is then the error.  Rows that
    compare equal come in the order [ord], which leaves out rows that a statement skips as
    locked. *)

From S2P Require Import Prelude PipelineModels.

(** ** Data *)

Record TaskExecution := mkTaskExecution {
  te_ID : string;
  te_PipelineID : string;
  te_RunID : string;
  te_Status : string;
  te_InputData : option string;
  te_OutputData : option string;
  te_ErrorMessage : string;
  te_RetryCount : Z;
  te_MaxRetries : Z;
  te_ScheduledAt : option Z;
  te_StartedAt : option Z;
  te_CompletedAt : option Z;
  te_WorkerID : string;
  te_CreatedAt : Z;
  te_UpdatedAt : Z
}.

Abbreviation task_table := (gmap string TaskExecution).

Inductive TaskRepoError : Type :=
| TaskNotFound (id : string)
| TaskDatabase (err : string)
| TaskOf (id : string) (err : TaskRepoError).

(* go: internal/repository/task_repo.go type TaskFilter *)
Record TaskFilter := mkTaskFilter {
  tf_PipelineID : string;
  tf_Status : string;
  tf_Limit : Z;
  tf_Offset : Z
}.

(* go: internal/repository/task_repo.go type TaskBatchResult *)
Record TaskBatchResult := mkBatchResult {
  br_Total : Z;
  br_Succeeded : Z;
  br_Failed : Z;
  br_Errors : list TaskRepoError
}.

(** Columns replaced by a statement. *)
Definition set_state (status err : string) (started completed : option Z) (updated : Z) (t : TaskExecution) : TaskExecution :=
  mkTaskExecution (te_ID t) (te_PipelineID t) (te_RunID t) status (te_InputData t) (te_OutputData t) err (te_RetryCount t)
    (te_MaxRetries t) (te_ScheduledAt t) started completed (te_WorkerID t) (te_CreatedAt t) updated.
Definition set_retry (count : Z) (status err : string) (updated : Z) (t : TaskExecution) : TaskExecution :=
  mkTaskExecution (te_ID t) (te_PipelineID t) (te_RunID t) status (te_InputData t) (te_OutputData t) err count
    (te_MaxRetries t) (te_ScheduledAt t) (te_StartedAt t) (te_CompletedAt t) (te_WorkerID t) (te_CreatedAt t) updated.
Definition set_worker (status worker : string) (started : Z) (t : TaskExecution) : TaskExecution :=
  mkTaskExecution (te_ID t) (te_PipelineID t) (te_RunID t) status (te_InputData t) (te_OutputData t) (te_ErrorMessage t)
    (te_RetryCount t) (te_MaxRetries t) (te_ScheduledAt t) (Some started) (te_CompletedAt t) worker (te_CreatedAt t) started.

(** ** Operations *)

(** The defaults that [Create] writes into its argument. *)
Definition with_defaults (now : Z) (t : TaskExecution) : TaskExecution :=
  mkTaskExecution (te_ID t) (te_PipelineID t) (te_RunID t)
    (if String.eqb (te_Status t) "" then TaskStatusPending else te_Status t)
    (te_InputData t) (te_OutputData t) (te_ErrorMessage t) (te_RetryCount t)
    (if te_MaxRetries t =? 0 then 3 else te_MaxRetries t)
    (te_ScheduledAt t) (te_StartedAt t) (te_CompletedAt t) (te_WorkerID t)
    (if time_IsZero (te_CreatedAt t) then now else te_CreatedAt t)
    (if time_IsZero (te_UpdatedAt t) then now else te_UpdatedAt t).

(** The identifier is the primary key. *)
(* go: internal/repository/task_repo.go func TaskRepository.Create *)
Definition Create (fail : option string) (now : Z) (t : TaskExecution) (tbl : task_table)
    : TaskExecution * task_table * option TaskRepoError :=
  let t := with_defaults now t in
  match fail with
  | Some err => (t, tbl, Some (TaskDatabase err))
  | None =>
      match tbl !! te_ID t with
      | Some _ => (t, tbl, Some (TaskDatabase "duplicate key value violates unique constraint"))
      | None => (t, <[te_ID t := t]> tbl, None)
      end
  end.

(** The failures and the clock of the statements, by position. *)
Fixpoint batch_loop (fail : nat -> option string) (now : nat -> Z) (i : nat) (tasks : list TaskExecution) (res : TaskBatchResult)
    (tbl : task_table) : TaskBatchResult * task_table :=
  match tasks with
  | [] => (res, tbl)
  | t :: tasks =>
      match Create (fail i) (now i) t tbl with
      | (t', tbl', Some err) =>
          batch_loop fail now (S i) tasks
            (mkBatchResult (br_Total res) (br_Succeeded res) (br_Failed res + 1) (br_Errors res ++ [TaskOf (te_ID t') err])) tbl'
      | (_, tbl', None) =>
          batch_loop fail now (S i) tasks (mkBatchResult (br_Total res) (br_Succeeded res + 1) (br_Failed res) (br_Errors res)) tbl'
      end
  end.

(* go: internal/repository/task_repo.go func TaskRepository.BatchCreate *)
Definition BatchCreate (fail : nat -> option string) (now : nat -> Z) (tasks : list TaskExecution) (tbl : task_table)
    : TaskBatchResult * task_table :=
  batch_loop fail now 0 tasks (mkBatchResult (Z.of_nat (length tasks)) 0 0 []) tbl.

(* go: internal/repository/task_repo.go func TaskRepository.GetByID *)
Definition GetByID (fail : option string) (id : string) (tbl : task_table) : TaskExecution + TaskRepoError :=
  match fail with
  | Some err => inr (TaskDatabase err)
  | None => match tbl !! id with Some t => inl t | None => inr (TaskNotFound id) end
  end.

(** ORDER BY created_at, descending and ascending. *)
Definition newer (t u : TaskExecution) : Prop := te_CreatedAt u <= te_CreatedAt t.
Definition older (t u : TaskExecution) : Prop := te_CreatedAt t <= te_CreatedAt u.
#[export] Instance newer_dec t u : Decision (newer t u).
Proof. unfold newer. apply _. Defined.
#[export] Instance older_dec t u : Decision (older t u).
Proof. unfold older. apply _. Defined.

Definition select (ord : list string) (p : TaskExecution -> bool) (tbl : task_table) : list TaskExecution :=
  List.filter p (omap (fun id => tbl !! id) ord).

(* go: internal/repository/task_repo.go func TaskRepository.GetByPipeline *)
Definition GetByPipeline (fail : option string) (ord : list string) (pipelineID : string) (f : TaskFilter) (tbl : task_table)
    : list TaskExecution + TaskRepoError :=
  let limit := if tf_Limit f <=? 0 then 50 else tf_Limit f in
  match fail with
  | Some err => inr (TaskDatabase err)
  | None =>
      if tf_Offset f <? 0 then inr (TaskDatabase "OFFSET must not be negative")
      else
        let p t := String.eqb (te_PipelineID t) pipelineID && (String.eqb (tf_Status f) "" || String.eqb (te_Status t) (tf_Status f)) in
        inl (take (Z.to_nat limit) (drop (Z.to_nat (tf_Offset f)) (merge_sort newer (select ord p tbl))))
  end.

(** A statement that updates the row of [id]. *)
Definition update_row (fail : option string) (id : string) (f : TaskExecution -> TaskExecution) (tbl : task_table)
    : task_table * option TaskRepoError :=
  match fail with
  | Some err => (tbl, Some (TaskDatabase err))
  | None => match tbl !! id with Some t => (<[id := f t]> tbl, None) | None => (tbl, Some (TaskNotFound id)) end
  end.

(** One of three statements.  The one for "running" does not use its parameter $3, whose type
    the database then cannot determine: unless the driver is told the types, [fail] is
    this error. *)
(* go: internal/repository/task_repo.go func TaskRepository.UpdateStatus *)
Definition UpdateStatus (fail : option string) (now : Z) (id status msg : string) (tbl : task_table)
    : task_table * option TaskRepoError :=
  update_row fail id (fun t =>
    if bool_decide (status ∈ [TaskStatusCompleted; TaskStatusFailed]) then
      set_state status msg (te_StartedAt t) (Some now) now t
    else if String.eqb status TaskStatusRunning then
      set_state status (te_ErrorMessage t) (Some (default now (te_StartedAt t))) (te_CompletedAt t) now t
    else set_state status msg (te_StartedAt t) (te_CompletedAt t) now t) tbl.

(* go: internal/repository/task_repo.go func TaskRepository.IncrementRetry *)
Definition IncrementRetry (fail : option string) (now : Z) (id errMsg : string) (tbl : task_table)
    : task_table * option TaskRepoError :=
  update_row fail id (fun t =>
    set_retry (te_RetryCount t + 1)
      (if te_MaxRetries t <=? te_RetryCount t + 1 then TaskStatusFailed else TaskStatusPending) errMsg now t) tbl.

(** The locks of FOR UPDATE end with the statement: there is no transaction around it. *)
(* go: internal/repository/task_repo.go func TaskRepository.ListPending *)
Definition ListPending (fail : option string) (ord : list string) (now limit : Z) (tbl : task_table)
    : list TaskExecution + TaskRepoError :=
  match fail with
  | Some err => inr (TaskDatabase err)
  | None =>
      if limit <? 0 then inr (TaskDatabase "LIMIT must not be negative")
      else
        let due t := match te_ScheduledAt t with None => true | Some s => s <=? now end in
        inl (take (Z.to_nat limit)
               (merge_sort older (select ord (fun t => String.eqb (te_Status t) TaskStatusPending && due t) tbl)))
  end.

(** The count is of the rows that the statement changed. *)
(* go: internal/repository/task_repo.go func TaskRepository.BulkUpdateStatus *)
Definition BulkUpdateStatus (fail : option string) (now : Z) (ids : list string) (status workerID : string) (tbl : task_table)
    : task_table * (Z + TaskRepoError) :=
  match ids with
  | [] => (tbl, inl 0)
  | _ =>
      match fail with
      | Some err => (tbl, inr (TaskDatabase err))
      | None =>
          (map_imap (fun id t => Some (if bool_decide (id ∈ ids) then set_worker status workerID now t else t)) tbl,
           inl (Z.of_nat (size (filter (fun kv => kv.1 ∈ ids) tbl))))
      end
  end.

(** ** Creation *)

(** The tasks of a batch that are stored: those whose statement works and whose identifier is
    new. *)
Fixpoint stored (fail : nat -> option string) (i : nat) (tasks : list TaskExecution) (seen : gset string) : list (nat * TaskExecution) :=
  match tasks with
  | [] => []
  | t :: tasks =>
      match fail i with
      | Some _ => stored fail (S i) tasks seen
      | None =>
          if decide (te_ID t ∈ seen) then stored fail (S i) tasks seen
          else (i, t) :: stored fail (S i) tasks ({[te_ID t]} ∪ seen)
      end
  end.

Definition row_of (now : nat -> Z) (x : nat * TaskExecution) : string * TaskExecution :=
  (te_ID x.2, with_defaults (now x.1) x.2).

Lemma stored_ids fail tasks : forall i seen x, x ∈ stored fail i tasks seen -> te_ID x.2 ∉ seen.
Proof.
  induction tasks as [|t tasks IH]; intros i seen x Hx; simpl in Hx; [by apply elem_of_nil in Hx|].
  destruct (fail i); [by eapply IH|]. destruct (decide (te_ID t ∈ seen)); [by eapply IH|].
  apply elem_of_cons in Hx as [->|Hx]; [done|]. apply IH in Hx. set_solver.
Qed.

Lemma batch_loop_spec fail now tasks : forall i res tbl,
  let s := stored fail i tasks (dom tbl) in
  exists errs, length errs = (length tasks - length s)%nat /\ (length s <= length tasks)%nat
    /\ batch_loop fail now i tasks res tbl =
       (mkBatchResult (br_Total res) (br_Succeeded res + Z.of_nat (length s)) (br_Failed res + Z.of_nat (length errs)) (br_Errors res ++ errs),
        list_to_map (row_of now <$> s) ∪ tbl).
Proof.
  induction tasks as [|t tasks IH]; intros i res tbl s.
  { exists []. simpl. rewrite !Z.add_0_r, app_nil_r, (left_id_L ∅ (∪)). by destruct res. }
  unfold s. simpl. unfold Create. cbv zeta. change (te_ID (with_defaults (now i) t)) with (te_ID t).
  destruct (fail i) as [err|].
  { cbn -[batch_loop stored]. destruct (IH (S i) (mkBatchResult (br_Total res) (br_Succeeded res) (br_Failed res + 1)
      (br_Errors res ++ [TaskOf (te_ID t) (TaskDatabase err)])) tbl) as (errs & Hl & Hle & ->).
    eexists (_ :: errs). simpl. split_and!; [lia|lia|]. rewrite <- app_assoc. simpl. do 2 f_equal. lia. }
  destruct (tbl !! te_ID t) as [u|] eqn:Hu.
  { rewrite decide_True by (apply elem_of_dom; eauto). cbn -[batch_loop stored].
    destruct (IH (S i) (mkBatchResult (br_Total res) (br_Succeeded res) (br_Failed res + 1)
      (br_Errors res ++ [TaskOf (te_ID t) (TaskDatabase "duplicate key value violates unique constraint")])) tbl)
      as (errs & Hl & Hle & ->).
    eexists (_ :: errs). simpl. split_and!; [lia|lia|]. rewrite <- app_assoc. simpl. do 2 f_equal. lia. }
  rewrite decide_False by (by apply not_elem_of_dom). cbn -[batch_loop stored].
  destruct (IH (S i) (mkBatchResult (br_Total res) (br_Succeeded res + 1) (br_Failed res) (br_Errors res))
              (<[te_ID t := with_defaults (now i) t]> tbl)) as (errs & Hl & Hle & ->).
  rewrite dom_insert_L in *. exists errs. simpl. split_and!; [lia|lia|]. f_equal; [f_equal; lia|].
  rewrite <- insert_union_r; [by rewrite insert_union_l|].
  apply not_elem_of_list_to_map_1. intros (y & Hy & Hin)%list_elem_of_fmap.
  apply list_elem_of_fmap in Hin as (x & -> & Hx). apply stored_ids in Hx. simpl in Hy. set_solver.
Qed.

(** A batch stores with its defaults each task whose statement works and whose identifier
    is neither stored already nor that of an earlier task of the batch, changes no other
    row, and accounts for every task as a success or a failure with an error. *)
Theorem BatchCreate_correct fail now tasks tbl :
  let s := stored fail 0 tasks (dom tbl) in
  exists errs,
    BatchCreate fail now tasks tbl =
      (mkBatchResult (Z.of_nat (length tasks)) (Z.of_nat (length s)) (Z.of_nat (length errs)) errs,
       list_to_map (row_of now <$> s) ∪ tbl)
    /\ (length s + length errs = length tasks)%nat.
Proof.
  intros s. destruct (batch_loop_spec fail now tasks 0 (mkBatchResult (Z.of_nat (length tasks)) 0 0 []) tbl)
    as (errs & Hl & Hle & Hb).
  exists errs. unfold BatchCreate. rewrite Hb. split; [done|]. fold s in Hl, Hle. lia.
Qed.

(** ** Retries *)

Definition retries_run (nows : list Z) (id errMsg : string) (tbl : task_table) : task_table :=
  foldl (fun tbl now => (IncrementRetry None now id errMsg tbl).1) tbl nows.

(** A task counts its retries and is failed from the retry on that reaches its maximum,
    pending before; no other row changes. *)
Theorem IncrementRetry_run nows now id errMsg tbl t :
  tbl !! id = Some t ->
  let count := te_RetryCount t + Z.of_nat (S (length nows)) in
  retries_run (nows ++ [now]) id errMsg tbl =
    <[id := set_retry count (if te_MaxRetries t <=? count then TaskStatusFailed else TaskStatusPending) errMsg now t]> tbl.
Proof.
  intros Ht. cbn zeta. revert now. induction nows as [|n nows IH] using rev_ind; intros now.
  - unfold retries_run, IncrementRetry, update_row. simpl. by rewrite Ht.
  - unfold retries_run in *. rewrite foldl_app, IH. simpl. unfold IncrementRetry, update_row.
    rewrite lookup_insert_eq. simpl. rewrite insert_insert_eq, length_app. simpl.
    replace (te_RetryCount t + Z.of_nat (S (length nows)) + 1) with (te_RetryCount t + Z.of_nat (S (length nows + 1))) by lia.
    done.
Qed.

Definition sample_task (id : string) : TaskExecution :=
  mkTaskExecution id "p" "r" "" None None "" 0 0 None None None "" 0 0.

Lemma IncrementRetry_run_witness :
  let tbl := (BatchCreate (fun _ => None) (fun _ => 7) [sample_task "a"; sample_task "b"] ∅).2 in
  te_Status <$> retries_run ([8; 9] ++ [10]) "a" "boom" tbl !! "a"%string = Some TaskStatusFailed.
Proof.
  cbv zeta.
  assert ((BatchCreate (fun _ => None) (fun _ => 7) [sample_task "a"; sample_task "b"] ∅).2 !! "a"%string
            = Some (with_defaults 7 (sample_task "a"))) as H by (vm_compute; reflexivity).
  rewrite (IncrementRetry_run [8; 9] 10 "a" "boom" _ _ H), lookup_insert_eq. reflexivity.
Defined.
