(* ===== verification/PipelineRepo.v ===== *)
(** * Stored pipelines: internal/repository/pipeline_repo.go

    The table pipeline_config as a map of rows by identifier, and the SQL statements of
    [PipelineRepository] as operations on it.  The columns are those of the statements; the
    file also names a field ConfigJSON and a status PipelineStatusDeleted that
    internal/models does not declare: the first is the column config_json, the second an
    argument.  A statement may fail for reasons of the database: [fail] is then the error.
    Rows that compare equal come in the order [ord]. *)

From S2P Require Import Prelude.

(** ** Data *)

Record PipelineRow := mkPipelineRow {
  pr_ID : string;
  pr_Name : string;
  pr_Description : string;
  pr_Status : string;
  pr_ConfigJSON : string;
  pr_Version : Z;
  pr_CreatedBy : string;
  pr_CreatedAt : Z;
  pr_UpdatedAt : Z
}.

Abbreviation pipeline_table := (gmap string PipelineRow).

Inductive PipelineRepoError : Type :=
| PipelineNotFound (id : string)
| PipelineConflict (id : string)
| PipelineDatabase (err : string).

(* go: internal/repository/pipeline_repo.go type PipelineFilter *)
Record PipelineFilter := mkPipelineFilter {
  pf_Status : string;
  pf_CreatedBy : string;
  pf_Limit : Z;
  pf_Offset : Z
}.

Definition set_status (status : string) (updated : Z) (p : PipelineRow) : PipelineRow :=
  mkPipelineRow (pr_ID p) (pr_Name p) (pr_Description p) status (pr_ConfigJSON p) (pr_Version p) (pr_CreatedBy p)
    (pr_CreatedAt p) updated.

(** ** Operations *)

(** With the caller's pipeline as it is left. *)
(* go: internal/repository/pipeline_repo.go func PipelineRepository.Create *)
Definition Create (fail : option string) (now : Z) (p : PipelineRow) (tbl : pipeline_table)
    : PipelineRow * pipeline_table * option PipelineRepoError :=
  let p := mkPipelineRow (pr_ID p) (pr_Name p) (pr_Description p) (pr_Status p) (pr_ConfigJSON p)
             (if pr_Version p =? 0 then 1 else pr_Version p) (pr_CreatedBy p)
             (if time_IsZero (pr_CreatedAt p) then now else pr_CreatedAt p)
             (if time_IsZero (pr_UpdatedAt p) then now else pr_UpdatedAt p) in
  match fail with
  | Some err => (p, tbl, Some (PipelineDatabase err))
  | None =>
      match tbl !! pr_ID p with
      | Some _ => (p, tbl, Some (PipelineDatabase "duplicate key value violates unique constraint"))
      | None => (p, <[pr_ID p := p]> tbl, None)
      end
  end.

(* go: internal/repository/pipeline_repo.go func PipelineRepository.Get *)
Definition Get (fail : option string) (id : string) (tbl : pipeline_table) : PipelineRow + PipelineRepoError :=
  match fail with
  | Some err => inr (PipelineDatabase err)
  | None => match tbl !! id with Some p => inl p | None => inr (PipelineNotFound id) end
  end.

(* go: internal/repository/pipeline_repo.go func PipelineRepository.GetByID *)
Definition GetByID (fail : option string) (id : string) (tbl : pipeline_table) : PipelineRow + PipelineRepoError := Get fail id tbl.

(** A row is only changed in the version that the caller has read; the caller gets the new
    version.  A row that does not exist is reported as a conflict too. *)
(* go: internal/repository/pipeline_repo.go func PipelineRepository.Update *)
Definition Update (fail : option string) (now : Z) (p : PipelineRow) (tbl : pipeline_table)
    : PipelineRow * pipeline_table * option PipelineRepoError :=
  let p := mkPipelineRow (pr_ID p) (pr_Name p) (pr_Description p) (pr_Status p) (pr_ConfigJSON p) (pr_Version p)
             (pr_CreatedBy p) (pr_CreatedAt p) now in
  match fail with
  | Some err => (p, tbl, Some (PipelineDatabase err))
  | None =>
      match tbl !! pr_ID p with
      | Some r =>
          if pr_Version r =? pr_Version p then
            let r' := mkPipelineRow (pr_ID r) (pr_Name p) (pr_Description p) (pr_Status p) (pr_ConfigJSON p)
                        (pr_Version r + 1) (pr_CreatedBy r) (pr_CreatedAt r) now in
            (mkPipelineRow (pr_ID p) (pr_Name p) (pr_Description p) (pr_Status p) (pr_ConfigJSON p) (pr_Version r')
               (pr_CreatedBy p) (pr_CreatedAt p) now, <[pr_ID p := r']> tbl, None)
          else (p, tbl, Some (PipelineConflict (pr_ID p)))
      | None => (p, tbl, Some (PipelineConflict (pr_ID p)))
      end
  end.

(* go: internal/repository/pipeline_repo.go func PipelineRepository.Delete *)
Definition Delete (fail : option string) (id : string) (tbl : pipeline_table) : pipeline_table * option PipelineRepoError :=
  match fail with
  | Some err => (tbl, Some (PipelineDatabase err))
  | None => match tbl !! id with Some _ => (delete id tbl, None) | None => (tbl, Some (PipelineNotFound id)) end
  end.

(** The version stays. *)
(* go: internal/repository/pipeline_repo.go func PipelineRepository.UpdateStatus *)
Definition UpdateStatus (fail : option string) (now : Z) (id status : string) (tbl : pipeline_table)
    : pipeline_table * option PipelineRepoError :=
  match fail with
  | Some err => (tbl, Some (PipelineDatabase err))
  | None =>
      match tbl !! id with
      | Some p => (<[id := set_status status now p]> tbl, None)
      | None => (tbl, Some (PipelineNotFound id))
      end
  end.

(** A row that does not exist is no error. *)
(* go: internal/repository/pipeline_repo.go func PipelineRepository.SoftDelete *)
Definition SoftDelete (deleted : string) (fail : option string) (now : Z) (id : string) (tbl : pipeline_table)
    : pipeline_table * option PipelineRepoError :=
  match fail with
  | Some err => (tbl, Some (PipelineDatabase err))
  | None => (alter (set_status deleted now) id tbl, None)
  end.

(** ORDER BY created_at DESC. *)
Definition newer (p q : PipelineRow) : Prop := pr_CreatedAt q <= pr_CreatedAt p.
#[export] Instance newer_dec p q : Decision (newer p q).
Proof. unfold newer. apply _. Defined.

Definition matches (f : PipelineFilter) (p : PipelineRow) : bool :=
  (String.eqb (pf_Status f) "" || String.eqb (pr_Status p) (pf_Status f))
  && (String.eqb (pf_CreatedBy f) "" || String.eqb (pr_CreatedBy p) (pf_CreatedBy f)).

Definition clamp_limit (n : Z) : Z :=
  let n := if n <=? 0 then 50 else n in if 500 <? n then 500 else n.

(** The order of the rows that match. *)
Definition listing (ord : list string) (f : PipelineFilter) (tbl : pipeline_table) : list PipelineRow :=
  merge_sort newer (List.filter (matches f) (omap (fun id => tbl !! id) ord)).

(* go: internal/repository/pipeline_repo.go func PipelineRepository.List *)
Definition List (fail : option string) (ord : list string) (f : PipelineFilter) (tbl : pipeline_table)
    : list PipelineRow + PipelineRepoError :=
  match fail with
  | Some err => inr (PipelineDatabase err)
  | None =>
      if pf_Offset f <? 0 then inr (PipelineDatabase "OFFSET must not be negative")
      else inl (take (Z.to_nat (clamp_limit (pf_Limit f))) (drop (Z.to_nat (pf_Offset f)) (listing ord f tbl)))
  end.

(* go: internal/repository/pipeline_repo.go func PipelineRepository.Count *)
Definition Count (fail : option string) (status : string) (tbl : pipeline_table) : Z + PipelineRepoError :=
  match fail with
  | Some err => inr (PipelineDatabase err)
  | None => inl (Z.of_nat (size (filter (fun kv => pr_Status kv.2 = status) tbl)))
  end.

(** ** Concurrent changes *)

(** Statements of several clients in the order the database runs them. *)
Inductive pipeline_op : Type :=
| OpUpdate (now : Z) (p : PipelineRow)
| OpStatus (now : Z) (id status : string)
| OpSoftDelete (now : Z) (id deleted : string).

Definition pipeline_step (op : pipeline_op) (tbl : pipeline_table) : pipeline_table * option PipelineRepoError :=
  match op with
  | OpUpdate now p => let '(_, tbl', err) := Update None now p tbl in (tbl', err)
  | OpStatus now id status => UpdateStatus None now id status tbl
  | OpSoftDelete now id deleted => SoftDelete deleted None now id tbl
  end.

Fixpoint pipeline_run (ops : list pipeline_op) (tbl : pipeline_table) : pipeline_table * list (option PipelineRepoError) :=
  match ops with
  | [] => (tbl, [])
  | op :: ops =>
      let '(tbl', err) := pipeline_step op tbl in
      let '(tbl'', errs) := pipeline_run ops tbl' in (tbl'', err :: errs)
  end.

(** The versions that the successful updates of a row have read, in order. *)
Fixpoint read_versions (id : string) (ops : list pipeline_op) (errs : list (option PipelineRepoError)) : list Z :=
  match ops, errs with
  | OpUpdate _ p :: ops, None :: errs =>
      if String.eqb (pr_ID p) id then pr_Version p :: read_versions id ops errs else read_versions id ops errs
  | _ :: ops, _ :: errs => read_versions id ops errs
  | _, _ => []
  end.

(** Versions from [v] on. *)
Definition versions (v : Z) (n : nat) : list Z := (fun i => v + Z.of_nat i) <$> seq 0 n.

Lemma versions_cons v n : v :: versions (v + 1) n = versions v (S n).
Proof.
  unfold versions. cbn [seq fmap list_fmap]. f_equal; [lia|]. rewrite <- fmap_S_seq, <- list_fmap_compose.
  apply list_fmap_ext. intros i x _. simpl. lia.
Qed.

Lemma pipeline_step_version op tbl id r : tbl !! id = Some r ->
  exists r', (pipeline_step op tbl).1 !! id = Some r'
    /\ match op with
       | OpUpdate _ p =>
           if String.eqb (pr_ID p) id then
             if pr_Version p =? pr_Version r then (pipeline_step op tbl).2 = None /\ pr_Version r' = pr_Version r + 1
             else (pipeline_step op tbl).2 = Some (PipelineConflict id) /\ r' = r
           else r' = r
       | _ => pr_Version r' = pr_Version r
       end.
Proof.
  intros Hr. destruct op as [now p|now i status|now i deleted]; simpl.
  - destruct (String.eqb_spec (pr_ID p) id) as [->|Hne].
    + rewrite Hr, Z.eqb_sym. destruct (pr_Version p =? pr_Version r); simpl; [rewrite lookup_insert_eq|]; eauto.
    + destruct (tbl !! pr_ID p) as [q|]; [destruct (_ =? _)|]; simpl; rewrite ?lookup_insert_ne by done; eauto.
  - destruct (decide (i = id)) as [->|Hne].
    + rewrite Hr. simpl. rewrite lookup_insert_eq. eauto.
    + destruct (tbl !! i); simpl; rewrite ?lookup_insert_ne by done; eauto.
  - destruct (decide (i = id)) as [->|Hne].
    + rewrite lookup_alter_eq, Hr. simpl. eauto.
    + rewrite lookup_alter_ne by done. eauto.
Qed.


Definition sample_row : PipelineRow := mkPipelineRow "p" "n" "" "draft" "{}" 1 "me" 5 5.


(** A change of the status keeps the version: a client that has read the pipeline before it
    overwrites it. *)
Example status_overwritten :
  let tbl : pipeline_table := {["p"%string := sample_row]} in
  let '(tbl', errs) := pipeline_run [OpStatus 6 "p" "archived"; OpUpdate 7 sample_row] tbl in
  errs = [None; None] /\ pr_Status <$> tbl' !! "p"%string = Some "draft"%string.
Proof. vm_compute. done. Qed.
