(* ===== verification/WorkerHandler.v ===== *)
(** * The handler of deliveries: internal/worker/handler.go

    What a worker does with a delivery: it decodes the envelope and the task, has it
    processed, records the outcome in the table of [TaskRepo], and settles the delivery,
    with a copy to the dead-letter queue over the connection of [QueueRabbit].  The decoding
    of a task, the processor and the texts of times and durations are arguments; so is
    what each statement and each acknowledgement answers ([handler_env]).  Logging is left
    out. *)

From S2P Require Import Prelude QueueMessage QueueRabbit QueueConsumer PipelineModels WorkerProcessor TaskRepo.

(** ** Configuration *)

(* go: internal/worker/handler.go type HandlerConfig *)
Record HandlerConfig := mkHandlerConfig {
  hc_TaskTimeout : Z;
  hc_MaxRetries : Z;
  hc_DLQName : string;
  hc_RetryExchange : string;
  hc_RetryRoutingKey : string;
  hc_AckOnSuccess : bool;
  hc_NackOnFailure : bool;
  hc_RequeueOnNack : bool
}.

(* go: internal/worker/handler.go func DefaultHandlerConfig *)
Definition DefaultHandlerConfig : HandlerConfig :=
  mkHandlerConfig (60 * Second) 3 "tasks.dlq" "tasks.retry" "task.retry" true true false.

#[warnings="-register-all"]
Inductive HandlerError : Type :=
| ErrAckFailed (err : string)
| ErrNackRetry (err : string)
| ErrNackAfterDLQ (err : string)
| ErrMarshalDLQ (err : EnvelopeError)
| ErrAcquireDLQ (err : RabbitError)
| ErrNack (err : string).

(** A delivery cannot be decoded for its envelope or for its task. *)
Inductive DecodeError : Type :=
| BadEnvelope (err : EnvelopeError)
| BadTask (err : string).

(** What the context, the statements and the acknowledgements answer, and the clock. *)
Record handler_env := mkHandlerEnv {
  he_now : Z;
  he_done : bool;
  he_statement : option string;
  he_ack : option string;
  he_nack : option string
}.

(** [hs_settled] has the acknowledgements asked for. *)
Record hstate (W : Type) := mkHState {
  hs_rmq : RabbitMQ W;
  hs_tasks : task_table;
  hs_settled : list settlement
}.
Arguments mkHState {W}.
Arguments hs_rmq {W}.
Arguments hs_tasks {W}.
Arguments hs_settled {W}.

Inductive handled : Type :=
| Returned (err : option HandlerError)
| Panicked
| Waiting.

(** [1 << uint(n)] as a duration. *)
Definition shift_one (n : Z) : Z := if (0 <=? n) && (n <? 64) then int64 (2 ^ n) else 0.

(** The pause that the headers announce. *)
Definition handler_delay (retryCount : Z) : Z :=
  let d := int64 (shift_one retryCount * Second) in if 30 * Second <? d then 30 * Second else d.

Section handler.
Context {W : Type} `{Amqp W}.
Context (cfg : HandlerConfig) (unmarshal_task : string -> Task + string) (ProcessTask : Task -> option TaskResult * option string).
Context (uuid_text : UUID -> string) (json_text : json -> string) (format_time format_duration : Z -> string)
  (decode_error_text : DecodeError -> string).

Definition set_rmq (r : RabbitMQ W) (st : hstate W) : hstate W := mkHState r (hs_tasks st) (hs_settled st).
Definition set_tasks (t : task_table) (st : hstate W) : hstate W := mkHState (hs_rmq st) t (hs_settled st).

Definition settle (s : settlement) (st : hstate W) : hstate W := mkHState (hs_rmq st) (hs_tasks st) (hs_settled st ++ [s]).

(** [msg.Nack(false, requeue)] with the error that its caller makes of a refusal. *)
Definition nack_delivery (env : handler_env) (requeue : bool) (wrap : string -> HandlerError) (st : hstate W) : hstate W * handled :=
  (settle (Nacked requeue) st, Returned (wrap <$> he_nack env)).

(** The deferred release of a channel. *)
Definition releasing (ch : nat) (p : hstate W * handled) : hstate W * handled :=
  match ReleaseChannel (Some ch) (hs_rmq p.1) with
  | (r, Done (Ok _)) => (set_rmq r p.1, p.2)
  | (r, _) => (set_rmq r p.1, Panicked)
  end.

(** A persistent message to the dead-letter queue through the default exchange; what the
    broker answers is only logged. *)
Definition publish_dlq (env : handler_env) (contentType body : string) (headers : Headers) (ch : nat) (st : hstate W) : hstate W :=
  let pb := mkPublishing body contentType (he_now env) 0 "" "" (Some headers) 2 "" in
  set_rmq (set_world (ch_Publish ch "" (hc_DLQName cfg) false pb (rmq_world (hs_rmq st))).1 (hs_rmq st)) st.

Definition body_text (msg : Delivery) : string := match d_Body msg with Some j => json_text j | None => EmptyString end.

(* go: internal/worker/handler.go func MessageHandler.handleDeserializeError *)
Definition handleDeserializeError (env : handler_env) (msg : Delivery) (err : DecodeError) (st : hstate W) : hstate W * handled :=
  match AcquireChannel (hs_rmq st) with
  | (r, Done (Ok ch)) =>
      let headers := <["x-error" := AnyString ("deserialize_error: " +:+ decode_error_text err)%string]>
                       (<["x-failed-at" := AnyString (format_time (he_now env))]>
                         (<["x-original-routing-key" := AnyString (d_RoutingKey msg)]> ∅)) in
      releasing ch (nack_delivery env false ErrNack
        (publish_dlq env "application/octet-stream" (body_text msg) headers ch (set_rmq r st)))
  | (r, Done (Err _)) => nack_delivery env false ErrNack (set_rmq r st)
  | (r, Done Panic) => (set_rmq r st, Panicked)
  | (r, Blocks) => (set_rmq r st, Waiting)
  end.

(** The payload is empty if the envelope cannot be encoded. *)
(* go: internal/worker/handler.go func MessageHandler.handleTimeout *)
Definition handleTimeout (env : handler_env) (e : Envelope) (st : hstate W) : hstate W * handled :=
  match AcquireChannel (hs_rmq st) with
  | (r, Done (Ok ch)) =>
      let payload := match (Marshal e).2 with Ok j => json_text j | _ => EmptyString end in
      let headers := <["x-error" := AnyString "task_timeout"]>
                       (<["x-timeout" := AnyString (format_duration (hc_TaskTimeout cfg))]>
                         (<["x-failed-at" := AnyString (format_time (he_now env))]> ∅)) in
      releasing ch (nack_delivery env false ErrNack (publish_dlq env "application/json" payload headers ch (set_rmq r st)))
  | (r, Done (Err _)) => nack_delivery env false ErrNack (set_rmq r st)
  | (r, Done Panic) => (set_rmq r st, Panicked)
  | (r, Blocks) => (set_rmq r st, Waiting)
  end.

(* go: internal/worker/handler.go func MessageHandler.routeToDLQ *)
Definition routeToDLQ (env : handler_env) (msg : Delivery) (e : Envelope) (errMsg : string) (st : hstate W) : hstate W * handled :=
  match (Marshal e).2 with
  | Err err => if hc_NackOnFailure cfg then nack_delivery env false ErrNack st else (st, Returned (Some (ErrMarshalDLQ err)))
  | Panic => (st, Panicked)
  | Ok j =>
      match AcquireChannel (hs_rmq st) with
      | (r, Done (Err err)) =>
          if hc_NackOnFailure cfg then nack_delivery env false ErrNack (set_rmq r st)
          else (set_rmq r st, Returned (Some (ErrAcquireDLQ err)))
      | (r, Done Panic) => (set_rmq r st, Panicked)
      | (r, Blocks) => (set_rmq r st, Waiting)
      | (r, Done (Ok ch)) =>
          let headers := <["x-original-routing-key" := AnyString (d_RoutingKey msg)]>
                           (<["x-error" := AnyString errMsg]>
                             (<["x-failed-at" := AnyString (format_time (he_now env))]> ∅)) in
          let st' := publish_dlq env "application/json" (json_text j) headers ch (set_rmq r st) in
          releasing ch (if hc_NackOnFailure cfg then nack_delivery env false ErrNackAfterDLQ st' else (st', Returned None))
      end
  end.

(** The envelope that is counted up and marked is a copy of this delivery's alone: it is not
    published, and the delivery is nacked as it came. *)
(* go: internal/worker/handler.go func MessageHandler.handleRetry *)
Definition handleRetry (env : handler_env) (e : Envelope) (task : Task) (errMsg : string) (retryCount : Z) (st : hstate W)
    : Envelope * (hstate W * handled) :=
  let delay := handler_delay retryCount in
  let headers := <["x-retry-count" := AnyInt (retryCount + 1)]>
                   (<["x-retry-delay" := AnyString (format_duration delay)]>
                     (<["x-original-error" := AnyString errMsg]>
                       (<["x-next-retry" := AnyString (format_time (he_now env + delay))]> (default ∅ (env_Headers e))))) in
  let e' := mkEnvelope (env_ID e) (env_Type e) (env_Source e) (env_Version e) (env_Timestamp e) (Some headers) (env_Payload e)
              (env_ContentType e) (env_Encoding e) (env_CorrelationID e) (env_ReplyTo e) (env_Priority e) (env_TTL e)
              (int64 (retryCount + 1)) in
  let st' := set_tasks (IncrementRetry (he_statement env) (he_now env) (uuid_text (t_ID task)) errMsg (hs_tasks st)).1 st in
  (e', if hc_NackOnFailure cfg then nack_delivery env (hc_RequeueOnNack cfg) ErrNackRetry st' else (st', Returned None)).

Definition record_status (env : handler_env) (task : Task) (status errMsg : string) (st : hstate W) : hstate W :=
  set_tasks (UpdateStatus (he_statement env) (he_now env) (uuid_text (t_ID task)) status errMsg (hs_tasks st)).1 st.

(* go: internal/worker/handler.go func MessageHandler.handleSuccess *)
Definition handleSuccess (env : handler_env) (task : Task) (st : hstate W) : hstate W * handled :=
  let st' := record_status env task TaskStatusCompleted "" st in
  if hc_AckOnSuccess cfg then (settle Acked st', Returned (ErrAckFailed <$> he_ack env)) else (st', Returned None).

(** The message of a failure: the result's, else that of the processor's error. *)
Definition failure_text (result : option TaskResult) (procErr : option string) : string :=
  let errMsg := match result with Some r => tr_Error r | None => EmptyString end in
  if String.eqb errMsg "" then default EmptyString procErr else errMsg.

(* go: internal/worker/handler.go func MessageHandler.handleProcessingError *)
Definition handleProcessingError (env : handler_env) (msg : Delivery) (e : Envelope) (task : Task) (result : option TaskResult)
    (procErr : option string) (st : hstate W) : hstate W * handled :=
  let errMsg := failure_text result procErr in
  let retryable := match result with Some r => tr_Retryable r | None => false end in
  if retryable && (env_RetryCount e <? hc_MaxRetries cfg) then (handleRetry env e task errMsg (env_RetryCount e) st).2
  else routeToDLQ env msg e errMsg (record_status env task TaskStatusFailed errMsg st).

Definition nil_result (task : Task) : TaskResult :=
  mkTaskResult (uuid_text (t_ID task)) TaskStatusFailed None "nil result from processor" ErrorTypeInternal 0 false 0.

(* go: internal/worker/handler.go func MessageHandler.HandleDelivery *)
Definition HandleDelivery (env : handler_env) (msg : Delivery) (st : hstate W) : hstate W * handled :=
  match EnvelopeFromDelivery msg with
  | Err err => handleDeserializeError env msg (BadEnvelope err) st
  | Panic => (st, Panicked)
  | Ok (e, _) =>
      match unmarshal_task (default EmptyString (env_Payload e)) with
      | inr err => handleDeserializeError env msg (BadTask err) st
      | inl task =>
          if he_done env then handleTimeout env e st
          else match ProcessTask task with
               | (result, Some err) => handleProcessingError env msg e task result (Some err) st
               | (result, None) =>
                   let result := default (nil_result task) result in
                   if String.eqb (tr_Status result) TaskStatusCompleted then handleSuccess env task st
                   else if String.eqb (tr_Status result) TaskStatusFailed then handleProcessingError env msg e task (Some result) None st
                   else handleSuccess env task st
               end
      end
  end.

(** ** What it does *)

Inductive verdict : Type :=
| Undecodable
| Late
| Succeeded (task : Task)
| ToRetry (task : Task) (errMsg : string)
| ToFail (task : Task) (errMsg : string).

(** The task has failed: the processor's error, no result, or a failed one. *)
Definition task_failed (answer : option TaskResult * option string) : bool :=
  match answer with
  | (_, Some _) | (None, _) => true
  | (Some r, None) => String.eqb (tr_Status r) TaskStatusFailed
  end.

Definition verdict_of (env : handler_env) (msg : Delivery) : verdict :=
  match EnvelopeFromDelivery msg with
  | Ok (e, _) =>
      match unmarshal_task (default EmptyString (env_Payload e)) with
      | inl task =>
          let answer := ProcessTask task in
          if he_done env then Late
          else if task_failed answer then
            let result := match answer with (None, None) => Some (nil_result task) | (r, _) => r end in
            let errMsg := failure_text result answer.2 in
            if match result with Some r => tr_Retryable r | None => false end && (env_RetryCount e <? hc_MaxRetries cfg)
            then ToRetry task errMsg else ToFail task errMsg
          else Succeeded task
      | inr _ => Undecodable
      end
  | _ => Undecodable
  end.

(** What a call that may end with a copy to the dead-letter queue does. *)
Record dead_lettered (tasks : task_table) (st st' : hstate W) (res : handled) : Prop := mkDeadLettered {
  dl_tasks : hs_tasks st' = tasks;
  dl_settled : hs_settled st' = hs_settled st ++ [Nacked false] \/ (hs_settled st' = hs_settled st /\ res <> Returned None);
  dl_returned : forall err, res = Returned err -> hs_settled st' = hs_settled st ++ [Nacked false]
}.

Lemma nack_dead env wrap st0 st tasks : hs_tasks st = tasks -> hs_settled st = hs_settled st0 ->
  dead_lettered tasks st0 (nack_delivery env false wrap st).1 (nack_delivery env false wrap st).2.
Proof. intros Ht Hs. split; simpl; rewrite ?Hs; [done|by left|done]. Qed.

Lemma releasing_dead tasks st ch p : dead_lettered tasks st p.1 p.2 ->
  dead_lettered tasks st (releasing ch p).1 (releasing ch p).2.
Proof.
  intros [Ht Hs Hr]. unfold releasing. destruct (ReleaseChannel _ _) as [r [[[]| |]|]]; simpl; split; simpl; try done;
    (destruct Hs as [Hs|[Hs Hn]]; [by left|right; split; [done|discriminate]]).
Qed.

Lemma stuck_dead st st' res : hs_tasks st' = hs_tasks st -> hs_settled st' = hs_settled st -> res = Panicked \/ res = Waiting ->
  dead_lettered (hs_tasks st) st st' res.
Proof. intros Ht Hs Hres. split; [done|right|]; [split; [done|]|intros ??]; destruct Hres; congruence. Qed.

Lemma handleDeserializeError_dead env msg err st :
  dead_lettered (hs_tasks st) st (handleDeserializeError env msg err st).1 (handleDeserializeError env msg err st).2.
Proof.
  unfold handleDeserializeError. destruct (AcquireChannel (hs_rmq st)) as [r [[ch|e|]|]].
  - apply releasing_dead. by apply nack_dead.
  - by apply nack_dead.
  - apply stuck_dead; auto.
  - apply stuck_dead; auto.
Qed.

Lemma handleTimeout_dead env e st :
  dead_lettered (hs_tasks st) st (handleTimeout env e st).1 (handleTimeout env e st).2.
Proof.
  unfold handleTimeout. destruct (AcquireChannel (hs_rmq st)) as [r [[ch|err|]|]].
  - apply releasing_dead. by apply nack_dead.
  - by apply nack_dead.
  - apply stuck_dead; auto.
  - apply stuck_dead; auto.
Qed.

Lemma routeToDLQ_dead env msg e errMsg st : hc_NackOnFailure cfg = true ->
  dead_lettered (hs_tasks st) st (routeToDLQ env msg e errMsg st).1 (routeToDLQ env msg e errMsg st).2.
Proof.
  intros Hn. unfold routeToDLQ. rewrite Hn. destruct (Marshal e).2 as [j|err|].
  - destruct (AcquireChannel (hs_rmq st)) as [r [[ch|err|]|]].
    + apply releasing_dead. by apply nack_dead.
    + by apply nack_dead.
    + apply stuck_dead; auto.
    + apply stuck_dead; auto.
  - by apply nack_dead.
  - apply stuck_dead; auto.
Qed.

(** C8: under a configuration that acknowledges (as the default one does) every delivery is
    settled once.  A task that is processed without failing is recorded as completed and
    acked.  A failure that may be retried only counts the retry in the table and nacks the
    delivery as the configuration says: the connection is not used, so with the default
    configuration, which does not requeue, the task is not delivered again from here.  Any
    other failure is recorded with its text, and, like a delivery that cannot be decoded or
    comes too late, nacked for good with at most one call; only a call that waits for a
    channel or panics leaves it unsettled. *)
Theorem HandleDelivery_correct env msg st :
  hc_AckOnSuccess cfg = true -> hc_NackOnFailure cfg = true ->
  let st' := (HandleDelivery env msg st).1 in
  let res := (HandleDelivery env msg st).2 in
  match verdict_of env msg with
  | Succeeded task =>
      res = Returned (ErrAckFailed <$> he_ack env)
      /\ st' = settle Acked (record_status env task TaskStatusCompleted "" st)
  | ToRetry task errMsg =>
      res = Returned (ErrNackRetry <$> he_nack env)
      /\ hs_rmq st' = hs_rmq st /\ hs_settled st' = hs_settled st ++ [Nacked (hc_RequeueOnNack cfg)]
      /\ hs_tasks st' = (IncrementRetry (he_statement env) (he_now env) (uuid_text (t_ID task)) errMsg (hs_tasks st)).1
  | ToFail task errMsg =>
      dead_lettered (UpdateStatus (he_statement env) (he_now env) (uuid_text (t_ID task)) TaskStatusFailed errMsg (hs_tasks st)).1
        st st' res
  | Undecodable | Late => dead_lettered (hs_tasks st) st st' res
  end.
Proof.
  intros Ha Hn. unfold verdict_of, HandleDelivery, EnvelopeFromDelivery.
  destruct (Deserialize (d_Body msg)) as [e|err|] eqn:Hd; cbn [go_bind]; [|apply handleDeserializeError_dead|].
  2:{ exfalso. revert Hd. unfold Deserialize, Unmarshal. destruct (d_Body msg) as [j|]; [|done]. destruct (json_envelope j); [|done].
      by destruct (Validate _). }
  destruct (unmarshal_task _) as [task|err]; [|apply handleDeserializeError_dead].
  destruct (he_done env); [apply handleTimeout_dead|].
  assert (forall result procErr, let r := handleProcessingError env msg e task result procErr st in
    let errMsg := failure_text result procErr in
    if match result with Some r => tr_Retryable r | None => false end && (env_RetryCount e <? hc_MaxRetries cfg) then
      r.2 = Returned (ErrNackRetry <$> he_nack env) /\ hs_rmq r.1 = hs_rmq st
      /\ hs_settled r.1 = hs_settled st ++ [Nacked (hc_RequeueOnNack cfg)]
      /\ hs_tasks r.1 = (IncrementRetry (he_statement env) (he_now env) (uuid_text (t_ID task)) errMsg (hs_tasks st)).1
    else dead_lettered (UpdateStatus (he_statement env) (he_now env) (uuid_text (t_ID task)) TaskStatusFailed errMsg (hs_tasks st)).1
           st r.1 r.2) as Hfail.
  { intros result procErr. unfold handleProcessingError, handleRetry. rewrite Hn. cbv zeta.
    destruct (_ && _); [done|].
    by destruct (routeToDLQ_dead env msg e (failure_text result procErr)
      (record_status env task TaskStatusFailed (failure_text result procErr) st) Hn) as [Ht Hs Hr]. }
  assert (handleSuccess env task st = (settle Acked (record_status env task TaskStatusCompleted "" st),
            Returned (ErrAckFailed <$> he_ack env))) as Hok by (unfold handleSuccess; by rewrite Ha).
  destruct (ProcessTask task) as [[r|] [err|]]; simpl.
  - specialize (Hfail (Some r) (Some err)). simpl in Hfail. by destruct (_ && _).
  - destruct (String.eqb_spec (tr_Status r) TaskStatusFailed) as [Hf|Hf].
    + rewrite Hf. simpl. specialize (Hfail (Some r) None). simpl in Hfail. by destruct (_ && _).
    + rewrite Hok. by destruct (String.eqb _ TaskStatusCompleted).
  - apply (Hfail None (Some err)).
  - apply (Hfail (Some (nil_result task)) None).
Qed.
End handler.

(** ** Examples *)

Definition sample_envelope : Envelope := NewEnvelopeWithID 0 "m1" "task" (Some "payload").
Definition sample_delivery : Delivery := mkDelivery (Some (envelope_json sample_envelope)) "" 1 false "" "task.run".
Definition sample_decode (s : string) : Task + string :=
  if String.eqb s "payload" then inl (NewTask 7 0 1 "n" "http") else inr "no task"%string.
Definition unavailable (t : Task) : option TaskResult * option string := (Some (failed "server error: 503 " ErrorTypeNetwork true None), None).
Definition sample_tasks : task_table := {["id"%string := TaskRepo.sample_task "id"]}.
Definition sample_henv : handler_env := mkHandlerEnv 9 false None None None.
Definition sample_handle (cfg : HandlerConfig) (proc : Task -> option TaskResult * option string) :=
  HandleDelivery cfg sample_decode proc (fun _ => "id"%string) (fun _ => "json"%string) itoa itoa (fun _ => "err"%string)
    sample_henv sample_delivery (mkHState toy_rabbit sample_tasks []).

(** The retry of an unavailable server: the delivery is dropped, nothing is published. *)
Lemma HandleDelivery_correct_witness :
  let '(st', res) := sample_handle DefaultHandlerConfig unavailable in
  res = Returned None /\ hs_settled st' = [Nacked false] /\ hs_rmq st' = toy_rabbit
  /\ te_RetryCount <$> hs_tasks st' !! "id"%string = Some 1.
Proof.
  pose proof (HandleDelivery_correct DefaultHandlerConfig sample_decode unavailable (fun _ => "id"%string) (fun _ => "json"%string)
    itoa itoa (fun _ => "err"%string) sample_henv sample_delivery (mkHState toy_rabbit sample_tasks []) eq_refl eq_refl) as Hc.
  unfold sample_handle. destruct (HandleDelivery _ _ _ _ _ _ _ _ _ _ _) as [st' res].
  assert (verdict_of DefaultHandlerConfig sample_decode unavailable (fun _ => "id"%string) sample_henv sample_delivery
            = ToRetry (NewTask 7 0 1 "n" "http") "server error: 503 ") as Hv by (vm_compute; reflexivity).
  rewrite Hv in Hc. destruct Hc as (Hres & Hr & Hs & Ht). simpl in Hres, Hr, Hs, Ht.
  split; [exact Hres|]. split; [exact Hs|]. split; [exact Hr|]. rewrite Ht. vm_compute. reflexivity.
Defined.

(** A failure for good is published to the dead-letter queue and nacked as well. *)
Example failed_published :
  let '(st', res) := sample_handle DefaultHandlerConfig (fun _ => (None, Some "boom"%string)) in
  res = Returned None /\ hs_settled st' = [Nacked false]
  /\ (fun x => (x.1.1, x.1.2)) <$> tb_log (rmq_world (hs_rmq st')) = [("", "tasks.dlq")]%string
  /\ te_Status <$> hs_tasks st' !! "id"%string = Some TaskStatusFailed.
Proof. vm_compute. done. Qed.

(** From the thirty-fourth retry on the announced pause is negative or zero. *)
Example delay_overflows : handler_delay 34 < 0 /\ handler_delay 64 = 0.
Proof. vm_compute. done. Qed.
