(* ===== verification/WorkerHealth.v ===== *)
(** * Health of a worker: internal/worker/health.go

    The checks of the connection ([QueueRabbit]) and of the pool ([WorkerPool]), their
    aggregation, the metrics summed over the workers, and the reporter with its heartbeats.
    The clock, the runtime's numbers and the text of an error are arguments.  The encoding
    of a report is in [JsonExports]; the logging is left out. *)

From S2P Require Import Prelude GoFloat QueueMessage QueueRabbit WorkerPool.

(** ** Data *)

(* go: internal/worker/health.go type HealthStatus *)
Inductive HealthStatus : Type :=
| HealthStatusHealthy
| HealthStatusDegraded
| HealthStatusUnhealthy.

#[export] Instance HealthStatus_eq_dec : EqDecision HealthStatus.
Proof. solve_decision. Defined.

(* go: internal/worker/health.go type ComponentHealth *)
Record ComponentHealth := mkComponentHealth {
  ch_Name : string;
  ch_Status : HealthStatus;
  ch_Message : string;
  ch_LastCheck : Z;
  ch_Latency : Z
}.

(* go: internal/worker/health.go type HealthMetrics *)
Record HealthMetrics := mkHealthMetrics {
  hm_TasksProcessed : Z;
  hm_TasksSucceeded : Z;
  hm_TasksFailed : Z;
  hm_TasksRetried : Z;
  hm_ActiveWorkers : Z;
  hm_IdleWorkers : Z;
  hm_QueueDepth : Z;
  hm_QueueCapacity : Z;
  hm_AvgProcessTime : float64;
  hm_ErrorRate : float64;
  hm_PanicCount : Z
}.

(* go: internal/worker/health.go type SystemInfo *)
Record SystemInfo := mkSystemInfo {
  si_GoVersion : string;
  si_NumCPU : Z;
  si_NumGoroutine : Z;
  si_MemoryAllocMB : float64;
  si_MemoryTotalMB : float64;
  si_MemorySysMB : float64;
  si_GCStats : string
}.

(* go: internal/worker/health.go type WorkerHealthReport *)
Record WorkerHealthReport := mkReport {
  hrep_WorkerID : string;
  hrep_Hostname : string;
  hrep_Status : HealthStatus;
  hrep_Uptime : Z;
  hrep_StartedAt : Z;
  hrep_LastHeartbeat : Z;
  hrep_Components : list ComponentHealth;
  hrep_Metrics : HealthMetrics;
  hrep_System : SystemInfo
}.

(** The pool and the connection are shared: they are given to each call. *)
(* go: internal/worker/health.go type HealthReporter *)
Record HealthReporter := mkReporter {
  hr_workerID : string;
  hr_hostname : string;
  hr_startedAt : Z;
  hr_lastReport : option WorkerHealthReport;
  hr_heartbeats : Z
}.

(* go: internal/worker/health.go func NewHealthReporter *)
Definition NewHealthReporter (now : Z) (workerID hostname : string) : HealthReporter :=
  mkReporter workerID hostname now None 0.

(** What the runtime answers: its version, counts, and the bytes of memory. *)
Record runtime_info := mkRuntime {
  rt_Version : string;
  rt_NumCPU : Z;
  rt_NumGoroutine : Z;
  rt_Alloc : Z;
  rt_TotalAlloc : Z;
  rt_Sys : Z
}.

Definition megabytes (n : Z) : float64 := f64_div (f64_div (f64_of_Z n) (f64_of_Z 1024)) (f64_of_Z 1024).

(* go: internal/worker/health.go func HealthReporter.collectSystemInfo *)
Definition collectSystemInfo (rt : runtime_info) : SystemInfo :=
  mkSystemInfo (rt_Version rt) (rt_NumCPU rt) (rt_NumGoroutine rt) (megabytes (rt_Alloc rt)) (megabytes (rt_TotalAlloc rt))
    (megabytes (rt_Sys rt)) "".

(* go: internal/worker/health.go func HealthReporter.aggregateStatus *)
Fixpoint aggregate_from (hasDegraded : bool) (l : list ComponentHealth) : HealthStatus :=
  match l with
  | [] => if hasDegraded then HealthStatusDegraded else HealthStatusHealthy
  | c :: l =>
      match ch_Status c with
      | HealthStatusUnhealthy => HealthStatusUnhealthy
      | HealthStatusDegraded => aggregate_from true l
      | HealthStatusHealthy => aggregate_from hasDegraded l
      end
  end.
Definition aggregateStatus (l : list ComponentHealth) : HealthStatus := aggregate_from false l.

(** ** Metrics *)

(** The sums of the loop: the five counters and the durations. *)
Definition add_metrics (acc : Z * Z * Z * Z * Z * float64) (m : WorkerMetrics) : Z * Z * Z * Z * Z * float64 :=
  let '(p, s, f, r, n, d) := acc in
  (int64 (p + wm_TasksProcessed m), int64 (s + wm_TasksSucceeded m), int64 (f + wm_TasksFailed m),
   int64 (r + wm_TasksRetried m), int64 (n + wm_Panics m),
   f64_add d (f64_mul (Seconds (wm_AvgDuration m)) (f64_of_Z 1000))).

(* go: internal/worker/health.go func HealthReporter.collectMetrics *)
Definition collectMetrics (ord : list string) (p : WorkerPool) : HealthMetrics :=
  let pm := WorkerPool_PoolMetrics p in
  let wm := Metrics ord p in
  let '(processed, succeeded, failed, retried, panics, duration) := foldl add_metrics (0, 0, 0, 0, 0, f64_of_Z 0) wm in
  let avg := if 0 <? processed then f64_div duration (f64_of_Z (Z.of_nat (length wm))) else f64_of_Z 0 in
  let rate := if 0 <? processed then f64_mul (f64_div (f64_of_Z failed) (f64_of_Z processed)) (f64_of_Z 100) else f64_of_Z 0 in
  mkHealthMetrics processed succeeded failed retried (pm_BusyWorkers pm) (pm_IdleWorkers pm) (pm_QueueDepth pm)
    (pm_QueueCapacity pm) avg rate panics.

(** ** Checks *)

(** The constant 0.95. *)
Definition f64_0_95 : float64 := S754_finite false 8556839292003942 (-53).

Section health.
Context {W : Type} `{Amqp W} (error_text : RabbitError -> string).

(** The check of the connection with its latency; it waits if the connection does. *)
(* go: internal/worker/health.go func HealthReporter.checkRabbitMQ *)
Definition checkRabbitMQ (ctxDone : bool) (now latency : Z) (r : RabbitMQ W) : RabbitMQ W * call ComponentHealth :=
  match HealthCheck ctxDone r with
  | (r', Done (Ok _)) => (r', Done (Ok (mkComponentHealth "rabbitmq" HealthStatusHealthy "" now latency)))
  | (r', Done (Err err)) =>
      (r', Done (Ok (mkComponentHealth "rabbitmq" HealthStatusUnhealthy
                       ("rabbitmq health check failed: " +:+ error_text err)%string now latency)))
  | (r', Done Panic) => (r', Done Panic)
  | (r', Blocks) => (r', Blocks)
  end.

Definition pool_health (now : Z) (p : WorkerPool) : ComponentHealth :=
  let pm := WorkerPool_PoolMetrics p in
  if pm_TotalWorkers pm =? 0 then mkComponentHealth "worker_pool" HealthStatusUnhealthy "no workers running" now 0
  else if f64_lt f64_0_95 (f64_div (f64_of_Z (pm_BusyWorkers pm)) (f64_of_Z (pm_TotalWorkers pm)))
  then mkComponentHealth "worker_pool" HealthStatusDegraded "worker pool near capacity" now 0
  else mkComponentHealth "worker_pool" HealthStatusHealthy "" now 0.

(* go: internal/worker/health.go func HealthReporter.checkComponents *)
Definition checkComponents (ctxDone : bool) (now latency : Z) (p : WorkerPool) (r : RabbitMQ W)
    : RabbitMQ W * call (list ComponentHealth) :=
  match checkRabbitMQ ctxDone now latency r with
  | (r', Done (Ok c)) =>
      (r', Done (Ok ([c; pool_health now p]
             ++ if IsRunning p then [] else [mkComponentHealth "pool_runner" HealthStatusUnhealthy "worker pool is not running" now 0])))
  | (r', Done (Err err)) => (r', Done (Err err))
  | (r', Done Panic) => (r', Done Panic)
  | (r', Blocks) => (r', Blocks)
  end.

(** The error is always nil. *)
(* go: internal/worker/health.go func HealthReporter.ReportHealth *)
Definition ReportHealth (ctxDone : bool) (now latency : Z) (ord : list string) (rt : runtime_info) (p : WorkerPool)
    (x : HealthReporter * RabbitMQ W) : (HealthReporter * RabbitMQ W) * call WorkerHealthReport :=
  let '(hr, r) := x in
  match checkComponents ctxDone now latency p r with
  | (r', Done (Ok components)) =>
      let report := mkReport (hr_workerID hr) (hr_hostname hr) (aggregateStatus components) (time_Sub now (hr_startedAt hr))
                      (hr_startedAt hr) now components (collectMetrics ord p) (collectSystemInfo rt) in
      ((mkReporter (hr_workerID hr) (hr_hostname hr) (hr_startedAt hr) (Some report) (int64 (hr_heartbeats hr + 1)), r'), Done (Ok report))
  | (r', Done (Err err)) => ((hr, r'), Done (Err err))
  | (r', Done Panic) => ((hr, r'), Done Panic)
  | (r', Blocks) => ((hr, r'), Blocks)
  end.

(* go: internal/worker/health.go func HealthReporter.LastReport *)
Definition LastReport (hr : HealthReporter) : option WorkerHealthReport := hr_lastReport hr.
(* go: internal/worker/health.go func HealthReporter.HeartbeatCount *)
Definition HeartbeatCount (hr : HealthReporter) : Z := hr_heartbeats hr.

(** A tick: the time, the latency, whether the context is done for the check, and the state of
    the pool it sees. *)
Record tick := mkTick {
  tk_now : Z;
  tk_latency : Z;
  tk_ctxDone : bool;
  tk_ord : list string;
  tk_runtime : runtime_info;
  tk_pool : WorkerPool
}.

Definition report_at (t : tick) (x : HealthReporter * RabbitMQ W) : (HealthReporter * RabbitMQ W) * call WorkerHealthReport :=
  ReportHealth (tk_ctxDone t) (tk_now t) (tk_latency t) (tk_ord t) (tk_runtime t) (tk_pool t) x.

(** One report at once, one for each tick, until the context is done after the ticks.  An
    interval that is not positive panics, a report that waits or panics ends the ticks. *)
(* go: internal/worker/health.go func HealthReporter.StartHeartbeat *)
Fixpoint heartbeats (ticks : list tick) (x : HealthReporter * RabbitMQ W) : (HealthReporter * RabbitMQ W) * call unit :=
  match ticks with
  | [] => (x, Done (Ok ()))
  | t :: ticks =>
      match report_at t x with
      | (x', Done Panic) => (x', Done Panic)
      | (x', Blocks) => (x', Blocks)
      | (x', Done _) => heartbeats ticks x'
      end
  end.
Definition StartHeartbeat (interval : Z) (first : tick) (ticks : list tick) (x : HealthReporter * RabbitMQ W)
    : (HealthReporter * RabbitMQ W) * call unit :=
  if interval <=? 0 then (x, Done Panic) else heartbeats (first :: ticks) x.

(** ** What a report says *)

Lemma aggregate_spec l : forall d,
  match aggregate_from d l with
  | HealthStatusUnhealthy => Exists (fun c => ch_Status c = HealthStatusUnhealthy) l
  | HealthStatusDegraded =>
      Forall (fun c => ch_Status c <> HealthStatusUnhealthy) l
      /\ (d = true \/ Exists (fun c => ch_Status c = HealthStatusDegraded) l)
  | HealthStatusHealthy => d = false /\ Forall (fun c => ch_Status c = HealthStatusHealthy) l
  end.
Proof.
  induction l as [|c l IH]; intros d; simpl; [destruct d; split; auto using Forall_nil_2|].
  destruct (ch_Status c) eqn:Hc.
  - specialize (IH d). destruct (aggregate_from d l).
    + destruct IH. by split; [|constructor].
    + destruct IH as [Hf Hd]. split; [constructor; [by rewrite Hc|done]|]. destruct Hd; [by left|right; by right].
    + by right.
  - specialize (IH true). destruct (aggregate_from true l).
    + by destruct IH.
    + destruct IH as [Hf _]. split; [constructor; [by rewrite Hc|done]|right; by left].
    + by right.
  - by left.
Qed.

(** More than 95 percent of the workers are busy. *)
Definition near_capacity (p : WorkerPool) : bool :=
  f64_lt f64_0_95 (f64_div (f64_of_Z (Z.of_nat (busy_count p))) (f64_of_Z (Z.of_nat (length (wp_workers p))))).

Lemma pool_health_status now p : ch_Status (pool_health now p) =
  match wp_workers p with
  | [] => HealthStatusUnhealthy
  | _ => if near_capacity p then HealthStatusDegraded else HealthStatusHealthy
  end.
Proof. unfold pool_health, near_capacity, WorkerPool_PoolMetrics. destruct (wp_workers p) eqn:Hw; simpl; [done|]. by destruct (f64_lt _ _). Qed.

(** A report never fails, but it waits or panics when the check of the connection does.  It
    is unhealthy exactly if the connection's check fails, the pool has no worker, or it does
    not run; else degraded exactly if more than 95 percent of the workers are busy; it is kept
    as the last one and counted. *)
Theorem ReportHealth_correct ctxDone now latency ord rt p hr (r : RabbitMQ W) :
  let '(r', checked) := HealthCheck ctxDone r in
  let '((hr', r''), res) := ReportHealth ctxDone now latency ord rt p (hr, r) in
  r'' = r'
  /\ match checked with
     | Blocks => res = Blocks /\ hr' = hr
     | Done Panic => res = Done Panic /\ hr' = hr
     | Done answer =>
         exists rep, res = Done (Ok rep) /\ hr_lastReport hr' = Some rep /\ hr_heartbeats hr' = int64 (hr_heartbeats hr + 1)
           /\ hrep_Metrics rep = collectMetrics ord p
           /\ hrep_Status rep =
                if match answer with Ok _ => false | _ => true end || bool_decide (wp_workers p = []) || negb (wp_running p)
                then HealthStatusUnhealthy
                else if near_capacity p then HealthStatusDegraded else HealthStatusHealthy
     end.
Proof.
  unfold ReportHealth, checkComponents, checkRabbitMQ.
  assert (forall c, (ch_Status c = HealthStatusHealthy \/ ch_Status c = HealthStatusUnhealthy) ->
    aggregateStatus ([c; pool_health now p]
      ++ (if IsRunning p then [] else [mkComponentHealth "pool_runner" HealthStatusUnhealthy "worker pool is not running" now 0]))
    = if bool_decide (ch_Status c = HealthStatusUnhealthy) || bool_decide (wp_workers p = []) || negb (wp_running p)
      then HealthStatusUnhealthy else if near_capacity p then HealthStatusDegraded else HealthStatusHealthy) as Hagg.
  { intros c Hc. unfold aggregateStatus, IsRunning. simpl. rewrite pool_health_status.
    destruct Hc as [-> | ->]; [|done]. destruct (wp_workers p), (wp_running p), (near_capacity p); reflexivity. }
  destruct (HealthCheck ctxDone r) as [r' [[[]|err|]|]]; try done;
    (split; [done|]; eexists; split_and!; try reflexivity; cbn [hrep_Status]; rewrite Hagg; simpl; auto).
Qed.
End health.

(** ** What the metrics say *)

Lemma sum_metrics l : forall p s f r n d,
  Forall (fun m => wm_TasksSucceeded m = 1 /\ wm_TasksFailed m = 0 /\ wm_TasksRetried m = 0 /\ wm_AvgDuration m = 0 /\ wm_Panics m = 0) l ->
  in_int64 f -> in_int64 r -> in_int64 n -> d = S754_zero false -> in_int64 s ->
  exists p', foldl add_metrics (p, s, f, r, n, d) l = (p', int64 (s + Z.of_nat (length l)), f, r, n, S754_zero false).
Proof.
  induction l as [|m l IH]; intros p s f r n d Hl Hf Hr Hn -> Hs.
  { exists p. simpl. rewrite Z.add_0_r. by rewrite int64_small. }
  apply Forall_cons in Hl as [(Hs1 & Hf1 & Hr1 & Ha1 & Hp1) Hl].
  cbn [foldl]. unfold add_metrics at 2.
  rewrite Hs1, Hf1, Hr1, Ha1, Hp1, !Z.add_0_r, (int64_small f), (int64_small r), (int64_small n) by done.
  destruct (IH (int64 (p + wm_TasksProcessed m)) (int64 (s + 1)) f r n
              (f64_add (S754_zero false) (f64_mul (Seconds 0) (f64_of_Z 1000)))) as (p' & ->); try done.
  { apply int64_range. }
  exists p'. rewrite wrap_s_add_l by lia. cbn [length].
  by replace (s + 1 + Z.of_nat (length l)) with (s + Z.of_nat (S (length l))) by lia.
Qed.

(** Whatever a pool has done, the report counts one success for each worker that has ever
    finished a task, no failure, no retry and no panic; the error rate and the average time are
    zero.  The busy and idle workers are all of its workers. *)
Theorem collectMetrics_correct ord p :
  pool_inv p -> range_order (wp_metrics p) ord ->
  let m := collectMetrics ord p in
  hm_TasksProcessed m < 2 ^ 53 ->
  hm_TasksSucceeded m = int64 (Z.of_nat (size (wp_metrics p)))
  /\ hm_TasksFailed m = 0 /\ hm_TasksRetried m = 0 /\ hm_PanicCount m = 0
  /\ hm_ErrorRate m = S754_zero false
  /\ (Z.of_nat (size (wp_metrics p)) < 2 ^ 53 -> hm_AvgProcessTime m = S754_zero false)
  /\ hm_ActiveWorkers m + hm_IdleWorkers m = Z.of_nat (length (wp_workers p)) /\ 0 <= hm_IdleWorkers m.
Proof.
  intros [Hb _] Hord m Hm.
  assert (forall l, Forall (fun k => is_Some (wp_metrics p !! k)) l -> length (omap (fun k => wp_metrics p !! k) l) = length l) as Hlen.
  { intros l Hl. induction Hl as [|k l [x Hx] Hl IH]; [done|]. simpl. by rewrite Hx, <- IH. }
  assert (length (Metrics ord p) = size (wp_metrics p)) as Hsize.
  { unfold Metrics. rewrite Hlen; [by rewrite Hord, length_keys|]. apply Forall_forall. intros k Hk.
    by apply (range_order_elem _ _ _ Hord). }
  assert (Forall (fun m => wm_TasksSucceeded m = 1 /\ wm_TasksFailed m = 0 /\ wm_TasksRetried m = 0 /\ wm_AvgDuration m = 0
            /\ wm_Panics m = 0) (Metrics ord p)) as Hall.
  { apply Forall_forall. intros x (k & _ & Hk)%list_elem_of_omap. by destruct (inv_metrics _ Hb _ _ Hk) as (_ & ?). }
  assert (forall z, - 2 ^ 63 <= z <= 2 ^ 63 - 1 -> in_int64 z) as H64 by done.
  destruct (sum_metrics (Metrics ord p) 0 0 0 0 0 (f64_of_Z 0) Hall) as (p' & Hsum); try (apply H64; lia); [done|].
  assert (busy_count p <= length (wp_workers p))%nat as Hbusy by apply length_filter.
  revert Hm. unfold m, collectMetrics. rewrite Hsum, Hsize.
  cbn [hm_TasksSucceeded hm_TasksFailed hm_TasksRetried hm_PanicCount hm_ErrorRate hm_AvgProcessTime hm_ActiveWorkers
       hm_IdleWorkers hm_TasksProcessed WorkerPool_PoolMetrics pm_BusyWorkers pm_IdleWorkers]. intros Hm.
  split_and!; try done; [| |lia|lia].
  - destruct (Z.ltb_spec 0 p'); [|done]. destruct p' as [|q|q]; [lia| |lia]. by rewrite zero_div.
  - intros Hs. destruct (Z.ltb_spec 0 p'); [|done].
    destruct (size (wp_metrics p)) as [|k] eqn:Hk.
    { apply nil_length_inv in Hsize. rewrite Hsize in Hsum. simpl in Hsum. injection Hsum as <- . lia. }
    destruct (Z.of_nat (S k)) as [|q|q] eqn:Hq; [lia| |lia]. by apply (zero_div q).
Qed.

Lemma collectMetrics_correct_witness :
  let p := (pool_run sample_ops sample_pool).1.1 in
  hm_TasksProcessed (collectMetrics (keys (wp_metrics p)) p) = 2
  /\ hm_ErrorRate (collectMetrics (keys (wp_metrics p)) p) = S754_zero false
  /\ hm_TasksSucceeded (collectMetrics (keys (wp_metrics p)) p) = 2.
Proof.
  intros p.
  assert (pool_inv p) as Hp.
  { assert (NewWorkerPool sample_cfg = Ok sample_pool) as Hnew by (vm_compute; reflexivity).
    assert (proper sample_ops sample_pool = true) as Hpr by (vm_compute; reflexivity).
    unfold p. destruct (pool_run sample_ops sample_pool) as [[q sub] beg] eqn:Hrun.
    eapply (pool_run_inv sample_ops); [eapply NewWorkerPool_inv; exact Hnew|exact Hpr|exact Hrun]. }
  assert (hm_TasksProcessed (collectMetrics (keys (wp_metrics p)) p) < 2 ^ 53) as Hm by (vm_compute; reflexivity).
  destruct (collectMetrics_correct (keys (wp_metrics p)) p Hp (range_order_keys _) Hm) as (Hs & _ & _ & _ & He & _).
  split; [vm_compute; reflexivity|]. split; [exact He|]. rewrite Hs. vm_compute. reflexivity.
Defined.
