(* ===== verification/WebhookDelivery.v ===== *)
(** * Delivering a webhook: internal/webhook/delivery.go

    The request of an attempt with its headers, the attempts and their pauses, and the
    signature.  What the HTTP client answers, the clock and the random numbers are
    arguments; a payload is its serialized text.  HMAC-SHA256 is a function [hmac_sha256] of
    key and message, and [uuid_String] the text of an identifier. *)

From S2P Require Import Prelude GoFloat GoStrings GoHttp.

(** ** Data *)

(* go: internal/webhook/delivery.go @20-29 DeliveryStatus *)
Definition DeliveryStatus : Type := string.
Definition DeliveryStatusPending : DeliveryStatus := "pending".
Definition DeliveryStatusDelivering : DeliveryStatus := "delivering".
Definition DeliveryStatusSuccess : DeliveryStatus := "success".
Definition DeliveryStatusFailed : DeliveryStatus := "failed".
Definition DeliveryStatusRetrying : DeliveryStatus := "retrying".
Definition DeliveryStatusCancelled : DeliveryStatus := "cancelled".

(* go: internal/webhook/delivery.go func DeliveryStatus.IsTerminal *)
Definition DeliveryStatus_IsTerminal (s : DeliveryStatus) : bool :=
  String.eqb s DeliveryStatusSuccess || String.eqb s DeliveryStatusFailed || String.eqb s DeliveryStatusCancelled.

Inductive SendError : Type :=
| ErrCreateRequest (err : string)
| ErrRequestFailed (err : string)
| ErrUnexpectedStatus (code : Z).

(* go: internal/webhook/delivery.go type DeliveryResult *)
Record DeliveryResult := mkDeliveryResult {
  dr_StatusCode : Z;
  dr_ResponseBody : string;
  dr_Duration : Z;
  dr_Attempt : Z;
  dr_Error : option SendError
}.

(* go: internal/webhook/delivery.go type WebhookDelivery *)
Record WebhookDelivery := mkWebhookDelivery {
  wd_ID : UUID;
  wd_WebhookID : UUID;
  wd_EventType : string;
  wd_URL : string;
  wd_Status : DeliveryStatus;
  wd_StatusCode : Z;
  wd_RequestBody : string;
  wd_ResponseBody : string;
  wd_DurationMS : Z;
  wd_Attempt : Z;
  wd_MaxRetries : Z;
  wd_Error : string;
  wd_CreatedAt : Z;
  wd_UpdatedAt : Z
}.

(* go: internal/webhook/delivery.go type DeliveryConfig *)
Record DeliveryConfig := mkDeliveryConfig {
  dc_TimeoutPerAttempt : Z;
  dc_MaxRetries : Z;
  dc_BaseBackoff : Z;
  dc_MaxBackoff : Z;
  dc_JitterFactor : float64
}.

(** The constant 0.2. *)
Definition jitter_0_2 : float64 := S754_finite false 7205759403792794 (-55).

(* go: internal/webhook/delivery.go func DefaultDeliveryConfig *)
Definition DefaultDeliveryConfig : DeliveryConfig := mkDeliveryConfig (30 * Second) 3 (1 * Second) (60 * Second) jitter_0_2.

(** ** An attempt *)

Record http_request := mkRequest {
  rq_URL : string;
  rq_Body : string;
  rq_Header : Header
}.

(** What becomes of a request: it cannot be made, the client fails, or an answer with its
    status and body; with the time it took. *)
Inductive http_outcome : Type :=
| CannotCreate (err : string)
| ClientError (err : string) (duration : Z)
| Answered (code : Z) (body : string) (duration : Z).

Definition is_2xx (code : Z) : bool := (200 <=? code) && (code <? 300).

(** At most a mebibyte of the body is read. *)
Definition limit_body (s : string) : string :=
  if Z.of_nat (String.length s) <=? 1024 * 1024 then s else String.substring 0 (Z.to_nat (1024 * 1024)) s.

Definition result_of (o : http_outcome) (attempt : Z) : DeliveryResult :=
  match o with
  | CannotCreate err => mkDeliveryResult 0 "" 0 attempt (Some (ErrCreateRequest err))
  | ClientError err d => mkDeliveryResult 0 "" d attempt (Some (ErrRequestFailed err))
  | Answered code body d =>
      mkDeliveryResult code (limit_body body) d attempt (if is_2xx code then None else Some (ErrUnexpectedStatus code))
  end.

(** What [serializePayload] is given: bytes, raw JSON, or a value that encoding/json turns into
    a text or refuses. *)
Inductive payload : Type :=
| PBytes (s : string)
| PRaw (s : string)
| PValue (encoded : option string).

(* go: internal/webhook/delivery.go func serializePayload *)
Definition serializePayload (p : payload) : option string :=
  match p with PBytes s | PRaw s => Some s | PValue e => e end.

(** [hex.EncodeToString]. *)
Definition hex_digit (n : N) : Ascii.ascii := Ascii.ascii_of_N (if (n <? 10)%N then 48 + n else 87 + n)%N.
Fixpoint hex_encode (s : string) : string :=
  match s with
  | EmptyString => EmptyString
  | String c s => String (hex_digit (code c / 16)) (String (hex_digit (code c mod 16)) (hex_encode s))
  end.

(** ** The pause before an attempt

    [conv] is what the platform gives for a float out of range, [rnd] the number of
    [rand.Float64]. *)
(* go: internal/webhook/delivery.go func Deliverer.calculateBackoff *)
Definition calculateBackoff (conv : Z) (rnd : float64) (cfg : DeliveryConfig) (attempt : Z) : Z :=
  let delay := f64_to_int64 conv (f64_mul (f64_of_Z (dc_BaseBackoff cfg)) (f64_pow2 (attempt - 2))) in
  let delay := if dc_MaxBackoff cfg <? delay then dc_MaxBackoff cfg else delay in
  if f64_lt (f64_of_Z 0) (dc_JitterFactor cfg) then
    let jitter := f64_to_int64 conv
      (f64_mul (f64_mul (f64_of_Z delay) (dc_JitterFactor cfg)) (f64_sub (f64_mul rnd (f64_of_Z 2)) (f64_of_Z 1))) in
    let delay := int64 (delay + jitter) in
    if delay <? 0 then dc_BaseBackoff cfg else delay
  else delay.

Section delivery.
Context (hmac_sha256 : string -> string -> string) (uuid_String : UUID -> string).

(* go: internal/webhook/delivery.go func generateHMAC *)
Definition generateHMAC (payload secret : string) : string :=
  if String.eqb secret "" then "" else hex_encode (hmac_sha256 secret payload).

(* go: internal/webhook/delivery.go func VerifyHMAC *)
Definition VerifyHMAC (payload secret signature : string) : bool :=
  if String.eqb secret "" || String.eqb signature "" then false
  else String.eqb (generateHMAC payload secret) signature.

(** The headers of the registration come last, in the order of a range over their map. *)
(* go: internal/webhook/delivery.go @150-162 Deliverer.sendAttempt *)
Definition request_headers (webhookID : UUID) (eventType signature : string) (headers : list (string * string))
    (attempt : Z) : Header :=
  let h := Header_Set "Content-Type" "application/json" ∅ in
  let h := Header_Set "User-Agent" "NexusPipe-Webhook/1.0" h in
  let h := Header_Set "X-NexusPipe-Event-Type" eventType h in
  let h := Header_Set "X-NexusPipe-Delivery-Attempt" (itoa attempt) h in
  let h := Header_Set "X-NexusPipe-Webhook-ID" (uuid_String webhookID) h in
  let h := if String.eqb signature "" then h else Header_Set "X-NexusPipe-Signature-256" signature h in
  foldl (fun h kv => Header_Set kv.1 kv.2 h) h headers.

(** The request, when it can be made, and the result. *)
(* go: internal/webhook/delivery.go func Deliverer.sendAttempt *)
Definition sendAttempt (o : http_outcome) (webhookID : UUID) (url eventType body signature : string)
    (headers : list (string * string)) (attempt : Z) : option http_request * DeliveryResult :=
  (match o with
   | CannotCreate _ => None
   | _ => Some (mkRequest url body (request_headers webhookID eventType signature headers attempt))
   end, result_of o attempt).

(** ** All attempts *)

Inductive DeliverError : Type :=
| ErrSerializePayload
| ErrDeliverContext
| ErrDeliveryFailed (attempts : Z) (last : option SendError).

(** What an attempt reads from outside: whether the context ends its pause, the random number,
    the conversion, the client's answer and the order of the headers. *)
Record deliver_env := mkDeliverEnv {
  de_cancel : bool;
  de_rnd : float64;
  de_conv : Z;
  de_outcome : http_outcome;
  de_headers : list (string * string)
}.

(** What a delivery did: its requests and pauses; then its answer, the last result with an
    error if there is one.  Formatting the error of no result panics. *)
Record delivered := mkDelivered {
  dl_requests : list http_request;
  dl_pauses : list Z;
  dl_answer : go_result DeliveryResult (option DeliveryResult * DeliverError)
}.

Definition after_attempt (reqs : list http_request) (pauses : list Z) (d : delivered) : delivered :=
  mkDelivered (reqs ++ dl_requests d) (pauses ++ dl_pauses d) (dl_answer d).

(** The attempts from [attempt] on, [n] of them. *)
(* go: internal/webhook/delivery.go @109-139 Deliverer.Deliver *)
Fixpoint deliver_loop (cfg : DeliveryConfig) (env : Z -> deliver_env) (webhookID : UUID)
    (url eventType body signature : string) (n : nat) (attempt : Z) (last : option DeliveryResult) : delivered :=
  match n with
  | O =>
      mkDelivered [] []
        (match last with
         | None => Panic
         | Some r => Err (Some r, ErrDeliveryFailed (dc_MaxRetries cfg) (dr_Error r))
         end)
  | S n =>
      let e := env attempt in
      let pause := if 1 <? attempt then [calculateBackoff (de_conv e) (de_rnd e) cfg attempt] else [] in
      if (1 <? attempt) && de_cancel e then mkDelivered [] pause (Err (last, ErrDeliverContext))
      else
        let '(req, r) := sendAttempt (de_outcome e) webhookID url eventType body signature (de_headers e) attempt in
        after_attempt (match req with Some q => [q] | None => [] end) pause
          (match dr_Error r with
           | None =>
               if is_2xx (dr_StatusCode r) then mkDelivered [] [] (Ok r)
               else deliver_loop cfg env webhookID url eventType body signature n (attempt + 1) (Some r)
           | Some _ => deliver_loop cfg env webhookID url eventType body signature n (attempt + 1) (Some r)
           end)
  end.

(* go: internal/webhook/delivery.go func Deliverer.Deliver *)
Definition Deliver (cfg : DeliveryConfig) (env : Z -> deliver_env) (webhookID : UUID) (url eventType secret : string)
    (p : payload) : delivered :=
  match serializePayload p with
  | None => mkDelivered [] [] (Err (None, ErrSerializePayload))
  | Some body =>
      deliver_loop cfg env webhookID url eventType body (generateHMAC body secret) (Z.to_nat (dc_MaxRetries cfg)) 1 None
  end.

(* go: internal/webhook/delivery.go func Deliverer.DeliverSync *)
Definition DeliverSync (o : http_outcome) (webhookID : UUID) (url eventType secret : string)
    (headers : list (string * string)) (p : payload) : go_result (option http_request * DeliveryResult) DeliverError :=
  match serializePayload p with
  | None => Err ErrSerializePayload
  | Some body => Ok (sendAttempt o webhookID url eventType body (generateHMAC body secret) headers 1)
  end.

(** ** What the loop does *)

Section loop.
Context (cfg : DeliveryConfig) (env : Z -> deliver_env) (webhookID : UUID) (url eventType body signature : string).

Abbreviation loop := (deliver_loop cfg env webhookID url eventType body signature).

Definition attempt_result (a : Z) : DeliveryResult := result_of (de_outcome (env a)) a.
Definition attempt_request (a : Z) : option http_request :=
  (sendAttempt (de_outcome (env a)) webhookID url eventType body signature (de_headers (env a)) a).1.
Definition attempt_pause (a : Z) : option Z :=
  if 1 <? a then Some (calculateBackoff (de_conv (env a)) (de_rnd (env a)) cfg a) else None.

(** The context lets the attempt [a] be made. *)
Definition proceeds (a : Z) : Prop := (1 <? a) && de_cancel (env a) = false.

Lemma pause_list a : (if 1 <? a then [calculateBackoff (de_conv (env a)) (de_rnd (env a)) cfg a] else [])
  = option_list (attempt_pause a).
Proof. unfold attempt_pause. by destruct (1 <? a). Qed.

Lemma result_ok_2xx o a : dr_Error (result_of o a) = None -> is_2xx (dr_StatusCode (result_of o a)) = true.
Proof. destruct o as [| |code b d]; simpl; try done. by destruct (is_2xx code). Qed.

Lemma loop_step n a last : proceeds a ->
  loop (S n) a last =
    after_attempt (option_list (attempt_request a)) (option_list (attempt_pause a))
      (match dr_Error (attempt_result a) with
       | None => mkDelivered [] [] (Ok (attempt_result a))
       | Some _ => loop n (a + 1) (Some (attempt_result a))
       end).
Proof.
  unfold proceeds. intros Hp. simpl. rewrite Hp, pause_list. fold (attempt_result a).
  f_equal. destruct (dr_Error (attempt_result a)) eqn:He; [done|].
  unfold attempt_result in *. by rewrite (result_ok_2xx _ _ He).
Qed.

Lemma after_attempt_app r1 p1 r2 p2 d :
  after_attempt r1 p1 (after_attempt r2 p2 d) = after_attempt (r1 ++ r2) (p1 ++ p2) d.
Proof. unfold after_attempt. simpl. by rewrite !app_assoc. Qed.

Lemma omap_option_list {A B} (f : A -> option B) x l : omap f (x :: l) = option_list (f x) ++ omap f l.
Proof. simpl. by destruct (f x). Qed.

(** [k] failed attempts, then the rest. *)
Lemma loop_prefix k : forall n a last,
  (forall i, 0 <= i < Z.of_nat k -> proceeds (a + i) /\ dr_Error (attempt_result (a + i)) <> None) ->
  loop (k + n) a last =
    after_attempt (omap attempt_request (seqZ a (Z.of_nat k))) (omap attempt_pause (seqZ a (Z.of_nat k)))
      (loop n (a + Z.of_nat k) (if decide (k = O) then last else Some (attempt_result (a + Z.of_nat k - 1)))).
Proof.
  induction k as [|k IH]; intros n a last Hf.
  { simpl. rewrite Z.add_0_r. unfold after_attempt. by destruct (loop n a last). }
  destruct (Hf 0) as [Hp Hr]; [lia|]. rewrite Z.add_0_r in Hp, Hr. rewrite Nat.add_succ_l, loop_step by done.
  destruct (dr_Error (attempt_result a)) eqn:He; [|done]. rewrite IH.
  - rewrite after_attempt_app, Nat2Z.inj_succ, (seqZ_cons a (Z.succ (Z.of_nat k))) by lia. rewrite !omap_option_list.
    rewrite Z.pred_succ, Z.add_1_r. f_equal. replace (Z.succ a + Z.of_nat k) with (a + Z.succ (Z.of_nat k)) by lia.
    f_equal. case_decide as Hk; [subst k|]; rewrite decide_False by lia; do 2 f_equal; lia.
  - intros i Hi. replace (a + 1 + i) with (a + (i + 1)) by lia. apply Hf. lia.
Qed.

(** The same from the first attempt, up to the attempt [k]. *)
Lemma loop_from_first k n :
  1 <= k -> Z.to_nat (dc_MaxRetries cfg) = (Z.to_nat (k - 1) + n)%nat ->
  (forall a, 1 <= a < k -> proceeds a /\ dr_Error (attempt_result a) <> None) ->
  loop (Z.to_nat (dc_MaxRetries cfg)) 1 None
  = after_attempt (omap attempt_request (seqZ 1 (k - 1))) (omap attempt_pause (seqZ 1 (k - 1)))
      (loop n k (if decide (k = 1) then None else Some (attempt_result (k - 1)))).
Proof.
  intros Hk Hn Hf. rewrite Hn, loop_prefix.
  - rewrite Z2Nat.id by lia. replace (1 + (k - 1)) with k by lia. do 2 f_equal. repeat case_decide; try done; lia.
  - intros i Hi. apply Hf. lia.
Qed.
End loop.

Lemma omap_seqZ_snoc {A} (f : Z -> option A) k : 1 <= k ->
  omap f (seqZ 1 k) = omap f (seqZ 1 (k - 1)) ++ option_list (f k).
Proof.
  intros Hk. replace (seqZ 1 k) with (seqZ 1 ((k - 1) + 1)) by (f_equal; lia). rewrite seqZ_app by lia.
  rewrite omap_app. replace (1 + (k - 1)) with k by lia. f_equal.
Qed.

(** C13: a delivery of a payload that can be serialized.  Attempts are made one after the other
    until one is answered with a status from 200 to 299, at most [MaxRetries] in all, with
    the pause [calculateBackoff] before each but the first: after the first success [k] the
    answer is its result; after [MaxRetries] failures it is the last result with an error;
    and when the context ends the pause before [k], the result of [k - 1].  With a
    [MaxRetries] that is not positive nothing is sent, and formatting the error panics. *)
Theorem Deliver_correct cfg env id url eventType secret p body :
  serializePayload p = Some body ->
  let sig := generateHMAC body secret in
  let result := attempt_result env in
  let fails a := dr_Error (result a) <> None in
  let requests k := omap (attempt_request env id url eventType body sig) (seqZ 1 k) in
  let pauses k := omap (attempt_pause cfg env) (seqZ 1 k) in
  let M := dc_MaxRetries cfg in
  let d := Deliver cfg env id url eventType secret p in
  (M <= 0 -> d = mkDelivered [] [] Panic)
  /\ (forall k, 1 <= k <= M -> (forall a, 1 <= a <= k -> proceeds env a) -> (forall a, 1 <= a < k -> fails a) ->
        dr_Error (result k) = None -> d = mkDelivered (requests k) (pauses k) (Ok (result k)))
  /\ (1 <= M -> (forall a, 1 <= a <= M -> proceeds env a /\ fails a) ->
        d = mkDelivered (requests M) (pauses M) (Err (Some (result M), ErrDeliveryFailed M (dr_Error (result M)))))
  /\ (forall k, 1 < k <= M -> (forall a, 1 <= a < k -> proceeds env a /\ fails a) -> de_cancel (env k) = true ->
        d = mkDelivered (requests (k - 1)) (pauses k) (Err (Some (result (k - 1)), ErrDeliverContext))).
Proof.
  intros Hs. simpl. unfold Deliver. rewrite Hs. set (sig := generateHMAC body secret).
  pose proof (fun k n => loop_from_first cfg env id url eventType body sig k n) as Hpre.
  split_and!.
  - intros HM. by replace (Z.to_nat (dc_MaxRetries cfg)) with O by lia.
  - intros k Hk Hp Hf Hok. rewrite (Hpre k (S (Z.to_nat (dc_MaxRetries cfg - k)))); [|lia|lia|intros a Ha; split; [apply Hp|apply Hf]; lia].
    rewrite loop_step by (apply Hp; lia). rewrite Hok, after_attempt_app, <- !omap_seqZ_snoc by lia.
    unfold after_attempt. simpl. by rewrite !app_nil_r.
  - intros HM Hf. rewrite (Hpre (dc_MaxRetries cfg + 1) O); [|lia|lia|intros a Ha; apply Hf; lia].
    rewrite decide_False by lia. replace (dc_MaxRetries cfg + 1 - 1) with (dc_MaxRetries cfg) by lia.
    unfold after_attempt. simpl. by rewrite !app_nil_r.
  - intros k Hk Hf Hc. rewrite (Hpre k (S (Z.to_nat (dc_MaxRetries cfg - k)))); [|lia|lia|exact Hf].
    rewrite decide_False by lia. simpl. rewrite Hc, (proj2 (Z.ltb_lt 1 k)) by lia. simpl.
    rewrite (omap_seqZ_snoc (attempt_pause cfg env) k) by lia. unfold attempt_pause at 3. rewrite (proj2 (Z.ltb_lt 1 k)) by lia.
    unfold after_attempt. simpl. by rewrite !app_nil_r.
Qed.

(** ** Headers and signature *)

(** The value of a header set by a list: the last that has the same canonical key. *)
Definition last_set (key : string) (l : list (string * string)) : option string :=
  foldl (fun r kv => if String.eqb (CanonicalHeaderKey kv.1) key then Some kv.2 else r) None l.

Lemma last_set_snoc key l kv :
  last_set key (l ++ [kv]) = if String.eqb (CanonicalHeaderKey kv.1) key then Some kv.2 else last_set key l.
Proof. unfold last_set. by rewrite foldl_app. Qed.

Lemma foldl_Header_Set key h l :
  foldl (fun h kv => Header_Set kv.1 kv.2 h) h l !! key
  = match last_set key l with Some v => Some v | None => h !! key end.
Proof.
  induction l as [|kv l IH] using rev_ind; [done|]. rewrite foldl_app, last_set_snoc. simpl. unfold Header_Set at 1.
  destruct (String.eqb_spec (CanonicalHeaderKey kv.1) key) as [<-|Hne]; [by rewrite lookup_insert_eq|].
  by rewrite lookup_insert_ne.
Qed.

Definition signature_header : string := "X-Nexuspipe-Signature-256".

(** What a delivery sends with a custom list of headers [l]. *)
Lemma signature_lookup id eventType sig l a :
  request_headers id eventType sig l a !! signature_header
  = match last_set signature_header l with
    | Some v => Some v
    | None => if String.eqb sig "" then None else Some sig
    end.
Proof.
  unfold request_headers. rewrite foldl_Header_Set. destruct (last_set _ _); [done|].
  destruct (String.eqb sig "").
  - unfold Header_Set. rewrite !lookup_insert_ne by (vm_compute; discriminate). done.
  - unfold Header_Set. by rewrite lookup_insert_eq.
Qed.

Lemma deliver_loop_requests cfg env id url eventType body sig n : forall a last rq,
  rq ∈ dl_requests (deliver_loop cfg env id url eventType body sig n a last) ->
  exists b, rq = mkRequest url body (request_headers id eventType sig (de_headers (env b)) b).
Proof.
  induction n as [|n IH]; intros a last rq; simpl; [set_solver|].
  destruct ((1 <? a) && de_cancel (env a)); [set_solver|]. simpl. rewrite elem_of_app. intros [Hr|Hr].
  - exists a. destruct (de_outcome (env a)); set_solver.
  - destruct (dr_Error _); [by eapply IH|]. destruct (is_2xx _); [set_solver|by eapply IH].
Qed.

(** Every request of a delivery carries the serialized payload and, when there is a secret,
    a signature that [VerifyHMAC] accepts for it; without a secret there is none.  All this
    holds unless the registration has a header of its own whose canonical name is that of
    the signature: its value is sent instead, and if it is not the signature by chance the
    receiver must reject the request. *)
Theorem Deliver_signed cfg env id url eventType secret p body rq :
  (forall k m, hmac_sha256 k m <> EmptyString) -> serializePayload p = Some body ->
  rq ∈ dl_requests (Deliver cfg env id url eventType secret p) ->
  rq_URL rq = url /\ rq_Body rq = body /\ exists a,
    match last_set signature_header (de_headers (env a)) with
    | None =>
        if String.eqb secret "" then rq_Header rq !! signature_header = None
        else exists sig, rq_Header rq !! signature_header = Some sig /\ VerifyHMAC body secret sig = true
    | Some v =>
        rq_Header rq !! signature_header = Some v
        /\ (VerifyHMAC body secret v = true <-> secret <> EmptyString /\ v = generateHMAC body secret)
    end.
Proof.
  intros Hh Hs. unfold Deliver. rewrite Hs. intros [a ->]%deliver_loop_requests. simpl.
  split; [done|]. split; [done|]. exists a. rewrite signature_lookup.
  assert (secret <> EmptyString -> generateHMAC body secret <> EmptyString) as Hg.
  { intros Hne. unfold generateHMAC. destruct (String.eqb_spec secret "") as [?|_]; [done|].
    specialize (Hh secret body). by destruct (hmac_sha256 secret body). }
  destruct (last_set _ _) as [v|].
  - split; [done|]. unfold VerifyHMAC.
    destruct (String.eqb_spec secret "") as [->|Hne]; simpl; [split; [done|by intros [? _]]|]. specialize (Hg Hne).
    destruct (String.eqb_spec v "") as [->|Hv]; [split; [done|by intros [_ Hg']]|].
    destruct (String.eqb_spec (generateHMAC body secret) v); split; try done; by intros [_ ?].
  - destruct (String.eqb_spec secret "") as [->|Hne]; [done|]. specialize (Hg Hne).
    destruct (String.eqb_spec (generateHMAC body secret) "") as [?|_]; [done|].
    eexists. split; [done|]. unfold VerifyHMAC. apply String.eqb_neq in Hne, Hg. rewrite Hne, Hg.
    by rewrite String.eqb_refl.
Qed.
End delivery.

(** A server that fails twice; the second header replaces the signature. *)
Definition sample_env (a : Z) : deliver_env :=
  mkDeliverEnv false (f64_of_Z 0) min_int64 (if a <? 3 then Answered 503 "busy" 5 else Answered 204 "" 7)
    [("X-Tenant", "acme"); ("x-nexuspipe-signature-256", "forged")]%string.

Lemma Deliver_correct_witness :
  let d := Deliver (fun k m => k) (fun _ => "id"%string) DefaultDeliveryConfig sample_env 1 "http://x" "created" "key" (PBytes "{}") in
  dl_answer d = Ok (mkDeliveryResult 204 "" 7 3 None) /\ length (dl_requests d) = 3%nat /\ length (dl_pauses d) = 2%nat.
Proof.
  destruct (Deliver_correct (fun k m => k) (fun _ => "id"%string) DefaultDeliveryConfig sample_env 1 "http://x" "created" "key"
              (PBytes "{}") "{}" eq_refl) as (_ & Hok & _ & _).
  cbv zeta. rewrite (Hok 3); [vm_compute; auto|vm_compute; split; discriminate| | |reflexivity].
  - intros a Ha. unfold proceeds. simpl. by rewrite andb_false_r.
  - intros a Ha. assert (a = 1 \/ a = 2) as [-> | ->] by lia; vm_compute; discriminate.
Defined.

Lemma Deliver_signed_witness :
  exists rq, rq ∈ dl_requests (Deliver (fun k m => "mac") (fun _ => "id"%string) DefaultDeliveryConfig sample_env 1 "http://x"
                                 "created" "key" (PBytes "{}"))
    /\ rq_Header rq !! signature_header = Some "forged"%string
    /\ VerifyHMAC (fun k m => "mac"%string) "{}" "key" "forged" = false.
Proof.
  eexists. split; [apply elem_of_cons; left; reflexivity|]. split; [vm_compute; reflexivity|].
  match goal with |- VerifyHMAC ?h _ _ _ = _ =>
    destruct (Deliver_signed h (fun _ => "id"%string) DefaultDeliveryConfig sample_env 1 "http://x" "created" "key" (PBytes "{}")
                "{}" _ ltac:(done) eq_refl ltac:(apply elem_of_cons; left; reflexivity)) as (_ & _ & a & Hv) end.
  change (last_set signature_header (de_headers (sample_env a))) with (Some "forged"%string) in Hv. destruct Hv as [_ Hv].
  apply not_true_iff_false. intros [_ Hf]%Hv. discriminate Hf.
Defined.
