(* ===== verification/WebhookManager.v ===== *)
(** * The registry of webhooks: internal/webhook/manager.go

    The table of webhooks and the routes by event type that are built from it.  A
    registration's identifier ([uuid.New]) and the clock are arguments, and so is the order
    of the range over the table when the routes are rebuilt.  Callers do not write to the
    webhooks they are given. *)

From S2P Require Import Prelude GoFloat WebhookDelivery.

(** ** Data *)

(* go: internal/webhook/manager.go @12-18 WebhookStatus *)
Definition WebhookStatus : Type := string.
Definition WebhookStatusActive : WebhookStatus := "active".
Definition WebhookStatusInactive : WebhookStatus := "inactive".
Definition WebhookStatusDisabled : WebhookStatus := "disabled".

(* go: internal/webhook/manager.go type Webhook *)
Record Webhook := mkWebhook {
  wh_ID : UUID;
  wh_Name : string;
  wh_URL : string;
  wh_Secret : string;
  wh_Status : WebhookStatus;
  wh_Events : list string;
  wh_Headers : gmap string string;
  wh_RetryConfig : DeliveryConfig;
  wh_CreatedAt : Z;
  wh_UpdatedAt : Z
}.

(* go: internal/webhook/manager.go type WebhookRegistration *)
Record WebhookRegistration := mkRegistration {
  reg_Name : string;
  reg_URL : string;
  reg_Secret : string;
  reg_Events : list string;
  reg_Headers : gmap string string;
  reg_RetryConfig : option DeliveryConfig
}.

(* go: internal/webhook/manager.go type WebhookUpdate *)
Record WebhookUpdate := mkUpdate {
  up_Name : option string;
  up_URL : option string;
  up_Secret : option string;
  up_Status : option WebhookStatus;
  up_Events : option (list string);
  up_Headers : option (gmap string string);
  up_RetryConfig : option DeliveryConfig
}.

(* go: internal/webhook/manager.go type Subscription *)
Record Subscription := mkSubscription {
  sub_WebhookID : UUID;
  sub_EventType : string;
  sub_Active : bool
}.

(* go: internal/webhook/manager.go type EventRouter *)
Record EventRouter := mkRouter {
  rt_webhookID : UUID;
  rt_name : string;
  rt_events : list string;
  rt_active : bool
}.

Abbreviation routes := (gmap string (list EventRouter)).

(* go: internal/webhook/manager.go type WebhookManager *)
Record WebhookManager := mkManager {
  webhooks : gmap UUID Webhook;
  eventRoutes : routes
}.

Inductive WebhookError : Type :=
| ErrNameRequired
| ErrURLRequired
| ErrEventsRequired
| ErrWebhookNotFound (id : UUID).

(* go: internal/webhook/manager.go func NewWebhookManager *)
Definition NewWebhookManager : WebhookManager := mkManager ∅ ∅.

Definition is_active (wh : Webhook) : bool := String.eqb (wh_Status wh) WebhookStatusActive.

Definition router_of (wh : Webhook) : EventRouter := mkRouter (wh_ID wh) (wh_Name wh) (wh_Events wh) (is_active wh).

Definition add_route (r : EventRouter) (rs : routes) (eventType : string) : routes :=
  <[eventType := default [] (rs !! eventType) ++ [r]]> rs.

(* go: internal/webhook/manager.go func WebhookManager.indexEventRoutes *)
Definition indexEventRoutes (wh : Webhook) (rs : routes) : routes := foldl (add_route (router_of wh)) rs (wh_Events wh).

Definition index_id (ws : gmap UUID Webhook) (rs : routes) (id : UUID) : routes :=
  match ws !! id with Some wh => indexEventRoutes wh rs | None => rs end.

(** [ord] is the order of the range over the table. *)
(* go: internal/webhook/manager.go func WebhookManager.rebuildEventRoutes *)
Definition rebuildEventRoutes (ord : list UUID) (m : WebhookManager) : WebhookManager :=
  mkManager (webhooks m) (foldl (index_id (webhooks m)) ∅ ord).

Definition set_webhook (id : UUID) (wh : Webhook) (m : WebhookManager) : WebhookManager :=
  mkManager (<[id := wh]> (webhooks m)) (eventRoutes m).

Definition with_status (s : WebhookStatus) (now : Z) (wh : Webhook) : Webhook :=
  mkWebhook (wh_ID wh) (wh_Name wh) (wh_URL wh) (wh_Secret wh) s (wh_Events wh) (wh_Headers wh) (wh_RetryConfig wh)
    (wh_CreatedAt wh) now.
Definition with_events (evs : list string) (wh : Webhook) : Webhook :=
  mkWebhook (wh_ID wh) (wh_Name wh) (wh_URL wh) (wh_Secret wh) (wh_Status wh) evs (wh_Headers wh) (wh_RetryConfig wh)
    (wh_CreatedAt wh) (wh_UpdatedAt wh).

(** ** Changes *)

(* go: internal/webhook/manager.go func WebhookManager.RegisterWebhook *)
Definition RegisterWebhook (id : UUID) (now : Z) (reg : WebhookRegistration) (m : WebhookManager)
    : WebhookManager * go_result Webhook WebhookError :=
  if String.eqb (reg_Name reg) "" then (m, Err ErrNameRequired)
  else if String.eqb (reg_URL reg) "" then (m, Err ErrURLRequired)
  else if bool_decide (reg_Events reg = []) then (m, Err ErrEventsRequired)
  else
    let wh := mkWebhook id (reg_Name reg) (reg_URL reg) (reg_Secret reg) WebhookStatusActive (reg_Events reg)
                (reg_Headers reg) (default DefaultDeliveryConfig (reg_RetryConfig reg)) now now in
    (mkManager (<[id := wh]> (webhooks m)) (indexEventRoutes wh (eventRoutes m)), Ok wh).

(** The webhook with the fields of the update, but for its update time. *)
Definition apply_update (u : WebhookUpdate) (wh : Webhook) : Webhook :=
  mkWebhook (wh_ID wh) (default (wh_Name wh) (up_Name u)) (default (wh_URL wh) (up_URL u))
    (default (wh_Secret wh) (up_Secret u)) (default (wh_Status wh) (up_Status u)) (default (wh_Events wh) (up_Events u))
    (default (wh_Headers wh) (up_Headers u)) (default (wh_RetryConfig wh) (up_RetryConfig u)) (wh_CreatedAt wh)
    (wh_UpdatedAt wh).

(** The routes are rebuilt when the events change; what follows does not concern them. *)
(* go: internal/webhook/manager.go func WebhookManager.UpdateWebhook *)
Definition UpdateWebhook (ord : list UUID) (now : Z) (id : UUID) (u : WebhookUpdate) (m : WebhookManager)
    : WebhookManager * go_result Webhook WebhookError :=
  match webhooks m !! id with
  | None => (m, Err (ErrWebhookNotFound id))
  | Some wh =>
      let wh1 := apply_update u wh in
      let wh2 := with_status (wh_Status wh1) now wh1 in
      let m1 := set_webhook id wh2 m in
      (match up_Events u with Some _ => rebuildEventRoutes ord m1 | None => m1 end, Ok wh2)
  end.

(* go: internal/webhook/manager.go func WebhookManager.DeleteWebhook *)
Definition DeleteWebhook (ord : list UUID) (id : UUID) (m : WebhookManager) : WebhookManager * option WebhookError :=
  match webhooks m !! id with
  | None => (m, Some (ErrWebhookNotFound id))
  | Some _ => (rebuildEventRoutes ord (mkManager (delete id (webhooks m)) (eventRoutes m)), None)
  end.

(* go: internal/webhook/manager.go func WebhookManager.setWebhookStatus *)
Definition setWebhookStatus (now : Z) (id : UUID) (s : WebhookStatus) (m : WebhookManager)
    : WebhookManager * option WebhookError :=
  match webhooks m !! id with
  | None => (m, Some (ErrWebhookNotFound id))
  | Some wh => (set_webhook id (with_status s now wh) m, None)
  end.

(* go: internal/webhook/manager.go func WebhookManager.ActivateWebhook *)
Definition ActivateWebhook (now : Z) (id : UUID) := setWebhookStatus now id WebhookStatusActive.
(* go: internal/webhook/manager.go func WebhookManager.DeactivateWebhook *)
Definition DeactivateWebhook (now : Z) (id : UUID) := setWebhookStatus now id WebhookStatusInactive.

(** The events of a webhook, then the routes. *)
Definition change_events (ord : list UUID) (id : UUID) (f : list string -> list string) (m : WebhookManager)
    : WebhookManager * option WebhookError :=
  match webhooks m !! id with
  | None => (m, Some (ErrWebhookNotFound id))
  | Some wh => (rebuildEventRoutes ord (set_webhook id (with_events (f (wh_Events wh)) wh) m), None)
  end.

(* go: internal/webhook/manager.go func WebhookManager.SubscribeToEvents *)
Definition SubscribeToEvents (ord : list UUID) (id : UUID) (events : list string) (m : WebhookManager) :=
  change_events ord id (fun _ => events) m.

(* go: internal/webhook/manager.go func WebhookManager.AddEventSubscription *)
Definition AddEventSubscription (ord : list UUID) (id : UUID) (eventType : string) (m : WebhookManager)
    : WebhookManager * option WebhookError :=
  match webhooks m !! id with
  | None => (m, Some (ErrWebhookNotFound id))
  | Some wh =>
      if bool_decide (eventType ∈ wh_Events wh) then (m, None)
      else change_events ord id (fun evs => evs ++ [eventType]) m
  end.

(* go: internal/webhook/manager.go func WebhookManager.RemoveEventSubscription *)
Definition RemoveEventSubscription (ord : list UUID) (id : UUID) (eventType : string) (m : WebhookManager) :=
  change_events ord id (filter (fun e => e <> eventType)) m.

(** ** Queries *)

(* go: internal/webhook/manager.go func WebhookManager.GetWebhook *)
Definition GetWebhook (id : UUID) (m : WebhookManager) : option Webhook := webhooks m !! id.

(** [ord] is the order of the range over the table. *)
(* go: internal/webhook/manager.go func WebhookManager.ListWebhooks *)
Definition ListWebhooks (ord : list UUID) (m : WebhookManager) : list Webhook := omap (fun id => webhooks m !! id) ord.

(* go: internal/webhook/manager.go func WebhookManager.ListActiveWebhooks *)
Definition ListActiveWebhooks (ord : list UUID) (m : WebhookManager) : list Webhook :=
  filter (fun wh => is_active wh) (ListWebhooks ord m).

(** The webhook of a route that is to get the event. *)
Definition live_webhook (m : WebhookManager) (r : EventRouter) : option Webhook :=
  if rt_active r then
    match webhooks m !! rt_webhookID r with
    | Some wh => if is_active wh then Some wh else None
    | None => None
    end
  else None.

(* go: internal/webhook/manager.go func WebhookManager.GetWebhooksForEvent *)
Definition GetWebhooksForEvent (eventType : string) (m : WebhookManager) : list Webhook :=
  match eventRoutes m !! eventType with
  | None => []
  | Some rs => omap (live_webhook m) rs
  end.

(* go: internal/webhook/manager.go func WebhookManager.MatchWebhooks *)
Definition MatchWebhooks := GetWebhooksForEvent.

(* go: internal/webhook/manager.go func WebhookManager.GetSubscriptions *)
Definition GetSubscriptions (id : UUID) (m : WebhookManager) : list Subscription :=
  match webhooks m !! id with
  | None => []
  | Some wh => (fun e => mkSubscription (wh_ID wh) e (is_active wh)) <$> wh_Events wh
  end.

(* go: internal/webhook/manager.go func WebhookManager.HasSubscribers *)
Definition HasSubscribers (eventType : string) (m : WebhookManager) : bool :=
  match eventRoutes m !! eventType with
  | None => false
  | Some rs => existsb (fun r => match live_webhook m r with Some _ => true | None => false end) rs
  end.

(* go: internal/webhook/manager.go func WebhookManager.SubscriberCount *)
Definition SubscriberCount (eventType : string) (m : WebhookManager) : Z :=
  match eventRoutes m !! eventType with
  | None => 0
  | Some rs => foldl (fun n r => match live_webhook m r with Some _ => n + 1 | None => n end) 0 rs
  end.

(* go: internal/webhook/manager.go func WebhookManager.CountWebhooks *)
Definition CountWebhooks (m : WebhookManager) : Z := Z.of_nat (size (webhooks m)).

(* go: internal/webhook/manager.go func WebhookManager.CountActiveWebhooks *)
Definition CountActiveWebhooks (ord : list UUID) (m : WebhookManager) : Z :=
  Z.of_nat (length (ListActiveWebhooks ord m)).

(** ** Runs *)

(** A change by a caller; the routes are rebuilt in some order of the table as it is then. *)
Inductive manager_step : WebhookManager -> WebhookManager -> Prop :=
| step_register id now reg m : webhooks m !! id = None -> manager_step m (RegisterWebhook id now reg m).1
| step_update ord now id u m :
    range_order (webhooks (UpdateWebhook ord now id u m).1) ord -> manager_step m (UpdateWebhook ord now id u m).1
| step_delete ord id m :
    range_order (webhooks (DeleteWebhook ord id m).1) ord -> manager_step m (DeleteWebhook ord id m).1
| step_status now id s m : manager_step m (setWebhookStatus now id s m).1
| step_subscribe ord id evs m :
    range_order (webhooks (SubscribeToEvents ord id evs m).1) ord -> manager_step m (SubscribeToEvents ord id evs m).1
| step_add ord id e m :
    range_order (webhooks (AddEventSubscription ord id e m).1) ord -> manager_step m (AddEventSubscription ord id e m).1
| step_remove ord id e m :
    range_order (webhooks (RemoveEventSubscription ord id e m).1) ord ->
    manager_step m (RemoveEventSubscription ord id e m).1.

(** ** Routes *)

Definition route_list (rs : routes) (e : string) : list EventRouter := default [] (rs !! e).

Lemma route_list_add r rs e e' :
  route_list (add_route r rs e') e = route_list rs e ++ (if decide (e' = e) then [r] else []).
Proof.
  unfold route_list, add_route. case_decide as He; [subst; by rewrite lookup_insert_eq|].
  rewrite lookup_insert_ne by done. by rewrite app_nil_r.
Qed.

Lemma elem_of_add_routes r rs evs e x :
  x ∈ route_list (foldl (add_route r) rs evs) e <-> x ∈ route_list rs e \/ e ∈ evs /\ x = r.
Proof.
  revert rs. induction evs as [|e' evs IH]; intros rs; simpl; [set_solver|].
  rewrite IH, route_list_add, elem_of_app, elem_of_cons. case_decide; set_solver.
Qed.

Lemma elem_of_index wh rs e x :
  x ∈ route_list (indexEventRoutes wh rs) e <-> x ∈ route_list rs e \/ e ∈ wh_Events wh /\ x = router_of wh.
Proof. apply elem_of_add_routes. Qed.

Lemma elem_of_index_all ws ord rs e x :
  x ∈ route_list (foldl (index_id ws) rs ord) e <->
  x ∈ route_list rs e \/ exists id wh, id ∈ ord /\ ws !! id = Some wh /\ e ∈ wh_Events wh /\ x = router_of wh.
Proof.
  revert rs. induction ord as [|id ord IH]; intros rs; simpl; [set_solver|].
  rewrite IH. unfold index_id at 1. destruct (ws !! id) as [wh|] eqn:Hid.
  - rewrite elem_of_index. split.
    + intros [[?|[? ->]]|(id' & wh' & ? & ?)]; [by left|right; exists id, wh; set_solver|right; exists id', wh'; set_solver].
    + intros [?|(id' & wh' & [->|Hin]%elem_of_cons & Hw & He & ->)]; [by left; left| |right; by exists id', wh'].
      rewrite Hid in Hw. injection Hw as <-. by left; right.
  - split.
    + intros [?|(id' & wh' & ? & ?)]; [by left|right; exists id', wh'; set_solver].
    + intros [?|(id' & wh' & [->|Hin]%elem_of_cons & Hw & ?)]; [by left|congruence|right; by exists id', wh'].
Qed.

Lemma elem_of_rebuild ord m e x : range_order (webhooks m) ord ->
  x ∈ route_list (eventRoutes (rebuildEventRoutes ord m)) e <->
  exists id wh, webhooks m !! id = Some wh /\ e ∈ wh_Events wh /\ x = router_of wh.
Proof.
  intros Ho. simpl. rewrite elem_of_index_all. split.
  - intros [Hx|(id & wh & _ & Hw)]; [unfold route_list in Hx; rewrite lookup_empty in Hx; simpl in Hx; set_solver|eauto].
  - intros (id & wh & Hw & He & ->). right. exists id, wh. split_and!; [|done..]. apply (range_order_elem _ _ _ Ho). by exists wh.
Qed.

(** ** The invariant *)

Definition ids_ok (m : WebhookManager) : Prop := forall id wh, webhooks m !! id = Some wh -> wh_ID wh = id.

(** A route leads to a webhook of the table that has the event, each event of a webhook has a
    route, and the routes of one webhook agree whether it is active. *)
Definition routes_ok (m : WebhookManager) : Prop :=
  (forall e r, r ∈ route_list (eventRoutes m) e ->
     exists wh, webhooks m !! rt_webhookID r = Some wh /\ e ∈ wh_Events wh)
  /\ (forall id wh e, webhooks m !! id = Some wh -> e ∈ wh_Events wh ->
     exists r, r ∈ route_list (eventRoutes m) e /\ rt_webhookID r = id).

Lemma rebuild_ok ord m : ids_ok m -> range_order (webhooks m) ord -> routes_ok (rebuildEventRoutes ord m).
Proof.
  intros Hi Ho. split.
  - intros e r (id & wh & Hw & He & ->)%(elem_of_rebuild ord m e r Ho). simpl. exists wh. by rewrite (Hi id wh).
  - intros id wh e Hw He. exists (router_of wh). split; [apply (elem_of_rebuild ord m e _ Ho); by exists id, wh|].
    simpl. by apply Hi.
Qed.

(** A change of a webhook that leaves its identifier and its events. *)
Lemma set_webhook_ok id wh wh' m :
  routes_ok m -> webhooks m !! id = Some wh -> wh_Events wh' = wh_Events wh -> routes_ok (set_webhook id wh' m).
Proof.
  intros [H1 H2] Hw He. split; simpl.
  - intros e r Hr. destruct (H1 e r Hr) as (w & Hw' & Hin). destruct (decide (rt_webhookID r = id)) as [Hid|Hne].
    + rewrite Hid in Hw' |- *. exists wh'. rewrite lookup_insert_eq, He. by simplify_eq.
    + exists w. by rewrite lookup_insert_ne.
  - intros id' w e [[<- <-]|[Hne Hw']]%lookup_insert_Some Hin; [|by eapply H2]. rewrite He in Hin. by eapply H2.
Qed.

Lemma set_webhook_ids id wh m : ids_ok m -> wh_ID wh = id -> ids_ok (set_webhook id wh m).
Proof. intros Hi He id' w. simpl. intros [[<- <-]|[_ Hw]]%lookup_insert_Some; [done|by apply Hi]. Qed.

Lemma register_ok id wh m :
  ids_ok m -> routes_ok m -> webhooks m !! id = None -> wh_ID wh = id ->
  let m' := mkManager (<[id := wh]> (webhooks m)) (indexEventRoutes wh (eventRoutes m)) in ids_ok m' /\ routes_ok m'.
Proof.
  intros Hi [H1 H2] Hn He m'. split; [by apply (set_webhook_ids id wh m)|]. split; unfold m'; simpl.
  - intros e r [Hr|[Hin ->]]%elem_of_index.
    + destruct (H1 e r Hr) as (w & Hw & Hin). exists w. rewrite lookup_insert_ne; [done|congruence].
    + exists wh. simpl. by rewrite He, lookup_insert_eq.
  - intros id' w e [[<- <-]|[Hne Hw]]%lookup_insert_Some Hin.
    + exists (router_of wh). split; [apply elem_of_index; by right|done].
    + destruct (H2 id' w e Hw Hin) as (r & Hr & Hid). exists r. split; [apply elem_of_index; by left|done].
Qed.

Lemma change_events_ok ord id f m :
  ids_ok m -> routes_ok m -> range_order (webhooks (change_events ord id f m).1) ord ->
  ids_ok (change_events ord id f m).1 /\ routes_ok (change_events ord id f m).1.
Proof.
  intros Hi Hr. unfold change_events. destruct (webhooks m !! id) as [wh|] eqn:Hw; [|done]. simpl. intros Ho.
  assert (ids_ok (set_webhook id (with_events (f (wh_Events wh)) wh) m)) as Hi' by (apply set_webhook_ids; [done|by apply (Hi id wh)]).
  split; [exact Hi'|]. by apply rebuild_ok.
Qed.

Lemma step_ok m m' : manager_step m m' -> ids_ok m /\ routes_ok m -> ids_ok m' /\ routes_ok m'.
Proof.
  intros Hs [Hi Hr]. destruct Hs as [id now reg m Hn|ord now id u m Ho|ord id m Ho|now id s m|ord id evs m Ho|ord id e m Ho|ord id e m Ho].
  - unfold RegisterWebhook. destruct (String.eqb _ _); [done|]. destruct (String.eqb _ _); [done|].
    destruct (bool_decide _); [done|]. by apply register_ok.
  - unfold UpdateWebhook in *. destruct (webhooks m !! id) as [wh|] eqn:Hw; [|done]. simpl in *.
    set (wh' := with_status _ _ _) in *.
    assert (ids_ok (set_webhook id wh' m)) as Hi' by (apply set_webhook_ids; [done|by apply (Hi id wh)]).
    destruct (up_Events u) eqn:Hu; [split; [exact Hi'|by apply rebuild_ok]|]. split; [done|].
    apply (set_webhook_ok id wh); [done..|]. simpl. by rewrite Hu.
  - unfold DeleteWebhook in *. destruct (webhooks m !! id) as [wh|]; [|done]. simpl in *.
    assert (ids_ok (mkManager (delete id (webhooks m)) (eventRoutes m))) as Hi'
      by (intros id' w; simpl; intros [_ Hw]%lookup_delete_Some; by apply Hi).
    split; [exact Hi'|by apply rebuild_ok].
  - unfold setWebhookStatus. destruct (webhooks m !! id) as [wh|] eqn:Hw; [|done].
    split; [apply set_webhook_ids; [done|by apply (Hi id wh)]|by apply (set_webhook_ok id wh)].
  - by apply change_events_ok.
  - unfold AddEventSubscription in *. destruct (webhooks m !! id) as [wh|]; [|done].
    destruct (bool_decide _); [done|]. by apply change_events_ok.
  - by apply change_events_ok.
Qed.

Lemma run_ok m : rtc manager_step NewWebhookManager m -> ids_ok m /\ routes_ok m.
Proof.
  revert m. apply rtc_ind_r; [|intros y z _ Hs; by apply step_ok].
  split; [intros id wh Hw; simpl in Hw; by rewrite lookup_empty in Hw|]. split.
  - intros e r Hx. unfold route_list in Hx. simpl in Hx. rewrite lookup_empty in Hx. simpl in Hx. set_solver.
  - intros id wh e Hw. simpl in Hw. by rewrite lookup_empty in Hw.
Qed.

(** ** Who gets an event *)

Lemma GetWebhooksForEvent_elem e m wh : ids_ok m ->
  wh ∈ GetWebhooksForEvent e m <->
  webhooks m !! wh_ID wh = Some wh /\ is_active wh = true
  /\ exists r, r ∈ route_list (eventRoutes m) e /\ rt_webhookID r = wh_ID wh /\ rt_active r = true.
Proof.
  intros Hi. assert (GetWebhooksForEvent e m = omap (live_webhook m) (route_list (eventRoutes m) e)) as ->
    by (unfold GetWebhooksForEvent, route_list; by destruct (_ !! e)).
  rewrite list_elem_of_omap. split.
  - intros (r & Hr & Hl). unfold live_webhook in Hl. destruct (rt_active r) eqn:Ha; [|done].
    destruct (webhooks m !! rt_webhookID r) as [w|] eqn:Hw; [|done]. destruct (is_active w) eqn:Hact; [|done].
    injection Hl as ->. rewrite (Hi _ _ Hw). split_and!; [done|done|by exists r].
  - intros (Hw & Ha & r & Hr & Hid & Hra). exists r. split; [done|]. unfold live_webhook. by rewrite Hra, Hid, Hw, Ha.
Qed.

Lemma HasSubscribers_iff e m : HasSubscribers e m = bool_decide (GetWebhooksForEvent e m <> []).
Proof.
  unfold HasSubscribers, GetWebhooksForEvent. destruct (_ !! e) as [rs|]; [|done].
  induction rs as [|r rs IH]; [done|]. simpl. destruct (live_webhook m r); [done|]. by rewrite IH.
Qed.

Lemma SubscriberCount_length e m : SubscriberCount e m = Z.of_nat (length (GetWebhooksForEvent e m)).
Proof.
  unfold SubscriberCount, GetWebhooksForEvent. destruct (_ !! e) as [rs|]; [|done].
  assert (forall n, foldl (fun n r => match live_webhook m r with Some _ => n + 1 | None => n end) n rs
    = n + Z.of_nat (length (omap (live_webhook m) rs))) as Hn; [|by rewrite Hn].
  induction rs as [|r rs IH]; intros n; [simpl; lia|]. cbn [foldl]. rewrite IH.
  change (omap (live_webhook m) (r :: rs)) with (match live_webhook m r with Some y => y :: omap (live_webhook m) rs | None => omap (live_webhook m) rs end).
  destruct (live_webhook m r); cbn [length]; lia.
Qed.

(** What a call that changes the events of a webhook makes of the routes. *)
Lemma change_events_routes ord id f m m' :
  ids_ok m -> routes_ok m -> change_events ord id f m = (m', None) -> range_order (webhooks m') ord ->
  ids_ok m' /\ forall e r, r ∈ route_list (eventRoutes m') e <->
    exists id wh, webhooks m' !! id = Some wh /\ e ∈ wh_Events wh /\ r = router_of wh.
Proof.
  intros Hi Hr Hc Ho. pose proof (change_events_ok ord id f m Hi Hr) as Hok. rewrite Hc in Hok.
  destruct (Hok Ho) as [Hi' _]. split; [done|]. intros e r. unfold change_events in Hc.
  destruct (webhooks m !! id); [|done]. injection Hc as <-. exact (elem_of_rebuild ord (set_webhook id (with_events (f (wh_Events w)) w) m) e r Ho).
Qed.

Lemma setWebhookStatus_ok now id s m m' :
  ids_ok m -> routes_ok m -> setWebhookStatus now id s m = (m', None) ->
  ids_ok m' /\ routes_ok m' /\ eventRoutes m' = eventRoutes m /\ exists wh, webhooks m' !! id = Some wh /\ wh_Status wh = s.
Proof.
  intros Hi Hr Hs. pose proof (step_ok m _ (step_status now id s m) (conj Hi Hr)) as [Hi' Hr']. rewrite Hs in Hi', Hr'.
  split; [done|]. split; [done|]. unfold setWebhookStatus in Hs. destruct (webhooks m !! id) as [wh|]; [|done].
  injection Hs as <-. simpl. split; [done|]. eexists. split; [apply lookup_insert_eq|done].
Qed.

(** Changing events keeps the status of every webhook. *)
Lemma change_events_status ord id f m m' id' wh :
  change_events ord id f m = (m', None) -> webhooks m !! id' = Some wh ->
  exists wh', webhooks m' !! id' = Some wh' /\ wh_Status wh' = wh_Status wh.
Proof.
  unfold change_events. destruct (webhooks m !! id) as [w|] eqn:Hw; [|done]. intros [= <-] Hw'. simpl.
  destruct (decide (id = id')) as [<-|Hne].
  - rewrite lookup_insert_eq. eexists. split; [done|]. by simplify_eq.
  - rewrite lookup_insert_ne by done. by exists wh.
Qed.


(** Two webhooks; the second changes its events while the first is inactive. *)
Definition sample_manager : WebhookManager :=
  (RegisterWebhook 2 0 (mkRegistration "b" "http://b" "" ["done"]%string ∅ None)
     (RegisterWebhook 1 0 (mkRegistration "a" "http://a" "" ["done"]%string ∅ None) NewWebhookManager).1).1.

