(* ===== verification/WebhookHistory.v ===== *)
(** * The history of deliveries: internal/webhook/history.go

    The entries in the order they were recorded, their index by identifier, filtering,
    sorting and pages, statistics, and the retention that bounds the history.  Entries
    share their delivery with the index and with whoever recorded it: the deliveries are in
    a store, by their address. *)

From S2P Require Import Prelude GoFloat WebhookDelivery.

(** ** Data *)

(* go: internal/webhook/history.go type HistoryFilter *)
Record HistoryFilter := mkHistoryFilter {
  hf_WebhookID : option UUID;
  hf_Status : list DeliveryStatus;
  hf_EventType : string;
  hf_From : option Z;
  hf_To : option Z;
  hf_Page : Z;
  hf_PerPage : Z;
  hf_OrderBy : string
}.

(* go: internal/webhook/history.go func DefaultHistoryFilter *)
Definition DefaultHistoryFilter : HistoryFilter := mkHistoryFilter None [] "" None None 1 20 "created_at DESC".

(* go: internal/webhook/history.go type HistoryEntry *)
Record HistoryEntry := mkHistoryEntry {
  he_Delivery : nat;
  he_WebhookName : string;
  he_WebhookURL : string
}.

(* go: internal/webhook/history.go type PaginatedResult *)
Record PaginatedResult := mkPaginatedResult {
  pg_Entries : list HistoryEntry;
  pg_Total : Z;
  pg_Page : Z;
  pg_PerPage : Z;
  pg_TotalPages : Z
}.

(* go: internal/webhook/history.go type RetentionConfig *)
Record RetentionConfig := mkRetentionConfig {
  rt_MaxEntries : Z;
  rt_RetentionDuration : Z;
  rt_CleanupInterval : Z
}.

(* go: internal/webhook/history.go func DefaultRetentionConfig *)
Definition DefaultRetentionConfig : RetentionConfig := mkRetentionConfig 10000 (7 * 24 * Hour) (1 * Hour).

(* go: internal/webhook/history.go type WebhookSummary *)
Record WebhookSummary := mkSummary {
  ws_ID : UUID;
  ws_Name : string;
  ws_URL : string
}.

(* go: internal/webhook/history.go type WebhookHistory *)
Record WebhookHistory := mkHistory {
  h_store : gmap nat WebhookDelivery;
  h_entries : list HistoryEntry;
  h_byID : gmap UUID HistoryEntry;
  h_webhooks : gmap UUID WebhookSummary;
  h_retention : RetentionConfig;
  h_stopped : bool
}.

(* go: internal/webhook/history.go func NewWebhookHistory *)
Definition NewWebhookHistory (retention : RetentionConfig) : WebhookHistory := mkHistory ∅ [] ∅ ∅ retention false.

(** The delivery at an address; every address in use holds one. *)
Definition no_delivery : WebhookDelivery := mkWebhookDelivery 0 0 "" "" "" 0 "" "" 0 0 0 "" 0 0.
Definition deref (h : WebhookHistory) (e : HistoryEntry) : WebhookDelivery := default no_delivery (h_store h !! he_Delivery e).

(** ** Recording and updating *)

(** [p] is the address of the delivery [d]. *)
(* go: internal/webhook/history.go func WebhookHistory.RecordDelivery *)
Definition RecordDelivery (p : nat) (d : WebhookDelivery) (webhookName webhookURL : string) (h : WebhookHistory)
    : WebhookHistory :=
  let entry := mkHistoryEntry p webhookName webhookURL in
  mkHistory (<[p := d]> (h_store h)) (h_entries h ++ [entry]) (<[wd_ID d := entry]> (h_byID h))
    (<[wd_WebhookID d := mkSummary (wd_WebhookID d) webhookName webhookURL]> (h_webhooks h)) (h_retention h) (h_stopped h).

(* go: internal/webhook/history.go func WebhookHistory.GetDelivery *)
Definition GetDelivery (id : UUID) (h : WebhookHistory) : option HistoryEntry := h_byID h !! id.

Definition update_delivery (id : UUID) (f : WebhookDelivery -> WebhookDelivery) (h : WebhookHistory) : WebhookHistory :=
  match h_byID h !! id with
  | None => h
  | Some e => mkHistory (<[he_Delivery e := f (deref h e)]> (h_store h)) (h_entries h) (h_byID h) (h_webhooks h)
                (h_retention h) (h_stopped h)
  end.

(* go: internal/webhook/history.go func WebhookHistory.UpdateDeliveryStatus *)
Definition UpdateDeliveryStatus (now : Z) (id : UUID) (status : DeliveryStatus) (statusCode : Z)
    (responseBody errMsg : string) (h : WebhookHistory) : WebhookHistory :=
  update_delivery id (fun d =>
    mkWebhookDelivery (wd_ID d) (wd_WebhookID d) (wd_EventType d) (wd_URL d) status statusCode (wd_RequestBody d)
      responseBody (wd_DurationMS d) (wd_Attempt d) (wd_MaxRetries d)
      (if String.eqb errMsg "" then wd_Error d else errMsg) (wd_CreatedAt d) now) h.

(* go: internal/webhook/history.go func WebhookHistory.UpdateDeliveryAttempt *)
Definition UpdateDeliveryAttempt (now : Z) (id : UUID) (attempt durationMS : Z) (h : WebhookHistory) : WebhookHistory :=
  update_delivery id (fun d =>
    mkWebhookDelivery (wd_ID d) (wd_WebhookID d) (wd_EventType d) (wd_URL d) (wd_Status d) (wd_StatusCode d)
      (wd_RequestBody d) (wd_ResponseBody d) durationMS attempt (wd_MaxRetries d) (wd_Error d) (wd_CreatedAt d) now) h.

(** ** Queries *)

(** A conjunction of the criteria that are set. *)
Definition matches (f : HistoryFilter) (d : WebhookDelivery) : bool :=
  match hf_WebhookID f with Some id => (wd_WebhookID d =? id)%N | None => true end
  && match hf_Status f with [] => true | ss => existsb (String.eqb (wd_Status d)) ss end
  && (String.eqb (hf_EventType f) "" || String.eqb (wd_EventType d) (hf_EventType f))
  && match hf_From f with Some t => negb (time_Before (wd_CreatedAt d) t) | None => true end
  && match hf_To f with Some t => negb (time_After (wd_CreatedAt d) t) | None => true end.

(** The order of an [OrderBy]. *)
(* go: internal/webhook/history.go @250-266 WebhookHistory.sortEntries *)
Definition entry_less (orderBy : string) (a b : WebhookDelivery) : bool :=
  if String.eqb orderBy "created_at ASC" then time_Before (wd_CreatedAt a) (wd_CreatedAt b)
  else if String.eqb orderBy "duration_ms ASC" then wd_DurationMS a <? wd_DurationMS b
  else if String.eqb orderBy "duration_ms DESC" then wd_DurationMS b <? wd_DurationMS a
  else if String.eqb orderBy "status ASC" then String.ltb (wd_Status a) (wd_Status b)
  else if String.eqb orderBy "status DESC" then String.ltb (wd_Status b) (wd_Status a)
  else time_After (wd_CreatedAt a) (wd_CreatedAt b).

(** [sort.SliceStable]: an element goes before those that come after it and are not less. *)
Fixpoint stable_insert {A} (less : A -> A -> bool) (x : A) (l : list A) : list A :=
  match l with
  | [] => [x]
  | y :: l' => if less y x then y :: stable_insert less x l' else x :: l
  end.
Fixpoint stable_sort {A} (less : A -> A -> bool) (l : list A) : list A :=
  match l with [] => [] | x :: l => stable_insert less x (stable_sort less l) end.

(* go: internal/webhook/history.go func WebhookHistory.sortEntries *)
Definition sortEntries (h : WebhookHistory) (orderBy : string) (l : list HistoryEntry) : list HistoryEntry :=
  stable_sort (fun a b => entry_less orderBy (deref h a) (deref h b)) l.

(* go: internal/webhook/history.go func WebhookHistory.applyFilter *)
Definition applyFilter (f : HistoryFilter) (h : WebhookHistory) : list HistoryEntry :=
  sortEntries h (hf_OrderBy f) (filter (fun e => matches f (deref h e)) (h_entries h)).

Definition page_of (f : HistoryFilter) : Z := if hf_Page f <? 1 then 1 else hf_Page f.
Definition perPage_of (f : HistoryFilter) : Z :=
  if (hf_PerPage f <? 1) || (100 <? hf_PerPage f) then 20 else hf_PerPage f.

(** The slice panics when its start has overflowed. *)
(* go: internal/webhook/history.go func WebhookHistory.GetHistory *)
Definition GetHistory (f : HistoryFilter) (h : WebhookHistory) : go_result PaginatedResult Empty_set :=
  let filtered := applyFilter f h in
  let page := page_of f in
  let perPage := perPage_of f in
  let total := Z.of_nat (length filtered) in
  let totalPages := Z.quot total perPage + (if Z.rem total perPage =? 0 then 0 else 1) in
  let start := int64 (int64 (page - 1) * perPage) in
  if total <=? start then Ok (mkPaginatedResult [] total page perPage totalPages)
  else
    let stop := int64 (start + perPage) in
    let stop := if total <? stop then total else stop in
    if (start <? 0) || (stop <? start) then Panic
    else Ok (mkPaginatedResult (take (Z.to_nat (stop - start)) (drop (Z.to_nat start) filtered)) total page perPage
               totalPages).

Definition with_webhook (id : UUID) (f : HistoryFilter) : HistoryFilter :=
  mkHistoryFilter (Some id) (hf_Status f) (hf_EventType f) (hf_From f) (hf_To f) (hf_Page f) (hf_PerPage f) (hf_OrderBy f).
Definition with_statuses (ss : list DeliveryStatus) (f : HistoryFilter) : HistoryFilter :=
  mkHistoryFilter (hf_WebhookID f) ss (hf_EventType f) (hf_From f) (hf_To f) (hf_Page f) (hf_PerPage f) (hf_OrderBy f).

(* go: internal/webhook/history.go func WebhookHistory.GetDeliveriesByWebhook *)
Definition GetDeliveriesByWebhook (id : UUID) (f : HistoryFilter) (h : WebhookHistory) := GetHistory (with_webhook id f) h.
(* go: internal/webhook/history.go func WebhookHistory.GetDeliveriesByStatus *)
Definition GetDeliveriesByStatus (s : DeliveryStatus) (f : HistoryFilter) (h : WebhookHistory) :=
  GetHistory (with_statuses [s] f) h.

(* go: internal/webhook/history.go func WebhookHistory.GetRecentDeliveries *)
Definition GetRecentDeliveries (limit : Z) (h : WebhookHistory) : list HistoryEntry :=
  let n := Z.of_nat (length (h_entries h)) in
  take (Z.to_nat (if (limit <=? 0) || (n <? limit) then n else limit)) (rev (h_entries h)).

(* go: internal/webhook/history.go func WebhookHistory.CountDeliveries *)
Definition CountDeliveries (s : DeliveryStatus) (h : WebhookHistory) : Z :=
  Z.of_nat (length (filter (fun e => String.eqb (wd_Status (deref h e)) s) (h_entries h))).

(* go: internal/webhook/history.go func WebhookHistory.Size *)
Definition Size (h : WebhookHistory) : Z := Z.of_nat (length (h_entries h)).

Record WebhookStats := mkStats {
  st_total : Z;
  st_successful : Z;
  st_failed : Z;
  st_retrying : Z;
  st_pending : Z;
  st_duration : Z;
  st_last : option Z
}.

Definition count_entry (d : WebhookDelivery) (s : WebhookStats) : WebhookStats :=
  let one x := if String.eqb (wd_Status d) x then 1 else 0 in
  mkStats (st_total s + 1) (st_successful s + one DeliveryStatusSuccess) (st_failed s + one DeliveryStatusFailed)
    (st_retrying s + one DeliveryStatusRetrying) (st_pending s + one DeliveryStatusPending)
    (int64 (st_duration s + one DeliveryStatusSuccess * wd_DurationMS d))
    (match st_last s with
     | None => Some (wd_CreatedAt d)
     | Some t => if time_After (wd_CreatedAt d) t then Some (wd_CreatedAt d) else Some t
     end).

(** The counts, and the average duration of the successful deliveries. *)
(* go: internal/webhook/history.go func WebhookHistory.GetWebhookStats *)
Definition GetWebhookStats (id : UUID) (h : WebhookHistory) : WebhookStats * float64 :=
  let s := foldl (fun s e => if (wd_WebhookID (deref h e) =? id)%N then count_entry (deref h e) s else s)
             (mkStats 0 0 0 0 0 0 None) (h_entries h) in
  (s, if 0 <? st_successful s then f64_div (f64_of_Z (st_duration s)) (f64_of_Z (st_successful s)) else f64_of_Z 0).

(** ** Retention *)

(** One round of the loop over the entries, with what it has kept. *)
Definition retain (h : WebhookHistory) (cutoff : Z) (kept : list HistoryEntry * gmap UUID HistoryEntry) (e : HistoryEntry)
    : list HistoryEntry * gmap UUID HistoryEntry :=
  if time_After (wd_CreatedAt (deref h e)) cutoff && (Z.of_nat (length kept.1) <? rt_MaxEntries (h_retention h))
  then (kept.1 ++ [e], <[wd_ID (deref h e) := e]> kept.2)
  else kept.

(* go: internal/webhook/history.go func WebhookHistory.enforceRetention *)
Definition enforceRetention (now : Z) (h : WebhookHistory) : WebhookHistory :=
  match h_entries h with
  | [] => h
  | _ =>
      let kept := foldl (retain h (now - rt_RetentionDuration (h_retention h))) ([], ∅) (h_entries h) in
      mkHistory (h_store h) kept.1 kept.2 (h_webhooks h) (h_retention h) (h_stopped h)
  end.

(** What a round of the loop receives: a tick, or the stop. *)
(* go: internal/webhook/history.go func WebhookHistory.retentionLoop *)
Definition retentionLoop (tick : option Z) (h : WebhookHistory) : WebhookHistory :=
  match tick with Some now => enforceRetention now h | None => h end.

(* go: internal/webhook/history.go func WebhookHistory.Clear *)
Definition Clear (h : WebhookHistory) : WebhookHistory :=
  mkHistory (h_store h) [] ∅ (h_webhooks h) (h_retention h) (h_stopped h).

(* go: internal/webhook/history.go func WebhookHistory.Stop *)
Definition Stop (h : WebhookHistory) : go_result WebhookHistory Empty_set :=
  if h_stopped h then Panic
  else Ok (mkHistory (h_store h) (h_entries h) (h_byID h) (h_webhooks h) (h_retention h) true).

(** ** Sorting *)

Section sorting.
Context {A : Type} (less : A -> A -> bool).
Implicit Types (x y : A) (l : list A).

Lemma stable_insert_perm x l : stable_insert less x l ≡ₚ x :: l.
Proof. induction l as [|y l IH]; simpl; [done|]. destruct (less y x); [rewrite IH; by constructor|done]. Qed.

Lemma stable_sort_perm l : stable_sort less l ≡ₚ l.
Proof. induction l as [|x l IH]; simpl; [done|]. by rewrite stable_insert_perm, IH. Qed.

(** Elements that are not ordered keep their order. *)
Lemma stable_insert_filter (P : A -> bool) x l :
  (forall a b, P a = true -> P b = true -> less a b = false) ->
  filter (fun a => P a) (stable_insert less x l) = filter (fun a => P a) (x :: l).
Proof.
  intros HP. induction l as [|y l IH]; [done|]. simpl. destruct (less y x) eqn:Hl; [|done].
  rewrite !filter_cons in *. rewrite IH. repeat case_decide; try done.
  rewrite (HP y x) in Hl; [done|by apply Is_true_true_1..].
Qed.

Lemma stable_sort_filter (P : A -> bool) l :
  (forall a b, P a = true -> P b = true -> less a b = false) ->
  filter (fun a => P a) (stable_sort less l) = filter (fun a => P a) l.
Proof.
  intros HP. induction l as [|x l IH]; [done|]. simpl. rewrite stable_insert_filter by done.
  rewrite !filter_cons, IH. done.
Qed.

(** A strict weak order: "not less" is transitive. *)
Hypothesis less_asym : forall a b, less a b = true -> less b a = false.
Hypothesis less_weak : forall a b c, less b a = false -> less c b = false -> less c a = false.

Abbreviation sorted := (StronglySorted (fun a b => less b a = false)).

Lemma stable_insert_sorted x l : sorted l -> sorted (stable_insert less x l).
Proof using less_asym less_weak.
  induction l as [|y l IH]; intros Hs; simpl; [by repeat constructor|]. inversion_clear Hs as [|? ? Hs' Hy].
  destruct (less y x) eqn:Hl.
  - constructor; [by apply IH|]. rewrite stable_insert_perm. constructor; [by apply less_asym|done].
  - constructor; [by constructor|]. constructor; [done|]. eapply Forall_impl; [exact Hy|]. intros z Hz.
    by eapply less_weak.
Qed.

Lemma stable_sort_sorted l : sorted (stable_sort less l).
Proof using less_asym less_weak. induction l as [|x l IH]; simpl; [constructor|]. by apply stable_insert_sorted. Qed.
End sorting.

(** Each order compares one key by a total order. *)
Lemma Zltb_asym x y : (x <? y) = true -> (y <? x) = false.
Proof. rewrite Z.ltb_lt, Z.ltb_ge. lia. Qed.
Lemma Zltb_weak x y z : (y <? x) = false -> (z <? y) = false -> (z <? x) = false.
Proof. rewrite !Z.ltb_ge. lia. Qed.

Lemma string_ltb_asym x y : String.ltb x y = true -> String.ltb y x = false.
Proof.
  unfold String.ltb. rewrite (String.compare_antisym y x). by destruct (String.compare x y).
Qed.

Lemma string_lt_trans x y z : String.compare x y = Lt -> String.compare y z = Lt -> String.compare x z = Lt.
Proof.
  revert y z. induction x as [|a x IH]; intros [|b y] [|c z]; simpl; try done.
  unfold Ascii.compare. destruct (N.compare_spec (Ascii.N_of_ascii a) (Ascii.N_of_ascii b)) as [Hab|Hab|Hab];
    destruct (N.compare_spec (Ascii.N_of_ascii b) (Ascii.N_of_ascii c)) as [Hbc|Hbc|Hbc]; try done; intros H1 H2.
  - rewrite Hab, Hbc, N.compare_refl. by apply (IH y).
  - rewrite Hab. by apply N.compare_lt_iff in Hbc as ->.
  - rewrite <- Hbc. by apply N.compare_lt_iff in Hab as ->.
  - assert (Ascii.N_of_ascii a < Ascii.N_of_ascii c)%N as Hac by lia. by apply N.compare_lt_iff in Hac as ->.
Qed.

Lemma string_ltb_weak x y z : String.ltb y x = false -> String.ltb z y = false -> String.ltb z x = false.
Proof.
  unfold String.ltb. intros Hyx Hzy. destruct (String.compare z x) eqn:Hzx; try done. exfalso.
  destruct (String.compare y x) eqn:Hyx'; [|done|].
  - apply String.compare_eq_iff in Hyx' as ->. by rewrite Hzx in Hzy.
  - assert (String.compare x y = Lt) as Hxy by (by rewrite String.compare_antisym, Hyx').
    by rewrite (string_lt_trans z x y) in Hzy.
Qed.

Lemma entry_less_order orderBy :
  (forall a b, entry_less orderBy a b = true -> entry_less orderBy b a = false)
  /\ (forall a b c, entry_less orderBy b a = false -> entry_less orderBy c b = false -> entry_less orderBy c a = false).
Proof.
  unfold entry_less, time_Before, time_After.
  repeat match goal with |- context [if String.eqb orderBy ?s then _ else _] => destruct (String.eqb orderBy s) end;
    split; intros *; eauto using Zltb_asym, Zltb_weak, string_ltb_asym, string_ltb_weak.
Qed.

(** ** Pages *)

Definition with_page (page : Z) (f : HistoryFilter) : HistoryFilter :=
  mkHistoryFilter (hf_WebhookID f) (hf_Status f) (hf_EventType f) (hf_From f) (hf_To f) page (hf_PerPage f) (hf_OrderBy f).

(** The page [k], counted from 0, of [p] elements each. *)
Definition chunk {A} (p : nat) (l : list A) (k : nat) : list A := take p (drop (k * p) l).

Lemma concat_chunks {A} (p : nat) (l : list A) n : concat (chunk p l <$> seq 0 n) = take (n * p) l.
Proof.
  induction n as [|n IH]; [done|]. rewrite seq_S, fmap_app, concat_app, IH. simpl. rewrite app_nil_r. unfold chunk.
  rewrite take_take_drop. f_equal. lia.
Qed.

Lemma applyFilter_page page f h : applyFilter (with_page page f) h = applyFilter f h.
Proof. done. Qed.

Definition total_pages (f : HistoryFilter) (h : WebhookHistory) : Z :=
  let total := Z.of_nat (length (applyFilter f h)) in
  Z.quot total (perPage_of f) + (if Z.rem total (perPage_of f) =? 0 then 0 else 1).

Lemma perPage_range f : 1 <= perPage_of f <= 100.
Proof.
  unfold perPage_of. destruct (Z.ltb_spec (hf_PerPage f) 1), (Z.ltb_spec 100 (hf_PerPage f)); simpl; lia.
Qed.

(** A page whose start does not overflow. *)
Lemma GetHistory_page f h page :
  1 <= page -> page * perPage_of f <= max_int64 -> Z.of_nat (length (applyFilter f h)) + 100 <= max_int64 ->
  GetHistory (with_page page f) h
  = Ok (mkPaginatedResult (chunk (Z.to_nat (perPage_of f)) (applyFilter f h) (Z.to_nat (page - 1)))
          (Z.of_nat (length (applyFilter f h))) page (perPage_of f) (total_pages f h)).
Proof.
  intros Hp Hov Hlen. pose proof (perPage_range f) as Hpp. unfold GetHistory. rewrite applyFilter_page.
  change (perPage_of (with_page page f)) with (perPage_of f).
  assert (page_of (with_page page f) = page) as -> by (unfold page_of; simpl; destruct (Z.ltb_spec page 1); lia).
  fold (total_pages f h). unfold max_int64 in *.
  rewrite (int64_small (page - 1)) by (unfold in_int64, min_int64, max_int64; nia).
  rewrite (int64_small ((page - 1) * perPage_of f)) by (unfold in_int64, min_int64, max_int64; nia).
  set (start := (page - 1) * perPage_of f). assert (0 <= start) as Hs by (unfold start; nia).
  assert (drop (Z.to_nat (page - 1) * Z.to_nat (perPage_of f)) (applyFilter f h) = drop (Z.to_nat start) (applyFilter f h)) as Hd
    by (f_equal; unfold start; rewrite Z2Nat.inj_mul by lia; done).
  unfold chunk. rewrite Hd. destruct (Z.leb_spec (Z.of_nat (length (applyFilter f h))) start) as [Hle|Hlt].
  - rewrite drop_ge by lia. by rewrite take_nil.
  - rewrite (int64_small (start + perPage_of f)) by (unfold in_int64, min_int64, max_int64; lia).
    destruct (Z.ltb_spec (Z.of_nat (length (applyFilter f h))) (start + perPage_of f)) as [Hlt2|Hge].
    + rewrite (proj2 (Z.ltb_ge start 0)), (proj2 (Z.ltb_ge _ start)) by lia. simpl. do 2 f_equal.
      rewrite !take_ge; [done|rewrite length_drop; lia..].
    + rewrite (proj2 (Z.ltb_ge start 0)), (proj2 (Z.ltb_ge _ start)) by lia. simpl. do 3 f_equal. lia.
Qed.

Lemma total_pages_enough f h :
  Z.of_nat (length (applyFilter f h)) <= total_pages f h * perPage_of f /\ 0 <= total_pages f h.
Proof.
  pose proof (perPage_range f) as Hp. unfold total_pages. set (n := Z.of_nat _). assert (0 <= n) as Hn by lia. clearbody n.
  pose proof (Z.quot_rem' n (perPage_of f)) as Hq. pose proof (Z.rem_bound_pos n (perPage_of f) Hn ltac:(lia)).
  pose proof (Z.quot_pos n (perPage_of f) Hn ltac:(lia)).
  destruct (Z.eqb_spec (Z.rem n (perPage_of f)) 0); nia.
Qed.

(** Paging through the history.  The entries that match the filter are sorted by its order,
    equal ones as they were recorded; page [k] is the [k]-th piece of at most [perPage] of
    them, with the totals, and the pages up to the last give each entry once; pages after it
    are empty.  The multiplication that finds the start of a page wraps around: for a page
    number where it is negative the call panics. *)
Theorem GetHistory_correct f h :
  let l := applyFilter f h in
  let p := Z.to_nat (perPage_of f) in
  let page k := GetHistory (with_page k f) h in
  (l ≡ₚ filter (fun e => matches f (deref h e)) (h_entries h)
    /\ StronglySorted (fun a b => entry_less (hf_OrderBy f) (deref h b) (deref h a) = false) l
    /\ forall P : HistoryEntry -> bool,
         (forall a b, P a = true -> P b = true -> entry_less (hf_OrderBy f) (deref h a) (deref h b) = false) ->
         filter (fun e => P e) l = filter (fun e => P e) (filter (fun e => matches f (deref h e)) (h_entries h)))
  /\ (forall k, 1 <= k -> k * perPage_of f <= max_int64 -> Z.of_nat (length l) + 100 <= max_int64 ->
        page k = Ok (mkPaginatedResult (chunk p l (Z.to_nat (k - 1))) (Z.of_nat (length l)) k (perPage_of f) (total_pages f h))
        /\ (total_pages f h < k -> chunk p l (Z.to_nat (k - 1)) = []))
  /\ concat (chunk p l <$> seq 0 (Z.to_nat (total_pages f h))) = l
  /\ (forall k, 1 <= k -> int64 (int64 (k - 1) * perPage_of f) < 0 -> page k = Panic).
Proof.
  intros l p page. pose proof (perPage_range f) as Hpp. destruct (total_pages_enough f h) as [Ht Ht0]. split_and!.
  - apply stable_sort_perm.
  - apply stable_sort_sorted; intros *; apply entry_less_order.
  - intros P HP. by apply stable_sort_filter.
  - intros k Hk Hov Hlen. split; [by apply GetHistory_page|]. intros Hlast. unfold chunk.
    rewrite drop_ge, take_nil; [done|]. unfold p. fold l in Ht. rewrite <- Z2Nat.inj_mul by lia. nia.
  - rewrite concat_chunks. apply take_ge. unfold p. fold l in Ht. rewrite <- Z2Nat.inj_mul by lia. lia.
  - intros k Hk Hneg. unfold page, GetHistory. change (perPage_of (with_page k f)) with (perPage_of f).
    assert (page_of (with_page k f) = k) as -> by (unfold page_of; simpl; destruct (Z.ltb_spec k 1); lia).
    set (start := int64 (int64 (k - 1) * perPage_of f)) in *. rewrite applyFilter_page.
    destruct (Z.leb_spec (Z.of_nat (length (applyFilter f h))) start); [lia|]. by rewrite (proj2 (Z.ltb_lt start 0)).
Qed.

Example huge_page_panics : GetHistory (with_page (2 ^ 62 + 1) DefaultHistoryFilter) (NewWebhookHistory DefaultRetentionConfig)
  = Ok (mkPaginatedResult [] 0 (2 ^ 62 + 1) 20 0) /\
  GetHistory (with_page (2 ^ 59 + 1) DefaultHistoryFilter) (NewWebhookHistory DefaultRetentionConfig) = Panic.
Proof. split; vm_compute; reflexivity. Qed.

(** ** The index *)

Definition entry_id (h : WebhookHistory) (e : HistoryEntry) : UUID := wd_ID (deref h e).

(** Addresses and identifiers are not shared, and the index has exactly the entries. *)
Definition history_wf (h : WebhookHistory) : Prop :=
  NoDup (he_Delivery <$> h_entries h)
  /\ (forall e, e ∈ h_entries h -> is_Some (h_store h !! he_Delivery e))
  /\ NoDup (entry_id h <$> h_entries h)
  /\ forall id e, h_byID h !! id = Some e <-> e ∈ h_entries h /\ entry_id h e = id.

(** A delivery that is new: its address is not in use and its identifier is not indexed. *)
Inductive history_step : WebhookHistory -> WebhookHistory -> Prop :=
| hs_record p d name url h :
    h_store h !! p = None -> h_byID h !! wd_ID d = None -> history_step h (RecordDelivery p d name url h)
| hs_status now id st code body err h : history_step h (UpdateDeliveryStatus now id st code body err h)
| hs_attempt now id a ms h : history_step h (UpdateDeliveryAttempt now id a ms h)
| hs_retention now h : history_step h (enforceRetention now h)
| hs_clear h : history_step h (Clear h).

(** Only the identifiers of the store matter. *)
Lemma wf_store h s :
  history_wf h -> (forall e, e ∈ h_entries h -> exists d, s !! he_Delivery e = Some d /\ wd_ID d = entry_id h e) ->
  history_wf (mkHistory s (h_entries h) (h_byID h) (h_webhooks h) (h_retention h) (h_stopped h)).
Proof.
  intros (H1 & H2 & H3 & H4) Hs. set (h' := mkHistory _ _ _ _ _ _).
  assert (forall e, e ∈ h_entries h -> entry_id h' e = entry_id h e) as He.
  { intros e (d & Hd & Hid)%Hs. unfold entry_id at 1, deref. simpl. by rewrite Hd. }
  split_and!; [done| | |].
  - intros e (d & Hd & _)%Hs. by exists d.
  - assert (entry_id h' <$> h_entries h' = entry_id h <$> h_entries h) as -> by (apply list_fmap_ext; intros i e Hi;
      apply He; by eapply list_elem_of_lookup_2). done.
  - intros id e. simpl. rewrite H4. split; intros [Hin Hid]; (split; [done|]); [by rewrite He|by rewrite <- He].
Qed.

Lemma update_wf id f h : (forall d, wd_ID (f d) = wd_ID d) -> history_wf h -> history_wf (update_delivery id f h).
Proof.
  intros Hf Hwf. unfold update_delivery. destruct (h_byID h !! id) as [e|] eqn:He; [|done].
  apply wf_store; [done|]. intros e' Hin. destruct (decide (he_Delivery e = he_Delivery e')) as [Heq|Hne].
  - rewrite Heq, lookup_insert_eq. eexists. split; [done|]. rewrite Hf. unfold entry_id, deref. by rewrite Heq.
  - rewrite lookup_insert_ne by done. destruct Hwf as (_ & H2 & _). destruct (H2 e' Hin) as [d Hd]. exists d.
    split; [done|]. unfold entry_id, deref. by rewrite Hd.
Qed.

Lemma record_wf p d name url h :
  h_store h !! p = None -> h_byID h !! wd_ID d = None -> history_wf h -> history_wf (RecordDelivery p d name url h).
Proof.
  intros Hp Hid (H1 & H2 & H3 & H4). set (h' := RecordDelivery p d name url h).
  assert (forall e, e ∈ h_entries h -> he_Delivery e <> p) as Hne
    by (intros e [x Hx]%H2 Heq; rewrite Heq in Hx; congruence).
  assert (forall e, e ∈ h_entries h -> entry_id h' e = entry_id h e) as He.
  { intros e Hin. unfold entry_id, deref. simpl. rewrite lookup_insert_ne; [done|by apply not_eq_sym, Hne]. }
  assert (entry_id h' (mkHistoryEntry p name url) = wd_ID d) as Hnew
    by (unfold entry_id, deref; simpl; by rewrite lookup_insert_eq).
  assert (forall e, e ∈ h_entries h -> entry_id h e <> wd_ID d) as Hfresh.
  { intros e Hin Heq. assert (h_byID h !! wd_ID d = Some e) by (by apply H4). congruence. }
  split_and!; simpl.
  - rewrite fmap_app. apply NoDup_app. split_and!; [done| |apply NoDup_singleton].
    intros x (e & -> & Hin)%list_elem_of_fmap. simpl. rewrite list_elem_of_singleton. by apply Hne.
  - intros e [Hin|Hin%list_elem_of_singleton]%elem_of_app; simpl.
    + rewrite lookup_insert_ne; [by apply H2|by apply not_eq_sym, Hne].
    + subst e. rewrite lookup_insert_eq. by eexists.
  - rewrite fmap_app. apply NoDup_app. split_and!; [| |apply NoDup_singleton].
    + assert (entry_id h' <$> h_entries h = entry_id h <$> h_entries h) as -> by (apply list_fmap_ext; intros i e Hi;
        apply He; by eapply list_elem_of_lookup_2). done.
    + intros x (e & -> & Hin)%list_elem_of_fmap. simpl. rewrite list_elem_of_singleton, Hnew, He by done. by apply Hfresh.
  - intros id e. rewrite lookup_insert_Some, elem_of_app, list_elem_of_singleton, H4. split.
    + intros [[<- <-]|(Hn & Hin & Heq)]; [split; [by right|done]|]. split; [by left|]. by rewrite He.
    + intros [[Hin| ->] Heq]; [right|left; by rewrite Hnew in Heq]. rewrite He in Heq by done.
      split; [|done]. intros Hd. apply (Hfresh e Hin). congruence.
Qed.

(** ** Retention *)

Definition young (h : WebhookHistory) (now : Z) (e : HistoryEntry) : bool :=
  time_After (wd_CreatedAt (deref h e)) (now - rt_RetentionDuration (h_retention h)).

(** The loop keeps a prefix of the young entries, with their index. *)
Lemma retain_spec h cutoff l : forall kept : list HistoryEntry * gmap UUID HistoryEntry,
  Z.of_nat (length kept.1) <= Z.max 0 (rt_MaxEntries (h_retention h)) ->
  let yl := filter (fun e => time_After (wd_CreatedAt (deref h e)) cutoff) l in
  let kept' := foldl (retain h cutoff) kept l in
  kept'.1 = take (Z.to_nat (rt_MaxEntries (h_retention h))) (kept.1 ++ yl)
  /\ (NoDup (entry_id h <$> (kept.1 ++ l)) -> (forall id e, kept.2 !! id = Some e <-> e ∈ kept.1 /\ entry_id h e = id) ->
      forall id e, kept'.2 !! id = Some e <-> e ∈ kept'.1 /\ entry_id h e = id).
Proof.
  induction l as [|x l IH]; intros kept Hk; simpl.
  { rewrite app_nil_r, take_ge by lia. by split. }
  rewrite filter_cons. destruct (retain h cutoff kept x) as [k2 m2] eqn:Hret. unfold retain in Hret.
  destruct (time_After (wd_CreatedAt (deref h x)) cutoff) eqn:Hy; simpl in Hret |- *.
  - destruct (Z.ltb_spec (Z.of_nat (length kept.1)) (rt_MaxEntries (h_retention h))) as [Hlt|Hge];
      [injection Hret as <- <-|subst kept].
    + destruct (IH (kept.1 ++ [x], <[wd_ID (deref h x) := x]> kept.2)) as [IH1 IH2]; [simpl; rewrite length_app; simpl; lia|].
      simpl in *. rewrite <- app_assoc in IH1, IH2. split; [by rewrite IH1|]. intros Hnd Hidx. apply IH2; [done|].
      intros id e. rewrite lookup_insert_Some, elem_of_app, list_elem_of_singleton, Hidx. split.
      * intros [[<- <-]|(? & ? & ?)]; [by split; [right|]|by split; [left|]].
      * intros [[Hin| ->] <-]; [right|by left]. split; [|done]. intros Heq.
        rewrite fmap_app in Hnd. apply NoDup_app in Hnd as (_ & Hd & _).
        apply (Hd (entry_id h e)); [by apply list_elem_of_fmap_2|]. rewrite fmap_cons, <- Heq. by left.
    + destruct (IH (k2, m2) Hk) as [IH1 IH2]. simpl in Hge, Hk, IH1, IH2 |- *. split.
      * rewrite IH1. rewrite !take_app_ge by lia. replace (Z.to_nat (rt_MaxEntries (h_retention h)) - length k2)%nat with 0%nat by lia.
        done.
      * intros Hnd. apply IH2. rewrite fmap_app in Hnd |- *. rewrite fmap_cons in Hnd.
        apply NoDup_app in Hnd as (Ha & Hd & Hb). apply NoDup_cons in Hb as [_ Hb]. apply NoDup_app.
        split_and!; [done| |done]. intros y Hy1 Hy2. apply (Hd y Hy1). by right.
  - subst kept. destruct (IH (k2, m2) Hk) as [IH1 IH2]. split; [done|].
    intros Hnd. apply IH2. rewrite fmap_app in Hnd |- *. rewrite fmap_cons in Hnd.
    apply NoDup_app in Hnd as (Ha & Hd & Hb). apply NoDup_cons in Hb as [_ Hb]. apply NoDup_app.
    split_and!; [done| |done]. intros y Hy1 Hy2. apply (Hd y Hy1). by right.
Qed.

Lemma enforceRetention_entries now h :
  h_entries (enforceRetention now h) = take (Z.to_nat (rt_MaxEntries (h_retention h))) (filter (fun e => young h now e) (h_entries h)).
Proof.
  unfold enforceRetention, young. destruct (h_entries h) as [|x l] eqn:Hl; [by rewrite Hl, filter_nil, take_nil|]. cbn [h_entries].
  rewrite <- Hl. by apply (retain_spec h _ (h_entries h) ([], ∅)); simpl; lia.
Qed.

Lemma enforceRetention_wf now h : history_wf h -> history_wf (enforceRetention now h).
Proof.
  intros (H1 & H2 & H3 & H4). pose proof (enforceRetention_entries now h) as He.
  assert (h_store (enforceRetention now h) = h_store h) as Hst by (unfold enforceRetention; by destruct (h_entries h)).
  assert (forall e, entry_id (enforceRetention now h) e = entry_id h e) as Hid by (intros e; unfold entry_id, deref; by rewrite Hst).
  assert (h_entries (enforceRetention now h) `sublist_of` h_entries h) as Hsub.
  { rewrite He. etrans; [apply sublist_take|apply sublist_filter]. }
  split_and!.
  - apply (sublist_NoDup _ _ H1). by apply fmap_sublist.
  - intros e Hin. rewrite Hst. apply H2. by eapply elem_of_sublist.
  - assert (entry_id (enforceRetention now h) <$> h_entries (enforceRetention now h) = entry_id h <$> h_entries (enforceRetention now h))
      as -> by (apply list_fmap_ext; intros; apply Hid).
    apply (sublist_NoDup _ _ H3). by apply fmap_sublist.
  - intros id e. rewrite Hid. unfold enforceRetention. destruct (h_entries h) as [|x l] eqn:Hl; [by rewrite H4, Hl|].
    rewrite <- Hl in *. simpl. apply (retain_spec h _ (h_entries h) ([], ∅)); simpl; [lia|done|].
    intros id' e'. rewrite lookup_empty. split; [done|]. intros [Hin _]. by apply elem_of_nil in Hin.
Qed.

Lemma step_wf h h' : history_step h h' -> history_wf h -> history_wf h'.
Proof.
  intros Hs Hwf. destruct Hs as [p d name url h Hp Hid|now id st code body err h|now id a ms h|now h|h].
  - by apply record_wf.
  - by apply update_wf.
  - by apply update_wf.
  - by apply enforceRetention_wf.
  - split_and!; simpl; [apply NoDup_nil_2|intros e Hin; by apply elem_of_nil in Hin|apply NoDup_nil_2|].
    intros id e. rewrite lookup_empty. split; [done|]. intros [Hin _]. by apply elem_of_nil in Hin.
Qed.

Lemma run_wf cfg h : rtc history_step (NewWebhookHistory cfg) h -> history_wf h.
Proof.
  revert h. apply rtc_ind_r; [|intros y z _ Hs; by apply step_wf].
  apply (step_wf (NewWebhookHistory cfg) (Clear (NewWebhookHistory cfg)) (hs_clear _)).
  split_and!; simpl; [apply NoDup_nil_2|intros e Hin; by apply elem_of_nil in Hin|apply NoDup_nil_2|].
  intros id e. rewrite lookup_empty. split; [done|]. intros [Hin _]. by apply elem_of_nil in Hin.
Qed.

Lemma NoDup_fmap_elem {A B} (f : A -> B) (l : list A) x y : NoDup (f <$> l) -> x ∈ l -> y ∈ l -> f x = f y -> x = y.
Proof.
  intros Hnd [i Hi]%list_elem_of_lookup [j Hj]%list_elem_of_lookup Hf.
  assert (i = j) as -> by (apply (NoDup_lookup (f <$> l) i j (f x)); [done|by rewrite list_lookup_fmap, Hi|by rewrite list_lookup_fmap, Hj, Hf]).
  congruence.
Qed.


(** A history of one entry at most: the second delivery is dropped. *)
Definition sample_delivery (id : UUID) (t : Z) : WebhookDelivery :=
  mkWebhookDelivery id 9 "created" "http://x" DeliveryStatusDelivering 0 "" "" 0 1 3 "" t t.
Definition sample_history : WebhookHistory :=
  RecordDelivery 1 (sample_delivery 8 20) "w" "http://x"
    (RecordDelivery 0 (sample_delivery 7 10) "w" "http://x" (NewWebhookHistory (mkRetentionConfig 1 Hour Hour))).

