(* ===== verification/WebhookNotifier.v ===== *)
(** * Notifying webhooks: internal/webhook/notifier.go

    The queue of notification tasks, what a worker does with a task, retries by timers, the
    batches, and the dead letters with their replay.  A task holds pointers to webhooks: it
    lists their identifiers, and what they hold when the task is processed is an argument.
    A timer that has been set is in [nt_timers] until it fires.  Workers and batches take
    tasks from one queue. *)

From S2P Require Import Prelude GoFloat WebhookDelivery WebhookManager WebhookHistory.

(** ** Data *)

(* go: internal/webhook/notifier.go type NotificationEvent *)
Record NotificationEvent := mkEvent {
  ne_ID : UUID;
  ne_EventType : string;
  ne_Source : string;
  ne_Payload : string;
  ne_Timestamp : Z;
  ne_Metadata : gmap string string
}.

(* go: internal/webhook/notifier.go type NotificationTask *)
Record NotificationTask := mkTask {
  nk_ID : UUID;
  nk_Event : NotificationEvent;
  nk_Webhooks : list UUID;
  nk_CreatedAt : Z;
  nk_Retries : Z;
  nk_MaxRetries : Z
}.

(* go: internal/webhook/notifier.go type DeadLetterEntry *)
Record DeadLetterEntry := mkDeadLetter {
  dl_ID : UUID;
  dl_Task : NotificationTask;
  dl_Reason : string;
  dl_FailedAt : Z;
  dl_RetryCount : Z
}.

(* go: internal/webhook/notifier.go type NotifierConfig *)
Record NotifierConfig := mkNotifierConfig {
  nc_QueueSize : Z;
  nc_WorkerCount : Z;
  nc_BatchSize : Z;
  nc_BatchInterval : Z;
  nc_DeadLetterLimit : Z
}.

(* go: internal/webhook/notifier.go func DefaultNotifierConfig *)
Definition DefaultNotifierConfig : NotifierConfig := mkNotifierConfig 1024 4 10 (500 * Millisecond) 1000.

(* go: internal/webhook/notifier.go type NotifierMetrics *)
Record NotifierMetrics := mkMetrics {
  mt_Sent : Z;
  mt_Failed : Z;
  mt_Dropped : Z;
  mt_DeadLetter : Z;
  mt_Batch : Z
}.

(* go: internal/webhook/notifier.go type EventNotifier *)
Record EventNotifier := mkNotifier {
  nt_config : NotifierConfig;
  nt_deliverer : DeliveryConfig;
  nt_history : WebhookHistory;
  nt_queue : list NotificationTask;
  nt_dead : list DeadLetterEntry;
  nt_timers : list (Z * NotificationTask);
  nt_batch : list NotificationTask;
  nt_started : bool;
  nt_stopClosed : bool;
  nt_metrics : NotifierMetrics
}.

Inductive NotifierError : Type :=
| ErrQueueFull (event : UUID)
| ErrEntryNotFound (id : UUID)
| ErrReplayFull.

(** A negative capacity panics. *)
(* go: internal/webhook/notifier.go func NewEventNotifier *)
Definition NewEventNotifier (config : NotifierConfig) (deliverer : DeliveryConfig) (history : WebhookHistory)
    : go_result EventNotifier NotifierError :=
  if (nc_QueueSize config <? 0) || (nc_DeadLetterLimit config <? 0) then Panic
  else Ok (mkNotifier config deliverer history [] [] [] [] false false (mkMetrics 0 0 0 0 0)).

Definition set_queue (q : list NotificationTask) (n : EventNotifier) : EventNotifier :=
  mkNotifier (nt_config n) (nt_deliverer n) (nt_history n) q (nt_dead n) (nt_timers n) (nt_batch n) (nt_started n)
    (nt_stopClosed n) (nt_metrics n).
Definition set_dead (l : list DeadLetterEntry) (n : EventNotifier) : EventNotifier :=
  mkNotifier (nt_config n) (nt_deliverer n) (nt_history n) (nt_queue n) l (nt_timers n) (nt_batch n) (nt_started n)
    (nt_stopClosed n) (nt_metrics n).
Definition set_timers (l : list (Z * NotificationTask)) (n : EventNotifier) : EventNotifier :=
  mkNotifier (nt_config n) (nt_deliverer n) (nt_history n) (nt_queue n) (nt_dead n) l (nt_batch n) (nt_started n)
    (nt_stopClosed n) (nt_metrics n).
Definition set_batch (l : list NotificationTask) (n : EventNotifier) : EventNotifier :=
  mkNotifier (nt_config n) (nt_deliverer n) (nt_history n) (nt_queue n) (nt_dead n) (nt_timers n) l (nt_started n)
    (nt_stopClosed n) (nt_metrics n).
Definition set_history (h : WebhookHistory) (n : EventNotifier) : EventNotifier :=
  mkNotifier (nt_config n) (nt_deliverer n) h (nt_queue n) (nt_dead n) (nt_timers n) (nt_batch n) (nt_started n)
    (nt_stopClosed n) (nt_metrics n).
Definition set_running (started stopClosed : bool) (n : EventNotifier) : EventNotifier :=
  mkNotifier (nt_config n) (nt_deliverer n) (nt_history n) (nt_queue n) (nt_dead n) (nt_timers n) (nt_batch n) started
    stopClosed (nt_metrics n).
Definition count (f : NotifierMetrics -> NotifierMetrics) (n : EventNotifier) : EventNotifier :=
  mkNotifier (nt_config n) (nt_deliverer n) (nt_history n) (nt_queue n) (nt_dead n) (nt_timers n) (nt_batch n)
    (nt_started n) (nt_stopClosed n) (f (nt_metrics n)).

Definition inc_sent (m : NotifierMetrics) : NotifierMetrics :=
  mkMetrics (mt_Sent m + 1) (mt_Failed m) (mt_Dropped m) (mt_DeadLetter m) (mt_Batch m).
Definition inc_failed (m : NotifierMetrics) : NotifierMetrics :=
  mkMetrics (mt_Sent m) (mt_Failed m + 1) (mt_Dropped m) (mt_DeadLetter m) (mt_Batch m).
Definition inc_dropped (m : NotifierMetrics) : NotifierMetrics :=
  mkMetrics (mt_Sent m) (mt_Failed m) (mt_Dropped m + 1) (mt_DeadLetter m) (mt_Batch m).
Definition inc_dead (m : NotifierMetrics) : NotifierMetrics :=
  mkMetrics (mt_Sent m) (mt_Failed m) (mt_Dropped m) (mt_DeadLetter m + 1) (mt_Batch m).
Definition inc_batch (m : NotifierMetrics) : NotifierMetrics :=
  mkMetrics (mt_Sent m) (mt_Failed m) (mt_Dropped m) (mt_DeadLetter m) (mt_Batch m + 1).

Definition with_retries (r : Z) (t : NotificationTask) : NotificationTask :=
  mkTask (nk_ID t) (nk_Event t) (nk_Webhooks t) (nk_CreatedAt t) r (nk_MaxRetries t).

(** Room for one more task in the queue. *)
Definition queue_room (n : EventNotifier) : bool := Z.of_nat (length (nt_queue n)) <? nc_QueueSize (nt_config n).
Definition push (t : NotificationTask) (n : EventNotifier) : EventNotifier := set_queue (nt_queue n ++ [t]) n.

(** ** Starting and stopping *)

(* go: internal/webhook/notifier.go func EventNotifier.Start *)
Definition Start (n : EventNotifier) : EventNotifier :=
  if nt_started n then n else set_running true (nt_stopClosed n) n.

(** The channel is closed again at the second stop. *)
(* go: internal/webhook/notifier.go func EventNotifier.Stop *)
Definition Stop (n : EventNotifier) : go_result EventNotifier NotifierError :=
  if nt_started n then (if nt_stopClosed n then Panic else Ok (set_running false true n)) else Ok n.

(* go: internal/webhook/notifier.go func EventNotifier.IsRunning *)
Definition IsRunning (n : EventNotifier) : bool := nt_started n.

(** ** Notifying *)

(* go: internal/webhook/notifier.go func EventNotifier.Notify *)
Definition Notify (id : UUID) (now : Z) (m : WebhookManager) (event : NotificationEvent) (n : EventNotifier)
    : EventNotifier * option NotifierError :=
  match MatchWebhooks (ne_EventType event) m with
  | [] => (n, None)
  | ws =>
      if queue_room n then (count inc_sent (push (mkTask id event (wh_ID <$> ws) now 0 3) n), None)
      else (count inc_dropped n, Some (ErrQueueFull (ne_ID event)))
  end.

(** [ids] and [now] are those of the tasks. *)
(* go: internal/webhook/notifier.go func EventNotifier.NotifyBatch *)
Fixpoint NotifyBatch (ids : nat -> UUID) (now : Z) (m : WebhookManager) (i : nat) (events : list NotificationEvent)
    (n : EventNotifier) : EventNotifier * list NotifierError :=
  match events with
  | [] => (n, [])
  | event :: events =>
      let '(n1, err) := Notify (ids i) now m event n in
      let '(n2, errs) := NotifyBatch ids now m (S i) events n1 in
      (n2, match err with Some e => e :: errs | None => errs end)
  end.

(** ** Dead letters *)

(** The slice of an empty list panics. *)
(* go: internal/webhook/notifier.go func EventNotifier.moveToDeadLetter *)
Definition moveToDeadLetter (id : UUID) (now : Z) (task : NotificationTask) (reason : string) (n : EventNotifier)
    : go_result EventNotifier NotifierError :=
  let entry := mkDeadLetter id task reason now (nk_Retries task) in
  if nc_DeadLetterLimit (nt_config n) <=? Z.of_nat (length (nt_dead n)) then
    match nt_dead n with
    | [] => Panic
    | _ :: l => Ok (count inc_dead (set_dead (l ++ [entry]) n))
    end
  else Ok (count inc_dead (set_dead (nt_dead n ++ [entry]) n)).

(* go: internal/webhook/notifier.go func EventNotifier.retryTask *)
Definition retryTask (task : NotificationTask) (n : EventNotifier) : EventNotifier :=
  let backoff := int64 (int64 (2 ^ nk_Retries task) * Second) in
  let backoff := if 30 * Second <? backoff then 30 * Second else backoff in
  set_timers (nt_timers n ++ [(backoff, task)]) n.

(** The timer [i] fires. *)
(* go: internal/webhook/notifier.go @289-299 EventNotifier.retryTask *)
Definition fire_timer (i : nat) (id : UUID) (now : Z) (n : EventNotifier) : go_result EventNotifier NotifierError :=
  match nt_timers n !! i with
  | None => Ok n
  | Some (_, task) =>
      let n1 := set_timers (take i (nt_timers n) ++ drop (S i) (nt_timers n)) n in
      if queue_room n1 then Ok (push task n1) else moveToDeadLetter id now task "retry queue full" n1
  end.

(** ** Processing a task *)

(** What the round of one webhook reads from outside: what the pointer holds, new
    identifiers and addresses, the clock, and what its delivery reads. *)
Record round_env := mkRoundEnv {
  re_webhook : Webhook;
  re_deliveryID : UUID;
  re_addr : nat;
  re_now : Z;
  re_deliver : Z -> deliver_env;
  re_deadID : UUID
}.

Section processing.
Context (hmac_sha256 : string -> string -> string) (uuid_String : UUID -> string).

Definition Milliseconds (d : Z) : Z := Z.quot d Millisecond.

(** The text of an error. *)
Definition send_error_text (e : option SendError) : string :=
  match e with
  | None => "%!s(<nil>)"
  | Some (ErrCreateRequest err) => "create request: " +:+ err
  | Some (ErrRequestFailed err) => "http request failed: " +:+ err
  | Some (ErrUnexpectedStatus code) => "unexpected status: " +:+ itoa code
  end.
Definition deliver_error_text (e : DeliverError) : string :=
  match e with
  | ErrSerializePayload => "serialize payload"
  | ErrDeliverContext => "context deadline exceeded"
  | ErrDeliveryFailed n last => "webhook delivery failed after " +:+ itoa n +:+ " attempts: " +:+ send_error_text last
  end.

Definition new_delivery (x : round_env) (task : NotificationTask) : WebhookDelivery :=
  let wh := re_webhook x in
  mkWebhookDelivery (re_deliveryID x) (wh_ID wh) (ne_EventType (nk_Event task)) (wh_URL wh) DeliveryStatusDelivering 0
    (ne_Payload (nk_Event task)) "" 0 1 (dc_MaxRetries (wh_RetryConfig wh)) "" (re_now x) (re_now x).

Definition deliver_webhook (cfg : DeliveryConfig) (x : round_env) (task : NotificationTask)
    : go_result DeliveryResult (option DeliveryResult * DeliverError) :=
  let wh := re_webhook x in
  dl_answer (Deliver hmac_sha256 uuid_String cfg (re_deliver x) (wh_ID wh) (wh_URL wh) (ne_EventType (nk_Event task))
               (wh_Secret wh) (PRaw (ne_Payload (nk_Event task)))).

Definition report (x : round_env) (status : DeliveryStatus) (r : DeliveryResult) (errMsg : string) (n : EventNotifier)
    : EventNotifier :=
  set_history (UpdateDeliveryAttempt (re_now x) (re_deliveryID x) (dr_Attempt r) (Milliseconds (dr_Duration r))
    (UpdateDeliveryStatus (re_now x) (re_deliveryID x) status (dr_StatusCode r) (dr_ResponseBody r) errMsg
       (nt_history n))) n.

(** The round of one webhook; the task's count of retries goes on to the next. *)
(* go: internal/webhook/notifier.go @216-280 EventNotifier.processTask *)
Definition process_round (x : round_env) (task : NotificationTask) (n : EventNotifier)
    : go_result (NotificationTask * EventNotifier) NotifierError :=
  let wh := re_webhook x in
  let n1 := set_history (RecordDelivery (re_addr x) (new_delivery x task) (wh_Name wh) (wh_URL wh) (nt_history n)) n in
  match deliver_webhook (nt_deliverer n) x task with
  | Panic => Panic
  | Ok r => Ok (task, report x DeliveryStatusSuccess r "" n1)
  | Err (None, _) => Panic
  | Err (Some r, err) =>
      let status := if dr_Attempt r <? dc_MaxRetries (wh_RetryConfig wh) then DeliveryStatusRetrying else DeliveryStatusFailed in
      let n2 := report x status r (deliver_error_text err) (count inc_failed n1) in
      if nk_Retries task <? nk_MaxRetries task then
        let task1 := with_retries (nk_Retries task + 1) task in
        Ok (task1, retryTask task1 n2)
      else
        (n3 <-- moveToDeadLetter (re_deadID x) (re_now x) task ("max retries exceeded: " +:+ deliver_error_text err) n2 ;;
         Ok (task, n3))%go
  end.

(** [envs] has what each webhook of the task reads, in order. *)
(* go: internal/webhook/notifier.go func EventNotifier.processTask *)
Fixpoint processTask (envs : list round_env) (task : NotificationTask) (n : EventNotifier)
    : go_result EventNotifier NotifierError :=
  match envs with
  | [] => Ok n
  | x :: envs => (p <-- process_round x task n ;; processTask envs p.1 p.2)%go
  end.

(** A worker, or the loop that fills a batch, receives the first task of the queue. *)
(* go: internal/webhook/notifier.go func EventNotifier.worker *)
Definition worker (envs : NotificationTask -> list round_env) (n : EventNotifier) : go_result EventNotifier NotifierError :=
  match nt_queue n with
  | [] => Ok n
  | task :: q => processTask (envs task) task (set_queue q n)
  end.

Fixpoint process_all (envs : nat -> NotificationTask -> list round_env) (i : nat) (tasks : list NotificationTask)
    (n : EventNotifier) : go_result EventNotifier NotifierError :=
  match tasks with
  | [] => Ok n
  | t :: ts => (n1 <-- processTask (envs i t) t n ;; process_all envs (S i) ts n1)%go
  end.

(* go: internal/webhook/notifier.go func EventNotifier.flushBatch *)
Definition flushBatch (envs : nat -> NotificationTask -> list round_env) (batch : list NotificationTask) (n : EventNotifier)
    : go_result EventNotifier NotifierError := process_all envs O batch (count inc_batch n).

Inductive batch_event : Type := BatchStop | BatchTask | BatchTick.

Definition flush (envs : nat -> NotificationTask -> list round_env) (n : EventNotifier) : go_result EventNotifier NotifierError :=
  flushBatch envs (nt_batch n) (set_batch [] n).

(** One round of the loop. *)
(* go: internal/webhook/notifier.go func EventNotifier.batchProcessor *)
Definition batchProcessor (envs : nat -> NotificationTask -> list round_env) (ev : batch_event) (n : EventNotifier)
    : go_result EventNotifier NotifierError :=
  match ev with
  | BatchStop | BatchTick => match nt_batch n with [] => Ok n | _ => flush envs n end
  | BatchTask =>
      match nt_queue n with
      | [] => Ok n
      | task :: q =>
          let n1 := set_batch (nt_batch n ++ [task]) (set_queue q n) in
          if nc_BatchSize (nt_config n) <=? Z.of_nat (length (nt_batch n1)) then flush envs n1 else Ok n1
      end
  end.
End processing.

(** ** Replay *)

(* go: internal/webhook/notifier.go func EventNotifier.GetDeadLetterEntries *)
Definition GetDeadLetterEntries (n : EventNotifier) : list DeadLetterEntry := nt_dead n.

(** The first entry with the identifier, and the others. *)
Fixpoint remove_entry (id : UUID) (l : list DeadLetterEntry) : option (DeadLetterEntry * list DeadLetterEntry) :=
  match l with
  | [] => None
  | e :: l =>
      if decide (dl_ID e = id) then Some (e, l)
      else match remove_entry id l with Some (x, l') => Some (x, e :: l') | None => None end
  end.

(* go: internal/webhook/notifier.go func EventNotifier.ReplayDeadLetter *)
Definition ReplayDeadLetter (entryID newID : UUID) (now : Z) (n : EventNotifier)
    : go_result (EventNotifier * option NotifierError) NotifierError :=
  match remove_entry entryID (nt_dead n) with
  | None => Ok (n, Some (ErrEntryNotFound entryID))
  | Some (e, l) =>
      let n1 := set_dead l n in
      let task := with_retries 0 (dl_Task e) in
      if queue_room n1 then Ok (push task n1, None)
      else (n2 <-- moveToDeadLetter newID now task "replay queue full" n1 ;; Ok (n2, Some ErrReplayFull))%go
  end.

(** [ids] names the entries that go back. *)
Fixpoint replay_loop (ids : nat -> UUID) (now : Z) (i : nat) (entries : list DeadLetterEntry) (replayed : Z) (n : EventNotifier)
    : go_result (EventNotifier * Z) NotifierError :=
  match entries with
  | [] => Ok (n, replayed)
  | e :: entries =>
      let task := with_retries 0 (dl_Task e) in
      if queue_room n then replay_loop ids now (S i) entries (replayed + 1) (push task n)
      else (n1 <-- moveToDeadLetter (ids i) now task "replay queue full" n ;;
            replay_loop ids now (S i) entries replayed n1)%go
  end.

(* go: internal/webhook/notifier.go func EventNotifier.ReplayAllDeadLetter *)
Definition ReplayAllDeadLetter (ids : nat -> UUID) (now : Z) (n : EventNotifier)
    : go_result (EventNotifier * Z) NotifierError := replay_loop ids now O (nt_dead n) 0 (set_dead [] n).

(* go: internal/webhook/notifier.go func EventNotifier.ClearDeadLetter *)
Definition ClearDeadLetter (n : EventNotifier) : EventNotifier * Z := (set_dead [] n, Z.of_nat (length (nt_dead n))).

(** The name is that of another quantity. *)
(* go: internal/webhook/notifier.go func EventNotifier.QueueDepth *)
Definition QueueDepth (n : EventNotifier) : Z := Z.of_nat (length (nt_dead n)).

(* go: internal/webhook/notifier.go func EventNotifier.GetMetrics *)
Definition GetMetrics (n : EventNotifier) : NotifierMetrics := nt_metrics n.

(** ** What processing adds *)

(** The last [k] elements. *)
Definition trim {A} (k : nat) (l : list A) : list A := drop (length l - k) l.

Lemma trim_id {A} (k : nat) (l : list A) : (length l <= k)%nat -> trim k l = l.
Proof. intros Hl. unfold trim. by replace (length l - k)%nat with 0%nat by lia. Qed.

Lemma length_trim {A} (k : nat) (l : list A) : (length (trim k l) <= k)%nat.
Proof. unfold trim. rewrite length_drop. lia. Qed.

Lemma trim_app {A} (k : nat) (l m : list A) : trim k (trim k l ++ m) = trim k (l ++ m).
Proof.
  unfold trim. rewrite <- drop_app_le by lia. rewrite drop_drop. f_equal. rewrite !length_drop, !length_app. lia.
Qed.

(** The dead letters are within their limit. *)
Definition dead_ok (n : EventNotifier) : Prop :=
  0 < nc_DeadLetterLimit (nt_config n) /\ Z.of_nat (length (nt_dead n)) <= nc_DeadLetterLimit (nt_config n).

Definition dead_limit (n : EventNotifier) : nat := Z.to_nat (nc_DeadLetterLimit (nt_config n)).

(** [n'] is [n] with more timers, dead letters, failures and history. *)
Record grows (n n' : EventNotifier) (timers : list (Z * NotificationTask)) (dead : list DeadLetterEntry) (failed : Z)
    (entries : list HistoryEntry) : Prop := {
  gr_config : nt_config n' = nt_config n;
  gr_deliverer : nt_deliverer n' = nt_deliverer n;
  gr_queue : nt_queue n' = nt_queue n;
  gr_timers : nt_timers n' = nt_timers n ++ timers;
  gr_dead : nt_dead n' = trim (dead_limit n) (nt_dead n ++ dead);
  gr_failed : mt_Failed (nt_metrics n') = mt_Failed (nt_metrics n) + failed;
  gr_count : mt_DeadLetter (nt_metrics n') = mt_DeadLetter (nt_metrics n) + Z.of_nat (length dead);
  gr_entries : h_entries (nt_history n') = h_entries (nt_history n) ++ entries
}.

Lemma grows_refl n : dead_ok n -> grows n n [] [] 0 [].
Proof.
  intros [Hl Hd]. split; rewrite ?app_nil_r; try done; [|simpl; lia..].
  rewrite trim_id; [done|]. unfold dead_limit. lia.
Qed.

(** Without dead letters. *)
Lemma grows_alive n n' t f e :
  dead_ok n -> nt_config n' = nt_config n -> nt_deliverer n' = nt_deliverer n -> nt_queue n' = nt_queue n ->
  nt_timers n' = nt_timers n ++ t -> nt_dead n' = nt_dead n -> mt_Failed (nt_metrics n') = mt_Failed (nt_metrics n) + f ->
  mt_DeadLetter (nt_metrics n') = mt_DeadLetter (nt_metrics n) ->
  h_entries (nt_history n') = h_entries (nt_history n) ++ e -> grows n n' t [] f e.
Proof.
  intros [Hl Hd] Hc Hde Hq Ht Hdd Hf Hm He. split; try done; rewrite ?app_nil_r; [|simpl; lia].
  rewrite trim_id; [done|]. unfold dead_limit. lia.
Qed.

Lemma grows_trans n1 n2 n3 t1 t2 d1 d2 f1 f2 e1 e2 :
  grows n1 n2 t1 d1 f1 e1 -> grows n2 n3 t2 d2 f2 e2 -> grows n1 n3 (t1 ++ t2) (d1 ++ d2) (f1 + f2) (e1 ++ e2).
Proof.
  intros [] []. split; try congruence; rewrite ?app_assoc; try congruence; [|lia|rewrite length_app; lia].
  assert (dead_limit n2 = dead_limit n1) as Hl by (unfold dead_limit; congruence).
  rewrite gr_dead1, gr_dead0, Hl. apply trim_app.
Qed.

Lemma grows_dead_ok n n' t d f e : dead_ok n -> grows n n' t d f e -> dead_ok n'.
Proof.
  intros [Hl Hd] []. unfold dead_ok. rewrite gr_config0, gr_dead0. split; [done|].
  pose proof (length_trim (dead_limit n) (nt_dead n ++ d)). unfold dead_limit in *. lia.
Qed.

Lemma moveToDeadLetter_ok id now task reason n : dead_ok n ->
  exists n', moveToDeadLetter id now task reason n = Ok n'
    /\ grows n n' [] [mkDeadLetter id task reason now (nk_Retries task)] 0 [].
Proof.
  intros [Hl Hd]. unfold moveToDeadLetter.
  destruct (Z.leb_spec (nc_DeadLetterLimit (nt_config n)) (Z.of_nat (length (nt_dead n)))) as [Hfull|Hroom].
  - destruct (nt_dead n) as [|e l] eqn:He; [simpl in *; lia|]. eexists. split; [done|].
    split; simpl; rewrite ?app_nil_r; try done; [|lia]. rewrite He. unfold trim, dead_limit. simpl. rewrite length_app. simpl in *.
    replace (S (length l + 1) - Z.to_nat (nc_DeadLetterLimit (nt_config n)))%nat with 1%nat by lia. done.
  - eexists. split; [done|]. split; simpl; rewrite ?app_nil_r; try done; [|lia].
    rewrite trim_id; [done|]. rewrite length_app. simpl. unfold dead_limit. lia.
Qed.

Section answers.
Context (hmac_sha256 : string -> string -> string) (uuid_String : UUID -> string).

Abbreviation answer := (deliver_webhook hmac_sha256 uuid_String).
Abbreviation round := (process_round hmac_sha256 uuid_String).
Abbreviation process := (processTask hmac_sha256 uuid_String).

(** The error of a webhook's delivery. *)
Definition delivery_error (cfg : DeliveryConfig) (task : NotificationTask) (x : round_env) : option DeliverError :=
  match answer cfg x task with Err (_, err) => Some err | _ => None end.

(** No panic: there is a result even when there is an error. *)
Definition answers (cfg : DeliveryConfig) (task : NotificationTask) (x : round_env) : Prop :=
  match answer cfg x task with Panic | Err (None, _) => False | _ => True end.

Definition entry_of (x : round_env) : HistoryEntry :=
  mkHistoryEntry (re_addr x) (wh_Name (re_webhook x)) (wh_URL (re_webhook x)).

Definition retry_pause (r : Z) : Z :=
  let backoff := int64 (int64 (2 ^ r) * Second) in if 30 * Second <? backoff then 30 * Second else backoff.

Definition buried (r : Z) (task : NotificationTask) (p : round_env * DeliverError) : DeadLetterEntry :=
  mkDeadLetter (re_deadID p.1) (with_retries r task) ("max retries exceeded: " +:+ deliver_error_text p.2) (re_now p.1) r.

Lemma update_entries id f h : h_entries (update_delivery id f h) = h_entries h.
Proof. unfold update_delivery. by destruct (h_byID h !! id). Qed.

Lemma report_entries x st r err n : h_entries (nt_history (report x st r err n)) = h_entries (nt_history n).
Proof. unfold report, UpdateDeliveryAttempt, UpdateDeliveryStatus. simpl. by rewrite !update_entries. Qed.

Lemma retry_entries t n : h_entries (nt_history (retryTask t n)) = h_entries (nt_history n).
Proof. done. Qed.

Lemma with_retries_id task : with_retries (nk_Retries task) task = task.
Proof. by destruct task. Qed.

(** The round of one webhook: nothing, a retry of the whole task, or a dead letter. *)
Lemma round_spec x task n : dead_ok n -> answers (nt_deliverer n) task x ->
  exists task' n', round x task n = Ok (task', n') /\
  match delivery_error (nt_deliverer n) task x with
  | None => task' = task /\ grows n n' [] [] 0 [entry_of x]
  | Some err =>
      if nk_Retries task <? nk_MaxRetries task
      then task' = with_retries (nk_Retries task + 1) task
           /\ grows n n' [(retry_pause (nk_Retries task + 1), task')] [] 1 [entry_of x]
      else task' = task /\ grows n n' [] [buried (nk_Retries task) task (x, err)] 1 [entry_of x]
  end.
Proof.
  intros Hd Ha. unfold round, delivery_error, answers in *.
  destruct (answer (nt_deliverer n) x task) as [r|[[r|] err]|]; try done.
  - eexists _, _. split; [done|]. split; [done|].
    apply grows_alive; rewrite ?report_entries, ?app_nil_r; unfold report; simpl; rewrite ?Z.add_0_r; done.
  - destruct (nk_Retries task <? nk_MaxRetries task) eqn:Hr.
    + eexists _, _. split; [done|]. split; [done|].
      apply grows_alive; rewrite ?retry_entries, ?report_entries; unfold retryTask, report; simpl; done.
    + match goal with |- context [moveToDeadLetter ?id ?now ?t ?rs ?n2] =>
        assert (grows n n2 [] [] 1 [entry_of x]) as H1
          by (apply grows_alive; rewrite ?report_entries, ?app_nil_r; unfold report; simpl; done);
        destruct (moveToDeadLetter_ok id now t rs n2) as (n3 & -> & H2); [by eapply grows_dead_ok|] end.
      eexists _, n3. split; [done|]. split; [done|]. unfold buried. simpl. rewrite with_retries_id.
      exact (grows_trans _ _ _ _ _ _ _ _ _ _ _ H1 H2).
Qed.

(** The deliveries that fail, in order. *)
Definition failing (cfg : DeliveryConfig) (task : NotificationTask) (envs : list round_env) : list (round_env * DeliverError) :=
  omap (fun x => (fun err => (x, err)) <$> delivery_error cfg task x) envs.

Lemma failing_cons cfg task x envs :
  failing cfg task (x :: envs) =
    match delivery_error cfg task x with Some err => (x, err) :: failing cfg task envs | None => failing cfg task envs end.
Proof. unfold failing. simpl. by destruct (delivery_error cfg task x). Qed.

(** How often the task can still be retried. *)
Definition remaining (task : NotificationTask) : nat := Z.to_nat (nk_MaxRetries task - nk_Retries task).

Definition retries_of (task : NotificationTask) (k : nat) : list (Z * NotificationTask) :=
  (fun j => (retry_pause (nk_Retries task + Z.of_nat j), with_retries (nk_Retries task + Z.of_nat j) task)) <$> seq 1 k.

Definition burials (task : NotificationTask) (l : list (round_env * DeliverError)) : list DeadLetterEntry :=
  buried (nk_Retries task + Z.of_nat (Nat.min (length l) (remaining task))) task <$> drop (remaining task) l.

Lemma retries_of_succ task k : nk_Retries task < nk_MaxRetries task ->
  retries_of task (S k) = (retry_pause (nk_Retries task + 1), with_retries (nk_Retries task + 1) task)
    :: retries_of (with_retries (nk_Retries task + 1) task) k.
Proof.
  intros Hr. unfold retries_of. cbn [seq fmap list_fmap]. f_equal. rewrite <- fmap_S_seq, <- list_fmap_compose.
  apply list_fmap_ext. intros i j _. unfold compose. simpl.
  replace (nk_Retries task + Z.of_nat (S j)) with (nk_Retries task + 1 + Z.of_nat j) by lia. done.
Qed.

Lemma burials_succ task p l : nk_Retries task < nk_MaxRetries task ->
  burials task (p :: l) = burials (with_retries (nk_Retries task + 1) task) l.
Proof.
  intros Hr. unfold burials. assert (remaining task = S (remaining (with_retries (nk_Retries task + 1) task))) as ->
    by (unfold remaining; simpl; lia).
  simpl. apply list_fmap_ext. intros i q _. unfold buried. simpl.
  replace (nk_Retries task + Z.of_nat (S (Nat.min (length l) (remaining (with_retries (nk_Retries task + 1) task)))))
    with (nk_Retries task + 1 + Z.of_nat (Nat.min (length l) (remaining (with_retries (nk_Retries task + 1) task)))) by lia.
  done.
Qed.

Lemma burials_over task p l : nk_MaxRetries task <= nk_Retries task ->
  burials task (p :: l) = buried (nk_Retries task) task p :: burials task l.
Proof.
  intros Hr. unfold burials. assert (remaining task = O) as -> by (unfold remaining; lia).
  rewrite !Nat.min_0_r, Z.add_0_r, !drop_0. done.
Qed.

Lemma processTask_spec envs : forall task n,
  dead_ok n -> Forall (answers (nt_deliverer n) task) envs ->
  let l := failing (nt_deliverer n) task envs in
  exists n', process envs task n = Ok n'
    /\ grows n n' (retries_of task (Nat.min (length l) (remaining task))) (burials task l) (Z.of_nat (length l)) (entry_of <$> envs).
Proof.
  induction envs as [|x envs IH]; intros task n Hd Ha.
  { eexists. split; [done|]. simpl. unfold burials. rewrite drop_nil. by apply grows_refl. }
  apply Forall_cons in Ha as [Hx Ha]. destruct (round_spec x task n Hd Hx) as (t1 & n1 & Hr & Hs).
  cbn [process fmap list_fmap]. rewrite Hr. cbn [go_bind fst snd]. rewrite failing_cons.
  destruct (delivery_error (nt_deliverer n) task x) as [err|]; cbn [length].
  - destruct (Z.ltb_spec (nk_Retries task) (nk_MaxRetries task)) as [Hlt|Hge]; destruct Hs as [-> Hg];
      pose proof (gr_deliverer _ _ _ _ _ _ Hg) as Hdel; pose proof (grows_dead_ok _ _ _ _ _ _ Hd Hg) as Hd1.
    + destruct (IH (with_retries (nk_Retries task + 1) task) n1 Hd1) as (n' & -> & Hg'); [by rewrite Hdel|].
      exists n'. split; [done|]. rewrite Hdel in Hg'.
      change (failing (nt_deliverer n) (with_retries (nk_Retries task + 1) task) envs) with (failing (nt_deliverer n) task envs) in Hg'.
      pose proof (grows_trans _ _ _ _ _ _ _ _ _ _ _ Hg Hg') as Hgg. simpl in Hgg.
      rewrite burials_succ by done.
      replace (Nat.min (S (length (failing (nt_deliverer n) task envs))) (remaining task))
        with (S (Nat.min (length (failing (nt_deliverer n) task envs)) (remaining (with_retries (nk_Retries task + 1) task))))
        by (unfold remaining; cbn [nk_MaxRetries nk_Retries with_retries]; lia).
      rewrite retries_of_succ by done. rewrite Nat2Z.inj_succ, <- Z.add_1_l. exact Hgg.
    + destruct (IH task n1 Hd1) as (n' & -> & Hg'); [by rewrite Hdel|]. exists n'. split; [done|]. rewrite Hdel in Hg'.
      pose proof (grows_trans _ _ _ _ _ _ _ _ _ _ _ Hg Hg') as Hgg. simpl in Hgg. rewrite burials_over by lia.
      assert (remaining task = O) as Hrem by (unfold remaining; lia). rewrite Hrem, Nat.min_0_r in *.
      rewrite Nat2Z.inj_succ, <- Z.add_1_l. exact Hgg.
  - destruct Hs as [-> Hg]. pose proof (gr_deliverer _ _ _ _ _ _ Hg) as Hdel. pose proof (grows_dead_ok _ _ _ _ _ _ Hd Hg) as Hd1.
    destruct (IH task n1 Hd1) as (n' & -> & Hg'); [by rewrite Hdel|]. exists n'. split; [done|]. rewrite Hdel in Hg'.
    exact (grows_trans _ _ _ _ _ _ _ _ _ _ _ Hg Hg').
Qed.

(** ** Draining a task

    Tasks that are pending are processed in turn; the timers they set have fired, with room
    in the queue, by the time the tasks before them are done. *)
Fixpoint drain (fuel : nat) (envs : nat -> NotificationTask -> list round_env) (i : nat) (pending : list NotificationTask)
    (n : EventNotifier) : outcome (nat * EventNotifier) :=
  match pending with
  | [] => Returns (O, n)
  | t :: ts =>
      match fuel with
      | O => NoFuel
      | S fuel =>
          match process (envs i t) t n with
          | Ok n1 =>
              match drain fuel envs (S i) (ts ++ (nt_timers n1).*2) (set_timers [] n1) with
              | Returns (k, n2) => Returns (S k, n2)
              | r => r
              end
          | _ => Panics
          end
      end
  end.

(** How often a task with [m] retries left is processed when [f] of its webhooks fail each
    time: the list for [m], ..., 0. *)
Fixpoint procs (f m : nat) : list nat :=
  match m with O => [1%nat] | S m => let l := procs f m in S (sum_list (take f l)) :: l end.
Definition processings (f m : nat) : nat := hd O (procs f m).

Lemma procs_seq f m : procs f m = (fun j => processings f (m - j)) <$> seq 0 (S m).
Proof.
  induction m as [|m IH]; [done|]. change (seq 0 (S (S m))) with (O :: seq 1 (S m)). rewrite fmap_cons, Nat.sub_0_r.
  change (procs f (S m)) with (processings f (S m) :: procs f m). f_equal. rewrite IH.
  rewrite <- fmap_S_seq, <- list_fmap_compose. done.
Qed.

Lemma processings_succ f m :
  processings f m = S (sum_list ((fun j => processings f (m - j)) <$> seq 1 (Nat.min f m))).
Proof.
  destruct m as [|m]; [by rewrite Nat.min_0_r|].
  change (processings f (S m)) with (S (sum_list (take f (procs f m)))) at 1. do 2 f_equal.
  rewrite procs_seq, <- fmap_take, take_seq, <- fmap_S_seq, <- list_fmap_compose. done.
Qed.

(** One failing webhook: once for each retry.  None: once.  Many: doubled by each retry. *)
Lemma processings_none m : processings 0 m = 1%nat.
Proof. by rewrite processings_succ. Qed.

Lemma processings_one m : processings 1 m = S m.
Proof.
  induction m as [|m IH]; [done|]. rewrite processings_succ. simpl. rewrite Nat.sub_0_r, IH. lia.
Qed.

Lemma sum_list_procs f m : (m < f)%nat -> sum_list (procs f m) = (2 ^ S m - 1)%nat.
Proof.
  intros Hf. induction m as [|m IH]; [done|]. assert (length (procs f m) = S m) as Hl by (rewrite procs_seq; by rewrite length_fmap, length_seq).
  cbn [procs]. cbv zeta. rewrite take_ge by lia. cbn [sum_list]. rewrite IH by lia. simpl.
  pose proof (Nat.pow_nonzero 2 m ltac:(lia)). lia.
Qed.

Lemma processings_many f m : (m <= f)%nat -> processings f m = (2 ^ m)%nat.
Proof.
  intros Hf. destruct m as [|m]; [done|].
  assert (length (procs f m) = S m) as Hl by (rewrite procs_seq; by rewrite length_fmap, length_seq).
  change (processings f (S m)) with (S (sum_list (take f (procs f m)))). rewrite take_ge by lia.
  rewrite sum_list_procs by lia. pose proof (Nat.pow_nonzero 2 (S m) ltac:(lia)). lia.
Qed.

(** [f] of the webhooks, of [w] in all, fail whenever the task is processed. *)
Definition fails_always (cfg : DeliveryConfig) (task : NotificationTask) (envs : nat -> NotificationTask -> list round_env)
    (f w : nat) : Prop :=
  forall i r, let t := with_retries r task in
    Forall (answers cfg t) (envs i t) /\ length (failing cfg t (envs i t)) = f /\ length (envs i t) = w.

(** The processings that pending tasks lead to. *)
Definition workload (f : nat) (ts : list NotificationTask) : nat := sum_list (processings f ∘ remaining <$> ts).

Lemma workload_retries f t : workload f ((retries_of t (Nat.min f (remaining t))).*2) = (processings f (remaining t) - 1)%nat.
Proof.
  rewrite processings_succ. unfold workload, retries_of. rewrite <- !list_fmap_compose. simpl. rewrite Nat.sub_0_r.
  f_equal. apply list_fmap_ext. intros i j Hj. unfold compose. simpl. f_equal. unfold remaining. simpl. lia.
Qed.

Lemma sum_list_app (l1 l2 : list nat) : sum_list (l1 ++ l2) = (sum_list l1 + sum_list l2)%nat.
Proof. induction l1 as [|x l1 IH]; simpl; [done|]. rewrite IH. lia. Qed.

Lemma workload_app f l1 l2 : workload f (l1 ++ l2) = (workload f l1 + workload f l2)%nat.
Proof. unfold workload. by rewrite fmap_app, sum_list_app. Qed.

Lemma workload_cons f t ts : workload f (t :: ts) = (processings f (remaining t) + workload f ts)%nat.
Proof. done. Qed.

Lemma processings_pos f m : (0 < processings f m)%nat.
Proof. rewrite processings_succ. lia. Qed.

Lemma drain_spec cfg task envs f w : fails_always cfg task envs f w ->
  forall fuel i ts n, nt_deliverer n = cfg -> dead_ok n -> nt_timers n = [] ->
  Forall (fun t => exists r, t = with_retries r task) ts -> (workload f ts <= fuel)%nat ->
  exists n', drain fuel envs i ts n = Returns (workload f ts, n') /\ nt_timers n' = [] /\ nt_queue n' = nt_queue n
    /\ mt_Failed (nt_metrics n') = mt_Failed (nt_metrics n) + Z.of_nat (workload f ts * f)
    /\ length (h_entries (nt_history n')) = (length (h_entries (nt_history n)) + workload f ts * w)%nat.
Proof.
  intros Hf. induction fuel as [|fuel IH]; intros i ts n Hcfg Hd Htm Hts Hfuel.
  - destruct ts as [|t ts]; [exists n; split_and!; try done; simpl; lia|]. exfalso.
    rewrite workload_cons in Hfuel. pose proof (processings_pos f (remaining t)). lia.
  - destruct ts as [|t ts]; [exists n; split_and!; try done; simpl; lia|]. cbn [drain].
    apply Forall_cons in Hts as [[r ->] Hts]. destruct (Hf i r) as (Ha & Hlen & Hw). set (t := with_retries r task) in *.
    rewrite <- Hcfg in Ha, Hlen. destruct (processTask_spec (envs i t) t n Hd Ha) as (n1 & -> & Hg).
    rewrite Hlen in Hg. pose proof (grows_dead_ok _ _ _ _ _ _ Hd Hg) as Hd1. destruct Hg. rewrite Htm in gr_timers0. simpl in gr_timers0.
    rewrite gr_timers0. set (new := (retries_of t (Nat.min f (remaining t))).*2).
    assert (workload f (t :: ts) = S (workload f (ts ++ new))) as Hwl.
    { rewrite workload_app. unfold new. rewrite workload_retries, workload_cons.
      pose proof (processings_pos f (remaining t)). lia. }
    destruct (IH (S i) (ts ++ new) (set_timers [] n1)) as (n' & -> & Ht' & Hq' & Hf' & He').
    + simpl. congruence.
    + done.
    + done.
    + apply Forall_app. split; [done|]. unfold new, retries_of. rewrite <- list_fmap_compose. apply Forall_fmap, Forall_true.
      intros j. unfold t. simpl. by eexists.
    + rewrite Hwl in Hfuel. lia.
    + exists n'. rewrite Hwl. split; [done|]. split; [done|]. split; [simpl in Hq'; congruence|]. split.
      * rewrite Hf'. simpl. rewrite gr_failed0. lia.
      * rewrite He'. simpl. rewrite gr_entries0, length_app, length_fmap, Hw. lia.
Qed.

(** A task is processed.  Each webhook's delivery is recorded, in order.  When it fails and
    the task has retries left, a retry of the whole task is set, with one retry less, after
    [2^retries] seconds but at most thirty: [k] failures of one task make [k] timers, and
    each will deliver to every webhook again, the successful ones included.  When no retry is
    left, each failure is a dead letter with the task, of which only the last
    [DeadLetterLimit] are kept. *)
Theorem processTask_correct envs task n :
  dead_ok n -> Forall (answers (nt_deliverer n) task) envs ->
  let l := failing (nt_deliverer n) task envs in
  let k := Nat.min (length l) (remaining task) in
  exists n', process envs task n = Ok n'
    /\ nt_queue n' = nt_queue n
    /\ nt_timers n' = nt_timers n ++
         ((fun j => (retry_pause (nk_Retries task + Z.of_nat j), with_retries (nk_Retries task + Z.of_nat j) task)) <$> seq 1 k)
    /\ (exists dead, length dead = (length l - k)%nat
          /\ (forall d, d ∈ dead -> dl_Task d = with_retries (nk_Retries task + Z.of_nat k) task
                /\ dl_RetryCount d = nk_Retries task + Z.of_nat k)
          /\ nt_dead n' = drop (length (nt_dead n) + length dead - Z.to_nat (nc_DeadLetterLimit (nt_config n))) (nt_dead n ++ dead))
    /\ mt_Failed (nt_metrics n') = mt_Failed (nt_metrics n) + Z.of_nat (length l)
    /\ mt_DeadLetter (nt_metrics n') = mt_DeadLetter (nt_metrics n) + Z.of_nat (length l - k)
    /\ h_entries (nt_history n') = h_entries (nt_history n) ++ (entry_of <$> envs).
Proof.
  intros Hd Ha l k. destruct (processTask_spec envs task n Hd Ha) as (n' & Hn & []). exists n'.
  fold l in gr_timers0, gr_dead0, gr_failed0, gr_count0. fold k in gr_timers0.
  assert (length (burials task l) = (length l - k)%nat) as Hlen
    by (unfold burials, k; rewrite length_fmap, length_drop; lia).
  split_and!; try done.
  - exists (burials task l). split; [done|]. split; [|by rewrite gr_dead0; unfold trim, dead_limit; rewrite length_app].
    intros d (p & -> & _)%list_elem_of_fmap. done.
  - by rewrite gr_count0, Hlen.
Qed.

End answers.

(** ** Replay *)

Lemma replay_full ids now entries : forall i c n,
  dead_ok n -> queue_room n = false -> Z.of_nat (length (nt_dead n) + length entries) <= nc_DeadLetterLimit (nt_config n) ->
  exists n', replay_loop ids now i entries c n = Ok (n', c) /\ nt_queue n' = nt_queue n
    /\ (dl_Task <$> nt_dead n') = (dl_Task <$> nt_dead n) ++ (with_retries 0 ∘ dl_Task <$> entries).
Proof.
  induction entries as [|e entries IH]; intros i c n Hd Hq Hl; simpl; [exists n; by rewrite app_nil_r|]. rewrite Hq.
  destruct (moveToDeadLetter_ok (ids i) now (with_retries 0 (dl_Task e)) "replay queue full" n Hd) as (n1 & -> & Hg). simpl.
  pose proof (grows_dead_ok _ _ _ _ _ _ Hd Hg) as Hd1. destruct Hg.
  assert (nt_dead n1 = nt_dead n ++ [mkDeadLetter (ids i) (with_retries 0 (dl_Task e)) "replay queue full" now 0]) as Hdead.
  { rewrite gr_dead0. apply trim_id. rewrite length_app. unfold dead_limit. simpl in *. lia. }
  destruct (IH (S i) c n1 Hd1) as (n' & -> & Hq' & Hd').
  - unfold queue_room in *. by rewrite gr_queue0, gr_config0.
  - rewrite gr_config0, Hdead, length_app. simpl in *. lia.
  - exists n'. split; [done|]. split; [congruence|]. rewrite Hd', Hdead, fmap_app, <- app_assoc. done.
Qed.

Lemma replay_spec ids now entries : forall i c n,
  dead_ok n -> nt_dead n = [] -> Z.of_nat (length entries) <= nc_DeadLetterLimit (nt_config n) ->
  let q := Z.to_nat (nc_QueueSize (nt_config n) - Z.of_nat (length (nt_queue n))) in
  exists n', replay_loop ids now i entries c n = Ok (n', c + Z.of_nat (Nat.min q (length entries)))
    /\ nt_queue n' = nt_queue n ++ (with_retries 0 ∘ dl_Task <$> take q entries)
    /\ (dl_Task <$> nt_dead n') = (with_retries 0 ∘ dl_Task <$> drop q entries).
Proof.
  induction entries as [|e entries IH]; intros i c n Hd He Hl q.
  { exists n. rewrite take_nil, drop_nil, Nat.min_0_r, Z.add_0_r, app_nil_r, He. done. }
  destruct (queue_room n) eqn:Hroom.
  - simpl. rewrite Hroom. unfold queue_room in Hroom. apply Z.ltb_lt in Hroom.
    destruct (IH (S i) (c + 1) (push (with_retries 0 (dl_Task e)) n)) as (n' & -> & Hq & Hdd); [done|done|simpl in *; lia|].
    assert (q = S (Z.to_nat (nc_QueueSize (nt_config n) - Z.of_nat (length (nt_queue (push (with_retries 0 (dl_Task e)) n)))))) as Hqq
      by (unfold q; simpl; rewrite length_app; simpl; lia).
    simpl nt_config in *. rewrite Hqq. exists n'. split; [|split].
    + do 2 f_equal. simpl. lia.
    + rewrite Hq. simpl. by rewrite <- app_assoc.
    + done.
  - assert (q = O) as -> by (unfold queue_room in Hroom; apply Z.ltb_ge in Hroom; unfold q; lia).
    destruct (replay_full ids now (e :: entries) i c n Hd Hroom) as (n' & -> & Hq & Hdd); [rewrite He; simpl in *; lia|].
    exists n'. rewrite Nat.min_0_l, Z.add_0_r, Hq, Hdd, He, app_nil_r. done.
Qed.

(** Replaying all dead letters loses no task.  With room for [q] tasks in the queue, the
    first [q] go back to it in order, with no retry used, and are counted; the others are
    dead letters again, in order, and the queue keeps what it held. *)
Theorem ReplayAllDeadLetter_correct ids now n :
  dead_ok n ->
  let q := Z.to_nat (nc_QueueSize (nt_config n) - Z.of_nat (length (nt_queue n))) in
  exists n', ReplayAllDeadLetter ids now n = Ok (n', Z.of_nat (Nat.min q (length (nt_dead n))))
    /\ nt_queue n' = nt_queue n ++ (with_retries 0 ∘ dl_Task <$> take q (nt_dead n))
    /\ (dl_Task <$> nt_dead n') = (with_retries 0 ∘ dl_Task <$> drop q (nt_dead n)).
Proof.
  intros [Hl Hd] q. unfold ReplayAllDeadLetter.
  destruct (replay_spec ids now (nt_dead n) 0 0 (set_dead [] n)) as (n' & Hr & Hq & Hdd); [split; [done|simpl; lia]|done|done|].
  exists n'. split; [exact Hr|]. done.
Qed.

(** ** Examples *)

(** Two webhooks; the second one's server cannot be reached. *)
Definition sample_webhook (id : UUID) : Webhook :=
  mkWebhook id "w" "http://x" "" WebhookStatusActive ["created"]%string ∅ DefaultDeliveryConfig 0 0.
Definition sample_round (id : UUID) (o : http_outcome) : round_env :=
  mkRoundEnv (sample_webhook id) id (N.to_nat id) 0 (fun _ => mkDeliverEnv false (f64_of_Z 0) min_int64 o []) id.
Definition sample_rounds (i : nat) (t : NotificationTask) : list round_env :=
  [sample_round 1 (Answered 200 "ok" 5); sample_round 2 (ClientError "refused" 9)].
Definition sample_task : NotificationTask := mkTask 5 (mkEvent 6 "created" "api" "{}" 0 ∅) [1%N; 2%N] 0 0 3.
Definition sample_notifier : EventNotifier :=
  mkNotifier DefaultNotifierConfig (mkDeliveryConfig Second 1 Second Second (f64_of_Z 0)) (NewWebhookHistory DefaultRetentionConfig)
    [] [] [] [] true false (mkMetrics 0 0 0 0 0).

Definition no_hmac (k m : string) : string := "".
Definition no_uuid (id : UUID) : string := "".

Lemma sample_dead_ok : dead_ok sample_notifier.
Proof. split; [reflexivity|vm_compute; discriminate]. Qed.

Lemma processTask_correct_witness :
  exists n', processTask no_hmac no_uuid (sample_rounds 0 sample_task) sample_task sample_notifier = Ok n'
    /\ nt_timers n' = [(2 * Second, with_retries 1 sample_task)] /\ nk_Webhooks (with_retries 1 sample_task) = [1%N; 2%N]
    /\ length (h_entries (nt_history n')) = 2%nat.
Proof.
  assert (Forall (answers no_hmac no_uuid (nt_deliverer sample_notifier) sample_task) (sample_rounds 0 sample_task)) as Ha
    by (repeat constructor).
  destruct (processTask_correct no_hmac no_uuid (sample_rounds 0 sample_task) sample_task sample_notifier sample_dead_ok Ha)
    as (n' & Hn & _ & Ht & _ & _ & _ & He).
  exists n'. split; [exact Hn|]. split; [rewrite Ht; vm_compute; reflexivity|]. split; [reflexivity|].
  rewrite He. vm_compute. reflexivity.
Defined.


Lemma ReplayAllDeadLetter_correct_witness :
  let n := set_dead [mkDeadLetter 1 (with_retries 3 sample_task) "max retries exceeded" 0 3] sample_notifier in
  exists n', ReplayAllDeadLetter (fun _ => 9%N) 0 n = Ok (n', 1) /\ nt_queue n' = [sample_task] /\ nt_dead n' = [].
Proof.
  intros n. assert (dead_ok n) as Hd by (split; [reflexivity|vm_compute; discriminate]).
  destruct (ReplayAllDeadLetter_correct (fun _ => 9%N) 0 n Hd) as (n' & Hr & Hq & Hl).
  exists n'. split; [exact Hr|]. split; [exact Hq|]. revert Hl. vm_compute drop. simpl. destruct (nt_dead n'); [done|discriminate].
Defined.

(** A limit of no dead letters panics at the first. *)
Example no_limit_panics task n : nt_dead n = [] -> nc_DeadLetterLimit (nt_config n) = 0 ->
  moveToDeadLetter 1 0 task "max retries exceeded" n = Panic.
Proof. intros Hd Hl. unfold moveToDeadLetter. by rewrite Hl, Hd. Qed.

(** A notifier that was stopped and started again panics at the next stop. *)
Example restart_panics n : nt_started n = true -> nt_stopClosed n = false ->
  exists n', Stop n = Ok n' /\ Stop (Start n') = Panic.
Proof. intros Hs Hc. unfold Stop at 1. rewrite Hs, Hc. by eexists. Qed.
