(* ===== verification/JsonExports.v ===== *)
(** * Exports to JSON: internal/webhook/history.go and internal/worker/health.go

    The two exports of a whole structure, [ExportToJSON] of the history of [WebhookHistory] and
    [MarshalReport] of a report of [WorkerHealth], on the bytes of [JsonText].  The texts of
    identifiers, instants and float64 values are arguments: an instant has none if its year has more
    than four digits. *)

From S2P Require Import Prelude GoFloat JsonText WebhookDelivery WebhookHistory QueueMessage QueueRabbit WorkerPool WorkerHealth.

(** Fields that omitempty leaves out. *)
Definition omit_empty (name value : string) : list (string * string) :=
  match value with EmptyString => [] | _ => [(name, quote value)] end.

Definition f64_is_finite (f : float64) : bool := match f with S754_zero _ | S754_finite _ _ _ => true | _ => false end.

Section exports.
Context (uuid_String : UUID -> string) (time_text : Z -> option string) (float_text : float64 -> string).

(** ** The history of deliveries *)

Inductive ExportError : Type :=
| ErrMarshalHistory
| ErrMarshalReport.

(** A raw message is written in its compact form and must be valid; the nil one is null. *)
Definition raw_json (body : string) : option string := match body with EmptyString => Some "null"%string | _ => json_compact body end.

(* go: internal/webhook/delivery.go @44-59 WebhookDelivery *)
Definition delivery_json (d : WebhookDelivery) : option string :=
  body ← raw_json (wd_RequestBody d); created ← time_text (wd_CreatedAt d); updated ← time_text (wd_UpdatedAt d);
  Some (json_object (
    [("id", quote (uuid_String (wd_ID d))); ("webhook_id", quote (uuid_String (wd_WebhookID d)));
     ("event_type", quote (wd_EventType d)); ("url", quote (wd_URL d)); ("status", quote (wd_Status d));
     ("status_code", itoa (wd_StatusCode d)); ("request_body", body)]%string
    ++ omit_empty "response_body" (wd_ResponseBody d)
    ++ [("duration_ms", itoa (wd_DurationMS d)); ("attempt", itoa (wd_Attempt d)); ("max_retries", itoa (wd_MaxRetries d))]%string
    ++ omit_empty "error" (wd_Error d)
    ++ [("created_at", quote created); ("updated_at", quote updated)]%string)).

(* go: internal/webhook/history.go @32-36 HistoryEntry *)
Definition entry_json (h : WebhookHistory) (e : HistoryEntry) : option string :=
  delivery ← delivery_json (deref h e);
  Some (json_object [("delivery", delivery); ("webhook_name", quote (he_WebhookName e)); ("webhook_url", quote (he_WebhookURL e))]%string).

(* go: internal/webhook/history.go func WebhookHistory.ExportToJSON *)
Definition ExportToJSON (h : WebhookHistory) : go_result string ExportError :=
  match mapM (entry_json h) (h_entries h) with
  | Some entries => Ok (json_array entries)
  | None => Err ErrMarshalHistory
  end.

(** ** The report of a worker *)

Definition HealthStatus_text (s : HealthStatus) : string :=
  match s with HealthStatusHealthy => "healthy" | HealthStatusDegraded => "degraded" | HealthStatusUnhealthy => "unhealthy" end.

(** Values that are not finite are refused. *)
Definition float_json (f : float64) : option string := if f64_is_finite f then Some (float_text f) else None.

(* go: internal/worker/health.go @26-32 ComponentHealth *)
Definition component_json (c : ComponentHealth) : option string :=
  checked ← time_text (ch_LastCheck c);
  Some (json_object ([("name", quote (ch_Name c)); ("status", quote (HealthStatus_text (ch_Status c)))]%string
    ++ omit_empty "message" (ch_Message c)
    ++ [("last_check", quote checked); ("latency_ms", itoa (ch_Latency c))]%string)).

(* go: internal/worker/health.go @46-58 HealthMetrics *)
Definition metrics_json (m : HealthMetrics) : option string :=
  avg ← float_json (hm_AvgProcessTime m); rate ← float_json (hm_ErrorRate m);
  Some (json_object
    [("tasks_processed", itoa (hm_TasksProcessed m)); ("tasks_succeeded", itoa (hm_TasksSucceeded m));
     ("tasks_failed", itoa (hm_TasksFailed m)); ("tasks_retried", itoa (hm_TasksRetried m));
     ("active_workers", itoa (hm_ActiveWorkers m)); ("idle_workers", itoa (hm_IdleWorkers m));
     ("queue_depth", itoa (hm_QueueDepth m)); ("queue_capacity", itoa (hm_QueueCapacity m));
     ("avg_process_time_ms", avg); ("error_rate", rate); ("panic_count", itoa (hm_PanicCount m))]%string).

(* go: internal/worker/health.go @60-68 SystemInfo *)
Definition system_json (i : SystemInfo) : option string :=
  alloc ← float_json (si_MemoryAllocMB i); total ← float_json (si_MemoryTotalMB i); sys ← float_json (si_MemorySysMB i);
  Some (json_object ([("go_version", quote (si_GoVersion i)); ("num_cpu", itoa (si_NumCPU i));
     ("num_goroutine", itoa (si_NumGoroutine i)); ("memory_alloc_mb", alloc); ("memory_total_mb", total); ("memory_sys_mb", sys)]%string
    ++ omit_empty "gc_stats" (si_GCStats i))).

(** A duration is encoded as its number of nanoseconds. *)
(* go: internal/worker/health.go @34-44 WorkerHealthReport *)
Definition report_json (r : WorkerHealthReport) : option string :=
  started ← time_text (hrep_StartedAt r); heartbeat ← time_text (hrep_LastHeartbeat r);
  components ← mapM component_json (hrep_Components r); metrics ← metrics_json (hrep_Metrics r); system ← system_json (hrep_System r);
  Some (json_object
    [("worker_id", quote (hrep_WorkerID r)); ("hostname", quote (hrep_Hostname r)); ("status", quote (HealthStatus_text (hrep_Status r)));
     ("uptime_seconds", itoa (hrep_Uptime r)); ("started_at", quote started); ("last_heartbeat", quote heartbeat);
     ("components", json_array components); ("metrics", metrics); ("system", system)]%string).

(** The report is not nil. *)
(* go: internal/worker/health.go func HealthReporter.MarshalReport *)
Definition MarshalReport (r : WorkerHealthReport) : go_result string ExportError :=
  match report_json r with Some data => Ok data | None => Err ErrMarshalReport end.

(** ** What is proved *)

Lemma reads_omit d name value : Forall (fun kv => reads d kv.2) (omit_empty name value).
Proof. destruct value; [done|]. constructor; [apply reads_quote|done]. Qed.

Lemma reads_raw body v : raw_json body = Some v -> reads maxNestingDepth v.
Proof.
  intros H. apply reads_valid. unfold raw_json in H. destruct body; [by injection H as <-|].
  unfold json_compact in H. pose proof (compact_valid maxNestingDepth (String a body)) as Hc. rewrite H in Hc. apply Hc.
Qed.

#[local] Hint Resolve reads_quote reads_itoa reads_omit : core.
Ltac fields := repeat (apply Forall_app_2 || apply Forall_cons_2 || apply Forall_nil_2); simpl; auto.

(** A body that was sent can be exported exactly if it is empty or JSON. *)
Definition exportable (d : WebhookDelivery) : Prop :=
  (wd_RequestBody d = ""%string \/ json_Valid (wd_RequestBody d) = true)
  /\ is_Some (time_text (wd_CreatedAt d)) /\ is_Some (time_text (wd_UpdatedAt d)).

Lemma raw_json_spec body : is_Some (raw_json body) <-> body = ""%string \/ json_Valid body = true.
Proof.
  unfold raw_json. destruct body as [|a s]; [split; eauto|]. pose proof (compact_valid maxNestingDepth (String a s)) as Hc.
  unfold json_compact, json_Valid. destruct (compact_to _ _); [split; [by right; apply Hc|eauto]|].
  rewrite Hc. split; [by intros []|by intros []].
Qed.

Lemma delivery_json_spec d :
  match delivery_json d with Some v => exportable d /\ reads (maxNestingDepth + 1) v | None => ~ exportable d end.
Proof.
  unfold delivery_json, exportable. pose proof (raw_json_spec (wd_RequestBody d)) as Hr.
  destruct (raw_json (wd_RequestBody d)) as [body|] eqn:Hb; simpl; [|by intros ([]%Hr & _)].
  destruct (time_text (wd_CreatedAt d)) eqn:Hc; simpl; [|by intros (_ & [] & _)].
  destruct (time_text (wd_UpdatedAt d)) eqn:Hu; simpl; [|by intros (_ & _ & [])].
  split; [split_and!; [by apply Hr|done..]|]. apply reads_object; [done|]. apply reads_raw in Hb. fields.
Qed.

Lemma mapM_spec {A B} (f : A -> option B) (P : B -> Prop) l :
  (forall x y, x ∈ l -> f x = Some y -> P y) ->
  match mapM f l with Some ys => Forall P ys /\ Forall (fun x => is_Some (f x)) l | None => Exists (fun x => f x = None) l end.
Proof.
  induction l as [|x l IH]; intros Hf; simpl; [done|]. destruct (f x) as [y|] eqn:Hx; simpl; [|by left].
  specialize (IH ltac:(intros; eapply Hf; [by right|done])). destruct (mapM f l); simpl; [|by right].
  destruct IH. split; constructor; eauto. eapply Hf; [by left|done].
Qed.

(** The export of a history is a list of as many entries as it has.  It fails exactly if one of its deliveries has a body that
    is not JSON, or a year of more than four digits: one delivery of other bytes keeps the whole
    history from being exported.  What is exported is JSON, three levels deeper than its bodies. *)
Theorem ExportToJSON_correct h :
  match ExportToJSON h with
  | Ok text => Forall (fun e => exportable (deref h e)) (h_entries h) /\ valid_to (maxNestingDepth + 3) text = true
      /\ exists entries, text = json_array entries /\ length entries = length (h_entries h)
  | Err err => err = ErrMarshalHistory /\ Exists (fun e => ~ exportable (deref h e)) (h_entries h)
  | Panic => False
  end.
Proof.
  unfold ExportToJSON.
  assert (forall e, match entry_json h e with Some v => exportable (deref h e) /\ reads (maxNestingDepth + 2) v
                    | None => ~ exportable (deref h e) end) as He.
  { intros e. unfold entry_json. pose proof (delivery_json_spec (deref h e)) as Hd.
    destruct (delivery_json (deref h e)); simpl; [|done]. destruct Hd. split; [done|].
    change (maxNestingDepth + 2) with (maxNestingDepth + 1 + 1). apply reads_object; [done|]. fields. }
  pose proof (mapM_spec (entry_json h) (reads (maxNestingDepth + 2)) (h_entries h)) as Hm.
  destruct (mapM (entry_json h) (h_entries h)) as [vs|] eqn:Hvs.
  - destruct Hm as [Hr Hs]. { intros e v _ Hv. specialize (He e). rewrite Hv in He. apply He. }
    split_and!.
    + eapply Forall_impl; [exact Hs|]. intros e [v Hv]. specialize (He e). rewrite Hv in He. apply He.
    + apply reads_valid. change (maxNestingDepth + 3) with (maxNestingDepth + 2 + 1). by apply reads_array.
    + exists vs. split; [done|]. symmetry. eapply Forall2_length. by apply mapM_Some.
  - split; [done|]. eapply Exists_impl.
    + apply Hm. intros e v _ Hv. specialize (He e). rewrite Hv in He. apply He.
    + intros e Hv. specialize (He e). simpl in He. rewrite Hv in He. exact He.
Qed.

(** What a report must have to be encoded. *)
Definition report_floats (r : WorkerHealthReport) : list float64 :=
  let m := hrep_Metrics r in let i := hrep_System r in
  [hm_AvgProcessTime m; hm_ErrorRate m; si_MemoryAllocMB i; si_MemoryTotalMB i; si_MemorySysMB i].
Definition report_times (r : WorkerHealthReport) : list Z :=
  [hrep_StartedAt r; hrep_LastHeartbeat r] ++ (ch_LastCheck <$> hrep_Components r).
Definition encodable (r : WorkerHealthReport) : Prop :=
  Forall (fun f => f64_is_finite f = true) (report_floats r) /\ Forall (fun t => is_Some (time_text t)) (report_times r).

Lemma components_json_spec d l : 0 <= d ->
  match mapM component_json l with
  | Some vs => Forall (fun t => is_Some (time_text t)) (ch_LastCheck <$> l) /\ Forall (reads (d + 1)) vs
  | None => ~ Forall (fun t => is_Some (time_text t)) (ch_LastCheck <$> l)
  end.
Proof.
  intros Hd. pose proof (mapM_spec component_json (reads (d + 1)) l) as Hm.
  assert (forall c, is_Some (component_json c) <-> is_Some (time_text (ch_LastCheck c))) as Hc.
  { intros c. unfold component_json. destruct (time_text _); simpl; split; intros []; eauto. }
  assert (forall c v, c ∈ l -> component_json c = Some v -> reads (d + 1) v) as Hr.
  { intros c v _. unfold component_json. destruct (time_text _); simpl; [|done]. intros [= <-]. apply reads_object; [done|]. fields. }
  specialize (Hm Hr). destruct (mapM component_json l).
  - destruct Hm as [Hm Hl]. split; [|done]. apply Forall_fmap. eapply Forall_impl; [exact Hl|]. intros c. apply Hc.
  - rewrite Forall_fmap. intros Hl. apply Exists_exists in Hm as (c & Hin & Hn). rewrite Forall_forall in Hl.
    apply Hl, Hc in Hin as [? Hin]. congruence.
Qed.

(** A report is encoded exactly if its floating-point values are finite and its years have four
    digits.  The text is JSON, and its field uptime_seconds is the number of nanoseconds. *)
Theorem MarshalReport_correct r :
  (forall d f, f64_is_finite f = true -> reads d (float_text f)) ->
  match MarshalReport r with
  | Ok text => encodable r /\ json_Valid text = true
      /\ exists front back, text = (front +:+ json_member ("uptime_seconds", itoa (hrep_Uptime r)) +:+ back)%string
  | Err err => err = ErrMarshalReport /\ ~ encodable r
  | Panic => False
  end.
Proof.
  intros Hfloat.
  assert (encodable r <-> ((f64_is_finite (hm_AvgProcessTime (hrep_Metrics r)) = true /\ f64_is_finite (hm_ErrorRate (hrep_Metrics r)) = true)
    /\ (f64_is_finite (si_MemoryAllocMB (hrep_System r)) = true /\ f64_is_finite (si_MemoryTotalMB (hrep_System r)) = true
        /\ f64_is_finite (si_MemorySysMB (hrep_System r)) = true)
    /\ (is_Some (time_text (hrep_StartedAt r)) /\ is_Some (time_text (hrep_LastHeartbeat r)))
    /\ Forall (fun t => is_Some (time_text t)) (ch_LastCheck <$> hrep_Components r))) as He.
  { unfold encodable, report_floats, report_times. rewrite Forall_app, !Forall_cons, !Forall_nil. tauto. }
  pose proof (components_json_spec (maxNestingDepth - 3) (hrep_Components r) ltac:(done)) as Hc. revert He.
  unfold MarshalReport, report_json, metrics_json, system_json, float_json.
  destruct (time_text (hrep_StartedAt r)); simpl; [|intros He; split; [done|]; by intros (_ & _ & ([] & _) & _)%He].
  destruct (time_text (hrep_LastHeartbeat r)); simpl; [|intros He; split; [done|]; by intros (_ & _ & (_ & []) & _)%He].
  destruct (mapM component_json _) as [cs|]; simpl; [|intros He; split; [done|]; by intros (_ & _ & _ & ?)%He]. destruct Hc as [Ht Hcs].
  destruct (f64_is_finite (hm_AvgProcessTime _)) eqn:H1; simpl; [|intros He; split; [done|]; by intros ((? & _) & _)%He].
  destruct (f64_is_finite (hm_ErrorRate _)) eqn:H2; simpl; [|intros He; split; [done|]; by intros ((_ & ?) & _)%He].
  destruct (f64_is_finite (si_MemoryAllocMB _)) eqn:H3; simpl; [|intros He; split; [done|]; by intros (_ & (? & _) & _)%He].
  destruct (f64_is_finite (si_MemoryTotalMB _)) eqn:H4; simpl; [|intros He; split; [done|]; by intros (_ & (_ & ? & _) & _)%He].
  destruct (f64_is_finite (si_MemorySysMB _)) eqn:H5; simpl; [|intros He; split; [done|]; by intros (_ & (_ & _ & ?) & _)%He].
  intros He. split; [apply He; split_and!; eauto|]. split.
  - apply reads_valid. change maxNestingDepth with (maxNestingDepth - 1 + 1). apply reads_object; [done|]. fields.
    + change (maxNestingDepth - 1) with (maxNestingDepth - 3 + 1 + 1). by apply reads_array.
    + change (maxNestingDepth - 1) with (maxNestingDepth - 2 + 1). apply reads_object; [done|]. fields.
    + change (maxNestingDepth - 1) with (maxNestingDepth - 2 + 1). apply reads_object; [done|]. fields.
  - exact (object_member ("uptime_seconds", itoa (hrep_Uptime r))%string [_; _; _] [_; _; _; _; _]).
Qed.
End exports.

(** ** Examples *)

Definition plain_time (t : Z) : option string := if t <? 0 then None else Some (itoa t).
Definition plain_float (f : float64) : string := match f64_trunc f with Some z => itoa z | None => "" end.

(** A delivery of the bytes "hello", which is not JSON, and an empty history otherwise. *)
Definition hello_history (body : string) : WebhookHistory :=
  RecordDelivery 1 (mkWebhookDelivery 1 2 "pipeline.started" "http://x" "success" 200 body "" 0 1 3 "" 5 6) "hook" "http://x"
    (NewWebhookHistory DefaultRetentionConfig).

Example hello_not_exported :
  ExportToJSON (fun n => itoa (Z.of_N n)) plain_time (hello_history "hello") = Err ErrMarshalHistory
  /\ exists text, ExportToJSON (fun n => itoa (Z.of_N n)) plain_time (hello_history "[1, 2]") = Ok text.
Proof. split; [reflexivity|]. eexists. vm_compute. reflexivity. Qed.

Lemma ExportToJSON_correct_witness :
  exists text, ExportToJSON (fun n => itoa (Z.of_N n)) plain_time (hello_history "[1, 2]") = Ok text
    /\ valid_to (maxNestingDepth + 3) text = true.
Proof.
  eexists. split; [vm_compute; reflexivity|].
  exact (proj1 (proj2 (ExportToJSON_correct (fun n => itoa (Z.of_N n)) plain_time (hello_history "[1, 2]")))).
Defined.

Definition zero_metrics : HealthMetrics := mkHealthMetrics 0 0 0 0 0 0 0 0 (f64_of_Z 0) (f64_of_Z 0) 0.
Definition plain_report : WorkerHealthReport :=
  mkReport "w" "host" HealthStatusHealthy (2 * Second) 0 (2 * Second) [mkComponentHealth "worker_pool" HealthStatusHealthy "" 1 0]
    zero_metrics (mkSystemInfo "go1.22" 4 9 (f64_of_Z 3) (f64_of_Z 3) (f64_of_Z 3) "").

Lemma plain_float_reads d f : f64_is_finite f = true -> reads d (plain_float f).
Proof. intros Hf. unfold plain_float. destruct f; try discriminate; apply reads_itoa. Qed.

(** A worker that is up for two seconds reports 2000000000. *)
Lemma MarshalReport_correct_witness :
  exists text front back, MarshalReport plain_time plain_float plain_report = Ok text /\ json_Valid text = true
    /\ text = (front +:+ json_member ("uptime_seconds", "2000000000") +:+ back)%string.
Proof.
  destruct (proj2 (proj2 (MarshalReport_correct plain_time plain_float plain_report plain_float_reads))) as (front & back & Ht).
  eexists. exists front, back. split; [vm_compute; reflexivity|].
  split; [exact (proj1 (proj2 (MarshalReport_correct plain_time plain_float plain_report plain_float_reads)))|]. exact Ht.
Defined.
