(* ===== verification/Circuit.v ===== *)
(** * The circuit breaker: internal/circuit/breaker.go

    The counters and the three states of [CircuitBreaker].  Calls overlap: a call is
    admitted by [begin_call], runs the protected function for any length of time, and
    is accounted by [end_call]; the background [probeLoop] ticks in between.  Each of
    these is one step of [breaker_step], on the breaker and the number of calls in
    flight.  Every operation that may change the state also lists the pairs it
    passes to [OnStateChange]. *)

From S2P Require Import Prelude.

(** ** Data *)

(* go: internal/circuit/breaker.go @10-16 State *)
Inductive State : Type := StateClosed | StateOpen | StateHalfOpen.

#[export] Instance State_eq_dec : EqDecision State.
Proof. solve_decision. Defined.

(* go: internal/circuit/breaker.go func State.String *)
Definition State_String (s : State) : string :=
  match s with
  | StateClosed => "closed"
  | StateOpen => "open"
  | StateHalfOpen => "half-open"
  end.

(* go: internal/circuit/breaker.go type Config *)
Record Config := mkConfig {
  FailureThreshold : Z;
  SuccessThreshold : Z;
  Timeout : Z;
  HalfOpenMaxCalls : Z;
  HalfOpenProbeInterval : Z
}.

(* go: internal/circuit/breaker.go type CircuitBreaker *)
Record CircuitBreaker := mkBreaker {
  config : Config;
  state : State;
  failures : Z;
  successes : Z;
  totalCalls : Z;
  failedCalls : Z;
  successCalls : Z;
  openCount : Z;
  lastFailure : Z;
  lastStateChange : Z
}.

(* go: internal/circuit/breaker.go type MetricSnapshot *)
Record MetricSnapshot := mkMetricSnapshot {
  ms_State : State;
  ms_TotalCalls : Z;
  ms_FailedCalls : Z;
  ms_SuccessCalls : Z;
  ms_OpenCount : Z;
  ms_LastFailure : Z;
  ms_LastStateChange : Z
}.

(* go: internal/circuit/breaker.go @68-71 ErrCircuitOpen *)
Inductive BreakerError : Type := ErrCircuitOpen | ErrTooManyRequests.

(** The atomic counters. *)
Definition add_total (cb : CircuitBreaker) : CircuitBreaker :=
  mkBreaker (config cb) (state cb) (failures cb) (successes cb) (uint64 (totalCalls cb + 1))
    (failedCalls cb) (successCalls cb) (openCount cb) (lastFailure cb) (lastStateChange cb).
Definition add_failed (cb : CircuitBreaker) : CircuitBreaker :=
  mkBreaker (config cb) (state cb) (failures cb) (successes cb) (totalCalls cb)
    (uint64 (failedCalls cb + 1)) (successCalls cb) (openCount cb) (lastFailure cb) (lastStateChange cb).
Definition add_success (cb : CircuitBreaker) : CircuitBreaker :=
  mkBreaker (config cb) (state cb) (failures cb) (successes cb) (totalCalls cb)
    (failedCalls cb) (uint64 (successCalls cb + 1)) (openCount cb) (lastFailure cb) (lastStateChange cb).
Definition store_lastFailure (now : Z) (cb : CircuitBreaker) : CircuitBreaker :=
  mkBreaker (config cb) (state cb) (failures cb) (successes cb) (totalCalls cb)
    (failedCalls cb) (successCalls cb) (openCount cb) now (lastStateChange cb).
Definition with_counts (cb : CircuitBreaker) (f s : Z) : CircuitBreaker :=
  mkBreaker (config cb) (state cb) f s (totalCalls cb)
    (failedCalls cb) (successCalls cb) (openCount cb) (lastFailure cb) (lastStateChange cb).

(** ** Construction *)

(* go: internal/circuit/breaker.go func NewConfig *)
Definition NewConfig : Config := mkConfig 5 3 (30 * Second) 1 (5 * Second).

Definition or_default (z d : Z) : Z := if z =? 0 then d else z.

(** The breaker and whether the probe goroutine is started. *)
(* go: internal/circuit/breaker.go func New *)
Definition New (now : Z) (c : Config) : CircuitBreaker * bool :=
  let c' := mkConfig (or_default (FailureThreshold c) 5) (or_default (SuccessThreshold c) 3)
              (or_default (Timeout c) (30 * Second)) (or_default (HalfOpenMaxCalls c) 1)
              (or_default (HalfOpenProbeInterval c) (5 * Second)) in
  (mkBreaker c' StateClosed 0 0 0 0 0 0 0 now, 0 <? HalfOpenProbeInterval c').

(** ** State changes *)

(* go: internal/circuit/breaker.go func CircuitBreaker.setState *)
Definition setState (now : Z) (new : State) (cb : CircuitBreaker) : CircuitBreaker * list (State * State) :=
  let old := state cb in
  if decide (old = new) then (cb, [])
  else (mkBreaker (config cb) new 0 0 (totalCalls cb) (failedCalls cb) (successCalls cb)
          (if decide (new = StateOpen) then uint64 (openCount cb + 1) else openCount cb)
          (lastFailure cb) now, [(old, new)]).

(* go: internal/circuit/breaker.go func CircuitBreaker.reset *)
Definition reset (now : Z) (cb : CircuitBreaker) : CircuitBreaker * list (State * State) :=
  (mkBreaker (config cb) StateClosed 0 0 (totalCalls cb) (failedCalls cb) (successCalls cb)
     (openCount cb) (lastFailure cb) now, [(StateHalfOpen, StateClosed)]).

Definition timed_out (now : Z) (cb : CircuitBreaker) : bool :=
  (0 <? Timeout (config cb)) && (Timeout (config cb) <? time_Sub now (lastStateChange cb)).

(* go: internal/circuit/breaker.go func CircuitBreaker.ready *)
Definition ready (now : Z) (cb : CircuitBreaker) : CircuitBreaker * bool * list (State * State) :=
  match state cb with
  | StateClosed => (cb, true, [])
  | StateOpen =>
      if timed_out now cb
      then let '(cb', evs) := setState now StateHalfOpen cb in (cb', true, evs)
      else (cb, false, [])
  | StateHalfOpen =>
      let total := uint32 (failures cb + successes cb) in
      (cb, negb (HalfOpenMaxCalls (config cb) <=? total), [])
  end.

(* go: internal/circuit/breaker.go func CircuitBreaker.recordFailure *)
Definition recordFailure (now : Z) (cb : CircuitBreaker) : CircuitBreaker * list (State * State) :=
  let cb1 := store_lastFailure now (add_failed cb) in
  match state cb1 with
  | StateHalfOpen => setState now StateOpen (with_counts cb1 (uint32 (failures cb1 + 1)) (successes cb1))
  | StateClosed =>
      let f := uint32 (failures cb1 + 1) in
      let cb2 := with_counts cb1 f (successes cb1) in
      if FailureThreshold (config cb2) <=? f then setState now StateOpen cb2 else (cb2, [])
  | StateOpen => (cb1, [])
  end.

(* go: internal/circuit/breaker.go func CircuitBreaker.recordSuccess *)
Definition recordSuccess (now : Z) (cb : CircuitBreaker) : CircuitBreaker * list (State * State) :=
  let cb1 := add_success cb in
  match state cb1 with
  | StateHalfOpen =>
      let s := uint32 (successes cb1 + 1) in
      let cb2 := with_counts cb1 (failures cb1) s in
      if SuccessThreshold (config cb2) <=? s then reset now cb2 else (cb2, [])
  | StateClosed => (with_counts cb1 0 (successes cb1), [])
  | StateOpen => (cb1, [])
  end.

(** One tick of the probe goroutine. *)
(* go: internal/circuit/breaker.go func CircuitBreaker.probeLoop *)
Definition probe_tick (now : Z) (cb : CircuitBreaker) : CircuitBreaker * list (State * State) :=
  if decide (state cb = StateOpen)
  then if timed_out now cb then setState now StateHalfOpen cb else (cb, [])
  else (cb, []).

(* go: internal/circuit/breaker.go func CircuitBreaker.Metrics *)
Definition Metrics (cb : CircuitBreaker) : MetricSnapshot :=
  mkMetricSnapshot (state cb) (totalCalls cb) (failedCalls cb) (successCalls cb) (openCount cb)
    (lastFailure cb) (lastStateChange cb).

(** ** Calls *)

(** [Call] up to the protected function: was it admitted? *)
(* go: internal/circuit/breaker.go @120-125 CircuitBreaker.Call *)
Definition begin_call (now : Z) (cb : CircuitBreaker) : CircuitBreaker * bool * list (State * State) :=
  let '(cb1, ok, evs) := ready now (add_total cb) in
  if ok then (cb1, true, evs) else (add_failed cb1, false, evs).

(** [Call] after the protected function. *)
(* go: internal/circuit/breaker.go @128-134 CircuitBreaker.Call *)
Definition end_call (now : Z) (failed : bool) (cb : CircuitBreaker) : CircuitBreaker * list (State * State) :=
  if failed then recordFailure now cb else recordSuccess now cb.

(** A call during which nothing else happens.  [fn] is what the function returns, a
    result and perhaps an error; [t0] and [t1] are the clock before and after it. *)
(* go: internal/circuit/breaker.go func CircuitBreaker.Call *)
Definition Call {E} (t0 t1 : Z) (fn : any * option E) (cb : CircuitBreaker)
  : CircuitBreaker * (any * option (E + BreakerError)) * list (State * State) :=
  match begin_call t0 cb with
  | (cb1, false, evs) => (cb1, (AnyNil, Some (inr ErrCircuitOpen)), evs)
  | (cb1, true, evs) =>
      match fn with
      | (result, Some err) =>
          let '(cb2, evs') := end_call t1 true cb1 in (cb2, (result, Some (inl err)), evs ++ evs')
      | (result, None) =>
          let '(cb2, evs') := end_call t1 false cb1 in (cb2, (result, None), evs ++ evs')
      end
  end.

(** ** Overlapping calls *)

Inductive action : Type :=
| Admit (now : Z)              (** a call starts and is admitted *)
| Reject (now : Z)             (** a call starts and is turned away *)
| Finish (now : Z) (failed : bool)
| Tick (now : Z).

(** The breaker and the number of calls in flight. *)
Inductive breaker_step : CircuitBreaker * nat -> action -> list (State * State) -> CircuitBreaker * nat -> Prop :=
| step_admit cb n now cb' evs :
    begin_call now cb = (cb', true, evs) -> breaker_step (cb, n) (Admit now) evs (cb', S n)
| step_reject cb n now cb' evs :
    begin_call now cb = (cb', false, evs) -> breaker_step (cb, n) (Reject now) evs (cb', n)
| step_finish cb n now failed cb' evs :
    end_call now failed cb = (cb', evs) -> breaker_step (cb, S n) (Finish now failed) evs (cb', n)
| step_tick cb n now cb' evs :
    probe_tick now cb = (cb', evs) -> breaker_step (cb, n) (Tick now) evs (cb', n).

(** Runs collect the pairs given to [OnStateChange]. *)
Inductive breaker_run : CircuitBreaker * nat -> list (State * State) -> CircuitBreaker * nat -> Prop :=
| run_nil st : breaker_run st [] st
| run_snoc st st1 st2 evs a evs' :
    breaker_run st evs st1 -> breaker_step st1 a evs' st2 -> breaker_run st (evs ++ evs') st2.

(** A configuration as [New] leaves it. *)
Record config_ok (c : Config) : Prop := {
  ok_failure : 0 < FailureThreshold c <= max_uint32;
  ok_success : 0 < SuccessThreshold c <= max_uint32;
  ok_maxcalls : 0 < HalfOpenMaxCalls c <= max_uint32
}.

(** The invariant: the counters of the current state stay below their thresholds,
    and every call is accounted for. *)
Record breaker_inv (st : CircuitBreaker * nat) : Prop := {
  bi_config : config_ok (config st.1);
  bi_closed : state st.1 = StateClosed -> 0 <= failures st.1 < FailureThreshold (config st.1) /\ successes st.1 = 0;
  bi_open : state st.1 = StateOpen -> failures st.1 = 0 /\ successes st.1 = 0;
  bi_half : state st.1 = StateHalfOpen -> failures st.1 = 0 /\ 0 <= successes st.1 < SuccessThreshold (config st.1);
  bi_calls : totalCalls st.1 = uint64 (successCalls st.1 + failedCalls st.1 + Z.of_nat st.2)
}.

(** The edges of the state diagram. *)
Definition transition (p : State * State) : bool :=
  match p with
  | (StateClosed, StateOpen) | (StateOpen, StateHalfOpen)
  | (StateHalfOpen, StateOpen) | (StateHalfOpen, StateClosed) => true
  | _ => false
  end.

(** The pairs reported from [s] to [s'] form a path of the diagram. *)
Fixpoint path (s : State) (evs : list (State * State)) (s' : State) : Prop :=
  match evs with
  | [] => s = s'
  | (a, b) :: evs' => a = s /\ transition (a, b) = true /\ path b evs' s'
  end.

(** ** The invariant of runs *)

Lemma config_ok_range c : config_ok c ->
  in_uint32 (FailureThreshold c) /\ in_uint32 (SuccessThreshold c) /\ in_uint32 (HalfOpenMaxCalls c).
Proof. unfold in_uint32. intros []. lia. Qed.

(** Counting one more call of each kind in the ledger of [bi_calls]. *)
Lemma calls_admit s f n t :
  t = uint64 (s + f + Z.of_nat n) -> uint64 (t + 1) = uint64 (s + f + Z.of_nat (S n)).
Proof. intros ->. rewrite wrap_u_add_l. f_equal. lia. Qed.

Lemma calls_reject s f n t :
  t = uint64 (s + f + Z.of_nat n) -> uint64 (t + 1) = uint64 (s + uint64 (f + 1) + Z.of_nat n).
Proof.
  intros ->. rewrite wrap_u_add_l. replace (s + uint64 (f + 1) + Z.of_nat n) with (uint64 (f + 1) + (s + Z.of_nat n)) by lia.
  rewrite wrap_u_add_l. f_equal. lia.
Qed.

Lemma calls_finish_ok s f n t :
  t = uint64 (s + f + Z.of_nat (S n)) -> t = uint64 (uint64 (s + 1) + f + Z.of_nat n).
Proof.
  intros ->. rewrite <- (Z.add_assoc (uint64 (s + 1))), wrap_u_add_l. f_equal. lia.
Qed.

Lemma calls_finish_failed s f n t :
  t = uint64 (s + f + Z.of_nat (S n)) -> t = uint64 (s + uint64 (f + 1) + Z.of_nat n).
Proof.
  intros ->. replace (s + uint64 (f + 1) + Z.of_nat n) with (uint64 (f + 1) + (s + Z.of_nat n)) by lia.
  rewrite wrap_u_add_l. f_equal. lia.
Qed.

Create HintDb breaker.
#[export] Hint Resolve calls_admit calls_reject calls_finish_ok calls_finish_failed : breaker.

(** Unfolds one operation on an explicit breaker. *)
Ltac breaker_cases :=
  unfold begin_call, end_call, ready, recordFailure, recordSuccess, probe_tick, setState, reset,
    add_total, add_failed, add_success, store_lastFailure, with_counts in *; simpl in *;
  repeat (case_match || simplify_eq/=).

Lemma breaker_step_inv st a evs st' :
  breaker_inv st -> breaker_step st a evs st' -> breaker_inv st' /\ path (state st.1) evs (state st'.1).
Proof.
  intros Hinv Hs. destruct Hs as [cb n now cb' evs Hb|cb n now cb' evs Hb|cb n now failed cb' evs He|cb n now cb' evs He];
    destruct cb as [c st f s t fc sc oc lf ls]; destruct Hinv as [Hc H1 H2 H3 H4]; simpl in *;
    destruct Hc as [Ha Hb' Hm]; breaker_cases;
    (split; [split; simpl; [by split|intros; simplify_eq; try (split; [lia|])..|eauto with breaker]|done]);
    repeat match goal with
      | H : ?x = ?x -> _ |- _ => specialize (H eq_refl)
      | H : (_ <=? _) = false |- _ => apply Z.leb_gt in H
      end; rewrite ?uint32_small in * by (unfold in_uint32; lia); lia.
Qed.

Lemma path_app s1 evs1 s2 evs2 s3 : path s1 evs1 s2 -> path s2 evs2 s3 -> path s1 (evs1 ++ evs2) s3.
Proof.
  revert s1. induction evs1 as [|[a b] evs1 IH]; intros s1; simpl; [by intros ->|].
  intros (-> & Ht & Hp) H2. eauto.
Qed.

Lemma breaker_run_ok st evs st' :
  breaker_inv st -> breaker_run st evs st' -> breaker_inv st' /\ path (state st.1) evs (state st'.1).
Proof.
  intros Hinv Hr. induction Hr as [|st st1 st2 evs a evs' Hr IH Hs]; [done|].
  destruct (IH Hinv) as [Hinv1 Hp]. destruct (breaker_step_inv _ _ _ _ Hinv1 Hs) as [Hinv2 Hp'].
  split; [done|]. by eapply path_app.
Qed.

Lemma New_inv now c :
  in_uint32 (FailureThreshold c) -> in_uint32 (SuccessThreshold c) -> in_uint32 (HalfOpenMaxCalls c) ->
  breaker_inv ((New now c).1, 0%nat).
Proof.
  unfold in_uint32, max_uint32. intros H1 H2 H3.
  assert (forall z d, 0 <= z <= 2 ^ 32 - 1 -> 0 < d <= 5 -> 0 < or_default z d <= 2 ^ 32 - 1) as Hd.
  { intros z d ? ?. unfold or_default. destruct (Z.eqb_spec z 0); lia. }
  split; simpl; [|intros _|done|done|done].
  - split; simpl; unfold max_uint32; apply Hd; lia.
  - split; [|done]. specialize (Hd (FailureThreshold c) 5). lia.
Qed.

(** ** Sequences of calls *)

(** [n] calls one after the other at the instant [now], all failing or all succeeding. *)
Fixpoint calls (n : nat) (now : Z) (failed : bool) (cb : CircuitBreaker) : CircuitBreaker :=
  match n with
  | O => cb
  | S n' => let '(cb', _, _) := Call now now (AnyNil, if failed then Some tt else None) cb in
            calls n' now failed cb'
  end.

Lemma Call_closed_failure now cb :
  breaker_inv (cb, 0%nat) -> state cb = StateClosed ->
  let '(cb', r, evs) := Call now now (AnyNil, Some tt) cb in
  r = (AnyNil, Some (inl tt)) /\ config cb' = config cb /\ breaker_inv (cb', 0%nat)
  /\ if failures cb + 1 <? FailureThreshold (config cb)
     then state cb' = StateClosed /\ failures cb' = failures cb + 1 /\ evs = []
     else state cb' = StateOpen /\ lastStateChange cb' = now /\ evs = [(StateClosed, StateOpen)].
Proof.
  intros Hinv Hst. unfold Call.
  destruct (begin_call now cb) as [[cb1 ok] evs1] eqn:Hb.
  assert (ok = true /\ evs1 = [] /\ cb1 = add_total cb) as (-> & -> & ->).
  { unfold begin_call, ready in Hb. simpl in Hb. rewrite Hst in Hb. by simplify_eq. }
  destruct (breaker_step_inv _ _ _ _ Hinv (step_admit _ _ _ _ _ Hb)) as [Hinv1 _].
  destruct (end_call now true (add_total cb)) as [cb2 evs2] eqn:He.
  destruct (breaker_step_inv _ _ _ _ Hinv1 (step_finish _ _ _ _ _ _ He)) as [Hinv2 _].
  destruct Hinv as [[] Hc _ _ _]; simpl in *. destruct (Hc Hst) as [Hf _].
  unfold end_call, recordFailure in He. simpl in He. rewrite Hst in He.
  rewrite uint32_small in He by (unfold in_uint32; lia).
  destruct (Z.ltb_spec (failures cb + 1) (FailureThreshold (config cb))), (Z.leb_spec (FailureThreshold (config cb)) (failures cb + 1));
    try lia; unfold setState in He; simpl in He; rewrite ?Hst in He; by simplify_eq/=.
Qed.

Lemma calls_failing n : forall now cb,
  breaker_inv (cb, 0%nat) -> state cb = StateClosed ->
  (failures cb + Z.of_nat n < FailureThreshold (config cb) ->
     state (calls n now true cb) = StateClosed /\ failures (calls n now true cb) = failures cb + Z.of_nat n)
  /\ (0 < Z.of_nat n -> failures cb + Z.of_nat n = FailureThreshold (config cb) ->
     state (calls n now true cb) = StateOpen /\ lastStateChange (calls n now true cb) = now).
Proof.
  induction n as [|n IH]; intros now cb Hinv Hst; [split; [simpl; split; [done|lia]|lia]|].
  cbn [calls]. pose proof (Call_closed_failure now cb Hinv Hst) as Hcall.
  destruct (Call now now (AnyNil, Some tt) cb) as [[cb' r] evs].
  destruct Hcall as (_ & Hcfg & Hinv' & Hcase).
  destruct (Z.ltb_spec (failures cb + 1) (FailureThreshold (config cb))).
  - destruct Hcase as (Hst' & Hf' & _). destruct (IH now cb' Hinv' Hst') as [IH1 IH2].
    rewrite Hcfg, Hf' in *. split.
    + intros Hlt. destruct IH1 as [-> ->]; [lia|]. split; [done|lia].
    + intros _ Heq. apply IH2; lia.
  - destruct Hcase as (Hst' & Hl & _). split; [lia|]. intros _ Heq.
    assert (n = 0%nat) as -> by lia. done.
Qed.

Lemma Call_half_success now cb :
  breaker_inv (cb, 0%nat) -> state cb = StateHalfOpen -> successes cb < HalfOpenMaxCalls (config cb) ->
  let '(cb', r, evs) := Call now now (AnyNil, @None unit) cb in
  config cb' = config cb /\ breaker_inv (cb', 0%nat)
  /\ if successes cb + 1 <? SuccessThreshold (config cb)
     then state cb' = StateHalfOpen /\ successes cb' = successes cb + 1
     else state cb' = StateClosed /\ failures cb' = 0.
Proof.
  intros Hinv Hst Hmax. unfold Call.
  pose proof Hinv as [[H1 H2 H3] _ _ Hh _]; cbn [fst] in *. destruct (Hh Hst) as [Hf0 Hs0].
  destruct (begin_call now cb) as [[cb1 ok] evs1] eqn:Hb.
  assert (ok = true /\ cb1 = add_total cb) as (-> & ->).
  { unfold begin_call, ready in Hb. simpl in Hb. rewrite Hst in Hb.
    rewrite Hf0, uint32_small in Hb by (unfold in_uint32; lia).
    destruct (Z.leb_spec (HalfOpenMaxCalls (config cb)) (0 + successes cb)); [lia|]. by simplify_eq/=. }
  destruct (breaker_step_inv _ _ _ _ Hinv (step_admit _ _ _ _ _ Hb)) as [Hinv1 _].
  destruct (end_call now false (add_total cb)) as [cb2 evs2] eqn:He.
  destruct (breaker_step_inv _ _ _ _ Hinv1 (step_finish _ _ _ _ _ _ He)) as [Hinv2 _].
  unfold end_call, recordSuccess, reset in He. simpl in He. rewrite Hst in He.
  rewrite uint32_small in He by (unfold in_uint32; lia).
  destruct (Z.ltb_spec (successes cb + 1) (SuccessThreshold (config cb))), (Z.leb_spec (SuccessThreshold (config cb)) (successes cb + 1));
    try lia; simplify_eq; (split_and!; [done|exact Hinv2|done|done]).
Qed.

Lemma calls_succeeding n : forall now cb,
  breaker_inv (cb, 0%nat) -> state cb = StateHalfOpen ->
  SuccessThreshold (config cb) <= HalfOpenMaxCalls (config cb) ->
  successes cb + Z.of_nat n = SuccessThreshold (config cb) ->
  state (calls n now false cb) = StateClosed /\ failures (calls n now false cb) = 0.
Proof.
  induction n as [|n IH]; intros now cb Hinv Hst Hle Heq.
  { destruct Hinv as [_ _ _ Hh _]; simpl in *. destruct (Hh Hst). lia. }
  cbn [calls]. pose proof (Call_half_success now cb Hinv Hst ltac:(lia)) as Hcall.
  destruct (Call now now (AnyNil, None) cb) as [[cb' r] evs].
  destruct Hcall as (Hcfg & Hinv' & Hcase).
  destruct (Z.ltb_spec (successes cb + 1) (SuccessThreshold (config cb))).
  - destruct Hcase as [Hst' Hs']. apply IH; [done|done|by rewrite Hcfg|rewrite Hcfg; lia].
  - assert (n = 0%nat) as -> by lia. done.
Qed.

(** ** The half-open state with its quota used up *)

(** Half open, no call in flight, as many successes as [HalfOpenMaxCalls] allows. *)
Definition stuck (st : CircuitBreaker * nat) : Prop :=
  state st.1 = StateHalfOpen /\ st.2 = 0%nat
  /\ HalfOpenMaxCalls (config st.1) <= uint32 (failures st.1 + successes st.1).

Lemma stuck_step st a evs st' : stuck st -> breaker_step st a evs st' ->
  stuck st' /\ evs = [] /\ match a with Admit _ => False | _ => True end.
Proof.
  intros (Hst & Hn & Hq) Hs. destruct Hs as [cb n now cb' evs Hb|cb n now cb' evs Hb|cb n now failed cb' evs He|cb n now cb' evs He];
    simpl in *; try done.
  - unfold begin_call, ready in Hb. simpl in Hb. rewrite Hst in Hb.
    destruct (Z.leb_spec (HalfOpenMaxCalls (config cb)) (uint32 (failures cb + successes cb))); [|lia]. done.
  - unfold begin_call, ready in Hb. simpl in Hb. rewrite Hst in Hb.
    destruct (Z.leb_spec (HalfOpenMaxCalls (config cb)) (uint32 (failures cb + successes cb))); [|lia].
    simplify_eq/=. by split_and!.
  - unfold probe_tick in He. rewrite Hst in He. simpl in He. by simplify_eq.
Qed.

Lemma stuck_run st evs st' : stuck st -> breaker_run st evs st' -> stuck st' /\ evs = [].
Proof.
  intros Hs Hr. induction Hr as [|st st1 st2 evs a evs' Hr IH Hs2]; [done|].
  destruct (IH Hs) as [H1 ->]. destruct (stuck_step _ _ _ _ H1 Hs2) as (H2 & -> & _). done.
Qed.

(** The default breaker after five failures, a pause and one success. *)
Definition five_failures : CircuitBreaker := calls 5 Second true (New 0 NewConfig).1.
Definition after_probe : CircuitBreaker := calls 1 (40 * Second) false five_failures.

(** Nothing bounds the calls admitted at once in the half-open state: the quota counts
    finished calls. *)
Example half_open_admits_many :
  let cb0 := (probe_tick (40 * Second) five_failures).1 in
  let adm cb := (begin_call (41 * Second) cb).1.1 in
  state cb0 = StateHalfOpen /\ HalfOpenMaxCalls (config cb0) = 1
  /\ (begin_call (41 * Second) cb0).1.2 = true /\ (begin_call (41 * Second) (adm cb0)).1.2 = true
  /\ (begin_call (41 * Second) (adm (adm cb0))).1.2 = true.
Proof. vm_compute. done. Qed.

(** ** Properties *)



(** A closed breaker with no calls in flight opens exactly when consecutive failures
    reach the threshold: after fewer it is still closed and has counted them, after
    exactly that many it is open. *)
Theorem breaker_opens_at_threshold (n : nat) (now : Z) (cb : CircuitBreaker)
  (Hinv : breaker_inv (cb, 0%nat)) (Hst : state cb = StateClosed) :
  (failures cb + Z.of_nat n < FailureThreshold (config cb) ->
     state (calls n now true cb) = StateClosed /\ failures (calls n now true cb) = failures cb + Z.of_nat n)
  /\ (0 < Z.of_nat n -> failures cb + Z.of_nat n = FailureThreshold (config cb) ->
     state (calls n now true cb) = StateOpen /\ lastStateChange (calls n now true cb) = now).
Proof. by apply calls_failing. Qed.

Lemma breaker_opens_at_threshold_witness :
  let cb := (New 0 NewConfig).1 in
  (failures cb + Z.of_nat 5 < FailureThreshold (config cb) ->
     state (calls 5 9 true cb) = StateClosed /\ failures (calls 5 9 true cb) = failures cb + Z.of_nat 5)
  /\ (0 < Z.of_nat 5 -> failures cb + Z.of_nat 5 = FailureThreshold (config cb) ->
     state (calls 5 9 true cb) = StateOpen /\ lastStateChange (calls 5 9 true cb) = 9).
Proof.
  apply (breaker_opens_at_threshold 5 9 (New 0 NewConfig).1); [|reflexivity].
  apply New_inv; vm_compute; split; discriminate.
Defined.

(** An open breaker turns a call away, without running it and without changing
    state, until more than [Timeout] has passed since it opened; then it admits the
    call as a probe and becomes half-open. *)
Theorem open_rejects_until_timeout {E} (t0 t1 : Z) (fn : any * option E) (cb : CircuitBreaker)
  (Hst : state cb = StateOpen) :
  (time_Sub t0 (lastStateChange cb) <= Timeout (config cb) ->
     let '(cb', r, evs) := Call t0 t1 fn cb in
     r = (AnyNil, Some (inr ErrCircuitOpen)) /\ evs = [] /\ state cb' = StateOpen
     /\ lastStateChange cb' = lastStateChange cb)
  /\ (0 < Timeout (config cb) < time_Sub t0 (lastStateChange cb) ->
     let '(cb', admitted, evs) := begin_call t0 cb in
     admitted = true /\ evs = [(StateOpen, StateHalfOpen)] /\ state cb' = StateHalfOpen).
Proof.
  unfold Call, begin_call, ready, timed_out. simpl. rewrite Hst. split.
  - intros Hle. destruct (Z.ltb_spec (Timeout (config cb)) (time_Sub t0 (lastStateChange cb))); [lia|].
    by rewrite andb_false_r.
  - intros [H1 H2]. apply Z.ltb_lt in H1, H2. rewrite H1, H2. unfold setState. simpl. by rewrite Hst.
Qed.

Lemma open_rejects_until_timeout_witness :
  (time_Sub (31 * Second) (lastStateChange five_failures) <= Timeout (config five_failures) ->
     let '(cb', r, evs) := Call (31 * Second) (32 * Second) (AnyInt 1, @None unit) five_failures in
     r = (AnyNil, Some (inr ErrCircuitOpen)) /\ evs = [] /\ state cb' = StateOpen
     /\ lastStateChange cb' = lastStateChange five_failures)
  /\ (0 < Timeout (config five_failures) < time_Sub (31 * Second) (lastStateChange five_failures) ->
     let '(cb', admitted, evs) := begin_call (31 * Second) five_failures in
     admitted = true /\ evs = [(StateOpen, StateHalfOpen)] /\ state cb' = StateHalfOpen).
Proof.
  apply (open_rejects_until_timeout (31 * Second) (32 * Second) (AnyInt 1, @None unit) five_failures).
  reflexivity.
Defined.

(** When [HalfOpenMaxCalls] is at least [SuccessThreshold], a half-open breaker
    closes after [SuccessThreshold] consecutive successful calls. *)
Theorem half_open_recovers (now : Z) (cb : CircuitBreaker)
  (Hinv : breaker_inv (cb, 0%nat)) (Hst : state cb = StateHalfOpen) (Hs : successes cb = 0)
  (Hcfg : SuccessThreshold (config cb) <= HalfOpenMaxCalls (config cb)) :
  let cb' := calls (Z.to_nat (SuccessThreshold (config cb))) now false cb in
  state cb' = StateClosed /\ failures cb' = 0.
Proof.
  apply calls_succeeding; [done..|]. rewrite Hs. pose proof (ok_success _ (bi_config _ Hinv)). simpl in *. lia.
Qed.

Definition half_open_3_3 : CircuitBreaker :=
  mkBreaker (mkConfig 5 3 (30 * Second) 3 (5 * Second)) StateHalfOpen 0 0 0 0 0 0 0 0.

Lemma half_open_recovers_witness :
  let cb' := calls (Z.to_nat (SuccessThreshold (config half_open_3_3))) 7 false half_open_3_3 in
  state cb' = StateClosed /\ failures cb' = 0.
Proof.
  apply (half_open_recovers 7 half_open_3_3); [|reflexivity..|vm_compute; discriminate].
  split; simpl; [split; simpl; unfold max_uint32; lia|done|done|intros _; lia|reflexivity].
Defined.

(** A half-open breaker that has used up [HalfOpenMaxCalls] with no call in flight
    stays half-open for ever: every later call is turned away and no probe changes it.
    When [HalfOpenMaxCalls] is below [SuccessThreshold], as in the default
    configuration, successes alone lead there. *)
Theorem half_open_stuck (st st' : CircuitBreaker * nat) (evs : list (State * State))
  (Hs : stuck st) (Hr : breaker_run st evs st') :
  state st'.1 = StateHalfOpen /\ evs = []
  /\ forall now, exists cb', begin_call now st'.1 = (cb', false, []).
Proof.
  destruct (stuck_run _ _ _ Hs Hr) as [Hst' ->]. pose proof Hst' as (H1 & H2 & _). split_and!; [done|done|].
  intros now. destruct (begin_call now st'.1) as [[cb' ok] evs'] eqn:Hb. exists cb'. destruct ok.
  - destruct (stuck_step (st'.1, st'.2) (Admit now) evs' (cb', S st'.2)) as (_ & _ & []);
      [by destruct st'|by apply step_admit].
  - destruct (stuck_step (st'.1, st'.2) (Reject now) evs' (cb', st'.2)) as (_ & -> & _);
      [by destruct st'|by apply step_reject|done].
Qed.

Lemma half_open_stuck_witness :
  stuck (after_probe, 0%nat) /\ state after_probe = StateHalfOpen /\ [] = @nil (State * State)
  /\ forall now, exists cb', begin_call now after_probe = (cb', false, []).
Proof.
  assert (stuck (after_probe, 0%nat)) as Hs by (vm_compute; split_and!; [reflexivity..|discriminate]).
  split; [exact Hs|]. apply (half_open_stuck (after_probe, 0%nat) (after_probe, 0%nat) [] Hs). constructor.
Defined.
