(* ===== verification/RetryBackoff.v ===== *)
(** * Retrying with backoff: internal/retry/exponential.go

    [calculateDelay] with its machine arithmetic, and the retry loop [Do] (and its
    generic twin [DoWithData]) as the trace of what it does: the calls of the
    function and the pauses between them.  The function under retry is given by its
    outcome at each attempt, the context by the attempts whose pause it interrupts. *)

From S2P Require Import Prelude GoFloat.

(** ** Configuration *)

(* go: internal/retry/exponential.go @11-18 Strategy *)
Inductive Strategy : Type :=
| StrategyFixed | StrategyLinear | StrategyExponential | StrategyExponentialWithJitter.

(* go: internal/retry/exponential.go type Config *)
Record Config := mkConfig {
  MaxAttempts : Z;
  BaseDelay : Z;
  MaxDelay : Z;
  strategy : Strategy;
  Jitter : float64
}.

(* go: internal/retry/exponential.go @28-28 Option *)
Definition Option : Type := Config -> Config.

(* go: internal/retry/exponential.go func WithMaxAttempts *)
Definition WithMaxAttempts (n : Z) : Option := fun c => mkConfig n (BaseDelay c) (MaxDelay c) (strategy c) (Jitter c).

(* go: internal/retry/exponential.go func WithBaseDelay *)
Definition WithBaseDelay (d : Z) : Option := fun c => mkConfig (MaxAttempts c) d (MaxDelay c) (strategy c) (Jitter c).

(* go: internal/retry/exponential.go func WithMaxDelay *)
Definition WithMaxDelay (d : Z) : Option := fun c => mkConfig (MaxAttempts c) (BaseDelay c) d (strategy c) (Jitter c).

(* go: internal/retry/exponential.go func WithExponentialBackoff *)
Definition WithExponentialBackoff : Option := fun c =>
  mkConfig (MaxAttempts c) (BaseDelay c) (MaxDelay c) StrategyExponential (Jitter c).

(* go: internal/retry/exponential.go func WithJitter *)
Definition WithJitter (j : float64) : Option := fun c =>
  mkConfig (MaxAttempts c) (BaseDelay c) (MaxDelay c) (strategy c) j.

(** The constant 0.2. *)
Definition f64_0_2 : float64 := S754_finite false 7205759403792794 (-55).

(* go: internal/retry/exponential.go func DefaultConfig *)
Definition DefaultConfig : Config :=
  mkConfig 3 (100 * Millisecond) (30 * Second) StrategyExponential f64_0_2.

(** ** Errors *)

(* go: internal/retry/exponential.go type PermanentError *)
Inductive error : Type :=
| PlainError (msg : string)
| PermanentError (err : error).

(* go: internal/retry/exponential.go func IsPermanent *)
Definition IsPermanent (err : error) : bool :=
  match err with PermanentError _ => true | PlainError _ => false end.

(* go: internal/retry/exponential.go func PermanentError.Error *)
Fixpoint error_Error (err : error) : string :=
  match err with
  | PlainError msg => msg
  | PermanentError e => ("permanent error: " +:+ error_Error e)%string
  end.

(* go: internal/retry/exponential.go func PermanentError.Unwrap *)
Definition Unwrap (err : error) : option error :=
  match err with PermanentError e => Some e | PlainError _ => None end.

(** What [Do] returns: [DoAllFailed] carries the wrapped error of the last attempt,
    with the number of that attempt. *)
Inductive DoError : Type :=
| DoContext
| DoAllFailed (maxAttempts : Z) (last : option (Z * error)).

(** ** The pause before an attempt *)

(** [conv] is what the platform gives for a float out of the range of [int64], [rnd]
    the number drawn by [rand.Float64]. *)
(* go: internal/retry/exponential.go func calculateDelay *)
Definition calculateDelay (conv : Z) (rnd : float64) (cfg : Config) (attempt : Z) : Z :=
  let backoff := int64 (BaseDelay cfg * f64_to_int64 conv (f64_pow2 (int64 (attempt - 1)))) in
  let delay :=
    match strategy cfg with
    | StrategyFixed => BaseDelay cfg
    | StrategyLinear => int64 (BaseDelay cfg * attempt)
    | StrategyExponential => backoff
    | StrategyExponentialWithJitter =>
        if f64_lt (f64_of_Z 0) (Jitter cfg)
        then
          let jitter := f64_to_int64 conv
              (f64_mul (f64_mul (f64_of_Z backoff) (Jitter cfg))
                       (f64_sub (f64_mul rnd (f64_of_Z 2)) (f64_of_Z 1))) in
          let delay' := int64 (backoff + jitter) in
          if delay' <? 0 then BaseDelay cfg else delay'
        else backoff
    end in
  if (0 <? MaxDelay cfg) && (MaxDelay cfg <? delay) then MaxDelay cfg else delay.

(** ** The retry loop *)

(** What the loop did, in order. *)
Inductive action : Type :=
| Called (attempt : Z)
| Slept (delay : Z).

Section retry.
Context {T : Type}.
(** The result of the function at an attempt, the attempts before which the context
    ends the pause, the platform's float conversion and the random numbers. *)
Context (fn : Z -> T + error) (cancelled : Z -> bool) (conv : Z) (rnd : Z -> float64).

(** [n] attempts are left when the counter is [attempt]. *)
(* go: internal/retry/exponential.go @107-126 DoWithData *)
Fixpoint do_loop (n : nat) (cfg : Config) (attempt : Z) (lastErr : option (Z * error))
  : list action * (T + DoError) :=
  match n with
  | O => ([], inr (DoAllFailed (MaxAttempts cfg) lastErr))
  | S n' =>
      let delay := calculateDelay conv (rnd attempt) cfg attempt in
      let pause := if 0 <? attempt then [Slept delay] else [] in
      if (0 <? attempt) && cancelled attempt then ([], inr DoContext)
      else
        match fn attempt with
        | inr err =>
            let '(acts, r) := do_loop n' cfg (attempt + 1) (Some (attempt + 1, err)) in
            (pause ++ Called attempt :: acts, r)
        | inl result => (pause ++ [Called attempt], inl result)
        end
  end.

(* go: internal/retry/exponential.go func DoWithData *)
Definition DoWithData (opts : list Option) : list action * (T + DoError) :=
  let cfg := foldl (fun c opt => opt c) DefaultConfig opts in
  do_loop (Z.to_nat (MaxAttempts cfg)) cfg 0 None.
End retry.

(** [Do] is the same loop for a function that returns only an error. *)
(* go: internal/retry/exponential.go func Do *)
Definition Do (fn : Z -> option error) (cancelled : Z -> bool) (conv : Z) (rnd : Z -> float64)
  (opts : list Option) : list action * option DoError :=
  let '(acts, r) := DoWithData (fun a => match fn a with Some err => inr err | None => inl tt end)
                      cancelled conv rnd opts in
  (acts, match r with inl _ => None | inr e => Some e end).

(** ** Bounds of the pauses *)

Lemma calculateDelay_le_max conv rnd cfg attempt :
  0 < MaxDelay cfg -> calculateDelay conv rnd cfg attempt <= MaxDelay cfg.
Proof.
  intros Hm. unfold calculateDelay. cbv zeta.
  match goal with |- context [MaxDelay cfg <? ?x] => generalize x; intros d end.
  apply Z.ltb_lt in Hm. rewrite Hm. simpl. apply Z.ltb_lt in Hm. destruct (Z.ltb_spec (MaxDelay cfg) d); lia.
Qed.

Lemma calculateDelay_exponential conv rnd cfg attempt :
  strategy cfg = StrategyExponential -> 1 <= attempt <= 63 -> 0 <= BaseDelay cfg ->
  BaseDelay cfg * 2 ^ (attempt - 1) <= max_int64 -> 0 < MaxDelay cfg ->
  calculateDelay conv rnd cfg attempt = Z.min (BaseDelay cfg * 2 ^ (attempt - 1)) (MaxDelay cfg).
Proof.
  intros Hs Ha Hb Ho Hm. unfold calculateDelay. rewrite Hs.
  rewrite (int64_small (attempt - 1)) by (unfold in_int64, min_int64, max_int64; lia).
  rewrite pow2_to_int64 by lia.
  rewrite (int64_small (BaseDelay cfg * 2 ^ (attempt - 1))).
  2:{ unfold in_int64. split; [|done]. unfold min_int64. pose proof (Z.pow_pos_nonneg 2 (attempt - 1)). nia. }
  apply Z.ltb_lt in Hm. rewrite Hm. simpl.
  destruct (Z.ltb_spec (MaxDelay cfg) (BaseDelay cfg * 2 ^ (attempt - 1))); lia.
Qed.

Lemma calculateDelay_jitter_nonneg conv rnd cfg attempt :
  strategy cfg = StrategyExponentialWithJitter -> f64_lt (f64_of_Z 0) (Jitter cfg) = true ->
  0 <= BaseDelay cfg -> 0 <= calculateDelay conv rnd cfg attempt.
Proof.
  intros Hs Hj Hb. unfold calculateDelay. rewrite Hs, Hj. cbv zeta.
  set (d := int64 (_ + _)). destruct (Z.ltb_spec d 0); destruct (Z.ltb_spec 0 (MaxDelay cfg)); simpl;
    repeat case_match; lia.
Qed.

(** ** What the loop does *)

(** The trace of attempts [a], [a+1], ... of which the last is [a + n]. *)
Fixpoint attempts_trace (pause : Z -> Z) (n : nat) (a : Z) : list action :=
  let here := if 0 <? a then [Slept (pause a); Called a] else [Called a] in
  match n with
  | O => here
  | S n' => here ++ attempts_trace pause n' (a + 1)
  end.

Section loop.
Context {T : Type} (fn : Z -> T + error) (conv : Z) (rnd : Z -> float64).
Abbreviation loop := (do_loop fn (fun _ => false) conv rnd).
Abbreviation pauses cfg := (fun a => calculateDelay conv (rnd a) cfg a).

Lemma trace_cons cfg n a :
  attempts_trace (pauses cfg) (S n) a
    = (if 0 <? a then [Slept (pauses cfg a)] else []) ++ Called a :: attempts_trace (pauses cfg) n (a + 1).
Proof. simpl. by destruct (0 <? a). Qed.

Lemma do_loop_success k : forall n cfg a last result,
  (k < n)%nat -> (forall i, (i < k)%nat -> exists err, fn (a + Z.of_nat i) = inr err) ->
  fn (a + Z.of_nat k) = inl result ->
  loop n cfg a last = (attempts_trace (pauses cfg) k a, inl result).
Proof.
  induction k as [|k IH]; intros [|n] cfg a last result Hn Hf Hs; try lia.
  - rewrite Z.add_0_r in Hs. cbn [do_loop attempts_trace]. rewrite andb_false_r, Hs. by destruct (0 <? a).
  - cbn [do_loop]. rewrite andb_false_r. destruct (Hf 0%nat) as [err Herr]; [lia|].
    rewrite Z.add_0_r in Herr. rewrite Herr.
    rewrite (IH n cfg (a + 1) _ result); [by rewrite trace_cons|lia| |].
    + intros i Hi. destruct (Hf (S i)) as [e He]; [lia|]. exists e. rewrite <- He. f_equal. lia.
    + rewrite <- Hs. f_equal. lia.
Qed.

Lemma do_loop_failure n : forall cfg a last err,
  (forall i, (i <= n)%nat -> exists e, fn (a + Z.of_nat i) = inr e) -> fn (a + Z.of_nat n) = inr err ->
  loop (S n) cfg a last
    = (attempts_trace (pauses cfg) n a, inr (DoAllFailed (MaxAttempts cfg) (Some (a + Z.of_nat n + 1, err)))).
Proof.
  induction n as [|n IH]; intros cfg a last err Hf He.
  - rewrite Z.add_0_r in *. cbn [do_loop attempts_trace]. rewrite andb_false_r, He. by destruct (0 <? a).
  - remember (S n) as m eqn:Hm. cbn [do_loop]. rewrite andb_false_r. subst m.
    destruct (Hf 0%nat) as [e0 He0]; [lia|]. rewrite Z.add_0_r in He0. rewrite He0.
    rewrite (IH cfg (a + 1) _ err).
    + rewrite trace_cons. f_equal. do 4 f_equal. lia.
    + intros i Hi. destruct (Hf (S i)) as [e Hi']; [lia|]. exists e. rewrite <- Hi'. f_equal. lia.
    + rewrite <- He. f_equal. lia.
Qed.
End loop.

(** ** Properties *)

Definition options_config (opts : list Option) : Config := foldl (fun c opt => opt c) DefaultConfig opts.

(** With a positive [MaxDelay] no strategy pauses longer than it; the exponential
    strategy pauses for [BaseDelay * 2^(attempt-1)] capped at [MaxDelay] as long as the
    product fits in 64 bits; and with jitter the pause is never negative, whatever
    the random number and even when the product overflows. *)
Theorem calculateDelay_bounds (conv : Z) (rnd : float64) (cfg : Config) (attempt : Z)
  (Hmax : 0 < MaxDelay cfg) (Hbase : 0 <= BaseDelay cfg) (Ha : 1 <= attempt <= 63) :
  calculateDelay conv rnd cfg attempt <= MaxDelay cfg
  /\ (strategy cfg = StrategyExponential -> BaseDelay cfg * 2 ^ (attempt - 1) <= max_int64 ->
        calculateDelay conv rnd cfg attempt = Z.min (BaseDelay cfg * 2 ^ (attempt - 1)) (MaxDelay cfg))
  /\ (strategy cfg = StrategyExponentialWithJitter -> f64_lt (f64_of_Z 0) (Jitter cfg) = true ->
        0 <= calculateDelay conv rnd cfg attempt).
Proof.
  split_and!; [by apply calculateDelay_le_max| |].
  - intros. by apply calculateDelay_exponential.
  - intros. by apply calculateDelay_jitter_nonneg.
Qed.

Lemma calculateDelay_bounds_witness :
  calculateDelay min_int64 (f64_of_Z 0) DefaultConfig 4 <= MaxDelay DefaultConfig
  /\ (strategy DefaultConfig = StrategyExponential -> BaseDelay DefaultConfig * 2 ^ (4 - 1) <= max_int64 ->
        calculateDelay min_int64 (f64_of_Z 0) DefaultConfig 4
          = Z.min (BaseDelay DefaultConfig * 2 ^ (4 - 1)) (MaxDelay DefaultConfig))
  /\ (strategy DefaultConfig = StrategyExponentialWithJitter ->
        f64_lt (f64_of_Z 0) (Jitter DefaultConfig) = true ->
        0 <= calculateDelay min_int64 (f64_of_Z 0) DefaultConfig 4).
Proof.
  apply (calculateDelay_bounds min_int64 (f64_of_Z 0) DefaultConfig 4); vm_compute; [done..|split; discriminate].
Defined.

(** The 64-bit product of the exponential backoff is not checked: with the default
    base of 100ms it overflows at attempt 38, where the pause is negative, that is no
    pause at all, and the cap of [MaxDelay] does not apply. *)
Theorem calculateDelay_overflow (conv : Z) (rnd : float64) :
  calculateDelay conv rnd DefaultConfig 37 = 30 * Second
  /\ calculateDelay conv rnd DefaultConfig 38 = -4702848726509551616
  /\ calculateDelay conv rnd DefaultConfig 38 < 0.
Proof. vm_compute. done. Qed.

(** C16: when the context is not cancelled, [Do] calls the function until it succeeds and
    at most [MaxAttempts] times, pausing for [calculateDelay] before each call but the
    first: it returns nil right after the first success at attempt [k], and after
    [MaxAttempts] failures the error of the last attempt with its number.  The kind of
    error makes no difference: a [PermanentError] is retried like any other. *)
Theorem Do_correct (fn : Z -> option error) (conv : Z) (rnd : Z -> float64) (opts : list Option) (m : nat)
  (Hm : MaxAttempts (options_config opts) = Z.of_nat (S m)) :
  let cfg := options_config opts in
  let pause a := calculateDelay conv (rnd a) cfg a in
  (forall k, (k <= m)%nat -> (forall i, (i < k)%nat -> fn (Z.of_nat i) <> None) -> fn (Z.of_nat k) = None ->
     Do fn (fun _ => false) conv rnd opts = (attempts_trace pause k 0, None))
  /\ (forall err, (forall i, (i <= m)%nat -> fn (Z.of_nat i) <> None) -> fn (Z.of_nat m) = Some err ->
     Do fn (fun _ => false) conv rnd opts
       = (attempts_trace pause m 0, Some (DoAllFailed (MaxAttempts cfg) (Some (Z.of_nat (S m), err))))).
Proof.
  cbv zeta. unfold Do, DoWithData. fold (options_config opts). rewrite Hm, Nat2Z.id.
  set (f := fun a => match fn a with Some err => inr err | None => inl tt end).
  assert (forall i, fn i <> None -> exists e, f i = inr e) as Hf.
  { intros i Hi. unfold f. destruct (fn i) as [e|]; [by exists e|done]. }
  split.
  - intros k Hk Hfail Hs. rewrite (do_loop_success f conv rnd k (S m) _ 0 None tt); [done|lia| |].
    + intros i Hi. by apply Hf, Hfail.
    + unfold f. by rewrite Z.add_0_l, Hs.
  - intros err Hfail He. rewrite (do_loop_failure f conv rnd m _ 0 None err).
    + rewrite Hm. f_equal. do 4 f_equal. lia.
    + intros i Hi. by apply Hf, Hfail.
    + unfold f. by rewrite Z.add_0_l, He.
Qed.

Lemma Do_correct_witness :
  let fn a := if a =? 2 then None else Some (PermanentError (PlainError "boom")) in
  Do fn (fun _ => false) min_int64 (fun _ => f64_of_Z 0) [WithMaxAttempts 4; WithBaseDelay Millisecond]
    = ([Called 0; Slept Millisecond; Called 1; Slept (2 * Millisecond); Called 2], None).
Proof.
  intros fn.
  destruct (Do_correct fn min_int64 (fun _ => f64_of_Z 0) [WithMaxAttempts 4; WithBaseDelay Millisecond] 3 eq_refl)
    as [Hok _].
  rewrite (Hok 2%nat); [vm_compute; reflexivity|lia| |reflexivity].
  intros [|[|i]] Hi; [discriminate|discriminate|lia].
Defined.
