(* ===== verification/Retryer.v ===== *)
(** * The retry package: pkg/retry/retry.go

    The result cache, the delays and the loop of [Retryer.Do].  The function under
    retry is given by what it returns at each attempt; when the context is found done
    and what the clock shows is the record [do_env]. *)

From S2P Require Import Prelude GoFloat.

(** ** Data *)

(* go: pkg/retry/retry.go @11-17 Strategy *)
Inductive Strategy : Type :=
| StrategyLinear | StrategyExponential | StrategyFibonacci | StrategyUnknown (n : Z).

(** [E] is the type of the errors of the function under retry. *)
Section retryer.
Context {E : Type}.

(* go: pkg/retry/retry.go @19-23 ErrRetryFailed *)
Inductive retry_error : Type :=
| ErrContextCanceled
| ErrRetryFailed (last : option E).

(* go: pkg/retry/retry.go type Config *)
Record Config := mkConfig {
  MaxAttempts : Z;
  BaseDelay : Z;
  MaxDelay : Z;
  strategy : Strategy;
  Jitter : Z;
  RetryableErr : option (E -> bool)
}.

(* go: pkg/retry/retry.go type Result *)
Record Result := mkResult {
  res_Value : any;
  res_Err : option retry_error;
  res_Attempts : Z;
  res_TotalTime : Z
}.

(* go: pkg/retry/retry.go type cacheEntry *)
Record cacheEntry := mkCacheEntry { ce_value : any; ce_err : option retry_error; ce_expiresAt : Z }.

(* go: pkg/retry/retry.go type resultCache *)
Record resultCache := mkResultCache { entries : gmap string cacheEntry; ttl : Z; capacity : Z }.

(* go: pkg/retry/retry.go type Retryer *)
Record Retryer := mkRetryer { config : Config; cache : option resultCache }.

(** ** The result cache *)

(* go: pkg/retry/retry.go func newResultCache *)
Definition newResultCache (t cap : Z) : resultCache :=
  mkResultCache ∅ t (if cap <=? 0 then 1000 else cap).

(** An expired entry is deleted on the way. *)
(* go: pkg/retry/retry.go func resultCache.Get *)
Definition cache_Get (now : Z) (key : string) (c : resultCache)
  : resultCache * option (any * option retry_error) :=
  match entries c !! key with
  | None => (c, None)
  | Some e =>
      if negb (time_IsZero (ce_expiresAt e)) && time_After now (ce_expiresAt e)
      then (mkResultCache (delete key (entries c)) (ttl c) (capacity c), None)
      else (c, Some (ce_value e, ce_err e))
  end.

(** [ord] is the order of the loop that evicts: its first key goes. *)
(* go: pkg/retry/retry.go func resultCache.Set *)
Definition cache_Set (now : Z) (ord : list string) (key : string) (value : any)
  (err : option retry_error) (t : Z) (c : resultCache) : resultCache :=
  let es := if capacity c <=? Z.of_nat (size (entries c))
            then match ord with k :: _ => delete k (entries c) | [] => entries c end
            else entries c in
  let exp := if 0 <? t then now + t else 0 in
  mkResultCache (<[key := mkCacheEntry value err exp]> es) (ttl c) (capacity c).

(** ** Construction *)

(* go: pkg/retry/retry.go func New *)
Definition New (c : Config) : Retryer :=
  mkRetryer
    (mkConfig (if MaxAttempts c <=? 0 then 3 else MaxAttempts c)
       (if BaseDelay c <=? 0 then 100 * Millisecond else BaseDelay c)
       (if MaxDelay c <=? 0 then 30 * Second else MaxDelay c)
       (strategy c) (Jitter c)
       (Some (match RetryableErr c with Some f => f | None => fun _ => true end)))
    None.

(* go: pkg/retry/retry.go func Retryer.WithCache *)
Definition WithCache (t cap : Z) (r : Retryer) : Retryer := mkRetryer (config r) (Some (newResultCache t cap)).

(* go: pkg/retry/retry.go func ResetCache *)
Definition ResetCache (r : Retryer) : Retryer :=
  match cache r with
  | Some c => mkRetryer (config r) (Some (mkResultCache ∅ (ttl c) (capacity c)))
  | None => r
  end.

(** ** Delays *)

(** The loop of [fibonacciDelay], [n] iterations from [(a, b)]. *)
(* go: pkg/retry/retry.go @239-242 fibonacciDelay *)
Fixpoint fib_loop (n : nat) (a b : Z) : Z :=
  match n with
  | O => b
  | S n' => fib_loop n' b (int64 (a + b))
  end.

(* go: pkg/retry/retry.go func fibonacciDelay *)
Definition fibonacciDelay (attempt base : Z) : Z := int64 (fib_loop (Z.to_nat (attempt - 2)) 1 1 * base).

(** The switch on the strategy. *)
(* go: pkg/retry/retry.go @212-224 Retryer.delay *)
Definition raw_delay (conv : Z) (cfg : Config) (attempt : Z) : Z :=
  match strategy cfg with
  | StrategyLinear => int64 (attempt * BaseDelay cfg)
  | StrategyExponential => int64 (f64_to_int64 conv (f64_pow2 (int64 (attempt - 1))) * BaseDelay cfg)
  | StrategyFibonacci => fibonacciDelay attempt (BaseDelay cfg)
  | StrategyUnknown _ => int64 (attempt * BaseDelay cfg)
  end.

(* go: pkg/retry/retry.go func Retryer.delay *)
Definition delay (conv : Z) (cfg : Config) (attempt : Z) : Z :=
  let d := raw_delay conv cfg attempt in
  let d := if (0 <? MaxDelay cfg) && (MaxDelay cfg <? d) then MaxDelay cfg else d in
  if 0 <? Jitter cfg
  then int64 (d + Z.rem (int64 (Jitter cfg * attempt)) (int64 (Jitter cfg + 1)))
  else d.

(** ** The loop *)

Record do_env := mkDoEnv {
  done_before : Z -> bool;      (** the context at the head of an attempt *)
  done_during : Z -> bool;      (** the context in the pause after an attempt *)
  get_time : Z;
  set_time : Z;
  elapsed : Z;                  (** [time.Since(start)] *)
  evict : list string
}.

Inductive loop_end : Type :=
| LoopCanceled (attempts : Z)
| LoopSuccess (attempts : Z) (val : any)
| LoopFailed (attempts : Z) (last : option E)
| LoopPanics.

(** [n] attempts are left, the next is [attempt].  Calling a nil [RetryableErr] would
    panic. *)
(* go: pkg/retry/retry.go @149-195 Retryer.Do *)
Fixpoint do_loop (w : do_env) (fn : Z -> any * option E) (cfg : Config) (n : nat) (attempt attempts : Z)
  (lastErr : option E) : loop_end :=
  match n with
  | O => LoopFailed attempts lastErr
  | S n' =>
      if done_before w attempt then LoopCanceled attempts
      else
        match fn attempt with
        | (val, None) => LoopSuccess attempt val
        | (_, Some err) =>
            match RetryableErr cfg with
            | None => LoopPanics
            | Some retryable =>
                if negb (retryable err) then LoopFailed attempt (Some err)
                else if (attempt <? MaxAttempts cfg) && done_during w attempt then LoopCanceled attempt
                else do_loop w fn cfg n' (attempt + 1) attempt (Some err)
            end
        end
  end.

(* go: pkg/retry/retry.go func Retryer.cacheKey *)
Definition cacheKey : string := "".

(* go: pkg/retry/retry.go func Retryer.Do *)
Definition Do (w : do_env) (fn : Z -> any * option E) (r : Retryer) : outcome (Retryer * Result) :=
  let after_get := match cache r with
                   | Some c => let '(c', hit) := cache_Get (get_time w) cacheKey c in (Some c', hit)
                   | None => (None, None)
                   end in
  let '(cch, hit) := after_get in
  match hit with
  | Some (val, err) => Returns (mkRetryer (config r) cch, mkResult val err 0 (elapsed w))
  | None =>
      let set value err := match cch with
                           | Some c => Some (cache_Set (set_time w) (evict w) cacheKey value err (ttl c) c)
                           | None => None
                           end in
      match do_loop w fn (config r) (Z.to_nat (MaxAttempts (config r))) 1 0 None with
      | LoopPanics => Panics
      | LoopCanceled n => Returns (mkRetryer (config r) cch, mkResult AnyNil (Some ErrContextCanceled) n (elapsed w))
      | LoopSuccess n val => Returns (mkRetryer (config r) (set val None), mkResult val None n (elapsed w))
      | LoopFailed n last =>
          let err := Some (ErrRetryFailed last) in
          Returns (mkRetryer (config r) (set AnyNil err), mkResult AnyNil err n (elapsed w))
      end
  end.

End retryer.
Arguments retry_error : clear implicits.
Arguments Config : clear implicits.
Arguments Result : clear implicits.
Arguments resultCache : clear implicits.
Arguments Retryer : clear implicits.

(** ** Fibonacci numbers *)

Fixpoint fib (n : nat) : Z :=
  match n with
  | O => 0
  | S n' => match n' with O => 1 | S n'' => fib n' + fib n'' end
  end.

Lemma fib_SS n : fib (S (S n)) = fib (S n) + fib n.
Proof. done. Qed.

Lemma fib_loop_fib n : forall k, int64 (fib_loop n (int64 (fib (S k))) (int64 (fib (S (S k))))) = int64 (fib (n + S (S k))).
Proof.
  induction n as [|n IH]; intros k; cbn [fib_loop].
  - rewrite <- (Z.add_0_r (int64 (fib (S (S k))))), wrap_s_add_l by lia. f_equal. simpl. lia.
  - rewrite wrap_s_add_l, wrap_s_add_r by lia.
    replace (fib (S k) + fib (S (S k))) with (fib (S (S (S k)))) by (rewrite (fib_SS (S k)); lia).
    rewrite IH. do 2 f_equal. lia.
Qed.

Lemma fibonacciDelay_fib attempt base :
  1 <= attempt -> fibonacciDelay attempt base = int64 (fib (Z.to_nat attempt) * base).
Proof.
  intros Ha. unfold fibonacciDelay. rewrite <- wrap_s_mul_l by lia.
  pose proof (fib_loop_fib (Z.to_nat (attempt - 2)) 0) as Hf.
  change (int64 (fib 1)) with 1 in Hf. change (int64 (fib 2)) with 1 in Hf.
  replace (int64 (fib_loop (Z.to_nat (attempt - 2)) 1 1)) with (int64 (fib (Z.to_nat attempt))).
  - by rewrite wrap_s_mul_l.
  - rewrite Hf. destruct (Z.eq_dec attempt 1) as [->|]; [done|].
    do 2 f_equal. lia.
Qed.

(** ** The cache *)

(** What the constructor and the two operations keep. *)
Definition cache_ok {E} (c : resultCache E) : Prop := 1 <= capacity c /\ Z.of_nat (size (entries c)) <= capacity c.

Lemma size_evict_insert (K V : Type) `{Countable K} (m : gmap K V) k k' v :
  is_Some (m !! k) -> (size (<[k' := v]> (delete k m)) <= size m)%nat.
Proof.
  intros [x Hx]. pose proof (map_size_insert k' v (delete k m)) as Hs.
  rewrite (map_size_delete_Some k m) in Hs by eauto.
  assert (size m <> 0)%nat by (intros H0%map_size_empty_inv; subst; by rewrite lookup_empty in Hx).
  rewrite Hs. destruct (delete k m !! k'); simpl; lia.
Qed.

Lemma cache_Set_ok {E} now ord key value err t (c : resultCache E) :
  cache_ok c -> range_order (entries c) ord -> cache_ok (cache_Set now ord key value err t c).
Proof.
  intros [H1 H2] Ho. unfold cache_ok, cache_Set; simpl. split; [done|].
  destruct (Z.leb_spec (capacity c) (Z.of_nat (size (entries c)))).
  - destruct ord as [|k ord].
    { apply Permutation_length in Ho. rewrite length_keys in Ho. simpl in Ho. lia. }
    assert (is_Some (entries c !! k)) as Hk by (apply (range_order_elem _ _ _ Ho); left).
    pose proof (size_evict_insert _ _ (entries c) k key
      (mkCacheEntry value err (if 0 <? t then now + t else 0)) Hk). lia.
  - rewrite map_size_insert. destruct (entries c !! key); simpl; lia.
Qed.

Lemma cache_Get_ok {E} now key (c : resultCache E) : cache_ok c -> cache_ok (cache_Get now key c).1.
Proof.
  intros [H1 H2]. unfold cache_ok, cache_Get. destruct (entries c !! key) eqn:He; [|done].
  destruct (_ && _); [|done]. simpl. split; [done|].
  rewrite (map_size_delete_Some key (entries c)) by eauto. lia.
Qed.

Lemma cache_Get_Set {E} now now' ord key value err t (c : resultCache E) :
  0 < t -> 0 <= now -> (cache_Get now' key (cache_Set now ord key value err t c)).2
    = if now + t <? now' then None else Some (value, err).
Proof.
  intros Ht Hn. unfold cache_Get, cache_Set; simpl. rewrite lookup_insert_eq; simpl.
  apply Z.ltb_lt in Ht as Ht'. rewrite Ht'. unfold time_IsZero, time_After.
  destruct (Z.eqb_spec (now + t) 0); [lia|]. simpl. by destruct (now + t <? now').
Qed.

(** ** The loop *)

Lemma do_loop_ends {E} w fn (cfg : Config E) retryable (k : nat) : forall n a attempts last,
  RetryableErr cfg = Some retryable ->
  (forall i, done_before w i = false) -> (forall i, done_during w i = false) ->
  (k < n)%nat ->
  (forall i, (i < k)%nat -> exists v e, fn (a + Z.of_nat i) = (v, Some e) /\ retryable e = true) ->
  do_loop w fn cfg n a attempts last
    = match fn (a + Z.of_nat k) with
      | (val, None) => LoopSuccess (a + Z.of_nat k) val
      | (_, Some err) =>
          if retryable err then do_loop w fn cfg (n - S k) (a + Z.of_nat (S k)) (a + Z.of_nat k) (Some err)
          else LoopFailed (a + Z.of_nat k) (Some err)
      end.
Proof.
  induction k as [|k IH]; intros [|n] a attempts last Hr Hb Hd Hn Hf; try lia; cbn [do_loop].
  - rewrite Z.add_0_r, Hb, Hr, Hd, andb_false_r. replace (S n - 1)%nat with n by lia.
    destruct (fn a) as [v [e|]]; [|done]. by destruct (retryable e).
  - destruct (Hf 0%nat) as (v & e & He & Hre); [lia|]. rewrite Z.add_0_r in He.
    rewrite Hb, He, Hr, Hre, Hd, andb_false_r. cbn [negb].
    rewrite (IH n (a + 1) a (Some e)); [|done..|lia|].
    + replace (S n - S (S k))%nat with (n - S k)%nat by lia.
      replace (a + 1 + Z.of_nat k) with (a + Z.of_nat (S k)) by lia.
      replace (a + 1 + Z.of_nat (S k)) with (a + Z.of_nat (S (S k))) by lia. done.
    + intros i Hi. destruct (Hf (S i)) as (v' & e' & He' & Hr'); [lia|]. exists v', e'. split; [|done].
      rewrite <- He'. f_equal. lia.
Qed.

(** ** Properties *)

(** A retryer without a cache, not cancelled, stops at the first attempt [k] that
    succeeds, fails with an error that is not retryable, or is the last one allowed:
    it reports [k] attempts, with the value of the success or [ErrRetryFailed] joined
    with the error of attempt [k]. *)
Theorem Retryer_Do_correct {E} (w : do_env) (fn : Z -> any * option E) (c : Config E)
  (retryable : E -> bool) (k : nat)
  (Hret : RetryableErr (config (New c)) = Some retryable)
  (Hb : forall i, done_before w i = false) (Hd : forall i, done_during w i = false)
  (Hk : Z.of_nat (S k) <= MaxAttempts (config (New c)))
  (Hf : forall i, (i < k)%nat -> exists v e, fn (1 + Z.of_nat i) = (v, Some e) /\ retryable e = true) :
  (forall val, fn (Z.of_nat (S k)) = (val, None) ->
     Do w fn (New c) = Returns (New c, mkResult val None (Z.of_nat (S k)) (elapsed w)))
  /\ (forall v err, fn (Z.of_nat (S k)) = (v, Some err) ->
      retryable err = false \/ Z.of_nat (S k) = MaxAttempts (config (New c)) ->
      Do w fn (New c)
        = Returns (New c, mkResult AnyNil (Some (ErrRetryFailed (Some err))) (Z.of_nat (S k)) (elapsed w))).
Proof.
  assert (1 + Z.of_nat k = Z.of_nat (S k)) as Hk1 by lia.
  unfold Do. cbn [cache New]. fold (New c).
  rewrite (do_loop_ends w fn (config (New c)) retryable k _ 1 0 None Hret Hb Hd); [|lia|done].
  rewrite Hk1. split.
  - intros val ->. done.
  - intros v err -> Hor. destruct (retryable err) eqn:Hre; [|done].
    destruct Hor as [|Hmax]; [done|].
    replace (Z.to_nat (MaxAttempts (config (New c))) - S k)%nat with 0%nat by lia. done.
Qed.

Definition small_config : Config string := mkConfig 4 0 0 StrategyFibonacci 0 (Some (fun e => bool_decide (e <> "fatal"))).
Definition calm : do_env := mkDoEnv (fun _ => false) (fun _ => false) 100 110 20 [].
Definition flaky (a : Z) : any * option string := if a =? 3 then (AnyInt 5, None) else (AnyNil, Some "busy").

Lemma Retryer_Do_correct_witness :
  Do calm flaky (New small_config) = Returns (New small_config, mkResult (AnyInt 5) None 3 20).
Proof.
  destruct (Retryer_Do_correct calm flaky small_config (fun e => bool_decide (e <> "fatal")) 2 eq_refl)
    as [Hok _]; [done|done|vm_compute; discriminate| |].
  - intros [|[|i]] Hi; [| |lia]; (eexists _, _; split; reflexivity).
  - apply (Hok (AnyInt 5)). reflexivity.
Defined.

(** The Fibonacci strategy multiplies the base by the Fibonacci number of the attempt
    (1, 1, 2, 3, 5, ...), modulo 2^64; and as long as the product of the strategy is not
    negative, the pause is that product capped at [MaxDelay], plus a jitter of at most
    [Jitter], so it may exceed [MaxDelay] by that much. *)
Theorem delay_bounds {E} (conv : Z) (cfg : Config E) (attempt : Z)
  (Hraw : 0 <= raw_delay conv cfg attempt) (Hmax : 0 < MaxDelay cfg) (Hj : 0 <= Jitter cfg) (Ha : 1 <= attempt)
  (Hsum : MaxDelay cfg + Jitter cfg <= max_int64) (Hprod : Jitter cfg * attempt <= max_int64) :
  (strategy cfg = StrategyFibonacci ->
     raw_delay conv cfg attempt = int64 (fib (Z.to_nat attempt) * BaseDelay cfg))
  /\ Z.min (raw_delay conv cfg attempt) (MaxDelay cfg) <= delay conv cfg attempt
       <= Z.min (raw_delay conv cfg attempt) (MaxDelay cfg) + Jitter cfg.
Proof.
  split; [intros Hs; unfold raw_delay; rewrite Hs; by apply fibonacciDelay_fib|].
  unfold delay. generalize dependent (raw_delay conv cfg attempt). intros raw Hraw.
  apply Z.ltb_lt in Hmax as Hm. rewrite Hm. cbn [andb].
  replace (if MaxDelay cfg <? raw then MaxDelay cfg else raw) with (Z.min raw (MaxDelay cfg))
    by (destruct (Z.ltb_spec (MaxDelay cfg) raw); lia).
  destruct (Z.ltb_spec 0 (Jitter cfg)); [|lia].
  unfold max_int64 in *.
  rewrite (int64_small (Jitter cfg * attempt)) by (unfold in_int64, min_int64, max_int64; nia).
  rewrite (int64_small (Jitter cfg + 1)) by (unfold in_int64, min_int64, max_int64; lia).
  pose proof (Z.rem_bound_pos (Jitter cfg * attempt) (Jitter cfg + 1) ltac:(nia) ltac:(lia)).
  rewrite int64_small by (unfold in_int64, min_int64, max_int64; lia). lia.
Qed.

Lemma delay_bounds_witness :
  let cfg := mkConfig (E := string) 4 Second (3 * Second) StrategyFibonacci (10 * Millisecond) None in
  (strategy cfg = StrategyFibonacci -> raw_delay 0 cfg 5 = int64 (fib (Z.to_nat 5) * BaseDelay cfg))
  /\ Z.min (raw_delay 0 cfg 5) (MaxDelay cfg) <= delay 0 cfg 5
       <= Z.min (raw_delay 0 cfg 5) (MaxDelay cfg) + Jitter cfg.
Proof.
  intros cfg. apply (delay_bounds 0 cfg 5); vm_compute; discriminate || reflexivity.
Defined.

(** The cache never holds more than its capacity, and an entry is returned by [Get]
    until its time to live has passed and not after. *)
Theorem result_cache_correct {E} (now now' : Z) (ord : list string) (key : string) (value : any)
  (err : option (retry_error E)) (t : Z) (c : resultCache E)
  (Hc : cache_ok c) (Hord : range_order (entries c) ord) (Ht : 0 < t) (Hnow : 0 <= now) :
  let c' := cache_Set now ord key value err t c in
  cache_ok c' /\ cache_ok (cache_Get now' key c').1
  /\ (cache_Get now' key c').2 = (if now + t <? now' then None else Some (value, err)).
Proof.
  cbv zeta. split_and!; [by apply cache_Set_ok|by apply cache_Get_ok, cache_Set_ok|by apply cache_Get_Set].
Qed.

Definition full_cache : resultCache string :=
  mkResultCache {["a" := mkCacheEntry (AnyInt 1) None 0]} Minute 1.

Lemma result_cache_correct_witness :
  let c' := cache_Set 50 ["a"] "b" (AnyInt 2) None 10 full_cache in
  cache_ok c' /\ cache_ok (cache_Get 60 "b" c').1
  /\ (cache_Get 60 "b" c').2 = (if 50 + 10 <? 60 then None else Some (AnyInt 2, None)).
Proof.
  apply (result_cache_correct 50 60 ["a"] "b" (AnyInt 2) None 10 full_cache); [|unfold range_order; reflexivity|lia|lia].
  split; vm_compute; discriminate.
Defined.

(** [cacheKey] is the same for every function, so a cached result of one function is
    returned for another: after a success of [fn1], a call with any other [fn2] before
    the entry expires returns the value of [fn1], with zero attempts. *)
Theorem Do_cache_shared {E} (w1 w2 : do_env) (fn1 fn2 : Z -> any * option E) (r r1 : Retryer E)
  (c : resultCache E) (res1 : Result E)
  (Hc : cache r = Some c) (Hempty : entries c = ∅) (Httl : 0 < ttl c) (Hset : 0 <= set_time w1)
  (H1 : Do w1 fn1 r = Returns (r1, res1)) (Hok : res_Err res1 = None)
  (Hget : get_time w2 <= set_time w1 + ttl c) :
  Do w2 fn2 r1 = Returns (r1, mkResult (res_Value res1) None 0 (elapsed w2)).
Proof.
  unfold Do in H1. rewrite Hc in H1. unfold cache_Get in H1. rewrite Hempty, lookup_empty in H1.
  destruct (do_loop _ _ _ _ _ _ _) as [n|n val|n last|]; simplify_eq/=.
  unfold Do. cbn [cache config]. rewrite (surjective_pairing (cache_Get _ _ _)), cache_Get_Set by done.
  destruct (Z.ltb_spec (set_time w1 + ttl c) (get_time w2)); [lia|].
  unfold cache_Get, cache_Set; simpl. rewrite lookup_insert_eq; simpl.
  apply Z.ltb_lt in Httl as Ht. rewrite Ht. unfold time_After.
  destruct (Z.ltb_spec (set_time w1 + ttl c) (get_time w2)); [lia|]. by rewrite andb_false_r.
Qed.

Lemma Do_cache_shared_witness :
  match Do calm flaky (WithCache Minute 0 (New small_config)) with
  | Returns (r1, res1) =>
      Do calm (fun _ => (AnyString "other", None)) r1 = Returns (r1, mkResult (res_Value res1) None 0 20)
  | _ => False
  end.
Proof.
  destruct (Do calm flaky (WithCache Minute 0 (New small_config))) as [[r1 res1]| |] eqn:H1;
    [|vm_compute in H1; discriminate..].
  apply (Do_cache_shared calm calm flaky (fun _ => (AnyString "other", None))
    (WithCache Minute 0 (New small_config)) r1 (newResultCache Minute 0) res1 eq_refl eq_refl eq_refl
    ltac:(vm_compute; discriminate) H1).
  - vm_compute in H1. injection H1 as <- <-. reflexivity.
  - vm_compute. discriminate.
Defined.
