(* ===== verification/Rbac.v ===== *)
(** * Role-based access control: internal/auth/rbac.go

    The built-in and the custom roles, the permission check that walks the roles a role
    inherits from, the merged view of the permissions of several roles, the check of
    a role change, and the textual form of a permission.  The recursions over inherited
    roles are bounded by fuel; only built-in roles are inherited from, and their chain
    is finite, so the fuel chosen always suffices ([hasPermission_spec]). *)

From S2P Require Import Prelude.

(** ** Data *)

Abbreviation Role := string.
(* go: internal/auth/rbac.go @10-17 Role *)
Definition RoleAdmin : Role := "admin".
Definition RoleManager : Role := "manager".
Definition RoleOperator : Role := "operator".
Definition RoleViewer : Role := "viewer".

(* go: internal/auth/rbac.go @19-31 Resource *)
Definition ResourceAll : string := "*".

(* go: internal/auth/rbac.go @33-41 Action *)
Definition ActionAll : string := "*".

Abbreviation PermissionSet := (gmap string (gmap string bool)).

(* go: internal/auth/rbac.go type RoleDefinition *)
Record RoleDefinition := mkRoleDefinition {
  rd_Role : Role;
  rd_Level : Z;
  rd_Permissions : PermissionSet;
  rd_Inherits : list Role
}.

(* go: internal/auth/rbac.go type RBACEnforcer *)
Record RBACEnforcer := mkRBACEnforcer {
  roles : gmap Role RoleDefinition;
  customRoles : gmap string RoleDefinition
}.

Inductive RBACError : Type :=
| ErrBuiltinRole (name : string)
| ErrCustomRole (name : string)
| ErrUnknownRole (role : Role)
| ErrPromotion (from to : Z)
| ErrPermissionFormat (perm : string).

(** ** The built-in roles *)

Definition allow (actions : list string) : gmap string bool := list_to_map ((fun a => (a, true)) <$> actions).

(* go: internal/auth/rbac.go @68-76 RBACEnforcer.loadDefaultRoles *)
Definition viewer : RoleDefinition :=
  mkRoleDefinition RoleViewer 0
    {["pipeline" := allow ["read"]; "job" := allow ["read"]; "audit_log" := allow ["read"]]} [].

(* go: internal/auth/rbac.go @78-88 RBACEnforcer.loadDefaultRoles *)
Definition operator : RoleDefinition :=
  mkRoleDefinition RoleOperator 1
    {["pipeline" := allow ["create"; "read"; "update"];
      "job" := allow ["create"; "read"; "update"; "delete"];
      "worker" := allow ["read"; "update"];
      "audit_log" := allow ["read"]]} [RoleViewer].

(* go: internal/auth/rbac.go @90-103 RBACEnforcer.loadDefaultRoles *)
Definition manager : RoleDefinition :=
  mkRoleDefinition RoleManager 2
    {["pipeline" := allow ["*"]; "job" := allow ["*"]; "worker" := allow ["*"];
      "secret" := allow ["create"; "read"; "update"];
      "config" := allow ["create"; "read"; "update"];
      "audit_log" := allow ["read"];
      "namespace" := allow ["read"; "update"]]} [RoleOperator].

(* go: internal/auth/rbac.go @105-112 RBACEnforcer.loadDefaultRoles *)
Definition admin : RoleDefinition :=
  mkRoleDefinition RoleAdmin 3 {["*" := allow ["*"]]} [RoleManager].

(* go: internal/auth/rbac.go func RBACEnforcer.loadDefaultRoles *)
Definition loadDefaultRoles (e : RBACEnforcer) : RBACEnforcer :=
  mkRBACEnforcer
    (<[RoleAdmin := admin]> (<[RoleManager := manager]> (<[RoleOperator := operator]>
       (<[RoleViewer := viewer]> (roles e))))) (customRoles e).

(* go: internal/auth/rbac.go func NewRBACEnforcer *)
Definition NewRBACEnforcer : RBACEnforcer := loadDefaultRoles (mkRBACEnforcer ∅ ∅).

(* go: internal/auth/rbac.go func RBACEnforcer.AddCustomRole *)
Definition AddCustomRole (e : RBACEnforcer) (name : string) (level : Z) (permissions : PermissionSet)
  (inherits : list Role) : RBACEnforcer * option RBACError :=
  match roles e !! name, customRoles e !! name with
  | Some _, _ => (e, Some (ErrBuiltinRole name))
  | None, Some _ => (e, Some (ErrCustomRole name))
  | None, None =>
      (mkRBACEnforcer (roles e) (<[name := mkRoleDefinition name level permissions inherits]> (customRoles e)), None)
  end.

(** ** The permission check *)

(** The lookup shared by the checks: built-in roles first. *)
(* go: internal/auth/rbac.go @140-146 RBACEnforcer.CheckPermission *)
Definition find_role (e : RBACEnforcer) (role : Role) : option RoleDefinition :=
  match roles e !! role with
  | Some d => Some d
  | None => customRoles e !! role
  end.

(** [perms[action]] of a Go map: a missing key is false. *)
Definition allowed (perms : gmap string bool) (action : string) : bool := default false (perms !! action).

(* go: internal/auth/rbac.go @228-237 RBACEnforcer.hasPermission *)
Definition grants (d : RoleDefinition) (resource action : string) : bool :=
  (match rd_Permissions d !! resource with
   | Some perms => allowed perms action || allowed perms ActionAll
   | None => false
   end)
  || (match rd_Permissions d !! ResourceAll with
      | Some perms => allowed perms action || allowed perms ActionAll
      | None => false
      end).

(** The loop over the inherited roles, with the recursive call as [check]. *)
(* go: internal/auth/rbac.go @239-247 RBACEnforcer.hasPermission *)
Fixpoint any_inherited (rs : gmap Role RoleDefinition) (check : RoleDefinition -> option bool)
  (ins : list Role) : option bool :=
  match ins with
  | [] => Some false
  | i :: ins' =>
      match rs !! i with
      | None => any_inherited rs check ins'
      | Some d =>
          match check d with
          | Some false => any_inherited rs check ins'
          | r => r
          end
      end
  end.

(* go: internal/auth/rbac.go func RBACEnforcer.hasPermission *)
Fixpoint hasPermission (fuel : nat) (rs : gmap Role RoleDefinition) (resource action : string)
  (roleDef : RoleDefinition) : option bool :=
  match fuel with
  | O => None
  | S fuel' =>
      if grants roleDef resource action then Some true
      else any_inherited rs (hasPermission fuel' rs resource action) (rd_Inherits roleDef)
  end.

(** The role itself and the four built-in ones. *)
Definition role_fuel : nat := 5.

(* go: internal/auth/rbac.go func RBACEnforcer.CheckPermission *)
Definition CheckPermission (e : RBACEnforcer) (role : Role) (resource action : string) : option bool :=
  match find_role e role with
  | None => Some false
  | Some roleDef => hasPermission role_fuel (roles e) resource action roleDef
  end.

(* go: internal/auth/rbac.go func RBACEnforcer.CheckAnyPermission *)
Fixpoint CheckAnyPermission (e : RBACEnforcer) (role : Role) (resource : string) (actions : list string) : option bool :=
  match actions with
  | [] => Some false
  | a :: actions' =>
      match CheckPermission e role resource a with
      | Some false => CheckAnyPermission e role resource actions'
      | r => r
      end
  end.

(* go: internal/auth/rbac.go func RBACEnforcer.CheckAllPermissions *)
Fixpoint CheckAllPermissions (e : RBACEnforcer) (role : Role) (resource : string) (actions : list string) : option bool :=
  match actions with
  | [] => Some true
  | a :: actions' =>
      match CheckPermission e role resource a with
      | Some true => CheckAllPermissions e role resource actions'
      | r => r
      end
  end.

(* go: internal/auth/rbac.go func RBACEnforcer.HasRole *)
Definition HasRole (userRoles : list Role) (target : Role) : bool :=
  existsb (fun r => bool_decide (r = target)) userRoles.

(* go: internal/auth/rbac.go func RBACEnforcer.RequiresPermission *)
Definition RequiresPermission (resource action : string) : bool := true.

(** ** The merged view *)

Definition all_true (actions : gmap string bool) : gmap string bool := (fun _ => true) <$> actions.

(** The two nested loops: every action listed for a resource becomes true.  Both store
    the same value whatever the order. *)
(* go: internal/auth/rbac.go @251-258 RBACEnforcer.mergePermissions *)
Definition merge_set (merged perms : gmap string (gmap string bool)) : gmap string (gmap string bool) :=
  union_with (fun old new => Some (new ∪ old)) merged (all_true <$> perms).

(* go: internal/auth/rbac.go func RBACEnforcer.mergePermissions *)
Fixpoint mergePermissions (fuel : nat) (rs : gmap Role RoleDefinition) (merged : PermissionSet)
  (roleDef : RoleDefinition) : option PermissionSet :=
  match fuel with
  | O => None
  | S fuel' =>
      foldl (fun acc i =>
               match acc, rs !! i with
               | Some m, Some d => mergePermissions fuel' rs m d
               | _, _ => acc
               end) (Some (merge_set merged (rd_Permissions roleDef))) (rd_Inherits roleDef)
  end.

(* go: internal/auth/rbac.go func RBACEnforcer.GetEffectivePermissions *)
Definition GetEffectivePermissions (e : RBACEnforcer) (rs : list Role) : option PermissionSet :=
  foldl (fun acc role =>
           match acc, find_role e role with
           | Some m, Some d => mergePermissions role_fuel (roles e) m d
           | _, _ => acc
           end) (Some ∅) rs.

(** ** Levels *)

(* go: internal/auth/rbac.go func RBACEnforcer.getRoleLevel *)
Definition getRoleLevel (e : RBACEnforcer) (role : Role) : Z :=
  match roles e !! role with
  | Some d => rd_Level d
  | None => match customRoles e !! role with
            | Some d => rd_Level d
            | None => -1
            end
  end.

(* go: internal/auth/rbac.go func RBACEnforcer.ValidateRoleTransition *)
Definition ValidateRoleTransition (e : RBACEnforcer) (currentRoles : list Role) (targetRole : Role)
  : option RBACError :=
  let currentLevel := foldl (fun cur r => let l := getRoleLevel e r in if cur <? l then l else cur) 0 currentRoles in
  let targetLevel := getRoleLevel e targetRole in
  if targetLevel <? 0 then Some (ErrUnknownRole targetRole)
  else if (int64 (currentLevel + 1) <? targetLevel) && (0 <? currentLevel)
       then Some (ErrPromotion currentLevel targetLevel)
       else None.

Definition level_le (e : RBACEnforcer) (r1 r2 : Role) : Prop := getRoleLevel e r1 <= getRoleLevel e r2.
#[export] Instance level_le_dec e r1 r2 : Decision (level_le e r1 r2).
Proof. unfold level_le. apply _. Defined.

(** The orders of the two ranges; roles of one level come in any order. *)
(* go: internal/auth/rbac.go func RBACEnforcer.ListRoles *)
Definition ListRoles (ord : list Role) (ordCustom : list string) (e : RBACEnforcer) : list Role :=
  merge_sort (level_le e) (ord ++ omap (fun name => rd_Role <$> customRoles e !! name) ordCustom).

(** Every role is listed as often as it is defined, and no role after one of a higher level. *)
Lemma ListRoles_sorted ord ordCustom e :
  ListRoles ord ordCustom e ≡ₚ ord ++ omap (fun name => rd_Role <$> customRoles e !! name) ordCustom
  /\ Sorted (level_le e) (ListRoles ord ordCustom e).
Proof.
  assert (Total (level_le e)) by (intros r1 r2; unfold level_le; lia).
  split; [apply merge_sort_Permutation|]. by apply Sorted_merge_sort.
Qed.

(** ** Permissions as text *)

Definition colon : Ascii.ascii := Ascii.ascii_of_nat 58.

(* go: internal/auth/rbac.go func PermissionFor *)
Definition PermissionFor (resource action : string) : string := (resource +:+ String colon action)%string.

(** [strings.SplitN(s, ":", 2)] as the part before the first colon and the rest. *)
Fixpoint split_colon (s : string) : option (string * string) :=
  match s with
  | EmptyString => None
  | String c s' =>
      if bool_decide (c = colon) then Some (EmptyString, s')
      else match split_colon s' with
           | Some (a, b) => Some (String c a, b)
           | None => None
           end
  end.

(* go: internal/auth/rbac.go func ParsePermission *)
Definition ParsePermission (perm : string) : go_result (string * string) RBACError :=
  match split_colon perm with
  | Some (r, a) => Ok (r, a)
  | None => Err (ErrPermissionFormat perm)
  end.

(** ** Inheritance *)

(** [d'] is [d] or one of the definitions it inherits from, directly or not. *)
Inductive inherits (rs : gmap Role RoleDefinition) : RoleDefinition -> RoleDefinition -> Prop :=
| inherits_refl d : inherits rs d d
| inherits_step d i d' d'' :
    i ∈ rd_Inherits d -> rs !! i = Some d' -> inherits rs d' d'' -> inherits rs d d''.

(** A rank of the built-in roles below which each one's inherited roles lie. *)
Definition rank (i : Role) : nat :=
  if bool_decide (i = RoleAdmin) then 3 else if bool_decide (i = RoleManager) then 2
  else if bool_decide (i = RoleOperator) then 1 else 0.

(** Every role has a larger rank than the roles it inherits from. *)
Definition ranked (rs : gmap Role RoleDefinition) : Prop :=
  forall i d j, rs !! i = Some d -> j ∈ rd_Inherits d -> (rank j < rank i)%nat.

Lemma default_ranked : ranked (roles NewRBACEnforcer).
Proof.
  intros i d j Hi Hj. unfold NewRBACEnforcer, loadDefaultRoles in Hi. simpl in Hi.
  repeat (apply lookup_insert_Some in Hi as [[<- <-]|[_ Hi]];
          [simpl in Hj; try (apply list_elem_of_singleton in Hj as ->; vm_compute; lia); set_solver|]).
  by rewrite lookup_empty in Hi.
Qed.

Lemma rank_bound i : (rank i < 4)%nat.
Proof. unfold rank. repeat case_bool_decide; lia. Qed.

Section closure.
Context (rs : gmap Role RoleDefinition) (Hranked : ranked rs).

(** Fuel above the rank of every role [d] inherits from is enough for [d]. *)
Definition fuel_ok (fuel : nat) (d : RoleDefinition) : Prop := forall j, j ∈ rd_Inherits d -> (rank j < fuel)%nat.

Lemma fuel_ok_inherited fuel d i d' :
  fuel_ok (S fuel) d -> i ∈ rd_Inherits d -> rs !! i = Some d' -> fuel_ok fuel d'.
Proof using Hranked. intros Hf Hi Hd j Hj. pose proof (Hranked i d' j Hd Hj). specialize (Hf i Hi). lia. Qed.

Lemma any_inherited_spec check (P : RoleDefinition -> Prop) ins :
  (forall i d, i ∈ ins -> rs !! i = Some d -> exists b, check d = Some b /\ (b = true <-> P d)) ->
  exists b, any_inherited rs check ins = Some b
    /\ (b = true <-> exists i d, i ∈ ins /\ rs !! i = Some d /\ P d).
Proof.
  induction ins as [|i ins IH]; intros Hc; [exists false; split; [done|]; split; [done|set_solver]|].
  destruct IH as (b & Hb & Hspec); [intros j d Hj; apply Hc; by right|]. cbn [any_inherited].
  destruct (rs !! i) as [d|] eqn:Hi.
  - destruct (Hc i d) as ([] & -> & Hd); [left|done| |].
    + exists true. split; [done|]. split; [intros _|done]. exists i, d. split_and!; [left|done|by apply Hd].
    + exists b. split; [done|]. rewrite Hspec. split; [intros (j & ? & ? & ? & ?); exists j; set_solver|].
      intros (j & d' & [->|Hj]%elem_of_cons & H1 & H2); [|eauto].
      rewrite Hi in H1. simplify_eq. apply Hd in H2. done.
  - exists b. split; [done|]. rewrite Hspec. split; [intros (j & ? & ? & ? & ?); exists j; set_solver|].
    intros (j & d' & [->|Hj]%elem_of_cons & H1 & H2); [congruence|eauto].
Qed.

Lemma hasPermission_spec resource action fuel : forall d, fuel_ok fuel d ->
  exists b, hasPermission (S fuel) rs resource action d = Some b
    /\ (b = true <-> exists d', inherits rs d d' /\ grants d' resource action = true).
Proof using Hranked.
  induction fuel as [|fuel IH]; intros d Hok; cbn [hasPermission];
    (destruct (grants d resource action) eqn:Hg;
      [exists true; split; [done|]; split; [intros _; exists d; split; [constructor|done]|done]|]).
  - assert (rd_Inherits d = []) as Hnil
      by (apply elem_of_nil_inv; intros j Hj; specialize (Hok j Hj); lia).
    rewrite Hnil. exists false. split; [done|]. split; [done|]. intros (d' & Hd & Hg').
    inversion Hd as [|? i ? ? Hin]; subst; [congruence|]. rewrite Hnil in Hin. set_solver.
  - destruct (any_inherited_spec (hasPermission (S fuel) rs resource action)
      (fun d1 => exists d', inherits rs d1 d' /\ grants d' resource action = true) (rd_Inherits d))
      as (b & Hb & Hspec).
    { intros i d1 Hi Hd1. apply IH. by eapply fuel_ok_inherited. }
    exists b. split; [exact Hb|]. rewrite Hspec. split.
    + intros (i & d1 & H1 & H2 & d' & H3 & H4). exists d'. split; [by econstructor|done].
    + intros (d' & Hd & Hg'). inversion Hd as [|? i d1 ? Hi1 Hi2 Hi3]; subst; [congruence|]. eauto 8.
Qed.

(** ** The merged view and the check *)

(** An entry of a permission set is true. *)
Definition perm_true (m : gmap string (gmap string bool)) (resource action : string) : bool :=
  match m !! resource with Some perms => allowed perms action | None => false end.

Lemma merge_set_true merged perms resource action :
  perm_true (merge_set merged perms) resource action = true
    <-> perm_true merged resource action = true
        \/ exists actions, perms !! resource = Some actions /\ is_Some (actions !! action).
Proof.
  unfold perm_true, merge_set. rewrite lookup_union_with, lookup_fmap.
  destruct (merged !! resource) as [old|], (perms !! resource) as [new|]; simpl; unfold allowed, all_true.
  - rewrite lookup_union, lookup_fmap. destruct (new !! action) eqn:Hn; simpl.
    + destruct (old !! action); simpl; split; eauto.
    + rewrite (left_id_L None (∪)). split; [by left|].
      intros [?|(actions & [= <-] & [? ?])]; [done|congruence].
  - split; [by left|]. by intros [?|(? & ? & ?)].
  - rewrite lookup_fmap. destruct (new !! action) eqn:Hn; simpl; split; eauto.
    intros [?|(actions & [= <-] & [? ?])]; [done|congruence].
  - split; [by left|]. by intros [?|(? & ? & ?)].
Qed.

(** [d] or a role it inherits from lists the action for the resource. *)
Definition lists (d : RoleDefinition) (resource action : string) : Prop :=
  exists d' actions, inherits rs d d' /\ rd_Permissions d' !! resource = Some actions
                     /\ is_Some (actions !! action).

(** [m'] is [m] with the entries of [P] made true. *)
Definition adds (m m' : gmap string (gmap string bool)) (P : string -> string -> Prop) : Prop :=
  forall resource action, perm_true m' resource action = true
    <-> perm_true m resource action = true \/ P resource action.

Lemma merge_inherited_spec fuel ins :
  (forall i d m, i ∈ ins -> rs !! i = Some d ->
     exists m', mergePermissions fuel rs m d = Some m' /\ adds m m' (lists d)) ->
  forall m0, exists m,
    foldl (fun acc i => match acc, rs !! i with
             | Some m, Some d => mergePermissions fuel rs m d
             | _, _ => acc end) (Some m0) ins = Some m
    /\ adds m0 m (fun r a => exists i d, i ∈ ins /\ rs !! i = Some d /\ lists d r a).
Proof.
  induction ins as [|i ins IH]; intros Hrec m0; cbn [foldl].
  { exists m0. split; [done|]. intros r a. split; [by left|]. intros [?|(i & ? & Hi & _)]; [done|set_solver]. }
  assert (exists m1, match rs !! i with Some d => mergePermissions fuel rs m0 d | None => Some m0 end = Some m1
    /\ adds m0 m1 (fun r a => exists d, rs !! i = Some d /\ lists d r a)) as (m1 & Hm1 & Hadd1).
  { destruct (rs !! i) as [d|] eqn:Hi.
    - destruct (Hrec i d m0) as (m1 & Hm1 & Hadd); [left|done|]. exists m1. split; [done|].
      intros r a. rewrite (Hadd r a). naive_solver.
    - exists m0. split; [done|]. intros r a. naive_solver. }
  rewrite Hm1. destruct IH with (m0 := m1) as (m & -> & Hadd).
  { intros j d m Hj. apply Hrec. by right. }
  exists m. split; [done|]. intros r a. rewrite (Hadd r a), (Hadd1 r a). split.
  - intros [[?|(d & ? & ?)]|(j & d & Hj & ? & ?)]; [by left|right; exists i, d|right; exists j, d]; set_solver.
  - intros [?|(j & d & [->|Hj]%elem_of_cons & ? & ?)]; [by left; left|left; right; eauto|right; eauto].
Qed.

Lemma lists_step d r a :
  lists d r a <-> (exists actions, rd_Permissions d !! r = Some actions /\ is_Some (actions !! a))
                  \/ exists i d1, i ∈ rd_Inherits d /\ rs !! i = Some d1 /\ lists d1 r a.
Proof.
  split.
  - intros (d' & actions & Hd & H1 & H2). inversion Hd as [|? i d1 ? Hi1 Hi2 Hi3]; subst; [left; eauto|].
    right. exists i, d1. split_and!; [done|done|]. by exists d', actions.
  - intros [(actions & H1 & H2)|(i & d1 & H1 & H2 & d' & actions & H3 & H4)].
    + exists d, actions. split_and!; [constructor|done|done].
    + exists d', actions. split; [by econstructor|done].
Qed.

Lemma mergePermissions_spec fuel : forall merged d, fuel_ok fuel d ->
  exists m, mergePermissions (S fuel) rs merged d = Some m /\ adds merged m (lists d).
Proof using Hranked.
  induction fuel as [|fuel IH]; intros merged d Hok; cbn [mergePermissions].
  - assert (rd_Inherits d = []) as Hnil
      by (apply elem_of_nil_inv; intros j Hj; specialize (Hok j Hj); lia).
    rewrite Hnil. eexists. split; [done|]. intros r a. rewrite merge_set_true, lists_step, Hnil.
    f_equiv. split; [by left|]. intros [?|(i & ? & Hi & _)]; [done|set_solver].
  - destruct (merge_inherited_spec (S fuel) (rd_Inherits d)) with (m0 := merge_set merged (rd_Permissions d))
      as (m & Hm & Hadd).
    { intros i d1 m Hi Hd1. apply IH. by eapply fuel_ok_inherited. }
    exists m. split; [exact Hm|]. intros r a. rewrite (Hadd r a), merge_set_true, (lists_step d r a). tauto.
Qed.

End closure.

(** ** Enforcers *)

(** An enforcer with the custom roles of a list added one after the other. *)
Definition with_custom_roles (defs : list (string * Z * PermissionSet * list Role)) : RBACEnforcer :=
  foldl (fun e '(name, level, perms, ins) => (AddCustomRole e name level perms ins).1) NewRBACEnforcer defs.

Lemma with_custom_roles_roles defs : roles (with_custom_roles defs) = roles NewRBACEnforcer.
Proof.
  unfold with_custom_roles. generalize NewRBACEnforcer.
  induction defs as [|[[[name level] perms] ins] defs IH]; intros e; simpl; [done|].
  rewrite IH. unfold AddCustomRole. by destruct (roles e !! name), (customRoles e !! name).
Qed.

Lemma role_fuel_ok d : fuel_ok 4 d.
Proof. intros j _. pose proof (rank_bound j). lia. Qed.

Lemma CheckPermission_spec defs role resource action :
  let e := with_custom_roles defs in
  exists b, CheckPermission e role resource action = Some b
    /\ (b = true <-> exists d d', find_role e role = Some d /\ inherits (roles e) d d'
                                 /\ grants d' resource action = true).
Proof.
  cbv zeta. unfold CheckPermission. destruct (find_role _ role) as [d|] eqn:Hd.
  - destruct (hasPermission_spec (roles (with_custom_roles defs))) with (fuel := 4%nat) (d := d)
      (resource := resource) (action := action) as (b & Hb & Hspec).
    { rewrite with_custom_roles_roles. apply default_ranked. }
    { apply role_fuel_ok. }
    exists b. split; [exact Hb|]. rewrite Hspec. naive_solver.
  - exists false. split; [done|]. split; [done|]. by intros (? & ? & ? & _).
Qed.

Lemma GetEffectivePermissions_spec defs rs :
  let e := with_custom_roles defs in
  exists m, GetEffectivePermissions e rs = Some m
    /\ forall resource action, perm_true m resource action = true
         <-> exists role d, role ∈ rs /\ find_role e role = Some d /\ lists (roles e) d resource action.
Proof.
  cbv zeta. unfold GetEffectivePermissions. set (e := with_custom_roles defs).
  assert (forall m0, exists m, foldl (fun acc role => match acc, find_role e role with
           | Some m, Some d => mergePermissions role_fuel (roles e) m d
           | _, _ => acc end) (Some m0) rs = Some m
    /\ forall r a, perm_true m r a = true <-> perm_true m0 r a = true
         \/ exists role d, role ∈ rs /\ find_role e role = Some d /\ lists (roles e) d r a) as Hgen.
  { induction rs as [|role rs IH]; intros m0; cbn [foldl].
    { exists m0. split; [done|]. intros r a. split; [by left|]. intros [?|(i & ? & Hi & _)]; [done|set_solver]. }
    destruct (find_role e role) as [d|] eqn:Hd.
    - destruct (mergePermissions_spec (roles e)) with (fuel := 4%nat) (merged := m0) (d := d) as (m1 & Hm1 & Hadd);
        [unfold e; rewrite with_custom_roles_roles; apply default_ranked|apply role_fuel_ok|].
      change (S 4) with role_fuel in Hm1. rewrite Hm1.
      destruct (IH m1) as (m & -> & Hm). exists m. split; [done|]. intros r a. rewrite Hm, (Hadd r a). split.
      + intros [[?|?]|(j & d' & ? & ? & ?)]; [by left|right; exists role, d|right; exists j, d']; set_solver.
      + intros [?|(j & d' & [->|Hj]%elem_of_cons & H1 & H2)]; [by left; left| |right; eauto].
        rewrite Hd in H1. simplify_eq. by left; right.
    - destruct (IH m0) as (m & -> & Hm). exists m. split; [done|]. intros r a. rewrite Hm. f_equiv. split.
      + intros (j & d' & ? & ? & ?). exists j, d'. set_solver.
      + intros (j & d' & [->|Hj]%elem_of_cons & H1 & H2); [congruence|eauto]. }
  destruct (Hgen ∅) as (m & Hm & Hspec). exists m. split; [exact Hm|]. intros r a. rewrite Hspec.
  split; [|by right]. intros [Ht|?]; [|done]. discriminate Ht.
Qed.

(** ** Text *)

Fixpoint no_colon (s : string) : bool :=
  match s with
  | EmptyString => true
  | String c s' => negb (bool_decide (c = colon)) && no_colon s'
  end.

Lemma split_colon_app r a : no_colon r = true -> split_colon (r +:+ String colon a) = Some (r, a).
Proof.
  induction r as [|c r IH]; simpl; intros Hn; [done|].
  apply andb_true_iff in Hn as [Hc Hn]. rewrite IH by done. by destruct (bool_decide (c = colon)).
Qed.

Lemma split_colon_inv s r a : split_colon s = Some (r, a) -> s = (r +:+ String colon a)%string /\ no_colon r = true.
Proof.
  revert r. induction s as [|c s IH]; intros r Hs; simpl in Hs; [done|].
  case_bool_decide as Hc; [by simplify_eq|].
  destruct (split_colon s) as [[r' a']|]; simplify_eq/=. destruct (IH r' eq_refl) as [-> Hn].
  split; [done|]. by rewrite bool_decide_eq_false_2.
Qed.

(** ** The merged view when nothing is listed as false *)

Definition positive (perms : PermissionSet) : Prop :=
  forall r (actions : gmap string bool) a b, perms !! r = Some actions -> actions !! a = Some b -> b = true.

Lemma allow_true l a b : allow l !! a = Some b -> b = true.
Proof.
  unfold allow. intros Hl. apply elem_of_list_to_map_2 in Hl.
  apply list_elem_of_fmap in Hl as (x & ? & _). by simplify_eq.
Qed.

Lemma default_positive i d : roles NewRBACEnforcer !! i = Some d -> positive (rd_Permissions d).
Proof.
  intros Hi r actions a b Hr Ha. unfold NewRBACEnforcer, loadDefaultRoles in Hi. simpl in Hi.
  repeat (apply lookup_insert_Some in Hi as [[<- <-]|[_ Hi]];
    [simpl in Hr; repeat (apply lookup_insert_Some in Hr as [[_ <-]|[_ Hr]]; [by apply allow_true in Ha|]);
     by rewrite lookup_empty in Hr || (apply lookup_singleton_Some in Hr as [_ <-]; by apply allow_true in Ha)|]).
  by rewrite lookup_empty in Hi.
Qed.

Lemma custom_role_def defs i d : customRoles (with_custom_roles defs) !! i = Some d ->
  exists name level perms ins, (name, level, perms, ins) ∈ defs /\ d = mkRoleDefinition name level perms ins.
Proof.
  unfold with_custom_roles.
  assert (forall e, customRoles (foldl (fun e '(name, level, perms, ins) => (AddCustomRole e name level perms ins).1) e defs)
     !! i = Some d -> customRoles e !! i = Some d \/ exists name level perms ins, (name, level, perms, ins) ∈ defs
       /\ d = mkRoleDefinition name level perms ins) as Hgen.
  { induction defs as [|[[[name level] perms] ins] defs IH]; intros e Hd; simpl in Hd; [by left|].
    apply IH in Hd as [Hd|(n & l & p & is0 & Hin & ->)].
    - unfold AddCustomRole in Hd. destruct (roles e !! name), (customRoles e !! name); try (by left).
      simpl in Hd. apply lookup_insert_Some in Hd as [[<- <-]|[_ Hd]]; [|by left].
      right. exists name, level, perms, ins. split; [left|done].
    - right. exists n, l, p, is0. split; [by right|done]. }
  intros Hd. apply Hgen in Hd as [Hd|?]; [|done]. discriminate Hd.
Qed.

Lemma inherits_positive defs role d d' :
  (forall name level perms ins, (name, level, perms, ins) ∈ defs -> positive perms) ->
  find_role (with_custom_roles defs) role = Some d -> inherits (roles (with_custom_roles defs)) d d' ->
  positive (rd_Permissions d').
Proof.
  intros Hpos Hd Hi. assert (positive (rd_Permissions d)) as Hp.
  { unfold find_role in Hd. destruct (roles _ !! role) eqn:Hr.
    - simplify_eq. rewrite with_custom_roles_roles in Hr. by eapply default_positive.
    - apply custom_role_def in Hd as (name & level & perms & ins & Hin & ->). simpl. eauto. }
  clear Hd. induction Hi as [|d i d1 d2 _ Hi _ IH]; [done|]. apply IH.
  rewrite with_custom_roles_roles in Hi. by eapply default_positive.
Qed.

(** A permission set allows an action: the lookup of [hasPermission] on a merged set. *)
Definition set_grants (m : gmap string (gmap string bool)) (r a : string) : bool :=
  perm_true m r a || perm_true m r ActionAll || perm_true m ResourceAll a || perm_true m ResourceAll ActionAll.

Lemma grants_set d r a : grants d r a = set_grants (rd_Permissions d) r a.
Proof.
  unfold grants, set_grants, perm_true.
  destruct (rd_Permissions d !! r), (rd_Permissions d !! ResourceAll); simpl;
    repeat match goal with |- context [allowed ?g ?x] => destruct (allowed g x) end; done.
Qed.

(** ** Properties *)

Definition max_level (e : RBACEnforcer) (rs : list Role) : Z := foldr Z.max 0 (getRoleLevel e <$> rs).

Lemma current_level_max e rs cur :
  foldl (fun cur r => let l := getRoleLevel e r in if cur <? l then l else cur) cur rs
    = Z.max cur (foldr Z.max cur (getRoleLevel e <$> rs)).
Proof.
  revert cur. induction rs as [|r rs IH]; intros cur; csimpl; [lia|]. rewrite IH.
  assert (forall a b l, foldr Z.max (Z.max a b) l = Z.max a (foldr Z.max b l)) as Hf.
  { intros a b l. induction l as [|x l IHl]; simpl; lia. }
  replace (if cur <? getRoleLevel e r then getRoleLevel e r else cur) with (Z.max (getRoleLevel e r) cur)
    by (destruct (Z.ltb_spec cur (getRoleLevel e r)); lia).
  rewrite Hf. lia.
Qed.

Lemma max_level_nonneg e rs : 0 <= max_level e rs.
Proof. unfold max_level. induction (getRoleLevel e <$> rs); simpl; lia. Qed.


(** The merged view of [GetEffectivePermissions] makes an action true exactly when one
    of the roles, or a role it inherits from, lists it, even with the value false.  So
    it agrees with [CheckPermission] as long as no custom role lists an action as false. *)
Theorem GetEffectivePermissions_correct (defs : list (string * Z * PermissionSet * list Role)) (rs : list Role) :
  let e := with_custom_roles defs in
  exists m, GetEffectivePermissions e rs = Some m
    /\ (forall resource action, perm_true m resource action = true
         <-> exists role d, role ∈ rs /\ find_role e role = Some d /\ lists (roles e) d resource action)
    /\ ((forall name level perms ins, (name, level, perms, ins) ∈ defs -> positive perms) ->
        forall resource action, set_grants m resource action = true
          <-> exists role, role ∈ rs /\ CheckPermission e role resource action = Some true).
Proof.
  cbv zeta. destruct (GetEffectivePermissions_spec defs rs) as (m & Hm & Hspec).
  exists m. split_and!; [done|done|]. intros Hpos resource action.
  assert (forall r a, perm_true m r a = true <-> exists role d d', role ∈ rs
     /\ find_role (with_custom_roles defs) role = Some d /\ inherits (roles (with_custom_roles defs)) d d'
     /\ perm_true (rd_Permissions d') r a = true) as Hp.
  { intros r a. rewrite Hspec. split.
    - intros (role & d & H1 & H2 & d' & actions & H3 & H4 & [b H5]). exists role, d, d'. split_and!; [done..|].
      unfold perm_true, allowed. rewrite H4, H5. simpl. by eapply (inherits_positive defs role d d').
    - intros (role & d & d' & H1 & H2 & H3 & H4). exists role, d. split_and!; [done..|].
      unfold perm_true in H4. destruct (rd_Permissions d' !! r) as [actions|] eqn:Hr; [|done].
      exists d', actions. split_and!; [done..|]. unfold allowed in H4. destruct (actions !! a); [eauto|done]. }
  unfold set_grants. rewrite !orb_true_iff, !Hp. split.
  - intros [[[(role & d & d' & H1 & H2 & H3 & H4)|(role & d & d' & H1 & H2 & H3 & H4)]
      |(role & d & d' & H1 & H2 & H3 & H4)]|(role & d & d' & H1 & H2 & H3 & H4)];
      exists role; (split; [done|]);
      destruct (CheckPermission_spec defs role resource action) as (b & -> & Hb); f_equal; apply Hb;
      exists d, d'; (split_and!; [done..|]); rewrite grants_set; unfold set_grants; rewrite H4, ?orb_true_r; done.
  - intros (role & H1 & Hc). destruct (CheckPermission_spec defs role resource action) as (b & Hb & Hspec').
    rewrite Hb in Hc. simplify_eq. destruct Hspec' as [Hs _]. destruct (Hs eq_refl) as (d & d' & H2 & H3 & H4).
    rewrite grants_set in H4. unfold set_grants in H4. rewrite !orb_true_iff in H4.
    destruct H4 as [[[H4|H4]|H4]|H4]; [left; left; left|left; left; right|left; right|right];
      exists role, d, d'; done.
Qed.

Lemma GetEffectivePermissions_correct_witness :
  exists m, GetEffectivePermissions (with_custom_roles []) [RoleOperator; "nobody"] = Some m
    /\ forall resource action, set_grants m resource action = true
          <-> exists role, role ∈ [RoleOperator; "nobody"]
                           /\ CheckPermission (with_custom_roles []) role resource action = Some true.
Proof.
  destruct (GetEffectivePermissions_correct [] [RoleOperator; "nobody"]) as (m & H1 & _ & H2).
  exists m. split; [exact H1|]. apply H2. intros name level perms ins Hin. inversion Hin.
Defined.

(** A role that lists reading secrets as false: the check refuses, the merged view allows. *)
Example denied_but_effective :
  let e := with_custom_roles [("auditor", 1, {["secret" := {["read" := false]}]}, [])] in
  CheckPermission e "auditor" "secret" "read" = Some false
  /\ (m ← GetEffectivePermissions e ["auditor"]; Some (perm_true m "secret" "read")) = Some true.
Proof. vm_compute. done. Qed.

(** [ValidateRoleTransition] accepts a change exactly when the target role exists with a
    level of at least 0 and either is at most one level above the highest level held, or
    the highest level held is 0: a viewer, or a user without roles, may become anything. *)
Theorem ValidateRoleTransition_correct (e : RBACEnforcer) (current : list Role) (target : Role)
  (Hmax : max_level e current < max_int64) :
  ValidateRoleTransition e current target = None
    <-> 0 <= getRoleLevel e target
        /\ (getRoleLevel e target <= max_level e current + 1 \/ max_level e current = 0).
Proof.
  unfold ValidateRoleTransition. rewrite current_level_max. fold (max_level e current).
  pose proof (max_level_nonneg e current). rewrite Z.max_r by done.
  rewrite int64_small by (unfold in_int64, min_int64, max_int64 in *; lia).
  destruct (Z.ltb_spec (getRoleLevel e target) 0); [split; [done|lia]|].
  destruct (Z.ltb_spec (max_level e current + 1) (getRoleLevel e target)),
    (Z.ltb_spec 0 (max_level e current)); simpl; (split; [|try done]); intros; try done; lia.
Qed.

Lemma ValidateRoleTransition_correct_witness :
  ValidateRoleTransition NewRBACEnforcer [RoleViewer] RoleAdmin = None
    <-> 0 <= getRoleLevel NewRBACEnforcer RoleAdmin
        /\ (getRoleLevel NewRBACEnforcer RoleAdmin <= max_level NewRBACEnforcer [RoleViewer] + 1
            \/ max_level NewRBACEnforcer [RoleViewer] = 0).
Proof.
  apply (ValidateRoleTransition_correct NewRBACEnforcer [RoleViewer] RoleAdmin). vm_compute. reflexivity.
Defined.

(** Printing and parsing permissions are inverse: [ParsePermission] recovers the resource
    and the action that [PermissionFor] joined when the resource has no colon, and
    whatever it accepts prints back to the same text. *)
Theorem ParsePermission_roundtrip (resource action perm : string) :
  (no_colon resource = true -> ParsePermission (PermissionFor resource action) = Ok (resource, action))
  /\ (ParsePermission perm = Ok (resource, action) ->
        PermissionFor resource action = perm /\ no_colon resource = true).
Proof.
  unfold ParsePermission, PermissionFor. split.
  - intros Hn. by rewrite split_colon_app.
  - destruct (split_colon perm) as [[r a]|] eqn:Hs; [|done]. intros [= -> ->].
    by apply split_colon_inv in Hs as [-> ?].
Qed.

Lemma ParsePermission_roundtrip_witness :
  ParsePermission (PermissionFor "job" "run:now") = Ok ("job", "run:now")
  /\ PermissionFor "job" "run:now" = "job:run:now".
Proof.
  split; [|apply (ParsePermission_roundtrip "job" "run:now" "job:run:now"); reflexivity].
  apply (ParsePermission_roundtrip "job" "run:now" "job:run:now"). reflexivity.
Defined.
