(* ===== verification/ApiKey.v ===== *)
(** * API keys: internal/auth/apikey.go

    The in-memory key store, the key manager with its generation, validation and
    revocation of keys, and its fixed-window rate limit.  Password hashing
    (golang.org/x/crypto/bcrypt) is not part of the sources: it is a type class of
    operations with the documented limit on the length of a password.  Random bytes,
    identifiers and the clock are arguments. *)

From S2P Require Import Prelude.

(** ** Password hashing *)

Class BcryptOps := {
  bcrypt_Generate : string -> go_result string string;
  bcrypt_Compare : string -> string -> bool     (** hash, password *)
}.

(** [GenerateFromPassword] does not accept passwords longer than 72 bytes, and
    compares a password it has hashed equal to itself. *)
Class BcryptLaws `{BcryptOps} := {
  generate_too_long : forall pw, (72 < String.length pw)%nat -> exists err, bcrypt_Generate pw = Err err;
  generate_no_panic : forall pw, bcrypt_Generate pw <> Panic;
  compare_generated : forall pw hash, bcrypt_Generate pw = Ok hash -> bcrypt_Compare hash pw = true
}.

(** ** Data *)

(* go: internal/auth/apikey.go @17-23 ErrInvalidAPIKey *)
Inductive APIKeyError : Type :=
| ErrInvalidAPIKey
| ErrAPIKeyRevoked
| ErrAPIKeyExpired
| ErrKeyPrefixInvalid
| ErrRateLimitExceeded
| ErrHash (err : string)
| ErrKeyNotFound (id : string)
| ErrPrefixNotFound (prefix : string).

(* go: internal/auth/apikey.go @25-29 APIKeyPrefix *)
Definition APIKeyPrefix : string := "nxp_".
(* go: internal/auth/apikey.go @25-29 APIKeyLength *)
Definition APIKeyLength : nat := 48.

(* go: internal/auth/apikey.go type APIKey *)
Record APIKey := mkAPIKey {
  ak_ID : string;
  ak_KeyPrefix : string;
  ak_KeyHash : string;
  ak_Name : string;
  ak_UserID : string;
  ak_Permissions : list string;
  ak_Revoked : bool;
  ak_ExpiresAt : Z;
  ak_CreatedAt : Z;
  ak_LastUsedAt : Z
}.

(* go: internal/auth/apikey.go type rateLimitEntry *)
Record rateLimitEntry := mkRateLimitEntry { count : Z; windowStart : Z }.

(* go: internal/auth/apikey.go type MemoryStorage *)
Definition MemoryStorage : Type := gmap string APIKey.

(* go: internal/auth/apikey.go type APIKeyManager *)
Record APIKeyManager := mkAPIKeyManager {
  rateLimits : gmap string rateLimitEntry;
  rateLimitRate : Z;
  rateLimitWindow : Z;
  storage : gmap string APIKey
}.

(** ** The in-memory store *)

(* go: internal/auth/apikey.go func NewMemoryStorage *)
Definition NewMemoryStorage : MemoryStorage := ∅.

(* go: internal/auth/apikey.go func MemoryStorage.Save *)
Definition Save (key : APIKey) (s : gmap string APIKey) : gmap string APIKey := <[ak_ID key := key]> s.

(* go: internal/auth/apikey.go func MemoryStorage.FindByID *)
Definition FindByID (id : string) (s : gmap string APIKey) : go_result APIKey APIKeyError :=
  match s !! id with
  | Some key => Ok key
  | None => Err (ErrKeyNotFound id)
  end.

(** [ord] is the order of the loop over the table. *)
(* go: internal/auth/apikey.go func MemoryStorage.FindByUserID *)
Definition FindByUserID (ord : list string) (userID : string) (s : gmap string APIKey) : list APIKey :=
  List.filter (fun k => bool_decide (ak_UserID k = userID)) (omap (fun id => s !! id) ord).

(* go: internal/auth/apikey.go func MemoryStorage.FindByPrefix *)
Definition FindByPrefix (ord : list string) (prefix : string) (s : gmap string APIKey)
  : go_result APIKey APIKeyError :=
  match List.find (fun k => bool_decide (ak_KeyPrefix k = prefix)) (omap (fun id => s !! id) ord) with
  | Some k => Ok k
  | None => Err (ErrPrefixNotFound prefix)
  end.

Definition revoked (key : APIKey) : APIKey :=
  mkAPIKey (ak_ID key) (ak_KeyPrefix key) (ak_KeyHash key) (ak_Name key) (ak_UserID key) (ak_Permissions key)
    true (ak_ExpiresAt key) (ak_CreatedAt key) (ak_LastUsedAt key).

(* go: internal/auth/apikey.go func MemoryStorage.Revoke *)
Definition Revoke (id : string) (s : gmap string APIKey) : gmap string APIKey * option APIKeyError :=
  match s !! id with
  | Some key => (<[id := revoked key]> s, None)
  | None => (s, Some (ErrKeyNotFound id))
  end.

(* go: internal/auth/apikey.go func MemoryStorage.Delete *)
Definition Delete (id : string) (s : gmap string APIKey) : gmap string APIKey := delete id s.

(** ** The manager *)

(* go: internal/auth/apikey.go func WithRateLimit *)
Definition WithRateLimit (rate window : Z) (m : APIKeyManager) : APIKeyManager :=
  mkAPIKeyManager (rateLimits m) rate window (storage m).

(* go: internal/auth/apikey.go func NewAPIKeyManager *)
Definition NewAPIKeyManager (s : option MemoryStorage) (opts : list (APIKeyManager -> APIKeyManager)) : APIKeyManager :=
  foldl (fun m opt => opt m)
        (mkAPIKeyManager ∅ 100 (1 * Minute) (match s with Some st => st | None => NewMemoryStorage end)) opts.

Definition with_storage (m : APIKeyManager) (s : gmap string APIKey) : APIKeyManager :=
  mkAPIKeyManager (rateLimits m) (rateLimitRate m) (rateLimitWindow m) s.

(** [hex.EncodeToString]: two lower-case digits per byte. *)
Definition hex_digit (n : N) : Ascii.ascii :=
  Ascii.ascii_of_N (if (n <? 10)%N then 48 + n else 87 + n)%N.
Fixpoint hex_EncodeToString (b : list N) : string :=
  match b with
  | [] => EmptyString
  | x :: b' => String (hex_digit (x / 16)) (String (hex_digit (x mod 16)) (hex_EncodeToString b'))
  end.

(** [b] are the bytes that [rand.Read] writes. *)
(* go: internal/auth/apikey.go func generateRandomKey *)
Definition generateRandomKey (b : list N) : string := hex_EncodeToString b.

(* go: internal/auth/apikey.go func generateKeyID *)
Definition generateKeyID (b : list N) : string := hex_EncodeToString b.

(** Slices of a string: an index out of range panics. *)
Definition slice_to (n : nat) (s : string) : option string :=
  if (n <=? String.length s)%nat then Some (String.substring 0 n s) else None.
Definition slice_from (n : nat) (s : string) : option string :=
  if (n <=? String.length s)%nat then Some (String.substring n (String.length s - n) s) else None.

Section manager.
Context `{BcryptOps}.

(* go: internal/auth/apikey.go func hashKey *)
Definition hashKey (key : string) : go_result string string := bcrypt_Generate key.

(* go: internal/auth/apikey.go func verifyKey *)
Definition verifyKey (key hash : string) : bool := bcrypt_Compare hash key.

(** [b] and [idb] are the random bytes of the key and of its identifier. *)
(* go: internal/auth/apikey.go func APIKeyManager.GenerateKey *)
Definition GenerateKey (m : APIKeyManager) (now : Z) (b idb : list N) (userID name : string)
  (permissions : list string) (expiresAt : Z) : APIKeyManager * go_result (string * APIKey) APIKeyError :=
  let rawKey := generateRandomKey b in
  match slice_to 8 rawKey, slice_from 8 rawKey with
  | Some head, Some tail =>
      let prefix := (APIKeyPrefix +:+ head)%string in
      match hashKey rawKey with
      | Panic => (m, Panic)
      | Err err => (m, Err (ErrHash err))
      | Ok hashedKey =>
          let apiKey := mkAPIKey (generateKeyID idb) prefix hashedKey name userID permissions false expiresAt now 0 in
          (with_storage m (Save apiKey (storage m)), Ok ((prefix +:+ tail)%string, apiKey))
      end
  | _, _ => (m, Panic)
  end.

Definition touched (now : Z) (key : APIKey) : APIKey :=
  mkAPIKey (ak_ID key) (ak_KeyPrefix key) (ak_KeyHash key) (ak_Name key) (ak_UserID key) (ak_Permissions key)
    (ak_Revoked key) (ak_ExpiresAt key) (ak_CreatedAt key) now.

(* go: internal/auth/apikey.go func APIKeyManager.ValidateKey *)
Definition ValidateKey (m : APIKeyManager) (now : Z) (ord : list string) (fullKey : string)
  : APIKeyManager * go_result APIKey APIKeyError :=
  if negb (String.prefix APIKeyPrefix fullKey) then (m, Err ErrKeyPrefixInvalid)
  else
    match slice_to (String.length APIKeyPrefix + 8) fullKey with
    | None => (m, Panic)
    | Some prefix =>
        match FindByPrefix ord prefix (storage m) with
        | Panic => (m, Panic)
        | Err _ => (m, Err ErrInvalidAPIKey)
        | Ok apiKey =>
            if ak_Revoked apiKey then (m, Err ErrAPIKeyRevoked)
            else if negb (time_IsZero (ak_ExpiresAt apiKey)) && time_After now (ak_ExpiresAt apiKey)
            then (m, Err ErrAPIKeyExpired)
            else
              match slice_from (String.length prefix) fullKey with
              | None => (m, Panic)
              | Some rawSecret =>
                  if verifyKey fullKey (ak_KeyHash apiKey) || verifyKey rawSecret (ak_KeyHash apiKey)
                  then let apiKey' := touched now apiKey in
                       (with_storage m (Save apiKey' (storage m)), Ok apiKey')
                  else (m, Err ErrInvalidAPIKey)
              end
        end
    end.

End manager.

(* go: internal/auth/apikey.go func APIKeyManager.RevokeKey *)
Definition RevokeKey (m : APIKeyManager) (id : string) : APIKeyManager * option APIKeyError :=
  let '(s, err) := Revoke id (storage m) in (with_storage m s, err).

(* go: internal/auth/apikey.go func APIKeyManager.GetKey *)
Definition GetKey (m : APIKeyManager) (id : string) : go_result APIKey APIKeyError := FindByID id (storage m).

(* go: internal/auth/apikey.go func APIKeyManager.GetUserKeys *)
Definition GetUserKeys (m : APIKeyManager) (ord : list string) (userID : string) : list APIKey :=
  FindByUserID ord userID (storage m).

(* go: internal/auth/apikey.go func APIKeyManager.DeleteKey *)
Definition DeleteKey (m : APIKeyManager) (id : string) : APIKeyManager := with_storage m (Delete id (storage m)).

(* go: internal/auth/apikey.go func APIKeyManager.CheckRateLimit *)
Definition CheckRateLimit (m : APIKeyManager) (now : Z) (key : string) : APIKeyManager * option APIKeyError :=
  let store e := mkAPIKeyManager (<[key := e]> (rateLimits m)) (rateLimitRate m) (rateLimitWindow m) (storage m) in
  match rateLimits m !! key with
  | None => (store (mkRateLimitEntry 1 now), None)
  | Some entry =>
      if rateLimitWindow m <? time_Sub now (windowStart entry)
      then (store (mkRateLimitEntry 1 now), None)
      else
        let c := int64 (count entry + 1) in
        (store (mkRateLimitEntry c (windowStart entry)),
         if rateLimitRate m <? c then Some ErrRateLimitExceeded else None)
  end.

(* go: internal/auth/apikey.go func SanitizeAPIKey *)
Definition SanitizeAPIKey (fullKey : string) : string :=
  if (String.length fullKey <=? 12)%nat then "***"
  else (String.substring 0 12 fullKey +:+ "***")%string.

(** ** Generated keys *)

Lemma hex_length b : String.length (hex_EncodeToString b) = (2 * length b)%nat.
Proof. induction b as [|x b IH]; simpl; [done|]. rewrite IH. lia. Qed.

(** ** The rate limit *)

(** [n] calls for one key at the instants [ts]; which of them are refused? *)
Fixpoint rate_checks (m : APIKeyManager) (key : string) (ts : list Z) : list bool :=
  match ts with
  | [] => []
  | t :: ts' => let '(m', err) := CheckRateLimit m t key in
                bool_decide (err = None) :: rate_checks m' key ts'
  end.

#[export] Instance APIKeyError_eq_dec : EqDecision APIKeyError.
Proof. solve_decision. Defined.

Lemma rate_checks_window key start ts : forall m c,
  rateLimits m !! key = Some (mkRateLimitEntry c start) -> 0 <= c -> c + Z.of_nat (length ts) <= max_int64 ->
  (forall t, t ∈ ts -> time_Sub t start <= rateLimitWindow m) ->
  rate_checks m key ts = (fun i => bool_decide (c + i <= rateLimitRate m)) <$> seqZ 1 (Z.of_nat (length ts)).
Proof.
  induction ts as [|t ts IH]; intros m c He Hc Hmax Hw; [done|].
  rewrite length_cons, Nat2Z.inj_succ, seqZ_cons by lia. csimpl.
  unfold CheckRateLimit. rewrite He. simpl.
  destruct (Z.ltb_spec (rateLimitWindow m) (time_Sub t start)) as [Hlt|_].
  { specialize (Hw t ltac:(left)). lia. }
  simpl in Hmax. rewrite int64_small by (unfold in_int64, min_int64, max_int64 in *; lia).
  f_equal.
  - destruct (Z.ltb_spec (rateLimitRate m) (c + 1)).
    + rewrite !bool_decide_eq_false_2; [done|lia|done].
    + rewrite !bool_decide_eq_true_2; [done|lia|done].
  - rewrite (IH _ (c + 1)); [|simpl; apply lookup_insert_eq|lia|lia|intros; apply Hw; by right]. simpl.
    rewrite Z.pred_succ. rewrite <- (fmap_add_seqZ 1 1), <- list_fmap_compose.
    apply list_fmap_ext. intros i x _. simpl. apply bool_decide_ext. lia.
Qed.

(** ** Validation *)

(** Keys are filed under their identifiers. *)
Definition storage_wf (s : gmap string APIKey) : Prop := forall id k, s !! id = Some k -> ak_ID k = id.

Lemma Save_wf k s : storage_wf s -> storage_wf (Save k s).
Proof. intros Hs id k'. unfold Save. rewrite lookup_insert_Some. naive_solver. Qed.

Lemma Revoke_wf id s : storage_wf s -> storage_wf (Revoke id s).1.
Proof.
  intros Hs i k. unfold Revoke. destruct (s !! id) as [key|] eqn:Hid; simpl; [|by apply Hs].
  rewrite lookup_insert_Some. intros [[<- <-]|[_ Hk]]; [|by apply Hs]. simpl. by apply Hs.
Qed.

Lemma FindByPrefix_Ok ord prefix s k :
  FindByPrefix ord prefix s = Ok k -> exists id, s !! id = Some k /\ ak_KeyPrefix k = prefix.
Proof.
  unfold FindByPrefix. destruct (List.find _ _) as [k'|] eqn:Hf; [|done]. intros [= ->].
  apply find_some in Hf as [Hin Hp]. apply list_elem_of_In, list_elem_of_omap in Hin as (id & _ & Hid).
  apply bool_decide_eq_true in Hp. eauto.
Qed.

Section validate.
Context `{BcryptOps}.

(** What a successful validation of [fullKey] has checked of the stored key [k0]. *)
Record accepted (m : APIKeyManager) (now : Z) (fullKey : string) (k0 : APIKey) : Prop := {
  ac_prefix : String.prefix APIKeyPrefix fullKey = true;
  ac_stored : storage m !! ak_ID k0 = Some k0;
  ac_match : ak_KeyPrefix k0 = String.substring 0 12 fullKey;
  ac_active : ak_Revoked k0 = false;
  ac_fresh : ak_ExpiresAt k0 = 0 \/ now <= ak_ExpiresAt k0;
  ac_verified : verifyKey fullKey (ak_KeyHash k0) = true
                \/ verifyKey (String.substring 12 (String.length fullKey - 12) fullKey) (ak_KeyHash k0) = true
}.

Lemma substring_length_to n s : (n <= String.length s)%nat -> String.length (String.substring 0 n s) = n.
Proof.
  revert s. induction n as [|n IH]; intros [|c s] Hn; simpl in *; try lia. f_equal. apply IH. lia.
Qed.

Lemma ValidateKey_Ok m now ord fullKey m' k :
  storage_wf (storage m) -> ValidateKey m now ord fullKey = (m', Ok k) ->
  exists k0, accepted m now fullKey k0 /\ k = touched now k0
    /\ m' = with_storage m (<[ak_ID k0 := k]> (storage m)).
Proof.
  intros Hwf Hv. unfold ValidateKey in Hv.
  destruct (String.prefix APIKeyPrefix fullKey) eqn:Hp; [|done]. cbn [negb] in Hv.
  unfold slice_to in Hv. change (String.length APIKeyPrefix + 8)%nat with 12%nat in Hv.
  destruct (Nat.leb_spec 12 (String.length fullKey)) as [Hlen|]; [|done].
  destruct (FindByPrefix _ _ _) as [k0| |] eqn:Hf; [|done|done].
  destruct (ak_Revoked k0) eqn:Hr; [done|].
  destruct (negb (time_IsZero (ak_ExpiresAt k0)) && time_After now (ak_ExpiresAt k0)) eqn:Hx; [done|].
  unfold slice_from in Hv. rewrite substring_length_to in Hv by done.
  apply Nat.leb_le in Hlen as Hlen'. rewrite Hlen' in Hv.
  destruct (_ || _) eqn:Hver; [|done]. simplify_eq.
  apply FindByPrefix_Ok in Hf as (id & Hid & Hpre). exists k0. split; [|done].
  pose proof (Hwf _ _ Hid) as <-. split; try done.
  - apply andb_false_iff in Hx as [Hx|Hx].
    + left. apply negb_false_iff in Hx. by apply Z.eqb_eq.
    + right. by apply Z.ltb_ge.
  - by apply orb_true_iff.
Qed.
End validate.

(** A hash for examples: the password itself, with the documented limit. *)
Definition toy_bcrypt : BcryptOps := {|
  bcrypt_Generate pw := if (72 <? String.length pw)%nat then Err "bcrypt: password length exceeds 72 bytes"
                        else Ok ("h:" +:+ pw)%string;
  bcrypt_Compare hash pw := bool_decide (hash = ("h:" +:+ pw)%string)
|}.

Lemma toy_bcrypt_laws : @BcryptLaws toy_bcrypt.
Proof.
  split; simpl.
  - intros pw Hl. apply Nat.ltb_lt in Hl as ->. eauto.
  - intros pw. by destruct (72 <? String.length pw)%nat.
  - intros pw hash. destruct (72 <? String.length pw)%nat; [done|]. intros [= <-]. by apply bool_decide_eq_true.
Qed.

Definition some_key : APIKey :=
  mkAPIKey "k1" "nxp_01234567" "h:89abcdef" "ci" "u1" [] false 0 5 0.
Definition some_manager : APIKeyManager := mkAPIKeyManager ∅ 2 Minute {["k1" := some_key]}.

(** ** Properties *)

(** [GenerateKey] never produces a key: it hashes the hexadecimal form of 48 random
    bytes, 96 characters, which is over the 72 bytes that bcrypt accepts, so every call
    returns the hashing error and stores nothing. *)
Theorem GenerateKey_always_fails `{BcryptOps} `{!BcryptLaws} (m : APIKeyManager) (now : Z) (b idb : list N)
  (userID name : string) (permissions : list string) (expiresAt : Z) (Hb : length b = APIKeyLength) :
  exists err, GenerateKey m now b idb userID name permissions expiresAt = (m, Err (ErrHash err)).
Proof.
  assert (String.length (generateRandomKey b) = 96)%nat as Hlen
    by (unfold generateRandomKey; by rewrite hex_length, Hb).
  destruct (generate_too_long (generateRandomKey b)) as [err Herr]; [lia|]. exists err.
  unfold GenerateKey, slice_to, slice_from. rewrite Hlen. simpl. unfold hashKey. by rewrite Herr.
Qed.

Lemma GenerateKey_always_fails_witness :
  exists err, @GenerateKey toy_bcrypt some_manager 10 (replicate 48 171%N) [1%N] "u1" "ci" [] 0
                = (some_manager, Err (ErrHash err)).
Proof.
  apply (@GenerateKey_always_fails toy_bcrypt toy_bcrypt_laws some_manager 10 (replicate 48 171%N) [1%N] "u1" "ci" [] 0).
  reflexivity.
Defined.

(** C39: [ValidateKey] accepts a key only against a stored, unrevoked and unexpired key with
    the same 12-character prefix whose hash verifies; it then changes only the time of
    last use.  Hence a key revoked by [RevokeKey] is never returned again.  A key
    that has the prefix but fewer than 12 characters makes it panic. *)
Theorem ValidateKey_sound `{BcryptOps} (m m' : APIKeyManager) (now : Z) (ord : list string) (fullKey : string)
  (Hwf : storage_wf (storage m)) :
  (forall k, ValidateKey m now ord fullKey = (m', Ok k) ->
     exists k0, accepted m now fullKey k0 /\ k = touched now k0
       /\ m' = with_storage m (<[ak_ID k0 := k]> (storage m)))
  /\ (forall id k, is_Some (storage m !! id) ->
        ValidateKey (RevokeKey m id).1 now ord fullKey = (m', Ok k) -> ak_ID k <> id)
  /\ (String.prefix APIKeyPrefix fullKey = true -> (String.length fullKey < 12)%nat ->
        ValidateKey m now ord fullKey = (m, Panic)).
Proof.
  split_and!.
  - intros k Hv. by eapply ValidateKey_Ok.
  - intros id k [key Hid] Hv Heq. unfold RevokeKey in Hv. pose proof (Revoke_wf id _ Hwf) as Hwf'.
    unfold Revoke in Hv, Hwf'. rewrite Hid in Hv, Hwf'. simpl in Hv, Hwf'.
    apply ValidateKey_Ok in Hv as (k0 & Hac & -> & _); [|exact Hwf']. simpl in Heq. subst id.
    pose proof (ac_stored _ _ _ _ Hac) as Hst. simpl in Hst. rewrite lookup_insert_eq in Hst.
    injection Hst as Hst. pose proof (ac_active _ _ _ _ Hac) as Hr. rewrite <- Hst in Hr. done.
  - intros Hp Hlen. unfold ValidateKey, slice_to. rewrite Hp. cbn [negb].
    change (String.length APIKeyPrefix + 8)%nat with 12%nat.
    destruct (Nat.leb_spec 12 (String.length fullKey)); [lia|done].
Qed.

Lemma ValidateKey_sound_witness :
  exists m' k, @ValidateKey toy_bcrypt some_manager 9 ["k1"] "nxp_0123456789abcdef" = (m', Ok k)
    /\ (exists k0, @accepted toy_bcrypt some_manager 9 "nxp_0123456789abcdef" k0 /\ k = touched 9 k0
          /\ m' = with_storage some_manager (<[ak_ID k0 := k]> (storage some_manager)))
    /\ @ValidateKey toy_bcrypt some_manager 9 ["k1"] "nxp_0" = (some_manager, Panic).
Proof.
  assert (storage_wf (storage some_manager)) as Hwf.
  { intros id k Hk. simpl in Hk. apply lookup_singleton_Some in Hk as [<- <-]. reflexivity. }
  destruct (@ValidateKey toy_bcrypt some_manager 9 ["k1"] "nxp_0123456789abcdef") as [m' [k| |]] eqn:Hv;
    [|vm_compute in Hv; discriminate..].
  exists m', k. split; [reflexivity|]. split.
  - apply (@ValidateKey_sound toy_bcrypt some_manager m' 9 ["k1"] "nxp_0123456789abcdef" Hwf). exact Hv.
  - apply (@ValidateKey_sound toy_bcrypt some_manager m' 9 ["k1"] "nxp_0" Hwf); [reflexivity|simpl; lia].
Defined.

(** Within one window the rate limit of a key lets exactly the first [rateLimitRate]
    calls through: after the call that opens the window at [start], the calls [ts]
    made until the window ends are allowed while their number, with the first, does
    not exceed the rate. *)
Theorem CheckRateLimit_window (m : APIKeyManager) (key : string) (start : Z) (ts : list Z)
  (Hnew : forall e, rateLimits m !! key = Some e -> rateLimitWindow m < time_Sub start (windowStart e))
  (Hts : forall t, t ∈ ts -> time_Sub t start <= rateLimitWindow m)
  (Hlen : 1 + Z.of_nat (length ts) <= max_int64) :
  rate_checks m key (start :: ts)
    = true :: ((fun i => bool_decide (1 + i <= rateLimitRate m)) <$> seqZ 1 (Z.of_nat (length ts))).
Proof.
  set (m1 := mkAPIKeyManager (<[key := mkRateLimitEntry 1 start]> (rateLimits m)) (rateLimitRate m)
               (rateLimitWindow m) (storage m)).
  assert (CheckRateLimit m start key = (m1, None)) as Hfirst.
  { unfold CheckRateLimit. destruct (rateLimits m !! key) as [e|] eqn:He; [|done].
    destruct (Z.ltb_spec (rateLimitWindow m) (time_Sub start (windowStart e))); [done|].
    specialize (Hnew e eq_refl). lia. }
  cbn [rate_checks]. rewrite Hfirst. f_equal.
  apply (rate_checks_window key start ts m1 1); [apply lookup_insert_eq|lia|exact Hlen|exact Hts].
Qed.

Lemma CheckRateLimit_window_witness :
  rate_checks some_manager "k1" [10; 11; 12; 60 * Second] = [true; true; false; false].
Proof.
  rewrite (CheckRateLimit_window some_manager "k1" 10 [11; 12; 60 * Second]).
  - vm_compute. reflexivity.
  - intros e He. discriminate He.
  - intros t Ht. repeat (apply elem_of_cons in Ht as [->|Ht]; [vm_compute; discriminate|]). inversion Ht.
  - vm_compute. discriminate.
Defined.
