(* ===== verification/AuthJwt.v ===== *)
(** * JSON web tokens: internal/auth/jwt.go

    The manager with its options, generation, validation and refreshing of tokens, and the
    extraction of a bearer token.  The library golang-jwt is an interface ([JwtOps]) with the
    documented laws of signing and parsing ([JwtLaws]).  The clock, the identifiers of tokens
    and what the key files hold are arguments.  The JSON texts of permissions are in [AuthPermissions]. *)

From S2P Require Import Prelude GoStrings.

(** ** Claims and keys *)

(* go: internal/auth/jwt.go type Claims *)
Record Claims := mkClaims {
  cl_ID : string;
  cl_Subject : string;
  cl_Issuer : string;
  cl_IssuedAt : option Z;
  cl_NotBefore : option Z;
  cl_ExpiresAt : option Z;
  cl_UserID : string;
  cl_Username : string;
  cl_Email : string;
  cl_Roles : list string;
  cl_Permissions : list string;
  cl_TokenType : string
}.

(** A secret, or an RSA key named by a number; a private key has the public key of its number. *)
Inductive jwt_key : Type :=
| KeySecret (s : string)
| KeyPrivate (k : N)
| KeyPublic (k : N)
| KeyNil.

#[export] Instance jwt_key_eq_dec : EqDecision jwt_key.
Proof. solve_decision. Defined.

(** The key that verifies what a key signs. *)
Definition verifies (signing verifying : jwt_key) : bool :=
  match signing, verifying with
  | KeySecret s, KeySecret t => String.eqb s t
  | KeyPrivate k, KeyPublic l => (k =? l)%N
  | _, _ => false
  end.

(** ** The library *)

(** The kind of a token's signing method, as the key function sees it. *)
Inductive jwt_method : Type := MethodHMAC | MethodRSA | MethodOther.

(** The kinds of errors that [errors.Is] tells apart; several may hold at once. *)
Inductive jwt_parsed : Type :=
| Parsed (c : Claims) (valid : bool)
| ParseError (expired notYet malformed : bool) (text : string).

Definition method_of (alg : string) : jwt_method :=
  if bool_decide (alg ∈ ["HS256"; "HS384"; "HS512"]%string) then MethodHMAC
  else if bool_decide (alg ∈ ["RS256"; "RS384"; "RS512"]%string) then MethodRSA else MethodOther.

Class JwtOps := {
  jwt_SignedString : string -> jwt_key -> Claims -> string + string;
  jwt_ParseWithClaims : (string -> jwt_key + string) -> Z -> list string -> Z -> string -> jwt_parsed;
  jwt_ParseUnverified : string -> Claims + string;
  (** the signature of the token is that of the key over the claims *)
  jwt_verified : string -> jwt_key -> string -> Claims -> Prop
}.

(** The validity in time, with a leeway on both ends. *)
Definition exp_ok (leeway now : Z) (c : Claims) : bool :=
  match cl_ExpiresAt c with None => true | Some e => now <? e + leeway end.
Definition nbf_ok (leeway now : Z) (c : Claims) : bool :=
  match cl_NotBefore c with None => true | Some n => n - leeway <=? now end.

(** What is parsed without an error has a valid method, a signature under the key that the key
    function gives for it, and is valid in time; a token signed with the matching key is
    parsed, and only its times can be wrong. *)
Class JwtLaws `{JwtOps} := {
  parse_sound : forall keyFunc leeway methods now tok c valid,
    jwt_ParseWithClaims keyFunc leeway methods now tok = Parsed c valid ->
    valid = true /\ exists alg key, alg ∈ methods /\ keyFunc alg = inl key /\ jwt_verified alg key tok c
      /\ exp_ok leeway now c = true /\ nbf_ok leeway now c = true;
  parse_signed : forall alg signing verifying c tok keyFunc leeway methods now,
    jwt_SignedString alg signing c = inl tok -> alg ∈ methods -> keyFunc alg = inl verifying ->
    verifies signing verifying = true ->
    exists text, jwt_ParseWithClaims keyFunc leeway methods now tok =
      if exp_ok leeway now c && nbf_ok leeway now c then Parsed c true
      else ParseError (negb (exp_ok leeway now c)) (negb (nbf_ok leeway now c)) false text
}.

(** ** The manager *)

(* go: internal/auth/jwt.go type JWTManager *)
Record JWTManager := mkJWTManager {
  jm_secretKey : string;
  jm_privateKey : jwt_key;
  jm_publicKey : jwt_key;
  jm_signingMethod : string;
  jm_accessExpiry : Z;
  jm_refreshExpiry : Z;
  jm_issuer : string
}.

(* go: internal/auth/jwt.go @19-24 ErrTokenExpired *)
Inductive TokenError : Type :=
| ErrTokenExpired
| ErrTokenInvalid (text : string)
| ErrTokenMalformed
| ErrTokenNotValidYet
| ErrSign (text : string)
| ErrNotAccessToken
| ErrParse (text : string).

#[export] Instance TokenError_eq_dec : EqDecision TokenError.
Proof. solve_decision. Defined.

(** What the two key files hold: [None] stands for a private key that cannot be read or
    parsed. *)
Inductive public_file : Type :=
| PublicUnreadable
| PublicUnusable
| PublicRSA (k : N).

(* go: internal/auth/jwt.go type JWTManagerOption *)
Definition JWTManagerOption : Type := JWTManager -> go_result JWTManager TokenError.

(* go: internal/auth/jwt.go func WithHMACSecret *)
Definition WithHMACSecret (secret : string) : JWTManagerOption := fun m =>
  Ok (mkJWTManager secret (jm_privateKey m) (jm_publicKey m) "HS256" (jm_accessExpiry m) (jm_refreshExpiry m) (jm_issuer m)).

(** A public file that cannot be read returns before the method is set. *)
(* go: internal/auth/jwt.go func WithRSAKeys *)
Definition WithRSAKeys (priv : option N) (pub : public_file) : JWTManagerOption := fun m =>
  match priv with
  | None => Panic
  | Some k =>
      let with_keys pub method := mkJWTManager (jm_secretKey m) (KeyPrivate k) (KeyPublic pub) method
                                    (jm_accessExpiry m) (jm_refreshExpiry m) (jm_issuer m) in
      match pub with
      | PublicUnreadable => Ok (with_keys k (jm_signingMethod m))
      | PublicUnusable => Ok (with_keys k "RS256"%string)
      | PublicRSA l => Ok (with_keys l "RS256"%string)
      end
  end.

(* go: internal/auth/jwt.go func WithAccessExpiry *)
Definition WithAccessExpiry (d : Z) : JWTManagerOption := fun m =>
  Ok (mkJWTManager (jm_secretKey m) (jm_privateKey m) (jm_publicKey m) (jm_signingMethod m) d (jm_refreshExpiry m) (jm_issuer m)).
(* go: internal/auth/jwt.go func WithRefreshExpiry *)
Definition WithRefreshExpiry (d : Z) : JWTManagerOption := fun m =>
  Ok (mkJWTManager (jm_secretKey m) (jm_privateKey m) (jm_publicKey m) (jm_signingMethod m) (jm_accessExpiry m) d (jm_issuer m)).
(* go: internal/auth/jwt.go func WithIssuer *)
Definition WithIssuer (issuer : string) : JWTManagerOption := fun m =>
  Ok (mkJWTManager (jm_secretKey m) (jm_privateKey m) (jm_publicKey m) (jm_signingMethod m) (jm_accessExpiry m) (jm_refreshExpiry m) issuer).

Definition default_secret : string := "nexuspipe-default-secret-change-in-production".

(* go: internal/auth/jwt.go func NewJWTManager *)
Definition NewJWTManager (opts : list JWTManagerOption) : go_result JWTManager TokenError :=
  foldl (fun m opt => go_bind m opt)
    (Ok (mkJWTManager default_secret KeyNil KeyNil "HS256" (15 * Minute) (7 * 24 * Hour) "nexuspipe")) opts.

(* go: internal/auth/jwt.go func JWTManager.signingKey *)
Definition signingKey (m : JWTManager) : jwt_key :=
  if String.eqb (jm_signingMethod m) "RS256" then jm_privateKey m else KeySecret (jm_secretKey m).

(* go: internal/auth/jwt.go func JWTManager.keyFunc *)
Definition keyFunc (m : JWTManager) (alg : string) : jwt_key + string :=
  if String.eqb (jm_signingMethod m) "RS256" then
    match method_of alg with
    | MethodRSA => inl (jm_publicKey m)
    | _ => inr ("unexpected signing method: " +:+ alg)%string
    end
  else
    match method_of alg with
    | MethodHMAC => inl (KeySecret (jm_secretKey m))
    | _ => inr ("unexpected signing method: " +:+ alg)%string
    end.

(* go: internal/auth/jwt.go func JWTManager.validMethods *)
Definition validMethods (m : JWTManager) : list string :=
  if String.eqb (jm_signingMethod m) "RS256" then ["RS256"]%string else ["HS256"]%string.

Definition signing_alg (m : JWTManager) : string :=
  if String.eqb (jm_signingMethod m) "RS256" then "RS256" else "HS256".

(** [jwt.NewNumericDate] keeps whole seconds. *)
Definition NewNumericDate (t : Z) : Z := t / Second * Second.

Definition make_claims (m : JWTManager) (now expiry : Z) (jti type userID username email : string) (roles permissions : list string) : Claims :=
  mkClaims jti userID (jm_issuer m) (Some (NewNumericDate now)) (Some (NewNumericDate now)) (Some (NewNumericDate (now + expiry)))
    userID username email roles permissions type.

Section jwt.
Context `{JwtOps}.

(* go: internal/auth/jwt.go func JWTManager.GenerateToken *)
Definition GenerateToken (m : JWTManager) (now : Z) (jti userID username email : string) (roles permissions : list string)
    : string + TokenError :=
  match jwt_SignedString (signing_alg m) (signingKey m)
          (make_claims m now (jm_accessExpiry m) jti "access" userID username email roles permissions) with
  | inl tok => inl tok
  | inr err => inr (ErrSign err)
  end.

(* go: internal/auth/jwt.go func JWTManager.GenerateRefreshToken *)
Definition GenerateRefreshToken (m : JWTManager) (now : Z) (jti userID username email : string) (roles permissions : list string)
    : string + TokenError :=
  match jwt_SignedString (signing_alg m) (signingKey m)
          (make_claims m now (jm_refreshExpiry m) jti "refresh" userID username email roles permissions) with
  | inl tok => inl tok
  | inr err => inr (ErrSign err)
  end.

Definition leeway : Z := 30 * Second.

(* go: internal/auth/jwt.go func JWTManager.ValidateToken *)
Definition ValidateToken (m : JWTManager) (now : Z) (tokenString : string) : Claims + TokenError :=
  match jwt_ParseWithClaims (keyFunc m) leeway (validMethods m) now tokenString with
  | ParseError expired notYet malformed text =>
      if expired then inr ErrTokenExpired
      else if notYet then inr ErrTokenNotValidYet
      else if malformed then inr ErrTokenMalformed
      else inr (ErrTokenInvalid text)
  | Parsed claims valid => if valid then inl claims else inr (ErrTokenInvalid "")
  end.

(** A token without a time of issue panics. *)
(* go: internal/auth/jwt.go func JWTManager.RefreshToken *)
Definition RefreshToken (m : JWTManager) (now : Z) (jti tokenString : string) : go_result string TokenError :=
  match ValidateToken m now tokenString with
  | inr err => Err err
  | inl claims =>
      if negb (String.eqb (cl_TokenType claims) "access") then Err ErrNotAccessToken
      else match cl_IssuedAt claims with
           | None => Panic
           | Some issued =>
               if jm_refreshExpiry m <? time_Sub now issued then Err ErrTokenExpired
               else match GenerateToken m now jti (cl_UserID claims) (cl_Username claims) (cl_Email claims)
                            (cl_Roles claims) (cl_Permissions claims) with
                    | inl tok => Ok tok
                    | inr err => Err err
                    end
           end
  end.

(** The time of issue is dropped. *)
(* go: internal/auth/jwt.go func JWTManager.ParseTokenUnverified *)
Definition ParseTokenUnverified (tokenString : string) : Claims + TokenError :=
  match jwt_ParseUnverified tokenString with
  | inr err => inr (ErrParse err)
  | inl c =>
      inl (mkClaims (cl_ID c) (cl_Subject c) (cl_Issuer c) None (cl_NotBefore c) (cl_ExpiresAt c) (cl_UserID c) (cl_Username c)
             (cl_Email c) (cl_Roles c) (cl_Permissions c) (cl_TokenType c))
  end.
End jwt.

Inductive BearerError : Type :=
| ErrHeaderMissing
| ErrHeaderFormat.

(** The text before and after the first space. *)
Fixpoint split_space (s : string) : option (string * string) :=
  match s with
  | EmptyString => None
  | String c s' =>
      if (code c =? 32)%N then Some (EmptyString, s')
      else match split_space s' with Some (a, b) => Some (String c a, b) | None => None end
  end.

(** [strings.EqualFold] with "bearer", whose letters have no other folding. *)
(* go: internal/auth/jwt.go func ExtractBearerToken *)
Definition ExtractBearerToken (authHeader : string) : string + BearerError :=
  if String.eqb authHeader "" then inr ErrHeaderMissing
  else match split_space authHeader with
       | Some (scheme, token) => if String.eqb (ToLower scheme) "bearer" then inl token else inr ErrHeaderFormat
       | None => inr ErrHeaderFormat
       end.

(** ** Properties *)

(** The keys of the manager belong together: always so for a secret. *)
Definition keys_match (m : JWTManager) : bool :=
  if String.eqb (jm_signingMethod m) "RS256" then verifies (jm_privateKey m) (jm_publicKey m) else true.

Section properties.
Context `{JwtLaws}.

Lemma signing_alg_valid m : signing_alg m ∈ validMethods m.
Proof. unfold signing_alg, validMethods. destruct (String.eqb _ _); by left. Qed.

Lemma keyFunc_verifies m : keys_match m = true ->
  exists key, keyFunc m (signing_alg m) = inl key /\ verifies (signingKey m) key = true.
Proof.
  unfold keys_match, keyFunc, signing_alg, signingKey. intros Hk.
  destruct (String.eqb (jm_signingMethod m) "RS256"); eexists; (split; [reflexivity|]); [done|]. simpl. apply String.eqb_refl.
Qed.

Lemma Validate_signed m now c tok : keys_match m = true ->
  jwt_SignedString (signing_alg m) (signingKey m) c = inl tok ->
  ValidateToken m now tok =
    if negb (exp_ok leeway now c) then inr ErrTokenExpired
    else if negb (nbf_ok leeway now c) then inr ErrTokenNotValidYet else inl c.
Proof.
  intros Hk Hs. destruct (keyFunc_verifies m Hk) as (key & Hf & Hv).
  destruct (parse_signed _ _ _ _ _ _ leeway _ now Hs (signing_alg_valid m) Hf Hv) as [text Hp].
  unfold ValidateToken. rewrite Hp. destruct (exp_ok leeway now c), (nbf_ok leeway now c); done.
Qed.

(** C10: a token that is accepted has a signature by the manager's own method under its own key
    and is valid in time but for thirty seconds: never a token with another method, such as a
    public key taken for a secret. *)
Theorem ValidateToken_sound m now tok c :
  ValidateToken m now tok = inl c ->
  exists key, jwt_verified (signing_alg m) key tok c
    /\ key = (if String.eqb (jm_signingMethod m) "RS256" then jm_publicKey m else KeySecret (jm_secretKey m))
    /\ match cl_ExpiresAt c with Some e => now < e + 30 * Second | None => True end
    /\ match cl_NotBefore c with Some n => n - 30 * Second <= now | None => True end.
Proof.
  unfold ValidateToken. destruct (jwt_ParseWithClaims _ _ _ _ _) as [c' valid|a b d text] eqn:Hp.
  2:{ by destruct a, b, d. }
  destruct (parse_sound _ _ _ _ _ _ _ Hp) as (-> & alg & key & Hin & Hf & Hv & He & Hn). intros [= ->].
  unfold validMethods, keyFunc, signing_alg in *. exists key.
  destruct (String.eqb (jm_signingMethod m) "RS256"); apply list_elem_of_singleton in Hin as ->;
    vm_compute method_of in Hf; injection Hf as <-; (split; [exact Hv|]; split; [done|]);
    unfold exp_ok, nbf_ok, leeway in *; (split; [destruct (cl_ExpiresAt c); [lia|done]|destruct (cl_NotBefore c); [lia|done]]).
Qed.

(** An access token is accepted with its claims from thirty seconds before the second of its
    generation until thirty seconds after the second of its expiry, and refused as not yet
    valid before and as expired after. *)
Theorem GenerateToken_validates m t now jti userID username email roles permissions tok :
  keys_match m = true -> 0 <= jm_accessExpiry m ->
  GenerateToken m t jti userID username email roles permissions = inl tok ->
  ValidateToken m now tok =
    if now <? t / Second * Second - 30 * Second then inr ErrTokenNotValidYet
    else if now <? (t + jm_accessExpiry m) / Second * Second + 30 * Second
    then inl (make_claims m t (jm_accessExpiry m) jti "access" userID username email roles permissions)
    else inr ErrTokenExpired.
Proof.
  intros Hk Ha Hg. unfold GenerateToken in Hg. destruct (jwt_SignedString _ _ _) as [tok'|] eqn:Hs; [|done].
  injection Hg as ->. rewrite (Validate_signed m now _ tok Hk Hs). unfold exp_ok, nbf_ok, leeway. simpl. unfold NewNumericDate.
  assert (t / Second <= (t + jm_accessExpiry m) / Second) as Hle by (apply Z.div_le_mono; unfold Second, Millisecond, Microsecond, Nanosecond; lia).
  set (a := t / Second) in *. set (b := (t + jm_accessExpiry m) / Second) in *.
  assert (0 < Second) by done.
  destruct (Z.ltb_spec now (b * Second + 30 * Second)), (Z.leb_spec (a * Second - 30 * Second) now),
    (Z.ltb_spec now (a * Second - 30 * Second)); simpl; try done; try lia; nia.
Qed.

(** A refresh token cannot be refreshed, although it is accepted wherever an access token is,
    with its roles, for the whole time of refreshing; what is refreshed is an access token
    that is still accepted. *)
Theorem refresh_tokens m t now jti jti' userID username email roles permissions tok :
  keys_match m = true ->
  GenerateRefreshToken m t jti userID username email roles permissions = inl tok ->
  (forall s, RefreshToken m now jti' tok <> Ok s)
  /\ (t <= now <= t + jm_refreshExpiry m -> exists c, ValidateToken m now tok = inl c /\ cl_Roles c = roles /\ cl_UserID c = userID)
  /\ (forall tok' s, RefreshToken m now jti' tok' = Ok s ->
        exists c, ValidateToken m now tok' = inl c /\ cl_TokenType c = "access"%string
          /\ GenerateToken m now jti' (cl_UserID c) (cl_Username c) (cl_Email c) (cl_Roles c) (cl_Permissions c) = inl s).
Proof.
  intros Hk Hg. unfold GenerateRefreshToken in Hg. destruct (jwt_SignedString _ _ _) as [tok'|] eqn:Hs; [|done].
  injection Hg as ->. pose proof (Validate_signed m now _ tok Hk Hs) as Hv. split_and!.
  - intros s. unfold RefreshToken. rewrite Hv. by destruct (exp_ok _ _ _), (nbf_ok _ _ _).
  - intros Ht. exists (make_claims m t (jm_refreshExpiry m) jti "refresh" userID username email roles permissions).
    rewrite Hv. unfold exp_ok, nbf_ok, leeway. simpl. unfold NewNumericDate.
    assert (0 < Second) as HS by done.
    pose proof (Z.mod_pos_bound (t + jm_refreshExpiry m) Second HS). pose proof (Z.mod_pos_bound t Second HS).
    pose proof (Z.div_mod (t + jm_refreshExpiry m) Second). pose proof (Z.div_mod t Second).
    destruct (Z.ltb_spec now ((t + jm_refreshExpiry m) / Second * Second + 30 * Second)); [|nia].
    destruct (Z.leb_spec (t / Second * Second - 30 * Second) now); [done|nia].
  - intros tok' s. unfold RefreshToken. destruct (ValidateToken m now tok') as [c|]; [|done].
    destruct (String.eqb_spec (cl_TokenType c) "access") as [Ha|]; [|done]. simpl.
    destruct (cl_IssuedAt c) as [issued|]; [|done]. destruct (_ <? _); [done|].
    destruct (GenerateToken _ _ _ _ _ _ _ _) eqn:Hgen; [|done]. intros [= ->]. by exists c.
Qed.
End properties.

(** ** A library for examples

    A token spells the method, the key and the claims. *)

Fixpoint pos_text (p : positive) : string :=
  match p with
  | xH => EmptyString
  | xO p => String (Ascii.ascii_of_nat 48) (pos_text p)
  | xI p => String (Ascii.ascii_of_nat 49) (pos_text p)
  end.
Fixpoint text_pos (s : string) : positive :=
  match s with
  | EmptyString => xH
  | String c s => if (code c =? 48)%N then xO (text_pos s) else xI (text_pos s)
  end.

Lemma text_pos_text p : text_pos (pos_text p) = p.
Proof. induction p as [p IH|p IH|]; simpl; [by rewrite IH|by rewrite IH|done]. Qed.

Definition claims_tuple (c : Claims) :=
  (cl_ID c, cl_Subject c, cl_Issuer c, cl_IssuedAt c, cl_NotBefore c, cl_ExpiresAt c, cl_UserID c, cl_Username c, cl_Email c,
   cl_Roles c, cl_Permissions c, cl_TokenType c).
Definition tuple_claims t : Claims :=
  let '(a, b, c, d, e, f, g, h, i, j, k, l) := t in mkClaims a b c d e f g h i j k l.

#[export] Instance Claims_eq_dec : EqDecision Claims.
Proof. solve_decision. Defined.
#[export] Instance Claims_countable : Countable Claims.
Proof. refine (inj_countable' claims_tuple tuple_claims _). by intros []. Defined.

Definition key_sum (k : jwt_key) : string + (N + (N + ())) :=
  match k with KeySecret s => inl s | KeyPrivate n => inr (inl n) | KeyPublic n => inr (inr (inl n)) | KeyNil => inr (inr (inr ())) end.
Definition sum_key (x : string + (N + (N + ()))) : jwt_key :=
  match x with inl s => KeySecret s | inr (inl n) => KeyPrivate n | inr (inr (inl n)) => KeyPublic n | inr (inr (inr _)) => KeyNil end.
#[export] Instance jwt_key_countable : Countable jwt_key.
Proof. refine (inj_countable' key_sum sum_key _). by intros []. Defined.

Definition toy_token (alg : string) (key : jwt_key) (c : Claims) : string := pos_text (encode (alg, key, c)).
Definition toy_read (tok : string) : option (string * jwt_key * Claims) := decode (text_pos tok).

Lemma toy_read_token alg key c : toy_read (toy_token alg key c) = Some (alg, key, c).
Proof. unfold toy_read, toy_token. by rewrite text_pos_text, decode_encode. Qed.

#[export] Instance toy_jwt : JwtOps := {
  jwt_SignedString alg key c := inl (toy_token alg key c);
  jwt_ParseWithClaims keyFunc leeway methods now tok :=
    match toy_read tok with
    | None => ParseError false false true "token is malformed"
    | Some (alg, signing, c) =>
        if bool_decide (alg ∈ methods) then
          match keyFunc alg with
          | inr err => ParseError false false false err
          | inl key =>
              if verifies signing key then
                if exp_ok leeway now c && nbf_ok leeway now c then Parsed c true
                else ParseError (negb (exp_ok leeway now c)) (negb (nbf_ok leeway now c)) false "token has invalid claims"
              else ParseError false false false "signature is invalid"
          end
        else ParseError false false false "signing method is invalid"
    end;
  jwt_ParseUnverified tok := match toy_read tok with Some (_, _, c) => inl c | None => inr "token is malformed"%string end;
  jwt_verified alg key tok c := exists signing, toy_read tok = Some (alg, signing, c) /\ verifies signing key = true
}.

#[export] Instance toy_jwt_laws : JwtLaws.
Proof.
  split.
  - intros keyFunc leeway methods now tok c valid Hp. simpl in Hp.
    destruct (toy_read tok) as [[[alg signing] c']|] eqn:Hr; [|done].
    destruct (bool_decide_reflect (alg ∈ methods)) as [Hin|]; [|done]. destruct (keyFunc alg) as [key|] eqn:Hf; [|done].
    destruct (verifies signing key) eqn:Hv; [|done].
    destruct (exp_ok leeway now c') eqn:He, (nbf_ok leeway now c') eqn:Hn; simpl in Hp; simplify_eq.
    split; [done|]. exists alg, key. split_and!; try done. by exists signing.
  - intros alg signing verifying c tok keyFunc leeway methods now [= <-] Hin Hf Hv. simpl.
    rewrite toy_read_token, bool_decide_eq_true_2, Hf, Hv by done. eexists. reflexivity.
Qed.

Definition sample_manager : JWTManager :=
  mkJWTManager "s" KeyNil KeyNil "HS256" (15 * Minute) (7 * 24 * Hour) "nexuspipe".
Definition sample_access : string :=
  toy_token "HS256" (KeySecret "s")
    (make_claims sample_manager (100 * Hour + 7) (15 * Minute) "j" "access" "u" "ann" "a@x" ["admin"]%string []).
Definition sample_refresh : string :=
  toy_token "HS256" (KeySecret "s")
    (make_claims sample_manager (100 * Hour + 7) (7 * 24 * Hour) "j" "refresh" "u" "ann" "a@x" ["admin"]%string []).

Lemma GenerateToken_validates_witness :
  ValidateToken sample_manager (100 * Hour + 16 * Minute) sample_access = inr ErrTokenExpired
  /\ exists c, ValidateToken sample_manager (100 * Hour + 15 * Minute) sample_access = inl c /\ cl_Roles c = ["admin"]%string.
Proof.
  assert (GenerateToken sample_manager (100 * Hour + 7) "j" "u" "ann" "a@x" ["admin"]%string [] = inl sample_access) as Hg
    by reflexivity.
  assert (0 <= jm_accessExpiry sample_manager) as Ha by (vm_compute; discriminate).
  pose proof (fun now => GenerateToken_validates sample_manager (100 * Hour + 7) now "j" "u" "ann" "a@x" ["admin"]%string []
                sample_access eq_refl Ha Hg) as Hv.
  split; [rewrite Hv; reflexivity|]. eexists. split; [rewrite Hv; reflexivity|reflexivity].
Defined.

Lemma ValidateToken_sound_witness :
  exists c key, ValidateToken sample_manager (100 * Hour) sample_access = inl c
    /\ jwt_verified "HS256" key sample_access c /\ key = KeySecret "s".
Proof.
  assert (ValidateToken sample_manager (100 * Hour) sample_access
            = inl (make_claims sample_manager (100 * Hour + 7) (15 * Minute) "j" "access" "u" "ann" "a@x" ["admin"]%string [])) as Hv.
  { unfold ValidateToken, sample_access. cbn [jwt_ParseWithClaims toy_jwt]. rewrite toy_read_token. reflexivity. }
  destruct (ValidateToken_sound _ _ _ _ Hv) as (key & Hk & He & _).
  eexists. exists key. split; [exact Hv|]. split; [exact Hk|exact He].
Defined.

(** A refresh token of an administrator opens what an access token opens. *)
Lemma refresh_tokens_witness :
  (forall s, RefreshToken sample_manager (200 * Hour) "k" sample_refresh <> Ok s)
  /\ exists c, ValidateToken sample_manager (200 * Hour) sample_refresh = inl c /\ cl_Roles c = ["admin"]%string.
Proof.
  assert (GenerateRefreshToken sample_manager (100 * Hour + 7) "j" "u" "ann" "a@x" ["admin"]%string [] = inl sample_refresh) as Hg
    by reflexivity.
  destruct (refresh_tokens sample_manager (100 * Hour + 7) (200 * Hour) "j" "k" "u" "ann" "a@x" ["admin"]%string []
              sample_refresh eq_refl Hg) as (Hr & Hv & _).
  split; [exact Hr|]. destruct Hv as (c & Hc & Hroles & _); [vm_compute; split; discriminate|]. exists c. split; [exact Hc|exact Hroles].
Defined.

(** With a private key but no readable public key the manager goes on with the method of
    secrets and the secret of the sources. *)
Example missing_public_key k :
  exists m, NewJWTManager [WithRSAKeys (Some k) PublicUnreadable] = Ok m /\ signingKey m = KeySecret default_secret
    /\ validMethods m = ["HS256"%string].
Proof. by eexists. Qed.
