(* ===== verification/AuthPermissions.v ===== *)
(** * Permissions as text: internal/auth/jwt.go

    [MarshalPermissions] and [UnmarshalPermissions] on the bytes of the JSON text, over the strings of
    [JsonText].  The decoding of anything but a list of strings is an error.  A nil slice is [None]. *)

From S2P Require Import Prelude GoStrings JsonText.

(* go: internal/auth/jwt.go func MarshalPermissions *)
Definition MarshalPermissions (perms : option (list string)) : string :=
  match perms with
  | None => "null"
  | Some ps => ("[" +:+ strings_Join (quote <$> ps) "," +:+ "]")%string
  end.

(** An element: a string, or null, which leaves the zero value. *)
Definition element (s : string) : option (string * string) :=
  match s with
  | String a r => if (code a =? 34)%N then unquote r
                  else if String.prefix "null" s then Some (EmptyString, String.substring 4 (String.length s - 4) s) else None
  | EmptyString => None
  end.

(** The elements of an array and what follows its closing bracket; every element uses up
    text, so that the length of the text is fuel enough. *)
Fixpoint elements_from (fuel : nat) (s : string) : option (list string * string) :=
  match fuel with
  | O => None
  | S fuel =>
      match element (skip s) with
      | None => None
      | Some (p, r) =>
          match skip r with
          | String a r =>
              if (code a =? 44)%N then prod_map (cons p) id <$> elements_from fuel r
              else if (code a =? 93)%N then Some ([p], r) else None
          | EmptyString => None
          end
      end
  end.

Definition permissions_array (s : string) : option (list string * string) :=
  match skip s with
  | String a r => if (code a =? 93)%N then Some ([], r) else elements_from (S (String.length s)) s
  | EmptyString => None
  end.

(** The outer option is an error: a text that is not JSON, or not a list of strings. *)
(* go: internal/auth/jwt.go func UnmarshalPermissions *)
Definition UnmarshalPermissions (data : string) : option (option (list string)) :=
  match skip data with
  | String a r =>
      if (code a =? 91)%N then
        match permissions_array r with
        | Some (ps, rest) => if String.eqb (skip rest) "" then Some (Some ps) else None
        | None => None
        end
      else if String.prefix "null" (String a r)
      then if String.eqb (skip (String.substring 4 (String.length r - 3) (String a r))) "" then Some None else None
      else None
  | EmptyString => None
  end.

(** ** Fuel *)

Lemma add_front_some p x q r : add_front p x = Some (q, r) -> exists q', x = Some (q', r).
Proof. destruct x as [[q' r']|]; [|done]. intros [= _ <-]. eauto. Qed.

Lemma unquote_shorter n : forall s p r, (String.length s <= n)%nat -> unquote s = Some (p, r) -> (String.length r < String.length s)%nat.
Proof.
  induction n as [|n IH]; intros s p r Hn; (destruct s as [|a s]; [done|]); cbn [unquote]; simpl in *; [lia|].
  repeat case_match; intros Hs; first [discriminate Hs|apply add_front_some in Hs as [q Hs]; apply IH in Hs|injection Hs as _ Hs; clear IH];
    subst; simpl in *; lia.
Qed.

Lemma skip_shorter s : (String.length (skip s) <= String.length s)%nat.
Proof. induction s as [|a s IH]; simpl; [lia|]. destruct (json_space a); simpl; lia. Qed.

Lemma substring_length n m s : (String.length (String.substring n m s) <= String.length s - n)%nat.
Proof.
  revert n m. induction s as [|a s IH]; intros [|n] [|m]; simpl; try lia; [specialize (IH O m)|specialize (IH n O)|specialize (IH n (S m))]; lia.
Qed.

Lemma element_shorter s p r : element s = Some (p, r) -> (String.length r < String.length s)%nat.
Proof.
  unfold element. destruct s as [|a s]; [done|]. destruct (code a =? 34)%N.
  - intros Hs. apply (unquote_shorter _ _ _ _ (le_n _)) in Hs. simpl. lia.
  - destruct (String.prefix "null" (String a s)); [|done]. intros [= _ <-].
    pose proof (substring_length 4 (String.length (String a s) - 4) (String a s)) as Hl. simpl in *. lia.
Qed.

(** More fuel than there is text makes no difference. *)
Lemma elements_fuel f : forall s f', (String.length s < f)%nat -> (String.length s < f')%nat -> elements_from f s = elements_from f' s.
Proof.
  induction f as [|f IH]; intros s [|f'] Hf Hf'; try lia. cbn [elements_from].
  destruct (element (skip s)) as [[p r]|] eqn:He; [|done]. apply element_shorter in He. pose proof (skip_shorter s).
  destruct (skip r) as [|a t] eqn:Hr; [done|]. pose proof (skip_shorter r) as Hs. rewrite Hr in Hs. simpl in Hs.
  by rewrite (IH t f') by lia.
Qed.

(** ** Lists *)

Lemma quote_app s rest : (quote s +:+ rest)%string = String dquote (quote_body s +:+ String dquote rest).
Proof. unfold quote. by rewrite !app_assoc'. Qed.

Lemma element_quote s rest : element (skip (quote s +:+ rest)) = Some (to_valid s, rest).
Proof.
  rewrite quote_app. change (skip (String dquote ?t)) with (String dquote t). unfold element.
  change ((code dquote =? 34)%N) with true. cbv iota. by apply (unquote_quote_body (String.length s)).
Qed.

Lemma elements_join p ps rest fuel :
  (length ps < fuel)%nat ->
  elements_from fuel (strings_Join (quote <$> p :: ps) "," +:+ String (chr 93) rest) = Some (to_valid <$> p :: ps, rest).
Proof.
  revert p fuel. induction ps as [|q ps IH]; intros p [|fuel] Hf; try (simpl in Hf; lia); cbn [elements_from].
  - change (strings_Join (quote <$> [p]) ",") with (quote p). rewrite element_quote. done.
  - change (strings_Join (quote <$> p :: q :: ps) ",") with (quote p +:+ ("," +:+ strings_Join (quote <$> q :: ps) ","))%string.
    rewrite app_assoc', element_quote. rewrite app_assoc'.
    change (("," +:+ ?t)%string) with (String (chr 44) t). change (skip (String (chr 44) ?t)) with (String (chr 44) t).
    change ((code (chr 44) =? 44)%N) with true. cbv iota. rewrite IH by (simpl in Hf; lia). done.
Qed.

Lemma join_length p ps : (length ps <= String.length (strings_Join (quote <$> p :: ps) ","))%nat.
Proof.
  revert p. induction ps as [|q ps IH]; intros p; [simpl; lia|].
  change (strings_Join (quote <$> p :: q :: ps) ",") with (quote p +:+ ("," +:+ strings_Join (quote <$> q :: ps) ","))%string.
  rewrite !string_length_app. specialize (IH q). simpl in *. lia.
Qed.

(** The permissions with their bytes replaced that are not UTF-8. *)
Definition all_valid (perms : option (list string)) : option (list string) :=
  match perms with Some ps => Some (to_valid <$> ps) | None => None end.

(** ** Property *)

(** C37: the text of permissions.  Every list of permissions is encoded, and the text decodes to the
    same list, except that bytes that are not UTF-8 have become U+FFFD: valid permissions are read
    back as they are, with quotes, control characters and the characters of HTML in them, and so are
    the nil slice and the empty one, which are told apart.  The text is JSON for encoding/json's scanner; white space behind
    it does not matter, and anything else is an error. *)
Theorem permissions_roundtrip (perms : option (list string)) :
  json_Valid (MarshalPermissions perms) = true
  /\ UnmarshalPermissions (MarshalPermissions perms) = Some (all_valid perms)
  /\ (from_option (Forall valid_utf8) True perms -> UnmarshalPermissions (MarshalPermissions perms) = Some perms)
  /\ (forall tail, UnmarshalPermissions (MarshalPermissions perms +:+ tail)
        = if String.eqb (skip tail) "" then Some (all_valid perms) else None).
Proof.
  assert (forall tail, UnmarshalPermissions (MarshalPermissions perms +:+ tail)
        = if String.eqb (skip tail) "" then Some (all_valid perms) else None) as Ht.
  { intros tail. destruct perms as [[|p ps]|].
    - reflexivity.
    - unfold MarshalPermissions. rewrite !app_assoc'. change (("[" +:+ ?t)%string) with (String (chr 91) t).
      change (("]" +:+ ?t)%string) with (String (chr 93) t).
      unfold UnmarshalPermissions. change (skip (String (chr 91) ?t)) with (String (chr 91) t).
      change ((code (chr 91) =? 91)%N) with true. cbv iota. unfold permissions_array.
      assert (exists t, (strings_Join (quote <$> p :: ps) "," +:+ String (chr 93) tail)%string = String dquote t) as [t Hq].
      { destruct ps as [|q ps]; eexists; [apply quote_app|].
        change (strings_Join (quote <$> p :: q :: ps) ",") with (quote p +:+ ("," +:+ strings_Join (quote <$> q :: ps) ","))%string.
        rewrite app_assoc'. apply quote_app. }
      rewrite Hq at 1. change (skip (String dquote t)) with (String dquote t). change ((code dquote =? 93)%N) with false. cbv iota.
      rewrite elements_join; [done|]. rewrite string_length_app. pose proof (join_length p ps). lia.
    - change (MarshalPermissions None +:+ tail)%string with ("null" +:+ tail)%string. unfold UnmarshalPermissions.
      change (skip ("null" +:+ tail)) with (String (chr 110) ("ull" +:+ tail)). change ((code (chr 110) =? 91)%N) with false. cbv iota.
      rewrite string_length_app. replace (String.length "ull" + String.length tail - 3)%nat with (String.length tail) by (simpl; lia).
      change (String (chr 110) ("ull" +:+ tail)) with ("null" +:+ tail)%string.
      change 4%nat with (String.length "null"). rewrite substring_app. by destruct tail. }
  assert (UnmarshalPermissions (MarshalPermissions perms) = Some (all_valid perms)) as H0.
  { pose proof (Ht EmptyString) as H0. by rewrite append_nil_r in H0. }
  split_and!; [|done| |done].
  { destruct perms as [ps|]; [|done]. apply reads_valid. change maxNestingDepth with (maxNestingDepth - 1 + 1).
    apply (reads_array _ (quote <$> ps)); [done|]. apply Forall_fmap, Forall_true. intros p. apply reads_quote. }
  rewrite H0. intros Hv. f_equal. destruct perms as [ps|]; [|done]. simpl in Hv. unfold all_valid. f_equal.
  rewrite <- (list_fmap_id ps) at 2. apply Forall_fmap_ext_1. exact Hv.
Qed.

Lemma permissions_roundtrip_witness :
  let perms := Some ["read"; String dquote "<admin>"]%string in
  MarshalPermissions (Some ["read"]%string) = String (chr 91) (String dquote "read" +:+ String dquote "]")
  /\ UnmarshalPermissions (MarshalPermissions perms) = Some perms.
Proof.
  intros perms. split; [reflexivity|].
  apply (proj1 (proj2 (proj2 (permissions_roundtrip perms)))). repeat constructor.
Defined.
