(* ===== verification/AuthMiddleware.v ===== *)
(** * Authentication of requests: internal/api/middleware/auth.go

    The middlewares that authenticate a request by a token, an API key or Basic credentials, and
    the one that requires a permission, over the managers of [AuthJwt], [ApiKey] and [Rbac].
    A request is what they read of it; the context of gin is what they set in it.  Decoding
    base64 is an argument.  A middleware passes the request on, or aborts it with a status. *)

From S2P Require Import Prelude GoStrings AuthJwt ApiKey Rbac.

(** ** Requests and contexts *)

Record request := mkRequest {
  rq_Path : string;
  rq_Authorization : string;
  rq_XAPIKey : string;
  rq_QueryKey : string
}.

Record user_context := mkUser {
  uc_UserID : string;
  uc_Username : string;
  uc_Email : string;
  uc_Roles : list string;
  uc_Permissions : list string;
  uc_AuthMethod : string
}.

(** The values set under the keys of the context. *)
Record gin_context := mkContext {
  gc_User : option user_context;
  gc_Claims : option Claims;
  gc_APIKey : option APIKey
}.

Definition empty_context : gin_context := mkContext None None None.

(* go: internal/api/middleware/auth.go func setUserContext *)
Definition setUserContext (userID username email : string) (roles permissions : list string) (authMethod : string) (c : gin_context)
    : gin_context :=
  mkContext (Some (mkUser userID username email roles permissions authMethod)) (gc_Claims c) (gc_APIKey c).
Definition set_claims (cl : Claims) (c : gin_context) : gin_context := mkContext (gc_User c) (Some cl) (gc_APIKey c).
Definition set_api_key (k : APIKey) (c : gin_context) : gin_context := mkContext (gc_User c) (gc_Claims c) (Some k).

(* go: internal/api/middleware/auth.go func GetUserID *)
Definition GetUserID (c : gin_context) : string := match gc_User c with Some u => uc_UserID u | None => EmptyString end.
(* go: internal/api/middleware/auth.go func GetUsername *)
Definition GetUsername (c : gin_context) : string := match gc_User c with Some u => uc_Username u | None => EmptyString end.
(* go: internal/api/middleware/auth.go func GetUserEmail *)
Definition GetUserEmail (c : gin_context) : string := match gc_User c with Some u => uc_Email u | None => EmptyString end.
(* go: internal/api/middleware/auth.go func GetUserRoles *)
Definition GetUserRoles (c : gin_context) : list string := match gc_User c with Some u => uc_Roles u | None => [] end.
(* go: internal/api/middleware/auth.go func GetAuthMethod *)
Definition GetAuthMethod (c : gin_context) : string := match gc_User c with Some u => uc_AuthMethod u | None => EmptyString end.
(* go: internal/api/middleware/auth.go func GetClaims *)
Definition GetClaims (c : gin_context) : option Claims := gc_Claims c.
(* go: internal/api/middleware/auth.go func GetAPIKey *)
Definition GetAPIKey (c : gin_context) : option APIKey := gc_APIKey c.

Inductive auth_error : Type :=
| HeaderRequired
| BearerFailed (err : BearerError)
| TokenFailed (err : TokenError)
| BadBase64
| BadBasicFormat
| InvalidKey
| UnsupportedMethod
| KeyRequired
| RateLimited
| KeyFailed (err : APIKeyError)
| NoRoles
| InsufficientPermissions.

Inductive mw_result : Type :=
| Next (c : gin_context)
| Aborted (status : Z) (err : auth_error)
| MwPanics.

(* go: internal/api/middleware/auth.go type AuthConfig *)
Record AuthConfig := mkAuthConfig {
  ac_JWTManager : option JWTManager;
  ac_APIKeyManager : option APIKeyManager;
  ac_RBACEnforcer : option RBACEnforcer;
  ac_SkipPaths : list string
}.

Definition with_keys (m : APIKeyManager) (cfg : AuthConfig) : AuthConfig :=
  mkAuthConfig (ac_JWTManager cfg) (Some m) (ac_RBACEnforcer cfg) (ac_SkipPaths cfg).

(** The role of a key: its first permission in lower case. *)
Definition key_role (k : APIKey) : string :=
  match ak_Permissions k with p :: _ => ToLower p | [] => RoleViewer end.

Section middleware.
Context `{JwtOps} `{BcryptOps} (base64_decode : string -> option string).

(** ** The middlewares *)

(** The credentials are only split. *)
(* go: internal/api/middleware/auth.go func basicAuthHandler *)
Definition basicAuthHandler (authHeader : string) (c : gin_context) : gin_context + auth_error :=
  match base64_decode (TrimPrefix authHeader "Basic ") with
  | None => inr BadBase64
  | Some decoded =>
      match split_colon decoded with
      | None => inr BadBasicFormat
      | Some (user, _) => inl (setUserContext user user "" [RoleViewer] [] "basic" c)
      end
  end.

Definition with_claims (claims : Claims) (c : gin_context) : gin_context :=
  set_claims claims (setUserContext (cl_UserID claims) (cl_Username claims) (cl_Email claims) (cl_Roles claims)
                       (cl_Permissions claims) "jwt" c).
Definition with_api_key (key : APIKey) (c : gin_context) : gin_context :=
  set_api_key key (setUserContext (ak_UserID key) (ak_Name key) "" [key_role key] [] "apikey" c).

(** The body of both middlewares that take a token. *)
Definition bearer_auth (m : JWTManager) (now : Z) (authHeader : string) (c : gin_context) : mw_result :=
  match ExtractBearerToken authHeader with
  | inr err => Aborted 401 (BearerFailed err)
  | inl token =>
      match ValidateToken m now token with
      | inr err => Aborted 401 (TokenFailed err)
      | inl claims => Next (with_claims claims c)
      end
  end.

(** [ord] is the order in which the key manager ranges over its keys. *)
(* go: internal/api/middleware/auth.go func AuthMiddleware *)
Definition AuthMiddleware (cfg : AuthConfig) (now : Z) (ord : list string) (rq : request) (c : gin_context) : AuthConfig * mw_result :=
  if bool_decide (rq_Path rq ∈ ac_SkipPaths cfg) then (cfg, Next c)
  else
    let authHeader := rq_Authorization rq in
    if String.eqb authHeader "" then (cfg, Aborted 401 HeaderRequired)
    else if String.prefix "Bearer " authHeader then
      match ac_JWTManager cfg with
      | Some m => (cfg, bearer_auth m now authHeader c)
      | None => (cfg, Aborted 401 UnsupportedMethod)
      end
    else if String.prefix "Basic " authHeader then
      match basicAuthHandler authHeader c with
      | inr err => (cfg, Aborted 401 err)
      | inl c' => (cfg, Next c')
      end
    else
      match ac_APIKeyManager cfg with
      | Some m =>
          match ApiKey.ValidateKey m now ord authHeader with
          | (m', Ok key) => (with_keys m' cfg, Next (with_api_key key c))
          | (m', Err _) => (with_keys m' cfg, Aborted 401 InvalidKey)
          | (m', Panic) => (with_keys m' cfg, MwPanics)
          end
      | None => (cfg, Aborted 401 UnsupportedMethod)
      end.

(* go: internal/api/middleware/auth.go func JWTAuthMiddleware *)
Definition JWTAuthMiddleware (m : JWTManager) (now : Z) (rq : request) (c : gin_context) : mw_result :=
  if String.eqb (rq_Authorization rq) "" then Aborted 401 HeaderRequired else bearer_auth m now (rq_Authorization rq) c.

(* go: internal/api/middleware/auth.go func APIKeyAuthMiddleware *)
Definition APIKeyAuthMiddleware (m : APIKeyManager) (now : Z) (ord : list string) (rq : request) (c : gin_context)
    : APIKeyManager * mw_result :=
  let given := if String.eqb (rq_XAPIKey rq) "" then rq_QueryKey rq else rq_XAPIKey rq in
  let authHeader := rq_Authorization rq in
  if String.eqb given "" && (String.prefix "Bearer " authHeader || String.prefix "Basic " authHeader) then (m, Next c)
  else
    let apiKey := if String.eqb given "" then authHeader else given in
    if String.eqb apiKey "" then (m, Aborted 401 KeyRequired)
    else match CheckRateLimit m now apiKey with
         | (m1, Some _) => (m1, Aborted 429 RateLimited)
         | (m1, None) =>
             match ApiKey.ValidateKey m1 now ord apiKey with
             | (m2, Ok key) => (m2, Next (with_api_key key c))
             | (m2, Err err) => (m2, Aborted 401 (KeyFailed err))
             | (m2, Panic) => (m2, MwPanics)
             end
         end.

(** [credentials] is never read. *)
(* go: internal/api/middleware/auth.go func BasicAuthMiddleware *)
Definition BasicAuthMiddleware (credentials : gmap string string) (rq : request) (c : gin_context) : mw_result :=
  if String.eqb (rq_Authorization rq) "" then Aborted 401 HeaderRequired
  else match basicAuthHandler (rq_Authorization rq) c with
       | inr err => Aborted 401 err
       | inl c' => Next c'
       end.

(** The loop over the roles; [None] if the search of the enforcer ran out of fuel. *)
Fixpoint any_role (e : RBACEnforcer) (roles : list string) (resource action : string) : option bool :=
  match roles with
  | [] => Some false
  | role :: roles =>
      match CheckPermission e role resource action with
      | Some true => Some true
      | Some false => any_role e roles resource action
      | None => None
      end
  end.

(* go: internal/api/middleware/auth.go func RequirePermission *)
Definition RequirePermission (e : RBACEnforcer) (resource action : string) (c : gin_context) : option mw_result :=
  match gc_User c with
  | None => Some (Aborted 403 NoRoles)
  | Some u =>
      match any_role e (uc_Roles u) resource action with
      | Some true => Some (Next c)
      | Some false => Some (Aborted 403 InsufficientPermissions)
      | None => None
      end
  end.

(** Authentication, then the permission. *)
Definition guarded (cfg : AuthConfig) (e : RBACEnforcer) (resource action : string) (now : Z) (ord : list string) (rq : request)
    : AuthConfig * option mw_result :=
  match AuthMiddleware cfg now ord rq empty_context with
  | (cfg', Next c) => (cfg', RequirePermission e resource action c)
  | (cfg', res) => (cfg', Some res)
  end.

(** ** Who gets in *)

(** How a request shows who sends it, and the roles it gets. *)
Inductive shows (cfg : AuthConfig) (now : Z) (ord : list string) (rq : request) : list string -> Prop :=
| ShowsToken m token claims :
    ac_JWTManager cfg = Some m -> rq_Authorization rq = ("Bearer " +:+ token)%string ->
    ValidateToken m now token = inl claims -> shows cfg now ord rq (cl_Roles claims)
| ShowsKey m key :
    ac_APIKeyManager cfg = Some m -> (ApiKey.ValidateKey m now ord (rq_Authorization rq)).2 = Ok key ->
    shows cfg now ord rq [key_role key]
| ShowsNothing text user password :
    rq_Authorization rq = ("Basic " +:+ text)%string -> base64_decode text = Some (user +:+ ":" +:+ password)%string ->
    shows cfg now ord rq [RoleViewer].

Lemma TrimPrefix_Basic t : TrimPrefix ("Basic " +:+ t) "Basic " = t.
Proof. by destruct t. Qed.

Lemma Bearer_token t : ExtractBearerToken ("Bearer " +:+ t) = inl t.
Proof. reflexivity. Qed.

Lemma split_colon_some s : forall a b, split_colon s = Some (a, b) -> s = (a +:+ ":" +:+ b)%string.
Proof.
  induction s as [|c s IH]; intros a b; simpl; [done|]. destruct (bool_decide_reflect (c = colon)) as [->|_].
  - by intros [= <- <-].
  - destruct (split_colon s) as [[a' b']|]; [|done]. intros [= <- <-]. by rewrite (IH a' b').
Qed.

Lemma AuthMiddleware_shows cfg now ord rq cfg' c :
  AuthMiddleware cfg now ord rq empty_context = (cfg', Next c) ->
  (rq_Path rq ∈ ac_SkipPaths cfg /\ c = empty_context)
  \/ exists u, gc_User c = Some u /\ shows cfg now ord rq (uc_Roles u).
Proof.
  unfold AuthMiddleware. destruct (bool_decide_reflect (rq_Path rq ∈ ac_SkipPaths cfg)) as [Hs|_]; [intros [= _ <-]; by left|].
  destruct (String.eqb _ ""); [done|]. intros Hn. right. revert Hn.
  destruct (String.prefix "Bearer " (rq_Authorization rq)) eqn:Hb.
  { apply prefix_app in Hb as [t Ht]. destruct (ac_JWTManager cfg) as [m|] eqn:Hm; [|done].
    unfold bearer_auth. rewrite Ht, Bearer_token. destruct (ValidateToken m now t) as [claims|] eqn:Hv; [|done].
    intros [= _ <-]. eexists. split; [done|]. by eapply ShowsToken. }
  destruct (String.prefix "Basic " (rq_Authorization rq)) eqn:Hp.
  { apply prefix_app in Hp as [t Ht]. unfold basicAuthHandler. rewrite Ht, TrimPrefix_Basic.
    destruct (base64_decode t) as [d|] eqn:Hd; [|done]. destruct (split_colon d) as [[user pw]|] eqn:Hsp; [|done].
    intros [= _ <-]. eexists. split; [done|]. eapply ShowsNothing; [done|]. rewrite Hd. f_equal. by apply split_colon_some. }
  destruct (ac_APIKeyManager cfg) as [m|] eqn:Hm; [|done].
  destruct (ApiKey.ValidateKey m now ord (rq_Authorization rq)) as [m' [key|err|]] eqn:Hv; try done.
  intros [= _ <-]. eexists. split; [done|]. eapply ShowsKey; [done|]. by rewrite Hv.
Qed.

Lemma any_role_true e roles resource action : any_role e roles resource action = Some true ->
  exists role, role ∈ roles /\ CheckPermission e role resource action = Some true.
Proof.
  induction roles as [|role roles IH]; simpl; [done|]. destruct (CheckPermission e role resource action) as [[]|] eqn:Hc; [| |done].
  - intros _. exists role. split; [by left|done].
  - intros (role' & ? & ?)%IH. exists role'. split; [by right|done].
Qed.


(** No password is ever checked: Basic credentials with any user and any password pass
    authentication as a viewer and get through to whatever a viewer may do, and a request
    with any bearer or Basic header and no key passes the middleware for API keys. *)
Theorem no_password_checked cfg e resource action now ord rq text user password :
  rq_Authorization rq = ("Basic " +:+ text)%string -> base64_decode text = Some (user +:+ ":" +:+ password)%string ->
  no_colon user = true -> rq_Path rq ∉ ac_SkipPaths cfg ->
  CheckPermission e RoleViewer resource action = Some true ->
  guarded cfg e resource action now ord rq =
    (cfg, Some (Next (setUserContext user user "" [RoleViewer] [] "basic" empty_context)))
  /\ (forall m c, rq_XAPIKey rq = EmptyString -> rq_QueryKey rq = EmptyString ->
        APIKeyAuthMiddleware m now ord rq c = (m, Next c)).
Proof.
  intros Ha Hd Hu Hp Hc. split.
  - unfold guarded, AuthMiddleware. rewrite bool_decide_eq_false_2 by done. rewrite Ha.
    assert (String.eqb ("Basic " +:+ text) "" = false) as -> by reflexivity.
    assert (String.prefix "Bearer " ("Basic " +:+ text) = false) as -> by reflexivity.
    assert (String.prefix "Basic " ("Basic " +:+ text) = true) as -> by apply prefix_app_true.
    unfold basicAuthHandler. rewrite TrimPrefix_Basic, Hd.
    change (":" +:+ password)%string with (String colon password). rewrite split_colon_app by done.
    unfold RequirePermission. simpl. by rewrite Hc.
  - intros m c Hx Hq. unfold APIKeyAuthMiddleware. rewrite Hx, Hq, Ha.
    assert (String.prefix "Basic " ("Basic " +:+ text) = true) as -> by apply prefix_app_true. by rewrite orb_true_r.
Qed.
End middleware.

(** ** Examples *)

(** A decoder for one text. *)
Definition sample_base64 (s : string) : option string := if String.eqb s "bm9ib2R5Ong=" then Some "nobody:x"%string else None.
Definition sample_request : request := mkRequest "/pipelines" "Basic bm9ib2R5Ong=" "" "".
Definition sample_config : AuthConfig := mkAuthConfig (Some sample_manager) None (Some NewRBACEnforcer) ["/health"]%string.
#[local] Instance no_bcrypt : BcryptOps := { bcrypt_Generate pw := Err "none"%string; bcrypt_Compare h pw := false }.

Lemma no_password_checked_witness :
  exists c, guarded sample_base64 sample_config NewRBACEnforcer "pipeline" "read" 5 [] sample_request = (sample_config, Some (Next c))
    /\ GetUserID c = "nobody"%string.
Proof.
  assert (CheckPermission NewRBACEnforcer RoleViewer "pipeline" "read" = Some true) as Hc by (vm_compute; reflexivity).
  assert (rq_Path sample_request ∉ ac_SkipPaths sample_config) as Hp by (simpl; set_solver).
  destruct (no_password_checked sample_base64 sample_config NewRBACEnforcer "pipeline" "read" 5 [] sample_request
              "bm9ib2R5Ong=" "nobody" "x" eq_refl eq_refl eq_refl Hp Hc) as [Hg _].
  eexists. split; [exact Hg|reflexivity].
Defined.

