(* ===== verification/Cors.v ===== *)
(** * Cross-origin requests: internal/api/middleware/cors.go

    The configurations, the middleware, and the matching of origins.  A request is its method
    and its headers Origin, Access-Control-Request-Method and -Headers; a response is the
    headers set and the status of an abort.  [strings.EqualFold] is equality of the ASCII
    letters without their case. *)

From S2P Require Import Prelude GoFloat GoStrings GoHttp.

(** ** Configuration *)

(* go: internal/api/middleware/cors.go type CORSMode *)
Definition CORSMode : Type := string.
(* go: internal/api/middleware/cors.go @14-16 CORSModeAllowAll *)
Definition CORSModeAllowAll : CORSMode := "allow-all".
Definition CORSModeWhitelist : CORSMode := "whitelist".
Definition CORSModeSameOrigin : CORSMode := "same-origin".

(* go: internal/api/middleware/cors.go type CORSConfig *)
Record CORSConfig := mkCORSConfig {
  co_AllowedOrigins : list string;
  co_AllowedMethods : list string;
  co_AllowedHeaders : list string;
  co_ExposedHeaders : list string;
  co_AllowCredentials : bool;
  co_MaxAge : Z;
  co_Mode : CORSMode
}.

(* go: internal/api/middleware/cors.go func DefaultCORSConfig *)
Definition DefaultCORSConfig : CORSConfig :=
  mkCORSConfig ["*"]%string ["GET"; "POST"; "PUT"; "PATCH"; "DELETE"; "OPTIONS"]%string
    ["Origin"; "Content-Type"; "Accept"; "Authorization"; "X-API-Key"; "X-Request-ID"]%string
    ["Content-Length"; "Content-Type"; "X-Request-ID"; "X-RateLimit-Limit"; "X-RateLimit-Remaining"; "X-RateLimit-Reset"]%string
    true (12 * Hour) CORSModeAllowAll.

Definition or_list (l d : list string) : list string := match l with [] => d | _ => l end.

(* go: internal/api/middleware/cors.go func normalizeConfig *)
Definition normalizeConfig (c : CORSConfig) : CORSConfig :=
  mkCORSConfig (or_list (co_AllowedOrigins c) ["*"]%string)
    (or_list (co_AllowedMethods c) ["GET"; "POST"; "PUT"; "PATCH"; "DELETE"; "OPTIONS"]%string)
    (or_list (co_AllowedHeaders c) ["Origin"; "Content-Type"; "Accept"; "Authorization"]%string)
    (co_ExposedHeaders c) (co_AllowCredentials c) (if co_MaxAge c =? 0 then 12 * Hour else co_MaxAge c) (co_Mode c).

(** ** Origins *)

(** A pattern with "*" elsewhere becomes the text of a regular expression, which is then
    looked for as it is. *)
(* go: internal/api/middleware/cors.go func matchOrigin *)
Definition matchOrigin (origin allowed : string) : bool :=
  if String.eqb allowed "*" then true
  else if String.eqb allowed origin then true
  else if String.prefix "https://*." allowed then
    let suffix := TrimPrefix allowed "https://*." in
    HasSuffix origin ("." +:+ suffix) || String.eqb origin ("https://" +:+ suffix)
  else if String.prefix "http://*." allowed then
    let suffix := TrimPrefix allowed "http://*." in
    HasSuffix origin ("." +:+ suffix) || String.eqb origin ("http://" +:+ suffix)
  else if Contains allowed "*" then Contains origin (ReplaceAll allowed (Ascii.ascii_of_nat 42) "[^/]+")
  else false.

(* go: internal/api/middleware/cors.go func isSameOrigin *)
Definition isSameOrigin (origin : string) : bool :=
  String.prefix "http://localhost" origin || String.prefix "https://localhost" origin
  || String.prefix "http://127.0.0.1" origin || String.eqb origin "".

(* go: internal/api/middleware/cors.go func isOriginAllowed *)
Definition isOriginAllowed (origin : string) (c : CORSConfig) : bool :=
  if String.eqb (co_Mode c) CORSModeAllowAll then true
  else if String.eqb (co_Mode c) CORSModeSameOrigin then isSameOrigin origin
  else existsb (fun allowed => String.eqb allowed "*" || matchOrigin origin allowed) (co_AllowedOrigins c).

(** The first of no origins would panic. *)
(* go: internal/api/middleware/cors.go func resolveOrigin *)
Definition resolveOrigin (origin : string) (c : CORSConfig) : option string :=
  if String.eqb (co_Mode c) CORSModeAllowAll && negb (co_AllowCredentials c) then Some "*"%string
  else if existsb (fun allowed => String.eqb allowed "*" || matchOrigin origin allowed) (co_AllowedOrigins c) then Some origin
  else if String.eqb (co_Mode c) CORSModeAllowAll then Some origin
  else head (co_AllowedOrigins c).

(** ** The middleware *)

Inductive cors_result : Type :=
| PassOn (h : Header)
| AbortWith (status : Z) (h : Header)
| CorsPanics.

(** [c.Header]: an empty value deletes. *)
Definition set_header (key value : string) (h : Header) : Header :=
  if String.eqb value "" then delete (CanonicalHeaderKey key) h else Header_Set key value h.

(** [out] is the conversion of seconds out of range. *)
Definition cors_headers (out : Z) (c : CORSConfig) (allow : string) : Header :=
  let h := set_header "Access-Control-Allow-Origin" allow ∅ in
  let h := set_header "Access-Control-Allow-Methods" (strings_Join (co_AllowedMethods c) ", ") h in
  let h := set_header "Access-Control-Allow-Headers" (strings_Join (co_AllowedHeaders c) ", ") h in
  let h := set_header "Access-Control-Expose-Headers" (strings_Join (co_ExposedHeaders c) ", ") h in
  let h := set_header "Access-Control-Max-Age" (itoa (f64_to_int64 out (Seconds (co_MaxAge c)))) h in
  if co_AllowCredentials c then set_header "Access-Control-Allow-Credentials" "true" h else h.

(* go: internal/api/middleware/cors.go func CORS *)
Definition CORS (config : CORSConfig) (out : Z) (method origin : string) : cors_result :=
  let config := normalizeConfig config in
  if String.eqb origin "" then PassOn ∅
  else if negb (isOriginAllowed origin config) then AbortWith 403 ∅
  else match resolveOrigin origin config with
       | None => CorsPanics
       | Some allow =>
           let h := cors_headers out config allow in
           if String.eqb method "OPTIONS" then AbortWith 204 h else PassOn h
       end.

Definition whitelist (origins : list string) (c : CORSConfig) : CORSConfig :=
  match origins with
  | [] => c
  | _ => mkCORSConfig origins (co_AllowedMethods c) (co_AllowedHeaders c) (co_ExposedHeaders c) (co_AllowCredentials c)
           (co_MaxAge c) CORSModeWhitelist
  end.

(* go: internal/api/middleware/cors.go func CORSMiddleware *)
Definition CORSMiddleware (allowedOrigins : list string) := CORS (whitelist allowedOrigins DefaultCORSConfig).
(* go: internal/api/middleware/cors.go func CORSAllowAll *)
Definition CORSAllowAll := CORS DefaultCORSConfig.
(* go: internal/api/middleware/cors.go func CORSWithConfig *)
Definition CORSWithConfig (origins methods headers : list string) (credentials : bool) :=
  let c := whitelist origins DefaultCORSConfig in
  CORS (mkCORSConfig (co_AllowedOrigins c) (or_list methods (co_AllowedMethods c)) (or_list headers (co_AllowedHeaders c))
          (co_ExposedHeaders c) credentials (co_MaxAge c) (co_Mode c)).

(** Never called. *)
(* go: internal/api/middleware/cors.go func buildVaryHeader *)
Definition buildVaryHeader (h : Header) : Header :=
  let vary := default EmptyString (h !! "Vary"%string) in
  if String.eqb vary "" then set_header "Vary" "Origin" h
  else if negb (Contains vary "Origin") then set_header "Vary" (vary +:+ ", Origin") h else h.

Definition EqualFold (s t : string) : bool := String.eqb (ToLower s) (ToLower t).

(** The status of the abort, if any.  Never called. *)
(* go: internal/api/middleware/cors.go func handlePreflight *)
Definition handlePreflight (c : CORSConfig) (method origin reqMethod reqHeaders : string) : option Z :=
  if negb (String.eqb method "OPTIONS") then None
  else if String.eqb origin "" || String.eqb reqMethod "" then Some 400
  else if negb (isOriginAllowed origin c) then Some 403
  else if negb (existsb (fun m => EqualFold m reqMethod) (co_AllowedMethods c)) then Some 403
  else if String.eqb reqHeaders "" then None
  else if forallb (fun rh => existsb (fun ah => EqualFold ah (TrimSpace rh)) (co_AllowedHeaders c))
            (Split reqHeaders (Ascii.ascii_of_nat 44))
  then None else Some 403.

(** ** Which origins are allowed *)

(** A pattern allows everything, itself, everything below a domain, whatever the scheme, with the
    domain itself under the scheme of the pattern, or what contains the odd text that other
    patterns are turned into. *)
Definition origin_matches (origin allowed : string) : Prop :=
  allowed = "*"%string \/ allowed = origin
  \/ (exists scheme domain, scheme ∈ ["https://"; "http://"]%string /\ allowed = (scheme +:+ "*." +:+ domain)%string
        /\ ((exists a, origin = (a +:+ "." +:+ domain)%string) \/ origin = (scheme +:+ domain)%string))
  \/ (String.prefix "https://*." allowed = false /\ String.prefix "http://*." allowed = false /\ occurs "*" allowed
      /\ occurs (ReplaceAll allowed (Ascii.ascii_of_nat 42) "[^/]+") origin).

Lemma TrimPrefix_https t : TrimPrefix ("https://*." +:+ t) "https://*." = t.
Proof. by destruct t. Qed.
Lemma TrimPrefix_http t : TrimPrefix ("http://*." +:+ t) "http://*." = t.
Proof. by destruct t. Qed.

Lemma HasSuffix_dot origin d : HasSuffix origin ("." +:+ d) = true <-> exists a, origin = (a +:+ "." +:+ d)%string.
Proof. apply HasSuffix_spec. Qed.

Lemma scheme_cases scheme : scheme ∈ ["https://"; "http://"]%string -> scheme = "https://"%string \/ scheme = "http://"%string.
Proof. set_solver. Qed.

Lemma matchOrigin_spec origin allowed : matchOrigin origin allowed = true <-> origin_matches origin allowed.
Proof.
  unfold matchOrigin, origin_matches.
  destruct (String.eqb_spec allowed "*") as [->|Hs]; [split; [by left|done]|].
  destruct (String.eqb_spec allowed origin) as [->|Ho]; [split; [by right; left|done]|].
  destruct (String.prefix "https://*." allowed) eqn:H1.
  { destruct (prefix_app _ _ H1) as [d ->]. rewrite TrimPrefix_https, orb_true_iff, HasSuffix_dot, String.eqb_eq. split.
    - intros Hm. right; right; left. exists "https://"%string, d. split_and!; [by left|done|done].
    - intros [|[|[(scheme & d' & Hin & Heq & Hm)|(Hf & _)]]]; [done|done| |done].
      destruct (scheme_cases _ Hin) as [-> | ->]; [|discriminate Heq]. injection Heq as Heq. change (d = d') in Heq. by subst d'. }
  destruct (String.prefix "http://*." allowed) eqn:H2.
  { destruct (prefix_app _ _ H2) as [d ->]. rewrite TrimPrefix_http, orb_true_iff, HasSuffix_dot, String.eqb_eq. split.
    - intros Hm. right; right; left. exists "http://"%string, d. split_and!; [by right; left|done|done].
    - intros [|[|[(scheme & d' & Hin & Heq & Hm)|(_ & Hf & _)]]]; [done|done| |done].
      destruct (scheme_cases _ Hin) as [-> | ->]; [discriminate Heq|]. injection Heq as Heq. change (d = d') in Heq. by subst d'. }
  transitivity (occurs "*" allowed /\ occurs (ReplaceAll allowed (Ascii.ascii_of_nat 42) "[^/]+") origin).
  { rewrite <- !Contains_spec. destruct (Contains allowed "*"); [tauto|]. split; [done|by intros []]. }
  split; [tauto|]. intros [|[|[(scheme & d & Hin & -> & _)|(_ & _ & ?)]]]; [done|done| |done].
  exfalso. destruct (scheme_cases _ Hin) as [-> | ->].
  - assert (String.prefix "https://*." ("https://*." +:+ d) = true) as Ht by apply prefix_app_true. discriminate (eq_trans (eq_sym Ht) H1).
  - assert (String.prefix "http://*." ("http://*." +:+ d) = true) as Ht by apply prefix_app_true. discriminate (eq_trans (eq_sym Ht) H2).
Qed.

Definition allowed_spec (c : CORSConfig) (origin : string) : Prop :=
  co_Mode c = CORSModeAllowAll
  \/ (co_Mode c = CORSModeSameOrigin /\ isSameOrigin origin = true)
  \/ (co_Mode c <> CORSModeAllowAll /\ co_Mode c <> CORSModeSameOrigin
      /\ exists a, a ∈ or_list (co_AllowedOrigins c) ["*"]%string /\ origin_matches origin a).

Lemma any_origin origin l :
  existsb (fun allowed => String.eqb allowed "*" || matchOrigin origin allowed) l = true <-> exists a, a ∈ l /\ origin_matches origin a.
Proof.
  rewrite existsb_exists. split.
  - intros (a & Hin%list_elem_of_In & Ha). exists a. split; [done|].
    apply orb_true_iff in Ha as [->%String.eqb_eq|?]; [by left|by apply matchOrigin_spec].
  - intros (a & Hin & Ha). exists a. rewrite <- list_elem_of_In. split; [done|]. apply orb_true_iff. right. by apply matchOrigin_spec.
Qed.

Lemma isOriginAllowed_spec origin c : isOriginAllowed origin (normalizeConfig c) = true <-> allowed_spec c origin.
Proof.
  unfold isOriginAllowed, allowed_spec, normalizeConfig. cbn [co_Mode co_AllowedOrigins].
  destruct (String.eqb_spec (co_Mode c) CORSModeAllowAll) as [Hm|Hm]; [tauto|].
  destruct (String.eqb_spec (co_Mode c) CORSModeSameOrigin) as [Hs|Hs]; [tauto|]. rewrite any_origin. tauto.
Qed.

Lemma set_header_ne key value k h : CanonicalHeaderKey key <> k -> set_header key value h !! k = h !! k.
Proof. intros Hk. unfold set_header, Header_Set. destruct (String.eqb value ""); [by rewrite lookup_delete_ne|by rewrite lookup_insert_ne]. Qed.

Lemma cors_headers_origin out c allow : allow <> EmptyString ->
  cors_headers out c allow !! "Access-Control-Allow-Origin"%string = Some allow.
Proof.
  intros Ha. unfold cors_headers. destruct (co_AllowCredentials c); rewrite !set_header_ne by (vm_compute; discriminate);
    unfold set_header; destruct (String.eqb_spec allow ""); try done; unfold Header_Set; apply lookup_insert_eq.
Qed.

Lemma cors_headers_credentials out c allow :
  cors_headers out c allow !! "Access-Control-Allow-Credentials"%string = if co_AllowCredentials c then Some "true"%string else None.
Proof.
  unfold cors_headers. destruct (co_AllowCredentials c); [unfold set_header at 1, Header_Set; apply lookup_insert_eq|].
  rewrite !set_header_ne by (vm_compute; discriminate). apply lookup_empty.
Qed.

(** A request without an origin passes without headers, one whose origin the configuration does
    not allow is refused, one that is allowed is answered: a preflight at once, others after
    the handler.  The answer names the origin itself, so that with credentials every site
    that is allowed can act for the user, in the mode that allows all every site there is;
    "*" is only ever answered without credentials. *)
Theorem CORS_correct c out method origin :
  (origin = EmptyString -> CORS c out method origin = PassOn ∅)
  /\ (origin <> EmptyString -> ~ allowed_spec c origin -> CORS c out method origin = AbortWith 403 ∅)
  /\ (origin <> EmptyString -> allowed_spec c origin -> Forall (fun a => a <> EmptyString) (co_AllowedOrigins c) ->
      exists h v, CORS c out method origin = (if String.eqb method "OPTIONS" then AbortWith 204 h else PassOn h)
        /\ h !! "Access-Control-Allow-Origin"%string = Some v
        /\ h !! "Access-Control-Allow-Credentials"%string = (if co_AllowCredentials c then Some "true"%string else None)
        /\ (co_Mode c <> CORSModeSameOrigin -> co_AllowCredentials c = true -> v = origin)
        /\ (v = "*"%string -> origin <> "*"%string -> co_AllowCredentials c = false)).
Proof.
  split_and!.
  - by intros ->.
  - intros Ho Ha. unfold CORS. destruct (String.eqb_spec origin ""); [done|].
    destruct (isOriginAllowed origin (normalizeConfig c)) eqn:Hi; [|done]. by apply isOriginAllowed_spec in Hi.
  - intros Ho Ha Hne. unfold CORS. destruct (String.eqb_spec origin ""); [done|].
    rewrite (proj2 (isOriginAllowed_spec origin c) Ha). simpl.
    assert (exists v, resolveOrigin origin (normalizeConfig c) = Some v /\ v <> EmptyString
      /\ (co_Mode c <> CORSModeSameOrigin -> co_AllowCredentials c = true -> v = origin)
      /\ (v = "*"%string -> origin <> "*"%string -> co_AllowCredentials c = false)) as (v & -> & Hv & H1 & H2).
    { unfold resolveOrigin, normalizeConfig. cbn [co_Mode co_AllowedOrigins co_AllowCredentials].
      destruct (String.eqb_spec (co_Mode c) CORSModeAllowAll) as [Hm|Hm].
      - destruct (co_AllowCredentials c); simpl; [|by exists "*"%string].
        exists origin. destruct (existsb _ _); split_and!; done.
      - simpl. destruct (existsb _ _) eqn:He; [exists origin; by split_and!|].
        destruct Ha as [|[[Hs _]|(_ & _ & Hex)]]; [done| |by rewrite (proj2 (any_origin _ _) Hex) in He].
        destruct (co_AllowedOrigins c) as [|a l]; [done|]. simpl in *. exists a. apply Forall_cons in Hne as [Hne _].
        split_and!; try done. intros ->. by rewrite String.eqb_refl in He. }
    eexists _, v. split; [reflexivity|]. split_and!; [by apply cors_headers_origin|apply (cors_headers_credentials out (normalizeConfig c))|done|done].
Qed.

Lemma CORS_correct_witness :
  exists h, CORSAllowAll 0 "GET" "https://evil.example" = PassOn h
    /\ h !! "Access-Control-Allow-Origin"%string = Some "https://evil.example"%string
    /\ h !! "Access-Control-Allow-Credentials"%string = Some "true"%string.
Proof.
  destruct (CORS_correct DefaultCORSConfig 0 "GET" "https://evil.example") as (_ & _ & Hc).
  destruct Hc as (h & v & Hr & Hv & Hcr & Ho & _); [discriminate|by left|repeat constructor; discriminate|].
  exists h. split; [exact Hr|]. split; [|exact Hcr]. rewrite Hv. f_equal. apply Ho; [discriminate|reflexivity].
Defined.

(** A pattern for https lets http through, and another host may call itself local. *)
Example loose_origins :
  matchOrigin "http://a.example.com" "https://*.example.com" = true
  /\ isSameOrigin "http://localhost.evil.example" = true
  /\ matchOrigin "https://app-1.example.com" "https://app-*.example.com" = false.
Proof. vm_compute. done. Qed.
