(* ===== verification/FieldValidator.v ===== *)
(** * The field validator: pkg/validator/validator.go

    Rules for the values of fields, and their application to a map.  The regular expressions
    are translated to matchers: a text is its UTF-8 bytes, and a pattern that counts
    characters takes them one by one ([drop_rune]).  [fmt.Sprintf] of a value and the
    conversion of a float64 out of the range of int are arguments. *)

From S2P Require Import Prelude GoFloat GoStrings.

(** ** Values and errors *)

(** The dynamic types that the rules look at. *)
#[warnings="-register-all"]
Inductive value : Type :=
| VNil
| VInt (z : Z)
| VFloat (f : float64)
| VString (s : string)
| VArray (l : list value)
| VOther (code : Z).

#[warnings="-register-all"]
Inductive RuleError : Type :=
| IsRequired
| MustNotBeEmpty
| AtLeast (n : Z)
| LengthAtLeast (n : Z)
| AtMost (n : Z)
| LengthAtMost (n : Z)
| Between (min max : Z)
| MustBeString
| BadName
| BadSlug
| BadUUID
| BadURL
| BadCron
| NotOneOf (allowed : list value)
| MustBeArray
| AtIndex (i : nat) (err : RuleError).

(* go: pkg/validator/validator.go type Rule *)
Definition Rule : Type := value -> option RuleError.

(** ** Patterns *)

Definition lower_alnum (c : Ascii.ascii) : bool := is_lower c || is_digit c.
Definition alnum (c : Ascii.ascii) : bool := is_upper c || lower_alnum c.
Definition name_char (c : Ascii.ascii) : bool := alnum c || (code c =? 95)%N || (code c =? 45)%N.
Definition hex_lower (c : Ascii.ascii) : bool := is_digit c || between 97 102 c.
Definition has_code (c : Ascii.ascii) (l : list N) : bool := existsb (N.eqb (code c)) l.
(** The class of blanks: tab, line feed, form feed, carriage return, space. *)
Definition re_space (c : Ascii.ascii) : bool := has_code c [9; 10; 12; 13; 32]%N.

Fixpoint all_chars (p : Ascii.ascii -> bool) (s : string) : bool :=
  match s with EmptyString => true | String c s => p c && all_chars p s end.

(** A letter or digit, then 2 to 63 of these, underscores and hyphens. *)
(* go: pkg/validator/validator.go @10-10 namePattern *)
Definition namePattern (s : string) : bool :=
  match s with
  | EmptyString => false
  | String c s => alnum c && all_chars name_char s && (2 <=? String.length s)%nat && (String.length s <=? 63)%nat
  end.

(** Parts of small letters and digits, none empty, with hyphens between. *)
(* go: pkg/validator/validator.go @11-11 slugPattern *)
Definition slugPattern (s : string) : bool :=
  forallb (fun p => negb (String.eqb p "") && all_chars lower_alnum p) (Split s (Ascii.ascii_of_nat 45)).

(** Five groups of small hexadecimal digits. *)
(* go: pkg/validator/validator.go @12-12 uuidPattern *)
Definition uuidPattern (s : string) : bool :=
  let parts := Split s (Ascii.ascii_of_nat 45) in
  bool_decide (String.length <$> parts = [8; 4; 4; 4; 12]%nat) && forallb (all_chars hex_lower) parts.

(** The first character of a text, as UTF-8, and the rest; a byte that starts no valid sequence
    is a character of its own. *)
Definition cont (c : Ascii.ascii) : bool := between 128 191 c.
Definition drop_rune (s : string) : option (Ascii.ascii * string) :=
  match s with
  | EmptyString => None
  | String a s1 =>
      let one := Some (a, s1) in
      match s1 with
      | String b s2 =>
          if between 194 223 a then if cont b then Some (a, s2) else one
          else
            let lo := if (code a =? 224)%N then 160%N else if (code a =? 240)%N then 144%N else 128%N in
            let hi := if (code a =? 237)%N then 159%N else if (code a =? 244)%N then 143%N else 191%N in
            match s2 with
            | String c s3 =>
                if between 224 239 a then if between lo hi b && cont c then Some (a, s3) else one
                else match s3 with
                     | String d s4 =>
                         if between 240 244 a && between lo hi b && cont c && cont d then Some (a, s4) else one
                     | EmptyString => one
                     end
            | EmptyString => one
            end
      | EmptyString => one
      end
  end.

(** After the scheme: a character that is no blank and none of the five below, any character but
    a line feed, and no blank any more. *)
Definition url_rest (s : string) : bool :=
  match drop_rune s with
  | None => false
  | Some (a, s1) =>
      negb (re_space a) && negb (has_code a [47; 36; 46; 63; 35]%N)
      && match drop_rune s1 with
         | None => false
         | Some (b, s2) => negb (code b =? 10)%N && all_chars (fun c => negb (re_space c)) s2
         end
  end.

(* go: pkg/validator/validator.go @13-13 urlPattern *)
Definition urlPattern (s : string) : bool :=
  (String.prefix "http://" s && url_rest (TrimPrefix s "http://"))
  || (String.prefix "https://" s && url_rest (TrimPrefix s "https://")).

(** The rests of a text after a decimal digit or two, the first at most 5, or a star. *)
Definition field_rests (s : string) : list string :=
  match s with
  | EmptyString => []
  | String a s1 =>
      (if is_digit a then [s1] else [])
      ++ match s1 with
         | String b s2 => if between 48 53 a && is_digit b then [s2] else []
         | EmptyString => []
         end
      ++ (if (code a =? 42)%N then [s1] else [])
  end.
Definition space_rests (s : string) : list string :=
  match s with String c s1 => if re_space c then [s1] else [] | EmptyString => [] end.

(** The text is [n] fields with a blank after each, and a field. *)
Fixpoint cron_fields (n : nat) (s : string) : bool :=
  match n with
  | O => existsb (String.eqb "") (field_rests s)
  | S n => existsb (cron_fields n) (field_rests s ≫= space_rests)
  end.

Fixpoint some_suffix (p : string -> bool) (s : string) : bool :=
  p s || match s with EmptyString => false | String _ s' => some_suffix p s' end.

(** One or more digits and a unit. *)
Fixpoint every_rest (seen : bool) (s : string) : bool :=
  match s with
  | EmptyString => false
  | String c s' => if is_digit c then every_rest true s' else seen && has_code c [115; 109; 104; 100]%N
  end.

(** The anchors belong to one alternative each: the first is only tied to the start of the text,
    the second only to its end. *)
(* go: pkg/validator/validator.go @14-14 cronPattern *)
Definition cronPattern (s : string) : bool :=
  existsb (fun d => String.prefix d s) ["@annually"; "@yearly"; "@monthly"; "@weekly"; "@daily"; "@hourly"]%string
  || (String.prefix "@every_" s && every_rest false (TrimPrefix s "@every_"))
  || some_suffix (cron_fields 4) s.

(** ** Rules *)

(* go: pkg/validator/validator.go func Required *)
Definition Required : Rule := fun v =>
  match v with
  | VNil => Some IsRequired
  | VString s => if String.eqb (TrimSpace s) "" then Some MustNotBeEmpty else None
  | _ => None
  end.

Section rules.
Context (out : float64 -> Z) (sprint : value -> string).

Definition to_int (f : float64) : Z := f64_to_int64 (out f) f.
Definition slen (s : string) : Z := Z.of_nat (String.length s).

(* go: pkg/validator/validator.go func Min *)
Definition Min (n : Z) : Rule := fun v =>
  match v with
  | VInt z => if z <? n then Some (AtLeast n) else None
  | VFloat f => if to_int f <? n then Some (AtLeast n) else None
  | VString s => if slen s <? n then Some (LengthAtLeast n) else None
  | _ => None
  end.

(* go: pkg/validator/validator.go func Max *)
Definition Max (n : Z) : Rule := fun v =>
  match v with
  | VInt z => if n <? z then Some (AtMost n) else None
  | VFloat f => if n <? to_int f then Some (AtMost n) else None
  | VString s => if n <? slen s then Some (LengthAtMost n) else None
  | _ => None
  end.

(* go: pkg/validator/validator.go func InRange *)
Definition InRange (min max : Z) : Rule := fun v =>
  match v with
  | VInt z => if (z <? min) || (max <? z) then Some (Between min max) else None
  | VFloat f => if (to_int f <? min) || (max <? to_int f) then Some (Between min max) else None
  | _ => None
  end.

(** A text that a pattern matches. *)
Definition matching (p : string -> bool) (err : RuleError) : Rule := fun v =>
  match v with
  | VString s => if p s then None else Some err
  | _ => Some MustBeString
  end.

(* go: pkg/validator/validator.go func ValidName *)
Definition ValidName : Rule := matching namePattern BadName.
(* go: pkg/validator/validator.go func ValidSlug *)
Definition ValidSlug : Rule := matching slugPattern BadSlug.
(* go: pkg/validator/validator.go func ValidUUID *)
Definition ValidUUID : Rule := matching uuidPattern BadUUID.
(* go: pkg/validator/validator.go func ValidURL *)
Definition ValidURL : Rule := matching urlPattern BadURL.
(* go: pkg/validator/validator.go func ValidCron *)
Definition ValidCron : Rule := matching cronPattern BadCron.

(** Values are compared by their printed forms. *)
(* go: pkg/validator/validator.go func OneOf *)
Definition OneOf (allowed : list value) : Rule := fun v =>
  if existsb (fun a => String.eqb (sprint v) (sprint a)) allowed then None else Some (NotOneOf allowed).

Fixpoint each_from (r : Rule) (i : nat) (l : list value) : option RuleError :=
  match l with
  | [] => None
  | v :: l => match r v with Some err => Some (AtIndex i err) | None => each_from r (S i) l end
  end.

(* go: pkg/validator/validator.go func Each *)
Definition Each (r : Rule) : Rule := fun v =>
  match v with VArray l => each_from r 0 l | _ => Some MustBeArray end.
End rules.

(** ** The validator *)

(* go: pkg/validator/validator.go type Validator *)
Record Validator := mkValidator {
  v_rules : gmap string (list Rule);
  v_optional : bool
}.

(* go: pkg/validator/validator.go func New *)
Definition New : Validator := mkValidator ∅ false.
(* go: pkg/validator/validator.go func Validator.Add *)
Definition Add (field : string) (rules : list Rule) (v : Validator) : Validator :=
  mkValidator (<[field := default [] (v_rules v !! field) ++ rules]> (v_rules v)) (v_optional v).
(* go: pkg/validator/validator.go func Validator.Optional *)
Definition Optional (v : Validator) : Validator := mkValidator (v_rules v) true.

(** The lines of the error. *)
Inductive FieldError : Type :=
| RequiredField (field : string)
| BrokenRule (field : string) (err : RuleError).

Definition field_errors (data : gmap string value) (v : Validator) (field : string) : list FieldError :=
  let rules := default [] (v_rules v !! field) in
  match data !! field with
  | None => if v_optional v then [] else [RequiredField field]
  | Some val => omap (fun rule => BrokenRule field <$> rule val) rules
  end.

(** [ord] is an order of the range over the rules; the map may be nil. *)
(* go: pkg/validator/validator.go func Validator.Validate *)
Definition Validate (ord : list string) (data : option (gmap string value)) (v : Validator) : list FieldError :=
  match data with
  | None => if v_optional v then [] else ord ≫= field_errors ∅ v
  | Some m => ord ≫= field_errors m v
  end.

(** Calls of [Add] on a new validator. *)
Definition with_rules (l : list (string * list Rule)) : Validator := foldl (fun v x => Add x.1 x.2 v) New l.

Lemma with_rules_lookup l field :
  default [] (v_rules (with_rules l) !! field) = concat ((fun x => x.2) <$> filter (fun x => x.1 = field) l)
  /\ (is_Some (v_rules (with_rules l) !! field) <-> field ∈ l.*1).
Proof.
  unfold with_rules. induction l as [|x l IH] using rev_ind; [simpl; rewrite lookup_empty; split; [done|]|].
  { split; [by intros []|set_solver]. }
  destruct IH as [IH1 IH2]. rewrite foldl_app. simpl. rewrite filter_app, fmap_app, fmap_app, concat_app, elem_of_app.
  destruct (decide (x.1 = field)) as [<-|Hne].
  - rewrite lookup_insert_eq, filter_cons_True by done. simpl. rewrite IH1, app_nil_r. split; [done|]. set_solver.
  - rewrite lookup_insert_ne, filter_cons_False by done. simpl. rewrite app_nil_r. split; [done|]. rewrite IH2. set_solver.
Qed.

Lemma with_rules_optional l : v_optional (with_rules l) = false.
Proof. unfold with_rules. induction l as [|x l IH] using rev_ind; [done|]. by rewrite foldl_app. Qed.

(** The rules that were added for a field, in order, and those of the pairs. *)
Lemma rules_of_field l field (P : Rule -> Prop) :
  Forall P (default [] (v_rules (with_rules l) !! field)) <-> forall rules, (field, rules) ∈ l -> Forall P rules.
Proof.
  rewrite (proj1 (with_rules_lookup l field)), Forall_concat, Forall_fmap, Forall_forall. split.
  - intros H rules Hin. apply (H (field, rules)), list_elem_of_filter. done.
  - intros H [f rules] [Hf Hin]%list_elem_of_filter. simpl in Hf. subst f. by apply H.
Qed.

Lemma bind_nil {A C} (f : A -> list C) l : l ≫= f = [] <-> Forall (fun x => f x = []) l.
Proof.
  induction l as [|x l IH]; [done|]. simpl. rewrite Forall_cons, <- IH. destruct (f x); simpl; naive_solver.
Qed.

Lemma field_errors_nil m v field :
  field_errors m v field = [] <->
  match m !! field with
  | None => v_optional v = true
  | Some val => Forall (fun rule => rule val = None) (default [] (v_rules v !! field))
  end.
Proof.
  unfold field_errors. destruct (m !! field) as [val|]; [|by destruct (v_optional v)].
  induction (default [] (v_rules v !! field)) as [|r l IH]; [done|]. rewrite Forall_cons, <- IH.
  simpl. destruct (r val); simpl; naive_solver.
Qed.

(** A validator accepts a map exactly if every field with a rule is there, unless fields are
    optional, and its value keeps every rule that was added for it, in any order of the range;
    the nil map is like an empty one. *)
Theorem Validate_correct l (optional : bool) ord data :
  let v := if optional then Optional (with_rules l) else with_rules l in
  range_order (v_rules v) ord ->
  Validate ord data v = [] <->
    forall field rules, (field, rules) ∈ l ->
      match default ∅ data !! field with
      | None => optional = true
      | Some val => Forall (fun rule => rule val = None) rules
      end.
Proof.
  intros v Hord.
  assert (v_rules v = v_rules (with_rules l)) as Hr by (unfold v; by destruct optional).
  assert (v_optional v = optional) as Ho by (unfold v; destruct optional; [done|apply with_rules_optional]).
  assert (forall field, field ∈ ord <-> field ∈ l.*1) as Hin.
  { intros field. rewrite <- (proj2 (with_rules_lookup l field)), <- Hr. by apply range_order_elem. }
  transitivity (Forall (fun field => field_errors (default ∅ data) v field = []) ord).
  { unfold Validate. destruct data as [m|]; simpl; [apply bind_nil|]. rewrite <- bind_nil.
    destruct (v_optional v) eqn:Hopt; [|done]. split; [|done]. intros _. apply bind_nil, Forall_forall.
    intros field _. apply field_errors_nil. by rewrite lookup_empty. }
  rewrite Forall_forall. setoid_rewrite field_errors_nil. rewrite Ho, Hr. split.
  - intros H field rules Hrules. specialize (H field). rewrite Hin in H.
    specialize (H (list_elem_of_fmap_2 fst _ _ Hrules)). destruct (default ∅ data !! field); [|done].
    by apply (rules_of_field l field).
  - intros H field ([f rules] & -> & Hrules)%Hin%list_elem_of_fmap. simpl.
    pose proof (fun rules => H f rules) as Hf. destruct (default ∅ data !! f); [|by apply (Hf rules)].
    by apply rules_of_field.
Qed.

Lemma Validate_correct_witness :
  Validate ["name"%string] (Some {["name" := VString "Alpha-1"]}) (with_rules [("name"%string, [Required; ValidName])]) = []
  /\ Validate ["name"%string] (Some {["name" := VString "A"]}) (with_rules [("name"%string, [Required; ValidName])])
     = [BrokenRule "name" BadName].
Proof.
  split; [|reflexivity].
  apply (proj2 (Validate_correct [("name"%string, [Required; ValidName])] false ["name"%string]
    (Some {["name" := VString "Alpha-1"]}) (range_order_keys _))).
  intros field rules [= -> ->]%list_elem_of_singleton. by repeat constructor.
Defined.

(** ** Cron expressions *)

(** A field that the pattern knows: a digit or two, the first at most 5, or a star. *)
Definition cron_field (f : string) : Prop :=
  (exists c, f = String c EmptyString /\ is_digit c = true)
  \/ (exists c d, f = String c (String d EmptyString) /\ between 48 53 c = true /\ is_digit d = true)
  \/ f = "*"%string.

(** [n] fields with a blank after each, and a last one. *)
Inductive cron_text : nat -> string -> Prop :=
| cron_last f : cron_field f -> cron_text 0 f
| cron_more n f b s : cron_field f -> re_space b = true -> cron_text n s -> cron_text (S n) (f +:+ String b s).

Lemma code_inj c n : (code c =? n)%N = true -> c = Ascii.ascii_of_N n.
Proof. intros H%N.eqb_eq. rewrite <- H. symmetry. apply Ascii.ascii_N_embedding. Qed.

Lemma field_rests_spec s r : r ∈ field_rests s <-> exists f, cron_field f /\ s = (f +:+ r)%string.
Proof.
  unfold cron_field. split.
  - destruct s as [|a s1]; simpl; [by intros ?%elem_of_nil|]. rewrite !elem_of_app.
    intros [H|[H|H]].
    + destruct (is_digit a) eqn:Ha; [|by apply elem_of_nil in H]. apply list_elem_of_singleton in H as ->.
      exists (String a EmptyString). split; [|done]. left. eauto.
    + destruct s1 as [|b s2]; [by apply elem_of_nil in H|].
      destruct (between 48 53 a && is_digit b) eqn:Hab; [|by apply elem_of_nil in H].
      apply list_elem_of_singleton in H as ->. apply andb_prop in Hab.
      exists (String a (String b EmptyString)). split; [|done]. right. left. naive_solver.
    + destruct (code a =? 42)%N eqn:Ha; [|by apply elem_of_nil in H].
      apply list_elem_of_singleton in H as ->. rewrite (code_inj _ _ Ha). exists "*"%string. auto.
  - intros (f & [(c & -> & Hc)|[(c & d & -> & Hc & Hd)| ->]] & ->); simpl; rewrite !elem_of_app.
    + rewrite Hc. left. by apply list_elem_of_singleton.
    + rewrite Hc, Hd. right. left. by apply list_elem_of_singleton.
    + right. by apply list_elem_of_singleton.
Qed.

Lemma cron_fields_spec n s : cron_fields n s = true <-> cron_text n s.
Proof.
  revert s. induction n as [|n IH]; intros s; cbn [cron_fields]; rewrite existsb_exists.
  - split.
    + intros (r & Hr%list_elem_of_In & <-%String.eqb_eq). apply field_rests_spec in Hr as (f & Hf & ->).
      rewrite append_nil_r. by constructor.
    + intros H. inversion H as [f Hf|]; subst. exists ""%string. split; [|done].
      apply list_elem_of_In, field_rests_spec. exists s. by rewrite append_nil_r.
  - split.
    + intros (r & Hr%list_elem_of_In & Hn%IH). apply list_elem_of_bind in Hr as (r' & Hr' & Hrest).
      apply field_rests_spec in Hrest as (f & Hf & ->). destruct r' as [|b r']; simpl in Hr'; [by apply elem_of_nil in Hr'|].
      destruct (re_space b) eqn:Hb; [|by apply elem_of_nil in Hr']. apply list_elem_of_singleton in Hr' as ->. by constructor.
    + intros H. inversion H as [|n' f b r Hf Hb Hr]; subst. exists r. split; [|by apply IH].
      apply list_elem_of_In, list_elem_of_bind. exists (String b r). simpl. rewrite Hb, list_elem_of_singleton.
      split; [done|]. apply field_rests_spec. eauto.
Qed.

Lemma some_suffix_spec p s : some_suffix p s = true <-> exists t r, s = (t +:+ r)%string /\ p r = true.
Proof.
  induction s as [|c s IH]; simpl; rewrite orb_true_iff.
  - split; [intros [H|H]; [|done]; by exists ""%string, ""%string|]. intros (t & r & Ht & Hr).
    destruct t, r; try done. by left.
  - rewrite IH. split.
    + intros [H|(t & r & -> & Hr)]; [by exists ""%string, (String c s)|by exists (String c t), r].
    + intros ([|c' t] & r & Ht & Hr); [left; by replace (String c s) with r by done|].
      right. exists t, r. split; [|done]. by inversion Ht.
Qed.

Lemma prefix_head c p s : String.prefix (String c EmptyString) s = false -> String.prefix (String c p) s = false.
Proof. destruct s as [|d s]; [done|]. cbn [String.prefix]. destruct (Ascii.ascii_dec c d); [|done]. by destruct s. Qed.

(** The rule for cron expressions is looser than the expressions it is meant for, since each
    anchor of the pattern binds to one alternative: it takes anything that follows a name such as
    @daily, and of a text that does not begin with @ it only checks that it ends in five fields,
    each a number of one or two digits or a star. *)
Theorem ValidCron_correct (s : string) :
  ValidCron (VString ("@daily" +:+ s)) = None
  /\ (String.prefix "@" s = false ->
      ValidCron (VString s) = None <-> exists t r, s = (t +:+ r)%string /\ cron_text 4 r).
Proof.
  assert (forall t : string, (if cronPattern t then None else Some BadCron) = None <-> cronPattern t = true) as Hc.
  { intros t. by destruct (cronPattern t). }
  unfold ValidCron, matching. rewrite !Hc. unfold cronPattern. split.
  { change (existsb _ _) with (existsb (fun d => String.prefix d ("@daily" +:+ s)%string)
      ["@annually"; "@yearly"; "@monthly"; "@weekly"; "@daily"; "@hourly"]%string).
    cbn [existsb]. rewrite (prefix_app_true "@daily" s), !orb_true_r. done. }
  intros Hat. cbn [existsb]. rewrite !(prefix_head _ _ _ Hat). cbn [orb andb].
  rewrite some_suffix_spec. by setoid_rewrite cron_fields_spec.
Qed.

Lemma ValidCron_correct_witness :
  ValidCron (VString "every day at 99 0 0 * * 1") = None
  /\ ValidCron (VString "@daily, or so") = None
  /\ ValidCron (VString "0 */5 * * *") = Some BadCron.
Proof.
  split_and!; [|exact (proj1 (ValidCron_correct ", or so"))|reflexivity].
  apply (proj2 (ValidCron_correct "every day at 99 0 0 * * 1") eq_refl).
  exists "every day at 99 "%string, "0 0 * * 1"%string. split; [reflexivity|]. by apply cron_fields_spec.
Defined.

(** A step or a list passes in the first field, where the rest of the text counts, and nowhere else. *)
Example cron_steps_and_lists :
  (fun s => ValidCron (VString s)) <$> ["*/15 * * * *"; "0,30 * * * *"; "0 */2 * * *"; "0 9-17 * * *"; "0 0 * * 1-5"]%string
  = [None; None; Some BadCron; Some BadCron; Some BadCron].
Proof. reflexivity. Qed.

Example patterns :
  (namePattern "ab", namePattern "a_b-c", slugPattern "a-b", slugPattern "a--b", urlPattern "http://ab", urlPattern "http://a",
   uuidPattern "01234567-89ab-cdef-0123-456789abcdef")
  = (false, true, true, false, true, false, true).
Proof. reflexivity. Qed.
