(* ===== verification/HttpLogging.v ===== *)
(** * The request log: internal/api/middleware/logging.go

    What is logged of a request and how secrets are taken out of it.  The next handler is
    a function of the request's identifier to what the writer and the clock say afterwards;
    an entry is a level and its fields.  Whether the logger takes a level is an argument.
    Names of query parameters that are to be redacted are taken to be ASCII, as all that the
    source names are. *)

From S2P Require Import Prelude GoStrings GoHttp.

(** ** Configuration *)

(* go: internal/api/middleware/logging.go type LoggingConfig *)
Record LoggingConfig := mkLoggingConfig {
  lc_SkipPaths : list string;
  lc_RedactHeaders : list string;
  lc_RedactQueryParams : list string;
  lc_MaxBodyLogLength : Z;
  lc_RequestIDHeader : string;
  lc_EnableLatencyLog : bool;
  lc_SlowThreshold : Z;
  lc_LogLevel : Z
}.

(** The levels of zap. *)
Definition InfoLevel : Z := 0.
Definition WarnLevel : Z := 1.
Definition ErrorLevel : Z := 2.

(* go: internal/api/middleware/logging.go @42-49 sensitiveHeaders *)
Definition sensitiveHeaders : list string :=
  ["authorization"; "cookie"; "set-cookie"; "x-api-key"; "x-auth-token"; "proxy-authorization"].
(* go: internal/api/middleware/logging.go @51-60 sensitiveQueryParams *)
Definition sensitiveQueryParams : list string :=
  ["token"; "api_key"; "apikey"; "secret"; "password"; "passwd"; "auth"; "access_token"].

(* go: internal/api/middleware/logging.go func defaultLoggingConfig *)
Definition defaultLoggingConfig : LoggingConfig :=
  mkLoggingConfig ["/health"; "/metrics"; "/readyz"] sensitiveHeaders sensitiveQueryParams 1024 "X-Request-ID" true
    (5 * Second) InfoLevel.

Abbreviation LoggingOption := (LoggingConfig -> LoggingConfig).

(* go: internal/api/middleware/logging.go func WithSkipPaths *)
Definition WithSkipPaths (paths : list string) : LoggingOption := fun c =>
  mkLoggingConfig (lc_SkipPaths c ++ paths) (lc_RedactHeaders c) (lc_RedactQueryParams c) (lc_MaxBodyLogLength c)
    (lc_RequestIDHeader c) (lc_EnableLatencyLog c) (lc_SlowThreshold c) (lc_LogLevel c).
(* go: internal/api/middleware/logging.go func WithRedactHeaders *)
Definition WithRedactHeaders (hs : list string) : LoggingOption := fun c =>
  mkLoggingConfig (lc_SkipPaths c) (lc_RedactHeaders c ++ hs) (lc_RedactQueryParams c) (lc_MaxBodyLogLength c)
    (lc_RequestIDHeader c) (lc_EnableLatencyLog c) (lc_SlowThreshold c) (lc_LogLevel c).
(* go: internal/api/middleware/logging.go func WithRedactQueryParams *)
Definition WithRedactQueryParams (params : list string) : LoggingOption := fun c =>
  mkLoggingConfig (lc_SkipPaths c) (lc_RedactHeaders c) (lc_RedactQueryParams c ++ params) (lc_MaxBodyLogLength c)
    (lc_RequestIDHeader c) (lc_EnableLatencyLog c) (lc_SlowThreshold c) (lc_LogLevel c).
(* go: internal/api/middleware/logging.go func WithSlowThreshold *)
Definition WithSlowThreshold (d : Z) : LoggingOption := fun c =>
  mkLoggingConfig (lc_SkipPaths c) (lc_RedactHeaders c) (lc_RedactQueryParams c) (lc_MaxBodyLogLength c)
    (lc_RequestIDHeader c) (lc_EnableLatencyLog c) d (lc_LogLevel c).
(* go: internal/api/middleware/logging.go func WithRequestIDHeader *)
Definition WithRequestIDHeader (h : string) : LoggingOption := fun c =>
  mkLoggingConfig (lc_SkipPaths c) (lc_RedactHeaders c) (lc_RedactQueryParams c) (lc_MaxBodyLogLength c)
    h (lc_EnableLatencyLog c) (lc_SlowThreshold c) (lc_LogLevel c).

Definition logging_config (opts : list LoggingOption) : LoggingConfig := foldl (fun c opt => opt c) defaultLoggingConfig opts.

(** ** Query parameters *)

(** Letters without their case, with the two characters beyond ASCII that fold to a letter of
    it: the long s (C5 BF) and the sign of the kelvin (E2 84 AA). *)
Fixpoint fold_text (s : string) : string :=
  match s with
  | EmptyString => EmptyString
  | String a s1 =>
      match s1 with
      | String b s2 =>
          if ((code a =? 197) && (code b =? 191))%N then String (Ascii.ascii_of_nat 115) (fold_text s2)
          else match s2 with
               | String c s3 =>
                   if ((code a =? 226) && (code b =? 132) && (code c =? 170))%N then String (Ascii.ascii_of_nat 107) (fold_text s3)
                   else String (to_lower a) (fold_text s1)
               | EmptyString => String (to_lower a) (fold_text s1)
               end
      | EmptyString => String (to_lower a) (fold_text s1)
      end
  end.

(** [strings.EqualFold] for a second text in ASCII. *)
Definition EqualFold (s t : string) : bool := String.eqb (fold_text s) (ToLower t).

Definition amp : Ascii.ascii := Ascii.ascii_of_nat 38.
Definition eq_sign : Ascii.ascii := Ascii.ascii_of_nat 61.

(** The text before the first occurrence of a character. *)
Fixpoint before_char (x : Ascii.ascii) (s : string) : string :=
  match s with
  | EmptyString => EmptyString
  | String c s' => if Ascii.eqb c x then EmptyString else String c (before_char x s')
  end.

(** A parameter with a value whose name is one of the list. *)
Definition is_secret (redactList : list string) (p : string) : bool :=
  has_char eq_sign p && existsb (EqualFold (before_char eq_sign p)) redactList.
(* go: internal/api/middleware/logging.go @202-210 redactQueryParams *)
Definition redact_param (redactList : list string) (p : string) : string :=
  if is_secret redactList p then (before_char eq_sign p +:+ "=REDACTED")%string else p.

(* go: internal/api/middleware/logging.go func redactQueryParams *)
Definition redactQueryParams (query : string) (redactList : list string) : string :=
  if String.eqb query "" || bool_decide (redactList = []) then query
  else strings_Join (redact_param redactList <$> Split query amp) "&".

(** ** An entry *)

Record log_request := mkLogRequest {
  lr_Method : string;
  lr_Path : string;
  lr_Query : string;
  lr_Headers : Header;
  lr_ClientIP : string;
  lr_ContentLength : Z
}.

Definition get_header (h : string) (rq : log_request) : string := default "" (lr_Headers rq !! CanonicalHeaderKey h).

(** What the writer, the context and the clock say after the next handler. *)
Record handled := mkHandled { hd_Status : Z; hd_Size : Z; hd_Latency : Z; hd_Errors : option string }.

Inductive field : Type :=
| FString (k v : string)
| FInt (k : string) (v : Z)
| FDuration (k : string) (v : Z)
| FBool (k : string) (v : bool).

Definition header_fields (redactList : list string) (name : string -> string) (rq : log_request) : list field :=
  omap (fun h => if String.eqb (get_header h rq) "" then None else Some (FString (name h) "REDACTED")) redactList.

(* go: internal/api/middleware/logging.go func extractHeaders *)
Definition extractHeaders (redactList : list string) (rq : log_request) : list field := header_fields redactList (fun h => h) rq.

(** The level, and whether the request is marked as slow. *)
Definition request_level (cfg : LoggingConfig) (status latency : Z) : Z * bool :=
  if 500 <=? status then (ErrorLevel, false)
  else if 400 <=? status then (WarnLevel, false)
  else if (lc_SlowThreshold cfg <? latency) && lc_EnableLatencyLog cfg then (WarnLevel, true)
  else (lc_LogLevel cfg, false).

Definition log_fields (cfg : LoggingConfig) (requestID : string) (rq : log_request) (hd : handled) (slow : bool) : list field :=
  [FString "request_id" requestID; FString "method" (lr_Method rq); FString "path" (lr_Path rq);
   FString "query" (redactQueryParams (lr_Query rq) (lc_RedactQueryParams cfg)); FInt "status" (hd_Status hd);
   FDuration "latency" (hd_Latency hd); FString "client_ip" (lr_ClientIP rq); FString "user_agent" (get_header "User-Agent" rq);
   FInt "content_length" (lr_ContentLength rq); FInt "body_size" (hd_Size hd)]
  ++ header_fields (lc_RedactHeaders cfg) (fun h => "header_" +:+ ReplaceAll h (Ascii.ascii_of_nat 45) "_")%string rq
  ++ (match hd_Errors hd with Some e => [FString "error" e] | None => [] end)
  ++ (if slow then [FBool "slow" true] else []).

(** The next handler is given the identifier, which is in the context and in the answer's header;
    on a path that is skipped there is none.  The result is its outcome and the entry. *)
(* go: internal/api/middleware/logging.go func RequestLogging *)
Definition RequestLogging (opts : list LoggingOption) (enabled : Z -> bool) (newID : string) (next : option string -> handled)
    (rq : log_request) : handled * option (Z * list field) :=
  let cfg := logging_config opts in
  if existsb (String.eqb (lr_Path rq)) (lc_SkipPaths cfg) then (next None, None)
  else
    let h := get_header (lc_RequestIDHeader cfg) rq in
    let requestID := if String.eqb h "" then newID else h in
    let hd := next (Some requestID) in
    let '(level, slow) := request_level cfg (hd_Status hd) (hd_Latency hd) in
    (hd, if enabled level then Some (level, log_fields cfg requestID rq hd slow) else None).

(** ** What the log shows *)

Lemma has_char_app x s t : has_char x (s +:+ t) = has_char x s || has_char x t.
Proof. induction s as [|c s IH]; [done|]. change (Ascii.eqb c x || has_char x (s +:+ t) = Ascii.eqb c x || has_char x s || has_char x t). by rewrite IH, orb_assoc. Qed.

Lemma has_char_snoc x cur c : has_char x (snoc cur c) = has_char x cur || Ascii.eqb c x.
Proof. unfold snoc. rewrite has_char_app. simpl. by rewrite orb_false_r. Qed.

Lemma split_from_no_sep sep cur s : has_char sep cur = false -> Forall (fun p => has_char sep p = false) (split_from sep cur s).
Proof.
  revert cur. induction s as [|c s IH]; intros cur Hcur; simpl; [by repeat constructor|].
  destruct (Ascii.eqb_spec c sep) as [->|Hne]; [constructor; [done|by apply IH]|].
  apply IH. rewrite has_char_snoc, Hcur. by destruct (Ascii.eqb_spec c sep).
Qed.

Lemma Split_no_sep sep s : Forall (fun p => has_char sep p = false) (Split s sep).
Proof. by apply split_from_no_sep. Qed.

Lemma split_from_app sep cur p s : has_char sep p = false -> split_from sep cur (p +:+ s) = split_from sep (cur +:+ p) s.
Proof.
  revert cur. induction p as [|c p IH]; intros cur Hp.
  - by rewrite append_nil_r.
  - change (String c p +:+ s)%string with (String c (p +:+ s)). cbn [split_from has_char] in *.
    apply orb_false_elim in Hp as [-> Hp]. by rewrite IH, append_snoc.
Qed.

(** Joining texts without the separator and splitting at it gives them back. *)
Lemma Join_Split sep l : l <> [] -> Forall (fun p => has_char sep p = false) l ->
  Split (strings_Join l (String sep EmptyString)) sep = l.
Proof.
  intros Hne Hl. unfold Split. induction Hl as [|p l Hp Hl IH]; [done|]. destruct l as [|q l].
  - cbn [strings_Join]. rewrite <- (append_nil_r p) at 1. by rewrite split_from_app.
  - change (strings_Join (p :: q :: l) (String sep EmptyString))
      with (p +:+ String sep (strings_Join (q :: l) (String sep EmptyString)))%string.
    rewrite split_from_app by done. cbn [split_from]. rewrite Ascii.eqb_refl. by rewrite IH.
Qed.

Lemma before_char_spec x s : has_char x (before_char x s) = false /\ (has_char x s = true -> s = (before_char x s +:+ String x (after_char x s))%string).
Proof.
  induction s as [|c s [IH1 IH2]]; [done|]. simpl. destruct (Ascii.eqb_spec c x) as [->|Hne]; simpl; [done|].
  split; [by destruct (Ascii.eqb_spec c x)|]. intros Hs.
  exact (f_equal (String c) (IH2 Hs)).
Qed.

Lemma before_char_app x s t : has_char x s = false -> before_char x (s +:+ String x t) = s.
Proof.
  induction s as [|c s IH]; intros Hs; simpl; [by rewrite Ascii.eqb_refl|].
  simpl in Hs. apply orb_false_elim in Hs as [Hc Hs]. rewrite Hc. by rewrite IH.
Qed.
Lemma after_char_app x s t : has_char x s = false -> after_char x (s +:+ String x t) = t.
Proof.
  induction s as [|c s IH]; intros Hs; simpl; [by rewrite Ascii.eqb_refl|].
  simpl in Hs. apply orb_false_elim in Hs as [Hc Hs]. rewrite Hc. by rewrite IH.
Qed.

Lemma before_char_sub x y s : has_char y s = false -> has_char y (before_char x s) = false.
Proof.
  induction s as [|c s IH]; [done|]. simpl. intros [Hc Hs]%orb_false_elim. destruct (Ascii.eqb c x); [done|].
  simpl. by rewrite Hc, IH.
Qed.

Lemma redact_param_name l p : is_secret l p = true -> before_char eq_sign (redact_param l p) = before_char eq_sign p.
Proof. intros Hs. unfold redact_param. rewrite Hs. apply (before_char_app eq_sign _ "REDACTED"), before_char_spec. Qed.

Lemma redact_param_idemp l p : redact_param l (redact_param l p) = redact_param l p.
Proof.
  destruct (is_secret l p) eqn:Hs; [|unfold redact_param; by rewrite !Hs].
  unfold redact_param at 1. rewrite (redact_param_name l p Hs).
  destruct (is_secret l (redact_param l p)); [|done]. unfold redact_param. by rewrite Hs.
Qed.

Lemma redact_split q l : q <> ""%string -> l <> [] -> Split (redactQueryParams q l) amp = redact_param l <$> Split q amp.
Proof.
  intros Hq Hl. unfold redactQueryParams. destruct (String.eqb_spec q ""); [done|]. rewrite bool_decide_eq_false_2 by done.
  apply (Join_Split amp).
  - destruct (Split q amp) eqn:He; [by apply split_from_not_nil in He|done].
  - apply Forall_fmap. eapply Forall_impl; [apply Split_no_sep|]. intros p Hp. simpl. unfold redact_param.
    destruct (is_secret l p); [|done]. rewrite has_char_app, (before_char_sub _ _ _ Hp). done.
Qed.

(** A query that is redacted shows each parameter in its place, a secret one with its name only,
    and redacting it again changes nothing. *)
Lemma redactQueryParams_correct q l :
  q <> ""%string -> l <> [] ->
  let out := redactQueryParams q l in
  Split out amp = redact_param l <$> Split q amp
  /\ (forall p, p ∈ Split out amp -> is_secret l p = true -> after_char eq_sign p = "REDACTED"%string)
  /\ redactQueryParams out l = out.
Proof.
  intros Hq Hl out. pose proof (redact_split q l Hq Hl) as Hs. fold out in Hs. split_and!; [done| |].
  - intros p. rewrite Hs. intros (p0 & -> & _)%list_elem_of_fmap Hsec. unfold redact_param in *.
    destruct (is_secret l p0) eqn:H0; [|by rewrite H0 in Hsec].
    apply (after_char_app eq_sign _ "REDACTED"), before_char_spec.
  - unfold redactQueryParams at 1. destruct (String.eqb out "" || _); [done|]. rewrite Hs, <- list_fmap_compose.
    rewrite (list_fmap_ext _ (redact_param l)) by (intros; apply redact_param_idemp).
    unfold out, redactQueryParams. destruct (String.eqb_spec q ""); [done|]. by rewrite bool_decide_eq_false_2.
Qed.

(** Parameters that are equal but for the value of a secret one. *)
Definition same_param (l : list string) (p p' : string) : Prop :=
  p = p' \/ is_secret l p = true /\ is_secret l p' = true /\ before_char eq_sign p = before_char eq_sign p'.

(** A header that is redacted and is not logged by itself. *)
Definition secret_header (cfg : LoggingConfig) (h : string) : Prop :=
  h ∈ CanonicalHeaderKey <$> lc_RedactHeaders cfg
  /\ h <> CanonicalHeaderKey "User-Agent" /\ h <> CanonicalHeaderKey (lc_RequestIDHeader cfg).

(** Requests that differ in secrets only: in the values, not in their presence. *)
Definition public_equal (cfg : LoggingConfig) (rq rq' : log_request) : Prop :=
  lr_Method rq = lr_Method rq' /\ lr_Path rq = lr_Path rq' /\ lr_ClientIP rq = lr_ClientIP rq'
  /\ lr_ContentLength rq = lr_ContentLength rq'
  /\ Forall2 (same_param (lc_RedactQueryParams cfg)) (Split (lr_Query rq) amp) (Split (lr_Query rq') amp)
  /\ forall h, lr_Headers rq !! h = lr_Headers rq' !! h
       \/ secret_header cfg h /\ default ""%string (lr_Headers rq !! h) <> ""%string
          /\ default ""%string (lr_Headers rq' !! h) <> ""%string.

Lemma same_param_redact l ps ps' : Forall2 (same_param l) ps ps' -> redact_param l <$> ps = redact_param l <$> ps'.
Proof.
  induction 1 as [|p p' ps ps' [->|(H1 & H2 & H3)] _ IH]; [done|by rewrite !fmap_cons, IH|].
  rewrite !fmap_cons, IH. unfold redact_param. by rewrite H1, H2, H3.
Qed.

Lemma redact_same q q' l : Forall2 (same_param l) (Split q amp) (Split q' amp) -> redactQueryParams q l = redactQueryParams q' l.
Proof.
  intros H. assert (forall s s', Forall2 (same_param l) (Split s amp) (Split s' amp) -> s = ""%string -> s' = ""%string) as Hempty.
  { intros s s' Hss ->. change (Split "" amp) with [""%string] in Hss. apply Forall2_cons_inv_l in Hss as (p & ps & Hp & Hps & Heq).
    apply Forall2_nil_inv_l in Hps as ->. rewrite <- (Split_Join s' amp), Heq.
    destruct Hp as [<-|(Hsec & _)]; [done|]. discriminate Hsec. }
  unfold redactQueryParams. destruct (String.eqb_spec q "") as [Hq|Hq], (String.eqb_spec q' "") as [Hq'|Hq']; simpl.
  - by subst.
  - by destruct Hq'; apply (Hempty q q').
  - destruct Hq. apply (Hempty q' q); [|done]. apply Forall2_flip. eapply Forall2_impl; [exact H|].
    intros p p' [->|(? & ? & ?)]; [by left|right; by split_and!].
  - case_bool_decide as Hl; [|by rewrite (same_param_redact _ _ _ H)]. subst l.
    rewrite <- (Split_Join q amp), <- (Split_Join q' amp). f_equal. apply list_eq_Forall2. eapply Forall2_impl; [exact H|].
    intros p p' [->|(Hsec & _)]; [done|]. unfold is_secret in Hsec. by rewrite andb_false_r in Hsec.
Qed.


Definition login (q token : string) : log_request :=
  mkLogRequest "GET" "/login" q {["Authorization" := token; "User-Agent" := "curl"]} "10.0.0.1" 0.


(** A name that is written with an escape is not recognised, nor is one followed by a blank. *)
Example escaped_names : redactQueryParams "api%5Fkey=abc&token%20=x" sensitiveQueryParams = "api%5Fkey=abc&token%20=x"%string.
Proof. reflexivity. Qed.
