(* ===== verification/Timeout.v ===== *)
(** * Time limits of requests: internal/api/middleware/timeout.go

    The middleware starts the next handlers in a goroutine and waits for the first of three
    things: their end, the end of the request's context, their panic.  When two are there at
    once either is taken, which is an argument.  Logging is left out. *)

From S2P Require Import Prelude.

(** ** Configuration *)

(** What answers a time-out: the default, or a function of the caller named by a number. *)
Inductive timeout_response : Type :=
| DefaultTimeoutResponse
| CustomResponse (code : Z).

(* go: internal/api/middleware/timeout.go type RouteTimeoutConfig *)
Record RouteTimeoutConfig := mkTimeoutConfig {
  tm_DefaultTimeout : Z;
  tm_RouteTimeouts : option (gmap string Z);
  tm_ErrorResponse : timeout_response;
  tm_MetricsFn : bool
}.

Abbreviation TimeoutOption := (RouteTimeoutConfig -> RouteTimeoutConfig).

(* go: internal/api/middleware/timeout.go func WithDefaultTimeout *)
Definition WithDefaultTimeout (d : Z) : TimeoutOption := fun c =>
  mkTimeoutConfig d (tm_RouteTimeouts c) (tm_ErrorResponse c) (tm_MetricsFn c).
(* go: internal/api/middleware/timeout.go func WithRouteTimeout *)
Definition WithRouteTimeout (path : string) (d : Z) : TimeoutOption := fun c =>
  mkTimeoutConfig (tm_DefaultTimeout c) (Some (<[path := d]> (default ∅ (tm_RouteTimeouts c)))) (tm_ErrorResponse c) (tm_MetricsFn c).
(* go: internal/api/middleware/timeout.go func WithTimeoutMetrics *)
Definition WithTimeoutMetrics : TimeoutOption := fun c =>
  mkTimeoutConfig (tm_DefaultTimeout c) (tm_RouteTimeouts c) (tm_ErrorResponse c) true.
(* go: internal/api/middleware/timeout.go func WithTimeoutResponse *)
Definition WithTimeoutResponse (fn : timeout_response) : TimeoutOption := fun c =>
  mkTimeoutConfig (tm_DefaultTimeout c) (tm_RouteTimeouts c) fn (tm_MetricsFn c).

Definition timeout_config (opts : list TimeoutOption) : RouteTimeoutConfig :=
  foldl (fun c opt => opt c) (mkTimeoutConfig (30 * Second) None DefaultTimeoutResponse false) opts.

(* go: internal/api/middleware/timeout.go func RouteTimeoutConfig.resolveTimeout *)
Definition resolveTimeout (c : RouteTimeoutConfig) (path : string) : Z :=
  match tm_RouteTimeouts c with
  | Some m => default (tm_DefaultTimeout c) (m !! path)
  | None => tm_DefaultTimeout c
  end.

(** ** A request *)

Inductive ending : Type :=
| HandlersReturn
| HandlersPanic (v : any).

(** Why a context has ended. *)
Inductive ctx_error : Type := DeadlineExceeded | Canceled.

(** The instants: of the start, of the end of the next handlers, and of the end of the request's
    own context; [None] for never. *)
Record timing := mkTiming {
  tg_now : Z;
  tg_handlers : option (Z * ending);
  tg_parent : option (Z * ctx_error);
  tg_pick_ctx : bool
}.

Inductive result : Type :=
| Completed
| PanicsAgain (v : any)
| TimedOut (reply : timeout_response) (metric : option (string * Z))
| GivenUp.

(** The context of the request ends at the deadline or with its parent, whichever is first. *)
Definition ctx_end (deadline : Z) (parent : option (Z * ctx_error)) : Z * ctx_error :=
  match parent with
  | Some (t, e) => if t <=? deadline then (t, e) else (deadline, DeadlineExceeded)
  | None => (deadline, DeadlineExceeded)
  end.

Definition after_ctx (cfg : RouteTimeoutConfig) (path : string) (timeout : Z) (e : ctx_error) : result :=
  match e with
  | DeadlineExceeded => TimedOut (tm_ErrorResponse cfg) (if tm_MetricsFn cfg then Some (path, timeout) else None)
  | Canceled => GivenUp
  end.

(** The instant at which the middleware returns, what it has done, and whether the handlers go
    on in their goroutine. *)
(* go: internal/api/middleware/timeout.go func Timeout *)
Definition Timeout (opts : list TimeoutOption) (path : string) (g : timing) : Z * result * bool :=
  let cfg := timeout_config opts in
  let timeout := resolveTimeout cfg path in
  let '(t, e) := ctx_end (tg_now g + timeout) (tg_parent g) in
  match tg_handlers g with
  | None => (Z.max t (tg_now g), after_ctx cfg path timeout e, true)
  | Some (th, how) =>
      if (th <? t) || ((th =? t) && negb (tg_pick_ctx g)) then
        (th, match how with HandlersReturn => Completed | HandlersPanic v => PanicsAgain v end, false)
      else (Z.max t (tg_now g), after_ctx cfg path timeout e, t <? th)
  end.

(** ** Counting time-outs *)

(** The tracker is its map. *)
Abbreviation TimeoutTracker := (gmap string Z).
(* go: internal/api/middleware/timeout.go func NewTimeoutTracker *)
Definition NewTimeoutTracker : TimeoutTracker := ∅.
(* go: internal/api/middleware/timeout.go func TimeoutTracker.Record *)
Definition Record_ (path : string) (t : TimeoutTracker) : TimeoutTracker := <[path := int64 (default 0 (t !! path) + 1)]> t.
(* go: internal/api/middleware/timeout.go func TimeoutTracker.Snapshot *)
Definition Snapshot (t : TimeoutTracker) : gmap string Z := t.

(** ** Properties *)

Lemma tracker_counts paths path : Z.of_nat (length paths) <= max_int64 ->
  default 0 (Snapshot (foldl (fun t p => Record_ p t) NewTimeoutTracker paths) !! path)
  = Z.of_nat (length (filter (eq path) paths)).
Proof.
  unfold Snapshot. induction paths as [|p paths IH] using rev_ind; [done|].
  rewrite length_app, foldl_app, filter_app, length_app. simpl. intros Hlen.
  pose proof (length_filter (eq path) paths).
  set (t := foldl (fun t p => Record_ p t) NewTimeoutTracker paths) in *. unfold Record_. destruct (decide (path = p)) as [->|Hne].
  - rewrite lookup_insert_eq, filter_cons_True by done. simpl. rewrite IH by lia. rewrite int64_small; [lia|].
    unfold in_int64, min_int64, max_int64 in *. lia.
  - rewrite lookup_insert_ne, filter_cons_False by done. simpl. rewrite IH by lia. lia.
Qed.

(** The middleware returns at the latest when the time of the route is over, whatever the handlers
    do: with their end or their panic if that comes first; else, at the end of the context, with
    one answer and one metric when the time is over, and with none when the client has gone.
    The handlers are not stopped: they go on in their goroutine, may write to the same
    answer, and a panic of theirs is then lost. *)
Theorem Timeout_correct opts path g :
  let cfg := timeout_config opts in
  let timeout := resolveTimeout cfg path in
  let deadline := tg_now g + timeout in
  0 <= timeout ->
  (forall th how, tg_handlers g = Some (th, how) -> tg_now g <= th) ->
  (forall t e, tg_parent g = Some (t, e) -> tg_now g <= t) ->
  let '(t, r, running) := Timeout opts path g in
  tg_now g <= t <= deadline
  /\ match r with
     | Completed => tg_handlers g = Some (t, HandlersReturn) /\ running = false
     | PanicsAgain v => tg_handlers g = Some (t, HandlersPanic v) /\ running = false
     | TimedOut reply metric =>
         reply = tm_ErrorResponse cfg /\ metric = (if tm_MetricsFn cfg then Some (path, timeout) else None)
         /\ (t = deadline \/ tg_parent g = Some (t, DeadlineExceeded))
     | GivenUp => tg_parent g = Some (t, Canceled)
     end
  /\ (running = true <-> forall th how, tg_handlers g = Some (th, how) -> t < th).
Proof.
  intros cfg timeout deadline Hpos Hh Hp. unfold Timeout. fold cfg timeout deadline.
  assert (exists tc e, ctx_end deadline (tg_parent g) = (tc, e) /\ tg_now g <= tc <= deadline
    /\ (e = DeadlineExceeded /\ tc = deadline \/ tg_parent g = Some (tc, e))) as (tc & e & -> & Htc & He).
  { unfold ctx_end. destruct (tg_parent g) as [[tp ep]|] eqn:Hpar.
    - pose proof (Hp tp ep eq_refl). destruct (Z.leb_spec tp deadline); eexists _, _; (split; [done|]); split; try lia; auto.
    - eexists _, _. split; [done|]. split; [lia|auto]. }
  assert (forall t' r running, t' = tc -> r = after_ctx cfg path timeout e ->
    (running = true <-> forall th how, tg_handlers g = Some (th, how) -> tc < th) ->
    tg_now g <= t' <= deadline /\ match r with
     | Completed => tg_handlers g = Some (t', HandlersReturn) /\ running = false
     | PanicsAgain v => tg_handlers g = Some (t', HandlersPanic v) /\ running = false
     | TimedOut reply metric =>
         reply = tm_ErrorResponse cfg /\ metric = (if tm_MetricsFn cfg then Some (path, timeout) else None)
         /\ (t' = deadline \/ tg_parent g = Some (t', DeadlineExceeded))
     | GivenUp => tg_parent g = Some (t', Canceled)
     end /\ (running = true <-> forall th how, tg_handlers g = Some (th, how) -> t' < th)) as Hctx.
  { intros t' r running -> -> Hrun. split; [done|]. split; [|done]. unfold after_ctx.
    destruct e; [split_and!; try done; naive_solver|naive_solver]. }
  destruct (tg_handlers g) as [[th how]|] eqn:Hhs.
  - specialize (Hh th how eq_refl). destruct (Z.ltb_spec th tc), (Z.eqb_spec th tc); simpl; try lia.
    + split; [lia|]. split; [by destruct how|]. split; [done|]. intros Hlt. specialize (Hlt th how eq_refl). lia.
    + destruct (tg_pick_ctx g); simpl.
      * apply Hctx; [lia|done|]. destruct (Z.ltb_spec tc th); [lia|]. split; [done|].
        intros Hlt. specialize (Hlt th how eq_refl). lia.
      * split; [lia|]. split; [by destruct how|]. split; [done|]. intros Hlt. specialize (Hlt th how eq_refl). lia.
    + apply Hctx; [lia|done|]. destruct (Z.ltb_spec tc th); [|lia]. split; [by intros _ ? ? [= <- <-]|done].
  - apply Hctx; [lia|done|]. done.
Qed.

Lemma Timeout_correct_witness :
  let opts := [WithRouteTimeout "/slow" (2 * Second); WithTimeoutMetrics] in
  let g := mkTiming 0 (Some (3 * Second, HandlersPanic AnyNil)) None false in
  Timeout opts "/slow" g = (2 * Second, TimedOut DefaultTimeoutResponse (Some ("/slow"%string, 2 * Second)), true)
  /\ (forall th how, tg_handlers g = Some (th, how) -> 2 * Second < th).
Proof.
  intros opts g. split; [reflexivity|].
  assert (Timeout opts "/slow" g = (2 * Second, TimedOut DefaultTimeoutResponse (Some ("/slow"%string, 2 * Second)), true)) as He by reflexivity.
  pose proof (Timeout_correct opts "/slow" g) as H. simpl in H. rewrite He in H.
  apply H; [discriminate|intros th how [= <- <-]; discriminate|done|done].
Defined.
