(* ===== verification/Recovery.v ===== *)
(** * Recovery from panics: internal/api/middleware/recovery.go

    What happens when the next handlers panic: the stack that is handed to the log is cut, and
    the callbacks run in turn.  The functions of the caller are numbers; the text that
    [runtime.Stack] writes is an argument. *)

From S2P Require Import Prelude GoStrings.

(** ** Configuration *)

Inductive callback : Type :=
| DefaultCallback
| CustomCallback (code : Z).

(* go: internal/api/middleware/recovery.go type RecoveryConfig *)
Record RecoveryConfig := mkRecoveryConfig {
  rc_EnableStackPrint : bool;
  rc_StackSkip : Z;
  rc_ErrorResponse : callback;
  rc_LogPanic : option callback;
  rc_MetricsCallback : option callback
}.

Abbreviation RecoveryOption := (RecoveryConfig -> RecoveryConfig).

(* go: internal/api/middleware/recovery.go func WithStackPrint *)
Definition WithStackPrint (enabled : bool) : RecoveryOption := fun c =>
  mkRecoveryConfig enabled (rc_StackSkip c) (rc_ErrorResponse c) (rc_LogPanic c) (rc_MetricsCallback c).
(* go: internal/api/middleware/recovery.go func WithErrorResponse *)
Definition WithErrorResponse (fn : callback) : RecoveryOption := fun c =>
  mkRecoveryConfig (rc_EnableStackPrint c) (rc_StackSkip c) fn (rc_LogPanic c) (rc_MetricsCallback c).
(* go: internal/api/middleware/recovery.go func WithMetricsCallback *)
Definition WithMetricsCallback (fn : option callback) : RecoveryOption := fun c =>
  mkRecoveryConfig (rc_EnableStackPrint c) (rc_StackSkip c) (rc_ErrorResponse c) (rc_LogPanic c) fn.
(* go: internal/api/middleware/recovery.go func WithCustomLogger *)
Definition WithCustomLogger (fn : option callback) : RecoveryOption := fun c =>
  mkRecoveryConfig (rc_EnableStackPrint c) (rc_StackSkip c) (rc_ErrorResponse c) fn (rc_MetricsCallback c).

Definition recovery_config (opts : list RecoveryOption) : RecoveryConfig :=
  foldl (fun c opt => opt c) (mkRecoveryConfig true 4 DefaultCallback (Some DefaultCallback) None) opts.

(** ** The stack *)

Definition newline : Ascii.ascii := Ascii.ascii_of_nat 10.

(** The lines up to the one after the first of the program's own, or of the goroutine's start.
    The slice has no room for a line more than there are. *)
Definition own_line (line : string) : bool := Contains line "created by" || Contains line "nexuspipe/internal".
Definition cut_lines (lines : list string) : option (list string) :=
  match list_find (fun l => own_line l = true) lines with
  | None => Some lines
  | Some (i, _) => if (i + 2 <=? length lines)%nat then Some (take (i + 2) lines) else None
  end.

(* go: internal/api/middleware/recovery.go @100-108 Recovery *)
Definition cut_stack (stack : string) : option string :=
  (fun ls => strings_Join ls "
") <$> cut_lines (Split stack newline).

(** ** A request *)

Inductive effect : Type :=
| Logged (fn : callback) (err : any) (stack : string)
| Counted (fn : callback) (err : any)
| MarkedHeader
| Answered (fn : callback) (err : any).

(** The handlers return, or panic with a value; the effects in order, and whether another panic
    leaves the middleware. *)
(* go: internal/api/middleware/recovery.go func Recovery *)
Definition Recovery (opts : list RecoveryOption) (panic : option any) (stack : string) : list effect * bool :=
  let cfg := recovery_config opts in
  match panic with
  | None => ([], false)
  | Some err =>
      match if rc_EnableStackPrint cfg then cut_stack stack else Some ""%string with
      | None => ([], true)
      | Some s =>
          ((match rc_LogPanic cfg with Some fn => [Logged fn err s] | None => [] end)
           ++ (match rc_MetricsCallback cfg with Some fn => [Counted fn err] | None => [] end)
           ++ [MarkedHeader; Answered (rc_ErrorResponse cfg) err], false)
      end
  end.

(** The number is kept, and used nowhere. *)
(* go: internal/api/middleware/recovery.go func RecoveryWithSkip *)
Definition RecoveryWithSkip (skip : Z) : option any -> string -> list effect * bool :=
  Recovery [WithStackPrint true; fun c => mkRecoveryConfig (rc_EnableStackPrint c) skip (rc_ErrorResponse c) (rc_LogPanic c) (rc_MetricsCallback c)].

(** ** Properties *)

Definition is_answer (e : effect) : bool := match e with Answered _ _ => true | _ => false end.

(** Every panic of the handlers is answered, once and last, after the log and the metrics, unless
    the text of the stack ends in one of the program's own lines, as it may where it is cut
    off at 64 kB: then cutting it panics again, and the request is neither logged nor answered
    here.  A request without a panic is not touched. *)
Theorem Recovery_correct opts panic stack :
  let cfg := recovery_config opts in
  let '(effects, escapes) := Recovery opts panic stack in
  (escapes = true <-> panic <> None /\ rc_EnableStackPrint cfg = true
     /\ exists init l, Split stack newline = init ++ [l] /\ own_line l = true /\ Forall (fun l => own_line l = false) init)
  /\ (escapes = true -> effects = [])
  /\ (escapes = false -> forall err, panic = Some err ->
      last effects = Some (Answered (rc_ErrorResponse cfg) err)
      /\ length (List.filter is_answer effects) = 1%nat)
  /\ (panic = None -> effects = []).
Proof.
  intros cfg. unfold Recovery. fold cfg. destruct panic as [err|].
  2: { split_and!; try done. split; [done|]. by intros [? _]. }
  assert (cut_stack stack = None <-> exists init l, Split stack newline = init ++ [l] /\ own_line l = true
    /\ Forall (fun l => own_line l = false) init) as Hcut.
  { unfold cut_stack. rewrite fmap_None. unfold cut_lines.
    destruct (list_find _ _) as [[i l]|] eqn:Hf.
    - apply list_find_Some in Hf as (Hi & Hl & Hbefore). destruct (Nat.leb_spec (i + 2) (length (Split stack newline))) as [Hle|Hgt].
      + split; [done|]. intros (init & l' & Heq & Hl' & Hinit). rewrite Heq in Hi, Hle. rewrite length_app in Hle. simpl in Hle.
        rewrite lookup_app_l in Hi by lia. rewrite Forall_lookup in Hinit. specialize (Hinit i l Hi). congruence.
      + split; [|done]. intros _. pose proof (lookup_lt_Some _ _ _ Hi).
        exists (take i (Split stack newline)), l. split_and!; [|done|].
        * rewrite <- (take_drop i (Split stack newline)) at 1. f_equal. rewrite (drop_S _ l i Hi). f_equal.
          apply drop_ge. lia.
        * apply Forall_lookup. intros j y Hj. apply lookup_take_Some in Hj as [Hj Hlt].
          specialize (Hbefore j y Hj Hlt). by destruct (own_line y).
    - split; [done|]. intros (init & l & Heq & Hl & _). apply list_find_None in Hf. rewrite Heq, Forall_app in Hf.
      destruct Hf as [_ Hf]. apply Forall_cons in Hf as [Hf _]. done. }
  destruct (rc_EnableStackPrint cfg) eqn:He; [destruct (cut_stack stack) as [s|] eqn:Hc|].
  - split_and!; try done.
    + split; [done|]. intros (_ & _ & Hex). by apply Hcut in Hex.
    + intros _ err' [= <-]. destruct (rc_LogPanic cfg), (rc_MetricsCallback cfg); done.
  - split_and!; try done. split; [|done]. intros _. split_and!; [done..|]. by apply Hcut.
  - split_and!; try done.
    + split; [done|]. by intros (_ & ? & _).
    + intros _ err' [= <-]. destruct (rc_LogPanic cfg), (rc_MetricsCallback cfg); done.
Qed.

Example cut_short : Recovery [] (Some AnyNil) "goroutine 7:
main()
nexuspipe/internal/api.f" = ([], true).
Proof. reflexivity. Qed.
