(* ===== verification/Cache.v ===== *)
(** * The cache: internal/cache/redis.go

    The operations of the cache over an interface of the Redis client ([RedisOps]) and of the two
    serializers ([Codec]).  The laws ([RedisLaws]) say what Redis documents of single commands
    at one instant: the keys that are present and their values. *)

From S2P Require Import Prelude GoStrings.

(** ** The interfaces *)

(** The answer to a command: [RedisNil] for a key that is not there. *)
Inductive redis_reply (A : Type) : Type :=
| RedisOk (a : A)
| RedisNil
| RedisErr (err : string).
Arguments RedisOk {A}.
Arguments RedisNil {A}.
Arguments RedisErr {A}.

(** [W] is the server; what is stored are texts.  A time to live of 0 is none. *)
Class RedisOps (W : Type) : Type := {
  redis_Get : string -> W -> redis_reply string;
  redis_Set : string -> string -> Z -> W -> W * option string;
  redis_Del : list string -> W -> W * option string;
  redis_Exists : string -> W -> redis_reply Z;
  redis_TTL : string -> W -> redis_reply Z;
  redis_Expire : string -> Z -> W -> W * option string;
  redis_FlushAll : W -> W * option string;
  redis_SetNX : string -> string -> Z -> W -> W * (bool + string);
  redis_Keys : string -> W -> redis_reply (list string)
}.

(** [present] are the keys with their values; a pattern without special characters matches
    itself and one that is a prefix and a star matches what begins with it. *)
Class RedisLaws (W : Type) `{RedisOps W} : Type := {
  present : W -> gmap string string;
  redis_Get_ok w k v : redis_Get k w = RedisOk v -> present w !! k = Some v;
  redis_Get_nil w k : redis_Get k w = RedisNil -> present w !! k = None;
  redis_Set_ok w w' k v ttl : redis_Set k v ttl w = (w', None) -> present w' = <[k := v]> (present w);
  redis_Del_ok w w' ks : redis_Del ks w = (w', None) -> present w' = filter (fun kv => kv.1 ∉ ks) (present w);
  redis_FlushAll_ok w w' : redis_FlushAll w = (w', None) -> present w' = ∅;
  redis_SetNX_ok w w' k v ttl b : redis_SetNX k v ttl w = (w', inl b) ->
    (b = true /\ present w !! k = None /\ present w' = <[k := v]> (present w))
    \/ (b = false /\ is_Some (present w !! k) /\ present w' = present w);
  redis_Keys_star w p l : redis_Keys (p +:+ "*")%string w = RedisOk l ->
    forall k, k ∈ l <-> is_Some (present w !! k) /\ String.prefix p k = true
}.

(** Values and their two texts. *)
Class Codec (V : Type) : Type := {
  json_Marshal : V -> string + string;
  json_Unmarshal : string -> V + string;
  msgpack_Marshal : V -> string + string;
  msgpack_Unmarshal : string -> V + string
}.
Class CodecLaws (V : Type) `{Codec V} : Prop := {
  json_inverse v t : json_Marshal v = inl t -> json_Unmarshal t = inl v;
  msgpack_inverse v t : msgpack_Marshal v = inl t -> msgpack_Unmarshal t = inl v
}.

(** ** The cache *)

(** The serializers are numbered; any other number is taken for JSON. *)
Abbreviation SerializerJSON := 0.
Abbreviation SerializerMsgpack := 1.

(* go: internal/cache/redis.go type RedisCacheConfig *)
Record RedisCacheConfig := mkCacheConfig {
  cf_Address : string;
  cf_Password : string;
  cf_DB : Z;
  cf_PoolSize : Z;
  cf_MinIdle : Z;
  cf_MaxRetries : Z;
  cf_DialTimeout : Z;
  cf_ReadTimeout : Z;
  cf_WriteTimeout : Z;
  cf_DefaultTTL : Z;
  cf_KeyPrefix : string;
  cf_Serializer : Z
}.

(* go: internal/cache/redis.go func DefaultRedisCacheConfig *)
Definition DefaultRedisCacheConfig : RedisCacheConfig :=
  mkCacheConfig "localhost:6379" "" 0 10 3 3 (5 * Second) (3 * Second) (3 * Second) (5 * Minute) "nexuspipe" SerializerMsgpack.

(** The client is the world of the operations. *)
(* go: internal/cache/redis.go type RedisCache *)
Record RedisCache := mkCache { serializer : Z; defaultTTL : Z; prefix : string }.

(* go: internal/cache/redis.go func NewRedisCache *)
Definition NewRedisCache (cfg : RedisCacheConfig) : RedisCache :=
  mkCache (cf_Serializer cfg) (cf_DefaultTTL cfg) (cf_KeyPrefix cfg).

Inductive CacheError : Type :=
| CacheMiss (key : string)
| CacheGet (key err : string)
| CacheDeserialize (key err : string)
| CacheSerialize (key err : string)
| CacheSet (key err : string)
| CacheDelete (err : string)
| CacheExists (key err : string)
| CacheTTL (key err : string)
| CacheExpire (key err : string)
| CacheFlush (err : string)
| CacheSetNX (key err : string)
| CacheKeys (pattern err : string).

(* go: internal/cache/redis.go func RedisCache.key *)
Definition key (c : RedisCache) (k : string) : string :=
  if String.eqb (prefix c) "" then k else (prefix c +:+ ":" +:+ k)%string.

Section operations.
Context {W : Type} `{RedisOps W} {V : Type} `{Codec V}.
Implicit Types (c : RedisCache) (w : W).

(* go: internal/cache/redis.go func RedisCache.serialize *)
Definition serialize c (v : V) : string + string :=
  if serializer c =? SerializerMsgpack then msgpack_Marshal v else json_Marshal v.

(* go: internal/cache/redis.go func RedisCache.deserialize *)
Definition deserialize c (data : string) : V + string :=
  if serializer c =? SerializerMsgpack then msgpack_Unmarshal data else json_Unmarshal data.

(* go: internal/cache/redis.go func RedisCache.Get *)
Definition Get c (k : string) w : V + CacheError :=
  match redis_Get (key c k) w with
  | RedisNil => inr (CacheMiss k)
  | RedisErr err => inr (CacheGet k err)
  | RedisOk data => match deserialize c data with inl v => inl v | inr err => inr (CacheDeserialize k err) end
  end.

Definition ttl_of c (ttl : Z) : Z := if ttl <=? 0 then defaultTTL c else ttl.

(* go: internal/cache/redis.go func RedisCache.Set *)
Definition Set_ c (k : string) (value : V) (ttl : Z) w : W * option CacheError :=
  match serialize c value with
  | inr err => (w, Some (CacheSerialize k err))
  | inl data =>
      match redis_Set (key c k) data (ttl_of c ttl) w with
      | (w', Some err) => (w', Some (CacheSet k err))
      | (w', None) => (w', None)
      end
  end.

(* go: internal/cache/redis.go func RedisCache.Delete *)
Definition Delete c (ks : list string) w : W * option CacheError :=
  match redis_Del (key c <$> ks) w with
  | (w', Some err) => (w', Some (CacheDelete err))
  | (w', None) => (w', None)
  end.

(* go: internal/cache/redis.go func RedisCache.Exists *)
Definition Exists c (k : string) w : bool + CacheError :=
  match redis_Exists (key c k) w with
  | RedisOk n => inl (0 <? n)
  | RedisNil => inr (CacheExists k "redis: nil")
  | RedisErr err => inr (CacheExists k err)
  end.

(* go: internal/cache/redis.go func RedisCache.TTL *)
Definition TTL c (k : string) w : Z + CacheError :=
  match redis_TTL (key c k) w with
  | RedisOk ttl => inl ttl
  | RedisNil => inr (CacheTTL k "redis: nil")
  | RedisErr err => inr (CacheTTL k err)
  end.

(* go: internal/cache/redis.go func RedisCache.Expire *)
Definition Expire c (k : string) (ttl : Z) w : W * option CacheError :=
  match redis_Expire (key c k) ttl w with
  | (w', Some err) => (w', Some (CacheExpire k err))
  | (w', None) => (w', None)
  end.

(** Everything on the server, whatever its prefix. *)
(* go: internal/cache/redis.go func RedisCache.Flush *)
Definition Flush c w : W * option CacheError :=
  match redis_FlushAll w with
  | (w', Some err) => (w', Some (CacheFlush err))
  | (w', None) => (w', None)
  end.

(* go: internal/cache/redis.go func RedisCache.SetNX *)
Definition SetNX c (k : string) (value : V) (ttl : Z) w : W * (bool + CacheError) :=
  match serialize c value with
  | inr err => (w, inr (CacheSerialize k err))
  | inl data =>
      match redis_SetNX (key c k) data (ttl_of c ttl) w with
      | (w', inl ok) => (w', inl ok)
      | (w', inr err) => (w', inr (CacheSetNX k err))
      end
  end.

(** The keys as the server has them, with the prefix. *)
(* go: internal/cache/redis.go func RedisCache.Keys *)
Definition Keys c (pattern : string) w : list string + CacheError :=
  match redis_Keys (key c pattern) w with
  | RedisOk l => inl l
  | RedisNil => inr (CacheKeys pattern "redis: nil")
  | RedisErr err => inr (CacheKeys pattern err)
  end.
End operations.

(** ** Keys *)

Lemma string_app_assoc (s t u : string) : ((s +:+ t) +:+ u)%string = (s +:+ (t +:+ u))%string.
Proof. induction s as [|a s IH]; [done|exact (f_equal (String a) IH)]. Qed.

Lemma key_eq c k : key c k = (key c "" +:+ k)%string.
Proof.
  unfold key. destruct (String.eqb (prefix c) ""); [done|]. change (":" +:+ "")%string with ":"%string. by rewrite string_app_assoc.
Qed.

Lemma string_app_inv_head (p s t : string) : (p +:+ s)%string = (p +:+ t)%string -> s = t.
Proof. induction p as [|a p IH]; [done|]. intros [= H]. auto. Qed.

Lemma key_inj c k k' : key c k = key c k' -> k = k'.
Proof. rewrite (key_eq c k), (key_eq c k'). apply string_app_inv_head. Qed.

Definition colon : Ascii.ascii := Ascii.ascii_of_nat 58.

(** The part of a text before the first colon is found again. *)
Lemma colon_split (p q s t : string) : has_char colon p = false -> has_char colon q = false ->
  (p +:+ String colon s)%string = (q +:+ String colon t)%string -> p = q /\ s = t.
Proof.
  revert q. induction p as [|a p IH]; intros [|b q] Hp Hq Heq.
  - injection Heq as ->. done.
  - injection Heq as <- _. discriminate Hq.
  - injection Heq as -> _. discriminate Hp.
  - simpl in Hp, Hq. apply orb_false_elim in Hp as [_ Hp]. apply orb_false_elim in Hq as [_ Hq].
    injection Heq as -> Heq. destruct (IH q Hp Hq Heq) as [-> ->]. done.
Qed.

Definition plain_prefix (c : RedisCache) : Prop := prefix c <> ""%string /\ has_char colon (prefix c) = false.

Lemma key_plain c k : plain_prefix c -> key c k = (prefix c +:+ String colon k)%string.
Proof. intros [Hne _]. unfold key. by destruct (String.eqb_spec (prefix c) ""). Qed.

(** Caches with different plain prefixes share no key. *)
Lemma keys_apart c c' k k' : plain_prefix c -> plain_prefix c' -> key c k = key c' k' -> prefix c = prefix c' /\ k = k'.
Proof. intros Hc Hc'. rewrite (key_plain c k Hc), (key_plain c' k' Hc'). apply colon_split; [apply Hc|apply Hc']. Qed.

(** ** What the cache promises *)

Section laws.
Context {W : Type} `{RedisLaws W} {V : Type} `{CodecLaws V}.
Implicit Types (c : RedisCache) (w : W) (v : V).

Lemma deserialize_serialize c v data : serialize c v = inl data -> deserialize c data = inl v.
Proof. unfold serialize, deserialize. destruct (_ =? _); [apply msgpack_inverse|apply json_inverse]. Qed.

(** A read that the server answers gives what is present. *)
Lemma Get_present c k w : (forall err, Get c k w <> inr (CacheGet k err)) ->
  Get c k w = match present w !! key c k with
              | None => inr (CacheMiss k)
              | Some data => match deserialize c data with inl v => inl v | inr err => inr (CacheDeserialize k err) end
              end :> V + CacheError.
Proof.
  unfold Get. destruct (redis_Get (key c k) w) as [data| |err] eqn:Hr; intros Hok.
  - by rewrite (redis_Get_ok _ _ _ Hr).
  - by rewrite (redis_Get_nil _ _ Hr).
  - by destruct (Hok err).
Qed.

(** What is set is what is read, whatever the serializer, and no other key of any cache changes. *)
Lemma Set_Get c k v ttl w w' : Set_ c k v ttl w = (w', None) ->
  ((forall err, Get c k w' <> inr (CacheGet k err) :> V + CacheError) -> Get c k w' = inl v :> V + CacheError)
  /\ forall k', k' <> key c k -> present w' !! k' = present w !! k'.
Proof.
  unfold Set_. destruct (serialize c v) as [data|err] eqn:Hs; [|done].
  destruct (redis_Set (key c k) data (ttl_of c ttl) w) as [w1 [err|]] eqn:Hr; [done|]. intros [= ->].
  pose proof (redis_Set_ok _ _ _ _ _ Hr) as Hp. split.
  - intros Hok. rewrite (Get_present c k w' Hok), Hp, lookup_insert_eq. by rewrite (deserialize_serialize c v data Hs).
  - intros k' Hne. rewrite Hp. by apply lookup_insert_ne.
Qed.

(** The cache at one instant.  A value that was set is read back, by any cache with the same prefix
    and serializer, and a write changes no other key, so that caches whose prefixes are not
    empty, differ and have no colon do not disturb each other.  Of the calls of [SetNX] for a
    key exactly the first stores its value, until the key goes.  But what [Keys] lists are keys
    with the prefix, which no operation of the same cache finds, since it puts the prefix before
    them again; and [Flush] empties every cache on the server. *)
Theorem cache_correct c k w w' :
  (forall v ttl, Set_ c k v ttl w = (w', None) ->
     (forall c1, prefix c1 = prefix c -> serializer c1 = serializer c ->
        (forall err, Get c1 k w' <> inr (CacheGet k err) :> V + CacheError) -> Get c1 k w' = inl v :> V + CacheError)
     /\ (forall k', k' <> k -> present w' !! key c k' = present w !! key c k')
     /\ (forall c1 k', plain_prefix c -> plain_prefix c1 -> prefix c1 <> prefix c -> present w' !! key c1 k' = present w !! key c1 k'))
  /\ (forall v ttl b, SetNX c k v ttl w = (w', inl b) ->
       if b then present w !! key c k = None /\ (exists data, serialize c v = inl data /\ present w' = <[key c k := data]> (present w))
       else is_Some (present w !! key c k) /\ present w' = present w)
  /\ (forall p l, Keys c (p +:+ "*")%string w = inl l -> forall k', k' ∈ l ->
       exists k0, k' = key c k0 /\ is_Some (present w !! key c k0) /\ key c k' = key c (key c k0))
  /\ (forall c1, Flush c1 w = (w', None) -> present w' = ∅).
Proof.
  split_and!.
  - intros v ttl Hset. destruct (Set_Get c k v ttl w w' Hset) as [Hget Hothers]. split_and!.
    + intros c1 Hpre Hser. assert (key c1 k = key c k) as Hk by (unfold key; by rewrite Hpre).
      unfold Get, deserialize in *. rewrite Hk, Hser. apply Hget.
    + intros k' Hne. apply Hothers. by intros ?%key_inj.
    + intros c1 k' Hc Hc1 Hne. apply Hothers. by intros [? _]%keys_apart.
  - intros v ttl b. unfold SetNX. destruct (serialize c v) as [data|] eqn:Hs; [|done].
    destruct (redis_SetNX (key c k) data (ttl_of c ttl) w) as [w1 [ok|err]] eqn:Hr; [|done]. intros [= -> ->].
    destruct (redis_SetNX_ok _ _ _ _ _ _ Hr) as [(-> & ? & ?)|(-> & ? & ?)]; [|done]. split; [done|]. by exists data.
  - intros p l. unfold Keys. destruct (redis_Keys (key c (p +:+ "*")) w) as [l'| |] eqn:Hr; [|done|done]. intros [= ->] k' Hk'.
    rewrite (key_eq c (p +:+ "*")), <- string_app_assoc in Hr.
    destruct (proj1 (redis_Keys_star w _ l Hr k') Hk') as [Hpres Hpre]. apply prefix_app in Hpre as [t ->].
    rewrite string_app_assoc, <- (key_eq c (p +:+ t)) in *. by exists (p +:+ t)%string.
  - intros c1. unfold Flush. destruct (redis_FlushAll w) as [w1 [err|]] eqn:Hr; [done|]. intros [= ->].
    by eapply redis_FlushAll_ok.
Qed.
End laws.

(** Prefixes with colons can share keys. *)
Example colon_prefixes : key (mkCache 0 0 "a") "b:k" = key (mkCache 0 0 "a:b") "k".
Proof. reflexivity. Qed.

(** ** A server *)

(** A table of keys whose commands always work; its patterns are taken to end with a star. *)
Module Toy.
Fixpoint drop_last (s : string) : string :=
  match s with
  | EmptyString => EmptyString
  | String c t => match t with EmptyString => EmptyString | _ => String c (drop_last t) end
  end.

Lemma drop_last_star (p : string) : drop_last (p +:+ "*") = p.
Proof. induction p as [|c p IH]; [done|]. simpl. destruct (p +:+ "*")%string eqn:He; [by destruct p|by rewrite IH]. Qed.

#[export] Instance toy_redis : RedisOps (gmap string string) := {
  redis_Get k w := match w !! k with Some v => RedisOk v | None => RedisNil end;
  redis_Set k v _ w := (<[k := v]> w, None);
  redis_Del ks w := (filter (fun kv => kv.1 ∉ ks) w, None);
  redis_Exists k w := RedisOk (match w !! k with Some _ => 1 | None => 0 end);
  redis_TTL _ _ := RedisOk (-1);
  redis_Expire _ _ w := (w, None);
  redis_FlushAll _ := (∅, None);
  redis_SetNX k v _ w := match w !! k with Some _ => (w, inl false) | None => (<[k := v]> w, inl true) end;
  redis_Keys pattern w := RedisOk (filter (fun k => String.prefix (drop_last pattern) k = true) (keys w))
}.

#[export] Instance toy_laws : RedisLaws (gmap string string).
Proof.
  refine {| present := fun w => w |}; simpl; intros *.
  - destruct (w !! k); [by intros [= ->]|done].
  - by destruct (w !! k).
  - congruence.
  - congruence.
  - congruence.
  - intros _ b. destruct (w !! k) eqn:Hk; intros [= <- <-]; [right|left]; split_and!; eauto.
  - intros [= <-] k. rewrite drop_last_star, list_elem_of_filter, elem_of_keys. naive_solver.
Defined.

#[export] Instance toy_codec : Codec string := {
  json_Marshal v := inl v; json_Unmarshal t := inl t; msgpack_Marshal v := inl v; msgpack_Unmarshal t := inl t
}.
#[export] Instance toy_codec_laws : CodecLaws string.
Proof. split; simpl; by intros v t [= ->]. Defined.
End Toy.
Import Toy.

Lemma cache_correct_witness :
  let c := NewRedisCache DefaultRedisCacheConfig in
  let w : gmap string string := (Set_ c "k" "v" 0 ∅).1 in
  Get c "k" w = inl "v"%string
  /\ (SetNX c "k" "u" 0 w).2 = inl false /\ (SetNX c "k" "u" 0 w).1 = w
  /\ Keys c "*" w = inl ["nexuspipe:k"%string] /\ Get c "nexuspipe:k" w = inr (CacheMiss "nexuspipe:k") :> string + CacheError.
Proof.
  intros c w. destruct (cache_correct (V := string) c "k" ∅ w) as (H1 & _).
  destruct (H1 "v"%string 0 eq_refl) as [Hget _].
  destruct (cache_correct (V := string) c "k" w w) as (_ & H2 & _).
  split_and!; [|reflexivity| |reflexivity|reflexivity].
  - apply (Hget c eq_refl eq_refl). intros err. vm_compute. discriminate.
  - destruct (H2 "u"%string 0 false eq_refl) as [_ Hw]. reflexivity.
Defined.
