(* ===== verification/ApiResponse.v ===== *)
(** * Answers of the API: internal/api/handlers/response.go

    The envelope of every answer with its status, and the number of pages.  An answer is
    what is handed to gin's JSON writer; the data are of any type [D]. *)

From S2P Require Import Prelude.

(* go: internal/api/handlers/response.go type apiError *)
Record apiError := mkApiError {
  ae_Code : string;
  ae_Message : string;
  ae_Details : option any
}.

(* go: internal/api/handlers/response.go type responseMeta *)
Record responseMeta := mkResponseMeta {
  rm_Page : Z;
  rm_PerPage : Z;
  rm_Total : Z;
  rm_TotalPages : Z
}.

(* go: internal/api/handlers/response.go type response *)
Record response (D : Type) := mkResponse {
  rs_Success : bool;
  rs_Data : option D;
  rs_Error : option apiError;
  rs_Meta : option responseMeta;
  rs_RequestID : string
}.
Arguments mkResponse {D}.
Arguments rs_Success {D}.
Arguments rs_Data {D}.
Arguments rs_Error {D}.
Arguments rs_Meta {D}.
Arguments rs_RequestID {D}.

(** A status and the body. *)
Definition reply (D : Type) : Type := Z * response D.

(** Where the identifier of a request is looked for: the context, the header, a new one. *)
Record request_ids := mkRequestIds {
  ri_context : option any;
  ri_header : string;
  ri_new : string
}.

(* go: internal/api/handlers/response.go func reqID *)
Definition reqID (c : request_ids) : string :=
  match ri_context c with
  | Some (AnyString rid) => rid
  | _ => if String.eqb (ri_header c) "" then ri_new c else ri_header c
  end.

Section replies.
Context {D : Type}.
Implicit Type c : request_ids.

(* go: internal/api/handlers/response.go func success *)
Definition success c (data : D) : reply D := (200, mkResponse true (Some data) None None (reqID c)).
(* go: internal/api/handlers/response.go func created *)
Definition created c (data : D) : reply D := (201, mkResponse true (Some data) None None (reqID c)).
(* go: internal/api/handlers/response.go func noContent *)
Definition noContent c : reply D := (204, mkResponse true None None None (reqID c)).

(** The quotient and the remainder are Go's, rounded towards zero. *)
Definition total_pages (total perPage : Z) : Z :=
  let q := Z.quot (int64 total) perPage in
  if Z.rem (int64 total) perPage =? 0 then int64 q else int64 (q + 1).

(* go: internal/api/handlers/response.go func paginated *)
Definition paginated c (data : D) (page perPage total : Z) : go_result (reply D) Empty_set :=
  if perPage =? 0 then Panic
  else Ok (200, mkResponse true (Some data) None (Some (mkResponseMeta page perPage total (total_pages total perPage))) (reqID c)).

(* go: internal/api/handlers/response.go func sendError *)
Definition sendError c (status : Z) (code message : string) (details : list any) : reply D :=
  (status, mkResponse false None (Some (mkApiError code message (head details))) None (reqID c)).

(* go: internal/api/handlers/response.go func badRequest *)
Definition badRequest c (message : string) : reply D := sendError c 400 "BAD_REQUEST" message [].
(* go: internal/api/handlers/response.go func notFound *)
Definition notFound c (message : string) : reply D := sendError c 404 "NOT_FOUND" message [].
(* go: internal/api/handlers/response.go func internalError *)
Definition internalError c (message : string) : reply D := sendError c 500 "INTERNAL_ERROR" message [].
(* go: internal/api/handlers/response.go func conflict *)
Definition conflict c (message : string) : reply D := sendError c 409 "CONFLICT" message [].
(* go: internal/api/handlers/response.go func unauthorized *)
Definition unauthorized c (message : string) : reply D := sendError c 401 "UNAUTHORIZED" message [].
(* go: internal/api/handlers/response.go func forbidden *)
Definition forbidden c (message : string) : reply D := sendError c 403 "FORBIDDEN" message [].
(* go: internal/api/handlers/response.go func notImplemented *)
Definition notImplemented c : reply D := sendError c 501 "NOT_IMPLEMENTED" "This endpoint is not yet implemented" [].

(** What gin makes of a body or of a query is an argument: the value or the error. *)
(* go: internal/api/handlers/response.go func bindJSON *)
Definition bindJSON {A} c (body : A + string) : A + reply D :=
  match body with
  | inl req => inl req
  | inr err => inr (badRequest c ("Invalid request body: " +:+ err)%string)
  end.
(* go: internal/api/handlers/response.go func bindQuery *)
Definition bindQuery {A} c (query : A + string) : A + reply D :=
  match query with
  | inl q => inl q
  | inr err => inr (badRequest c ("Invalid query parameters: " +:+ err)%string)
  end.
End replies.

(** ** Pages *)

(** The page that a handler takes for the one asked for, and its size. *)
Definition page_number (page : Z) : Z := if page <? 1 then 1 else page.
Definition page_size (default_size limit perPage : Z) : Z :=
  if (perPage <? 1) || (limit <? perPage) then default_size else perPage.

(** The pages cover the total, and the last of them is needed. *)
Lemma total_pages_bounds total perPage :
  0 < perPage -> 0 <= total <= max_int64 ->
  (total_pages total perPage - 1) * perPage < total <= total_pages total perPage * perPage.
Proof.
  intros Hp Ht. unfold total_pages, max_int64 in *.
  assert (forall z, 0 <= z <= total -> int64 z = z) as Hi.
  { intros z Hz. apply int64_small. unfold in_int64, min_int64, max_int64. lia. }
  rewrite (Hi total), Z.quot_div_nonneg, Z.rem_mod_nonneg by lia.
  pose proof (Z.div_mod total perPage). pose proof (Z.mod_pos_bound total perPage).
  assert (0 <= total / perPage) by (apply Z.div_pos; lia).
  destruct (Z.eqb_spec (total mod perPage) 0); rewrite Hi; nia.
Qed.
