(* ===== verification/ApiHealth.v ===== *)
(** * Health over HTTP: internal/api/handlers/health.go

    What the probes answer.  The answers of the database and of the queue's connection are
    arguments; times are the texts that package time formats. *)

From S2P Require Import Prelude ApiResponse.

(** The connection to the queue: none, closed, or open, where opening a channel may fail. *)
Inductive amqp_state : Type :=
| NoConnection
| ClosedConnection
| OpenConnection (channel : option string).

(* go: internal/api/handlers/health.go type healthStatus *)
Record healthStatus := mkHealthStatus {
  hs_Status : string;
  hs_Service : string;
  hs_Version : string;
  hs_Timestamp : string;
  hs_Uptime : string;
  hs_Checks : gmap string string
}.

(* go: internal/api/handlers/health.go type readinessStatus *)
Record readinessStatus := mkReadinessStatus {
  rd_Status : string;
  rd_Checks : gmap string string;
  rd_Healthy : bool
}.

(* go: internal/api/handlers/health.go func HealthHandler.Health *)
Definition Health (c : request_ids) (timestamp uptime : string) : reply healthStatus :=
  success c (mkHealthStatus "ok" "nexuspipe-api" "0.1.0" timestamp uptime ∅).

Definition check_text (err : option string) : string :=
  match err with Some e => "unhealthy: " +:+ e | None => "healthy" end.

(* go: internal/api/handlers/health.go func HealthHandler.Readiness *)
Definition Readiness (ping : option string) (amqp : amqp_state) : Z * readinessStatus :=
  let db_ok := match ping with None => true | Some _ => false end in
  let '(queue, queue_ok) := match amqp with
                            | OpenConnection err => (check_text err, match err with None => true | Some _ => false end)
                            | _ => ("not_configured"%string, true)
                            end in
  let healthy := db_ok && queue_ok in
  (if healthy then 200 else 503,
   mkReadinessStatus (if healthy then "ready" else "not_ready") {["database" := check_text ping; "queue" := queue]} healthy).

(* go: internal/api/handlers/health.go func HealthHandler.Liveness *)
Definition Liveness : Z * gmap string string := (200, {["status" := "alive"; "service" := "nexuspipe-api"]}).

(** The status and the checks of the detailed answer. *)
(* go: internal/api/handlers/health.go func HealthHandler.Detailed *)
Definition Detailed (ping : option string) (amqp : amqp_state) : Z * string * gmap string string :=
  let db := check_text ping in
  match amqp with
  | NoConnection => (200, if ping is Some _ then "degraded" else "healthy", {["database" := db]})
  | ClosedConnection => (200, "degraded"%string, {["database" := db; "rabbitmq" := "disconnected"]})
  | OpenConnection _ => (200, if ping is Some _ then "degraded" else "healthy", {["database" := db; "rabbitmq" := "connected"]})
  end%string.

(** The service is ready exactly if the database answers and the queue's connection, if it is
    open, gives a channel: a connection that was lost counts as one that is not configured, and
    the service is ready without it, although the detailed answer is then degraded.  The
    detailed answer is degraded exactly if the database fails or the connection is closed. *)
Theorem Readiness_correct ping amqp :
  ((Readiness ping amqp).1 = 200 <-> ping = None /\ forall err, amqp <> OpenConnection (Some err))
  /\ ((Readiness ping amqp).1 = 200 \/ (Readiness ping amqp).1 = 503)
  /\ (rd_Healthy (Readiness ping amqp).2 = true <-> (Readiness ping amqp).1 = 200)
  /\ ((Detailed ping amqp).1.2 = "degraded"%string <-> is_Some ping \/ amqp = ClosedConnection)
  /\ (amqp = ClosedConnection -> ping = None ->
      (Readiness ping amqp).1 = 200 /\ rd_Checks (Readiness ping amqp).2 !! "queue" = Some "not_configured"%string).
Proof.
  unfold Readiness, Detailed. destruct ping as [e|], amqp as [| |[e'|]]; simpl; split_and!; try naive_solver.
  all: split; try done; try naive_solver.
  all: intros; by (right || left; eexists).
Qed.
