(* ===== verification/ApiErrors.v ===== *)
(** * Errors of the API: internal/api/errors.go

    A type of errors with their status, and the classification of any error.  The file declares
    names that response.go declares too, with other meanings ([ApiReplies]). *)

From S2P Require Import Prelude.

(** [status] is not part of the JSON. *)
(* go: internal/api/errors.go type APIError *)
Record APIError := mkAPIError {
  Code : string;
  Message : string;
  Details : any;
  status : Z
}.

(** The errors of Go that the file tells apart: its own, the deadline of a context, others, and an
    error that wraps another one under a message. *)
Inductive error : Type :=
| EApi (e : APIError)
| EDeadlineExceeded
| EText (msg : string)
| EWrap (msg : string) (err : error).

(* go: internal/api/errors.go func APIError.Error *)
Definition APIError_Error (e : APIError) : string := ("[" +:+ Code e +:+ "] " +:+ Message e)%string.

(** The text of an error; that of a wrapped one follows the message. *)
Fixpoint error_text (e : error) : string :=
  match e with
  | EApi e => APIError_Error e
  | EDeadlineExceeded => "context deadline exceeded"
  | EText msg => msg
  | EWrap msg e => (msg +:+ ": " +:+ error_text e)%string
  end.

(* go: internal/api/errors.go func NewAPIError *)
Definition NewAPIError (code message : string) (status : Z) : APIError := mkAPIError code message AnyNil status.

(* go: internal/api/errors.go func NotFound *)
Definition NotFound (resource id : string) : APIError :=
  NewAPIError "NOT_FOUND" (strings_Join [resource; " '"; id; "' not found"]%string "") 404.

(* go: internal/api/errors.go func ValidationError *)
Definition ValidationError (details : any) : APIError := mkAPIError "VALIDATION_ERROR" "request validation failed" details 400.

(* go: internal/api/errors.go func Conflict *)
Definition Conflict (resource id : string) : APIError :=
  NewAPIError "CONFLICT" (strings_Join [resource; " '"; id; "' already exists"]%string "") 409.

(* go: internal/api/errors.go func InternalError *)
Definition InternalError (err : error) : APIError :=
  NewAPIError "INTERNAL_ERROR" ("internal server error: " +:+ error_text err) 500.

(* go: internal/api/errors.go func Unauthorized *)
Definition Unauthorized (msg : string) : APIError :=
  NewAPIError "UNAUTHORIZED" (if String.eqb msg "" then "authentication required" else msg) 401.

(** [details] is the code of the map with the seconds. *)
(* go: internal/api/errors.go func RateLimited *)
Definition RateLimited (details : Z -> any) (retryAfter : Z) : APIError :=
  mkAPIError "RATE_LIMITED" (strings_Join ["rate limit exceeded, retry after "; itoa retryAfter; " seconds"]%string "")
    (details retryAfter) 429.

(** [errors.As] for the file's own errors, and [errors.Is] for the deadline. *)
Fixpoint as_api (e : error) : option APIError :=
  match e with EApi e => Some e | EWrap _ e => as_api e | _ => None end.
Fixpoint is_deadline (e : error) : bool :=
  match e with EDeadlineExceeded => true | EWrap _ e => is_deadline e | _ => false end.

(* go: internal/api/errors.go func ClassifyError *)
Definition ClassifyError (err : option error) : option APIError :=
  match err with
  | None => None
  | Some err =>
      match as_api err with
      | Some apiErr => Some apiErr
      | None => if is_deadline err then Some (NewAPIError "TIMEOUT" "request timed out" 504) else Some (InternalError err)
      end
  end.

(* go: internal/api/errors.go type FieldError *)
Record FieldError := mkFieldError {
  fe_Field : string;
  fe_Message : string;
  fe_Tag : string;
  fe_Value : any
}.

(* go: internal/api/errors.go type ValidationErrors *)
Definition ValidationErrors : Type := list FieldError.

(* go: internal/api/errors.go func NewValidationErrors *)
Definition NewValidationErrors : ValidationErrors := [].

(* go: internal/api/errors.go func ValidationErrors.Add *)
Definition Add (field message tag : string) (value : any) (v : ValidationErrors) : ValidationErrors :=
  v ++ [mkFieldError field message tag value].

(* go: internal/api/errors.go func ValidationErrors.HasErrors *)
Definition HasErrors (v : ValidationErrors) : bool := 0 <? Z.of_nat (length v).

(* go: internal/api/errors.go func ValidationErrors.Error *)
Definition ValidationErrors_Error (v : ValidationErrors) : string :=
  strings_Join ["validation failed with "; itoa (Z.of_nat (length v)); " errors"]%string "".

(** An error under any number of messages. *)
Fixpoint wrapped (msgs : list string) (e : error) : error :=
  match msgs with [] => e | msg :: msgs => EWrap msg (wrapped msgs e) end.

(** However often an error is wrapped, one of the file's own keeps its status and message, a
    deadline is 504, and any other is 500, with its whole text in the answer. *)
Theorem ClassifyError_correct msgs :
  (forall e, ClassifyError (Some (wrapped msgs (EApi e))) = Some e)
  /\ (exists e, ClassifyError (Some (wrapped msgs EDeadlineExceeded)) = Some e /\ status e = 504)
  /\ (forall msg, exists e, ClassifyError (Some (wrapped msgs (EText msg))) = Some e /\ status e = 500
        /\ Message e = ("internal server error: " +:+ error_text (wrapped msgs (EText msg)))%string).
Proof.
  assert (forall e, as_api (wrapped msgs e) = as_api e) as Ha by (intros e; induction msgs; simpl; auto).
  assert (forall e, is_deadline (wrapped msgs e) = is_deadline e) as Hd by (intros e; induction msgs; simpl; auto).
  unfold ClassifyError. split_and!; intros; rewrite Ha, ?Hd; simpl; [done|by eexists|]. eexists. by split_and!.
Qed.

Lemma HasErrors_Add field message tag value v : HasErrors (Add field message tag value v) = true.
Proof. unfold HasErrors, Add. rewrite length_app. simpl. apply Z.ltb_lt. lia. Qed.
