(* ===== verification/ApiReplies.v ===== *)
(** * Answers of package api: internal/api/response.go

    The same envelope as that of the handlers in [ApiResponse], whose types are used; the two are
    proved to answer alike. *)

From S2P Require Import Prelude ApiResponse.

Section response.
Context {D : Type}.
Implicit Type c : request_ids.

(* go: internal/api/response.go func requestIDFromContext *)
Definition requestIDFromContext c : string :=
  match ri_context c with
  | Some (AnyString rid) => rid
  | _ => if String.eqb (ri_header c) "" then ri_new c else ri_header c
  end.

(* go: internal/api/response.go func Success *)
Definition Success c (data : D) : reply D := (200, mkResponse true (Some data) None None (requestIDFromContext c)).

(* go: internal/api/response.go func Created *)
Definition Created c (data : D) : reply D := (201, mkResponse true (Some data) None None (requestIDFromContext c)).

(* go: internal/api/response.go func NoContent *)
Definition NoContent c : reply D := (204, mkResponse true None None None (requestIDFromContext c)).

(* go: internal/api/response.go func Paginated *)
Definition Paginated c (data : D) (page perPage total : Z) : go_result (reply D) Empty_set :=
  if perPage =? 0 then Panic
  else
    let q := Z.quot (int64 total) perPage in
    let totalPages := if Z.rem (int64 total) perPage =? 0 then int64 q else int64 (q + 1) in
    Ok (200, mkResponse true (Some data) None (Some (mkResponseMeta page perPage total totalPages)) (requestIDFromContext c)).

(* go: internal/api/response.go func Error *)
Definition Error c (status : Z) (code message : string) (details : list any) : reply D :=
  let det := match details with d :: _ => Some d | [] => None end in
  (status, mkResponse false None (Some (mkApiError code message det)) None (requestIDFromContext c)).

(** The details are always given, also when there are none. *)
(* go: internal/api/response.go func ValidationError *)
Definition ValidationError c (message : string) (details : any) : reply D := Error c 400 "VALIDATION_ERROR" message [details].
(* go: internal/api/response.go func NotFound *)
Definition NotFound c (message : string) : reply D := Error c 404 "NOT_FOUND" message [].
(* go: internal/api/response.go func Conflict *)
Definition Conflict c (message : string) : reply D := Error c 409 "CONFLICT" message [].
(* go: internal/api/response.go func InternalError *)
Definition InternalError c (message : string) : reply D := Error c 500 "INTERNAL_ERROR" message [].
(* go: internal/api/response.go func BadRequest *)
Definition BadRequest c (message : string) : reply D := Error c 400 "BAD_REQUEST" message [].
(* go: internal/api/response.go func Unauthorized *)
Definition Unauthorized c (message : string) : reply D := Error c 401 "UNAUTHORIZED" message [].
(* go: internal/api/response.go func Forbidden *)
Definition Forbidden c (message : string) : reply D := Error c 403 "FORBIDDEN" message [].
(* go: internal/api/response.go func ConcurrentModification *)
Definition ConcurrentModification c (message : string) : reply D := Error c 409 "CONCURRENT_MODIFICATION" message [].

(** What gin makes of the request is an argument; [None] goes on. *)
Definition bind {A} (prefix : string) c (value : A + string) : A + reply D :=
  match value with inl v => inl v | inr err => inr (BadRequest c (prefix +:+ err)%string) end.
(* go: internal/api/response.go func BindJSON *)
Definition BindJSON {A} c (body : A + string) : A + reply D := bind "Invalid request body: " c body.
(* go: internal/api/response.go func BindQuery *)
Definition BindQuery {A} c (query : A + string) : A + reply D := bind "Invalid query parameters: " c query.
(* go: internal/api/response.go func BindURI *)
Definition BindURI {A} c (uri : A + string) : A + reply D := bind "Invalid URI parameters: " c uri.
End response.

(** The package and its handlers answer alike: what each does with a value, a page, an error and a
    body is the same envelope with the same status. *)
Theorem Response_equiv {D A} (c : request_ids) (data : D) page perPage total status code message details (body : A + string) :
  Success c data = success c data /\ Created c data = created c data /\ NoContent c = noContent (D:=D) c
  /\ Paginated c data page perPage total = paginated c data page perPage total
  /\ Error c status code message details = sendError (D:=D) c status code message details
  /\ BindJSON c body = bindJSON (D:=D) c body /\ BindQuery c body = bindQuery (D:=D) c body.
Proof. split_and!; try done; by destruct body. Qed.
