(* ===== verification/ApiPipelines.v ===== *)
(** * Pipelines and tasks over HTTP: internal/api/handlers/pipeline.go

    The handlers over the tables of [PipelineRepo] and [TaskRepo].  What gin makes of the body
    or the query is an argument, a value or an error; so are the failures of statements.  A
    handler that runs two statements takes the table as each of them finds it, since other
    clients run statements in between.  Identifiers of pipelines are parsed by google/uuid and
    compared as values by the database: [uuid_Parse] gives their canonical text. *)

From S2P Require Import Prelude GoFloat PipelineModels PipelineRepo TaskRepo ApiResponse.

(** ** Requests *)

(* go: internal/api/handlers/pipeline.go type createPipelineRequest *)
Record createPipelineRequest := mkCreatePipeline {
  cp_Name : string;
  cp_Description : string;
  cp_Config : PipelineConfig;
  cp_Tags : option (gmap string string)
}.

(* go: internal/api/handlers/pipeline.go type updatePipelineRequest *)
Record updatePipelineRequest := mkUpdatePipeline {
  up_Name : option string;
  up_Description : option string;
  up_Status : option string;
  up_Config : option PipelineConfig;
  up_Tags : option (option (gmap string string))
}.

(* go: internal/api/handlers/pipeline.go type listPipelinesQuery *)
Record listPipelinesQuery := mkListPipelines {
  lq_Status : string;
  lq_Search : string;
  lq_Page : Z;
  lq_PerPage : Z
}.

(* go: internal/api/handlers/pipeline.go type executePipelineRequest *)
Record executePipelineRequest := mkExecutePipeline { xp_Input : string; xp_TriggeredBy : string }.

(** ** Answers *)

(** A pipeline in memory: the columns of its row, and the fields that no statement reads or
    writes. *)
Record api_pipeline := mkApiPipeline {
  ap_row : PipelineRow;
  ap_Config : PipelineConfig;
  ap_Tags : option (gmap string string)
}.

Definition zero_config : PipelineConfig := mkPipelineConfig 0 0 0 0 "" "" "" "" "" false "" 0 0 (f64_of_Z 0) "" ∅.
(** What [Get] scans into the zero value. *)
Definition scanned (r : PipelineRow) : api_pipeline := mkApiPipeline r zero_config None.

(* go: internal/models/pipeline.go type PipelineExecution *)
Record PipelineExecution := mkPipelineExecution {
  pe_ID : string;
  pe_PipelineID : string;
  pe_Status : string;
  pe_Input : string;
  pe_Output : string;
  pe_Error : string;
  pe_StartedAt : option Z;
  pe_CompletedAt : option Z;
  pe_DurationMS : Z;
  pe_RetryCount : Z;
  pe_TriggeredBy : string;
  pe_CreatedAt : Z
}.

Inductive payload : Type :=
| PPipeline (p : api_pipeline)
| PPipelines (l : list api_pipeline)
| PExecution (e : PipelineExecution)
| PTask (t : TaskExecution)
| PTasks (l : list TaskExecution).

Abbreviation answer := (reply payload).

(** ** Handlers for pipelines *)

Section handlers.
Context (uuid_Parse : string -> option string).
Implicit Type c : request_ids.

(** What [NewPipeline] makes, with the caller's description. *)
Definition new_row (id name description : string) (now : Z) : PipelineRow :=
  mkPipelineRow id name description "draft" "" 1 "00000000-0000-0000-0000-000000000001" now now.

(* go: internal/api/handlers/pipeline.go func Handler.CreatePipeline *)
Definition CreatePipeline (fail : option string) (newID : string) (now now' : Z) c (body : createPipelineRequest + string)
    (tbl : pipeline_table) : pipeline_table * answer :=
  match bindJSON c body with
  | inr err => (tbl, err)
  | inl req =>
      let config := if 0 <? MaxRetries (cp_Config req) then cp_Config req else DefaultPipelineConfig in
      match PipelineRepo.Create fail now' (new_row newID (cp_Name req) (cp_Description req) now) tbl with
      | (_, tbl', Some _) => (tbl', internalError c "Failed to create pipeline")
      | (r, tbl', None) => (tbl', created c (PPipeline (mkApiPipeline r config (cp_Tags req))))
      end
  end.

(** The answer to an error of [Get]. *)
Definition get_error c (what message : string) (err : PipelineRepoError) : answer :=
  match err with PipelineNotFound _ => notFound c what | _ => internalError c message end.

(* go: internal/api/handlers/pipeline.go func Handler.GetPipeline *)
Definition GetPipeline (fail : option string) c (id : string) (tbl : pipeline_table) : answer :=
  match uuid_Parse id with
  | None => badRequest c "Invalid pipeline ID"
  | Some key =>
      match Get fail key tbl with
      | inr err => get_error c "Pipeline not found" "Failed to get pipeline" err
      | inl r => success c (PPipeline (scanned r))
      end
  end.

(** The fields that are asked for; nothing for a status that is not valid. *)
Definition patch (req : updatePipelineRequest) (p : api_pipeline) : option api_pipeline :=
  let r := ap_row p in
  let status := default (pr_Status r) (up_Status req) in
  if match up_Status req with Some s => PipelineStatus_IsValid s | None => true end then
    Some (mkApiPipeline
      (mkPipelineRow (pr_ID r) (default (pr_Name r) (up_Name req)) (default (pr_Description r) (up_Description req)) status
         (pr_ConfigJSON r) (pr_Version r) (pr_CreatedBy r) (pr_CreatedAt r) (pr_UpdatedAt r))
      (default (ap_Config p) (up_Config req)) (default (ap_Tags p) (up_Tags req)))
  else None.

(** [tbl] is the table that [Get] reads, [tbl'] the one that [Update] finds. *)
(* go: internal/api/handlers/pipeline.go func Handler.UpdatePipeline *)
Definition UpdatePipeline (failGet failUpdate : option string) (now : Z) c (id : string) (body : updatePipelineRequest + string)
    (tbl tbl' : pipeline_table) : pipeline_table * answer :=
  match uuid_Parse id with
  | None => (tbl', badRequest c "Invalid pipeline ID")
  | Some key =>
      match bindJSON c body with
      | inr err => (tbl', err)
      | inl req =>
          match Get failGet key tbl with
          | inr err => (tbl', get_error c "Pipeline not found" "Failed to update pipeline" err)
          | inl r =>
              match patch req (scanned r) with
              | None => (tbl', badRequest c "Invalid pipeline status")
              | Some p =>
                  match PipelineRepo.Update failUpdate now (ap_row p) tbl' with
                  | (_, tbl'', Some (PipelineConflict _)) => (tbl'', conflict c "Pipeline was modified by another request")
                  | (_, tbl'', Some _) => (tbl'', internalError c "Failed to update pipeline")
                  | (r', tbl'', None) => (tbl'', success c (PPipeline (mkApiPipeline r' (ap_Config p) (ap_Tags p))))
                  end
              end
          end
      end
  end.

(* go: internal/api/handlers/pipeline.go func Handler.DeletePipeline *)
Definition DeletePipeline (fail : option string) c (id : string) (tbl : pipeline_table) : pipeline_table * answer :=
  match uuid_Parse id with
  | None => (tbl, badRequest c "Invalid pipeline ID")
  | Some key =>
      match Delete fail key tbl with
      | (tbl', Some (PipelineNotFound _)) => (tbl', notFound c "Pipeline not found")
      | (tbl', Some _) => (tbl', internalError c "Failed to delete pipeline")
      | (tbl', None) => (tbl', noContent c)
      end
  end.

(** [tbl] is the table that is listed, [tbl'] the one that is counted. *)
(* go: internal/api/handlers/pipeline.go func Handler.ListPipelines *)
Definition ListPipelines (failList failCount : option string) (ord : list string) c (query : listPipelinesQuery + string)
    (tbl tbl' : pipeline_table) : go_result answer Empty_set :=
  match bindQuery c query with
  | inr err => Ok err
  | inl q =>
      let page := page_number (lq_Page q) in
      let perPage := page_size 20 100 (lq_PerPage q) in
      let offset := int64 (int64 (page - 1) * perPage) in
      match PipelineRepo.List failList ord (PipelineRepo.mkPipelineFilter (lq_Status q) "" perPage offset) tbl with
      | inr _ => Ok (internalError c "Failed to list pipelines")
      | inl rows =>
          let total := match rows with
                       | [] => 0
                       | _ => match Count failCount (lq_Status q) tbl' with inl n => n | inr _ => 0 end
                       end in
          paginated c (PPipelines (scanned <$> rows)) page perPage total
      end
  end.

(** The execution is only answered: nothing is stored, published or run. *)
(* go: internal/api/handlers/pipeline.go func Handler.ExecutePipeline *)
Definition ExecutePipeline (fail : option string) (newID : string) (now : Z) c (id : string) (body : executePipelineRequest + string)
    (tbl : pipeline_table) : answer :=
  match uuid_Parse id with
  | None => badRequest c "Invalid pipeline ID"
  | Some key =>
      match bindJSON c body with
      | inr err => err
      | inl req =>
          match Get fail key tbl with
          | inr err => get_error c "Pipeline not found" "Failed to get pipeline" err
          | inl r =>
              let triggeredBy := if String.eqb (xp_TriggeredBy req) "" then "api"%string else xp_TriggeredBy req in
              success c (PExecution (mkPipelineExecution newID (pr_ID r) "active" (xp_Input req) "" "" None None 0 0 triggeredBy now))
          end
      end
  end.
End handlers.

(** ** Handlers for tasks *)

(** The query's texts and its two numbers, which [strconv.Atoi] reads: 0 for a text that is no
    number, the nearest number for one out of range. *)
Record listTasksQuery := mkListTasks {
  lt_PipelineID : string;
  lt_Status : string;
  lt_Page : Z;
  lt_PerPage : Z
}.

(* go: internal/api/handlers/pipeline.go func Handler.ListTasks *)
Definition ListTasks (fail : option string) (ord : list string) (c : request_ids) (q : listTasksQuery) (tbl : task_table) : answer :=
  let perPage := page_size 50 200 (lt_PerPage q) in
  let offset := int64 (int64 (lt_Page q - 1) * perPage) in
  match GetByPipeline fail ord (lt_PipelineID q) (mkTaskFilter (lt_PipelineID q) (lt_Status q) perPage offset) tbl with
  | inr _ => internalError c "Failed to list tasks"
  | inl tasks => success c (PTasks tasks)
  end.

Definition task_error (c : request_ids) (err : TaskRepoError) : answer :=
  match err with TaskNotFound _ => notFound c "Task not found" | _ => internalError c "Failed to get task" end.

(* go: internal/api/handlers/pipeline.go func Handler.GetTask *)
Definition GetTask (fail : option string) (c : request_ids) (id : string) (tbl : task_table) : answer :=
  match TaskRepo.GetByID fail id tbl with
  | inr err => task_error c err
  | inl t => success c (PTask t)
  end.

Definition with_status (status : string) (t : TaskExecution) : TaskExecution :=
  mkTaskExecution (te_ID t) (te_PipelineID t) (te_RunID t) status (te_InputData t) (te_OutputData t) (te_ErrorMessage t)
    (te_RetryCount t) (te_MaxRetries t) (te_ScheduledAt t) (te_StartedAt t) (te_CompletedAt t) (te_WorkerID t)
    (te_CreatedAt t) (te_UpdatedAt t).

(** [tbl] is read, [tbl'] is found by the update. *)
(* go: internal/api/handlers/pipeline.go func Handler.RetryTask *)
Definition RetryTask (failGet failRetry : option string) (now : Z) (c : request_ids) (id : string) (tbl tbl' : task_table)
    : task_table * answer :=
  match TaskRepo.GetByID failGet id tbl with
  | inr err => (tbl', task_error c err)
  | inl t =>
      match IncrementRetry failRetry now id "manual retry" tbl' with
      | (tbl'', Some _) => (tbl'', internalError c "Failed to retry task")
      | (tbl'', None) => (tbl'', success c (PTask (with_status TaskStatusPending t)))
      end
  end.

(* go: internal/api/handlers/pipeline.go func Handler.CancelTask *)
Definition CancelTask (failGet failUpdate : option string) (now : Z) (c : request_ids) (id : string) (tbl tbl' : task_table)
    : task_table * answer :=
  match TaskRepo.GetByID failGet id tbl with
  | inr err => (tbl', task_error c err)
  | inl t =>
      match TaskRepo.UpdateStatus failUpdate now id TaskStatusCancelled "cancelled by user" tbl' with
      | (tbl'', Some _) => (tbl'', internalError c "Failed to cancel task")
      | (tbl'', None) => (tbl'', noContent c)
      end
  end.

(** ** Updates *)

Section update.
Context (uuid_Parse : string -> option string).

(** The row after a successful update: what is asked for over what was read first. *)
Definition updated_row (req : updatePipelineRequest) (now : Z) (r r' : PipelineRow) : PipelineRow :=
  mkPipelineRow (pr_ID r') (default (pr_Name r) (up_Name req)) (default (pr_Description r) (up_Description req))
    (default (pr_Status r) (up_Status req)) (pr_ConfigJSON r) (pr_Version r' + 1) (pr_CreatedBy r') (pr_CreatedAt r') now.

(** Rows are stored under their identifiers. *)
Definition keyed (tbl : pipeline_table) : Prop := map_Forall (fun id r => pr_ID r = id) tbl.

Definition valid_request (req : updatePipelineRequest) : Prop :=
  match up_Status req with Some s => PipelineStatus_IsValid s = true | None => True end.

#[export] Instance valid_request_dec req : Decision (valid_request req).
Proof. unfold valid_request. destruct (up_Status req); apply _. Defined.

Lemma patch_spec req p :
  patch req p = None /\ ~ valid_request req
  \/ exists p', patch req p = Some p' /\ valid_request req
       /\ pr_ID (ap_row p') = pr_ID (ap_row p) /\ pr_Version (ap_row p') = pr_Version (ap_row p)
       /\ forall now r', updated_row req now (ap_row p) r' =
            mkPipelineRow (pr_ID r') (pr_Name (ap_row p')) (pr_Description (ap_row p')) (pr_Status (ap_row p'))
              (pr_ConfigJSON (ap_row p')) (pr_Version r' + 1) (pr_CreatedBy r') (pr_CreatedAt r') now.
Proof.
  unfold patch, valid_request. destruct (up_Status req) as [s|] eqn:Hs.
  - destruct (PipelineStatus_IsValid s); [right|by left]. eexists. split_and!; try done. intros now r'. unfold updated_row. by rewrite Hs.
  - right. eexists. split_and!; try done. intros now r'. unfold updated_row. by rewrite Hs.
Qed.

(** The conditions of an update: [r] is the row that is read, [r'] the one that is found later. *)
Definition update_accepted (failGet failUpdate : option string) (id : string) (body : updatePipelineRequest + string)
    (tbl tbl' : pipeline_table) (key : string) (req : updatePipelineRequest) (r r' : PipelineRow) : Prop :=
  uuid_Parse id = Some key /\ body = inl req /\ valid_request req /\ failGet = None /\ failUpdate = None
  /\ tbl !! key = Some r /\ tbl' !! key = Some r' /\ pr_Version r' = pr_Version r.

Lemma UpdatePipeline_accepted failGet failUpdate now c id body tbl tbl' key req r r' :
  keyed tbl -> update_accepted failGet failUpdate id body tbl tbl' key req r r' ->
  exists row,
    UpdatePipeline uuid_Parse failGet failUpdate now c id body tbl tbl' =
      (<[key := updated_row req now r r']> tbl',
       success c (PPipeline (mkApiPipeline row (default zero_config (up_Config req)) (default None (up_Tags req))))).
Proof.
  intros Hk (Hid & -> & Hv & -> & -> & Hr & Hr' & Hver). unfold UpdatePipeline, bindJSON, Get. rewrite Hid, Hr.
  destruct (patch_spec req (scanned r)) as [[_ ?]|(p & Hp & _ & Hid' & Hver' & Hrow)]; [done|].
  assert (ap_Config p = default zero_config (up_Config req) /\ ap_Tags p = default None (up_Tags req)) as [<- <-].
  { unfold patch in Hp. destruct (match up_Status req with Some s => _ | None => _ end); [|done]. by injection Hp as <-. }
  rewrite Hp. unfold Update. cbn [pr_ID pr_Version].
  rewrite Hid', Hver'. change (ap_row (scanned r)) with r. rewrite (Hk key r Hr), Hr', Hver, Z.eqb_refl.
  change (ap_row (scanned r)) with r in Hrow. eexists. rewrite (Hrow now r'), Hver. done.
Qed.

Lemma UpdatePipeline_refused failGet failUpdate now c id body tbl tbl' :
  keyed tbl -> (forall key req r r', ~ update_accepted failGet failUpdate id body tbl tbl' key req r r') ->
  let res := UpdatePipeline uuid_Parse failGet failUpdate now c id body tbl tbl' in
  res.1 = tbl' /\ res.2.1 ∈ [400; 404; 409; 500]
  /\ (res.2.1 = 409 -> exists key r, uuid_Parse id = Some key /\ tbl !! key = Some r
        /\ forall r', tbl' !! key = Some r' -> pr_Version r' <> pr_Version r).
Proof.
  intros Hk Hno res. unfold res, UpdatePipeline. clear res.
  destruct (uuid_Parse id) as [key|] eqn:Hid; [|split_and!; [done|simpl; set_solver|done]].
  unfold bindJSON. destruct body as [req|err]; [|split_and!; [done|simpl; set_solver|done]].
  unfold Get. destruct failGet as [e|]; [split_and!; [done|simpl; set_solver|done]|].
  destruct (tbl !! key) as [r|] eqn:Hr; [|split_and!; [done|simpl; set_solver|done]].
  destruct (patch_spec req (scanned r)) as [[-> _]|(p & Hp & Hv & Hid' & Hver & _)]; [split_and!; [done|simpl; set_solver|done]|].
  rewrite Hp. unfold Update. cbn [pr_ID pr_Version].
  rewrite Hid', Hver. change (ap_row (scanned r)) with r. rewrite (Hk key r Hr).
  destruct failUpdate as [e|]; [split_and!; [done|simpl; set_solver|done]|].
  destruct (tbl' !! key) as [r'|] eqn:Hr'.
  2: { split_and!; [done|simpl; set_solver|]. intros _. exists key, r. split_and!; try done. by rewrite Hr'. }
  destruct (Z.eqb_spec (pr_Version r') (pr_Version r)) as [Heq|Hne].
  { destruct (Hno key req r r'). by split_and!. }
  split_and!; [done|simpl; set_solver|]. intros _. exists key, r. split_and!; try done. rewrite Hr'. by intros ? [= <-].
Qed.

Lemma update_accepted_dec failGet failUpdate id body tbl tbl' :
  (exists key req r r', update_accepted failGet failUpdate id body tbl tbl' key req r r')
  \/ forall key req r r', ~ update_accepted failGet failUpdate id body tbl tbl' key req r r'.
Proof.
  unfold update_accepted. destruct (uuid_Parse id) as [key|]; [|right; naive_solver].
  destruct body as [req|]; [|right; naive_solver]. destruct failGet, failUpdate; try (right; naive_solver).
  destruct (decide (valid_request req)) as [Hv|Hv]; [|right; naive_solver].
  destruct (tbl !! key) as [r|] eqn:Hr; [|right; naive_solver].
  destruct (tbl' !! key) as [r'|] eqn:Hr'; [|right; naive_solver].
  destruct (decide (pr_Version r' = pr_Version r)); [left|right; naive_solver]. exists key, req, r, r'. by split_and!.
Qed.

(** C30: an update of a pipeline answers 200 exactly if the identifier, the body and the status asked
    for are valid, no statement fails, and the row still has the version that was read first;
    and then the row has the fields asked for, the others as they were read, and the next
    version.  In every other case the table is left as other clients have made it, and the
    answer is 400, 404, 409, only for a row that has changed or gone, or 500.  The
    configuration and the tags asked for make no difference to the table nor to the status of
    the answer, which repeats them as if they were stored. *)
Theorem UpdatePipeline_correct failGet failUpdate now c id body tbl tbl' :
  keyed tbl ->
  let res := UpdatePipeline uuid_Parse failGet failUpdate now c id body tbl tbl' in
  let accepted := update_accepted failGet failUpdate id body tbl tbl' in
  (res.2.1 = 200 <-> exists key req r r', accepted key req r r')
  /\ (forall key req r r', accepted key req r r' ->
        res.1 = <[key := updated_row req now r r']> tbl'
        /\ (exists row, rs_Data res.2.2 =
              Some (PPipeline (mkApiPipeline row (default zero_config (up_Config req)) (default None (up_Tags req)))))
        /\ forall config tags,
             let req' := mkUpdatePipeline (up_Name req) (up_Description req) (up_Status req) config tags in
             let res' := UpdatePipeline uuid_Parse failGet failUpdate now c id (inl req') tbl tbl' in
             res'.1 = res.1 /\ res'.2.1 = 200)
  /\ (res.2.1 <> 200 -> res.1 = tbl' /\ res.2.1 ∈ [400; 404; 409; 500])
  /\ (res.2.1 = 409 -> exists key r, uuid_Parse id = Some key /\ tbl !! key = Some r
        /\ forall r', tbl' !! key = Some r' -> pr_Version r' <> pr_Version r).
Proof.
  intros Hk res accepted.
  assert (forall key req r r', accepted key req r r' -> exists row,
    res = (<[key := updated_row req now r r']> tbl',
           success c (PPipeline (mkApiPipeline row (default zero_config (up_Config req)) (default None (up_Tags req)))))) as Hyes
    by (intros; by apply UpdatePipeline_accepted).
  split_and!.
  - split; [|intros (key & req & r & r' & Ha); by destruct (Hyes _ _ _ _ Ha) as [row ->]].
    intros H200. destruct (update_accepted_dec failGet failUpdate id body tbl tbl') as [|Hno]; [done|].
    destruct (UpdatePipeline_refused failGet failUpdate now c id body tbl tbl' Hk Hno) as (_ & Hin & _).
    fold res in Hin. rewrite H200 in Hin. set_solver.
  - intros key req r r' Ha. destruct (Hyes _ _ _ _ Ha) as [row ->]. split_and!; [done|by eexists|].
    intros config tags req' res'. destruct Ha as (Hid & _ & Hv & Hrest).
    destruct (UpdatePipeline_accepted failGet failUpdate now c id (inl req') tbl tbl' key req' r r' Hk) as [row' Heq];
      [split_and!; [done..|apply Hrest|apply Hrest|apply Hrest|apply Hrest|apply Hrest]|].
    unfold res'. by rewrite Heq.
  - intros H200. destruct (update_accepted_dec failGet failUpdate id body tbl tbl') as [(key & req & r & r' & Ha)|Hno].
    + destruct (Hyes _ _ _ _ Ha) as [row Heq]. by rewrite Heq in H200.
    + by destruct (UpdatePipeline_refused failGet failUpdate now c id body tbl tbl' Hk Hno) as (? & ? & _); split.
  - intros H409. destruct (update_accepted_dec failGet failUpdate id body tbl tbl') as [(key & req & r & r' & Ha)|Hno].
    + destruct (Hyes _ _ _ _ Ha) as [row Heq]. by rewrite Heq in H409.
    + by destruct (UpdatePipeline_refused failGet failUpdate now c id body tbl tbl' Hk Hno) as (_ & _ & H); apply H.
Qed.
End update.

(** A parser that takes canonical texts for themselves. *)
Definition canonical (id : string) : option string := if (String.length id =? 36)%nat then Some id else None.
Definition sample_id : string := "6ba7b810-9dad-11d1-80b4-00c04fd430c8".
Definition sample_row : PipelineRow := mkPipelineRow sample_id "etl" "" "draft" "{}" 4 "ops" 10 10.
Definition sample_ids : request_ids := mkRequestIds None "" "r-1".
Definition rename (name : string) : updatePipelineRequest := mkUpdatePipeline (Some name) None None None None.

(** Two clients read version 4; the first update passes, the second finds version 5. *)
Lemma UpdatePipeline_correct_witness :
  let tbl := {[sample_id := sample_row]} in
  let first := UpdatePipeline canonical None None 20 sample_ids sample_id (inl (rename "a")) tbl tbl in
  let second := UpdatePipeline canonical None None 30 sample_ids sample_id (inl (rename "b")) tbl first.1 in
  first.2.1 = 200 /\ second.2.1 = 409 /\ second.1 = first.1 /\ pr_Name <$> (first.1 !! sample_id) = Some "a"%string.
Proof.
  intros tbl first second.
  assert (keyed tbl) as Hk by (apply map_Forall_singleton; reflexivity).
  pose proof (UpdatePipeline_correct canonical None None 20 sample_ids sample_id (inl (rename "a")) tbl tbl Hk) as (H1 & _).
  pose proof (UpdatePipeline_correct canonical None None 30 sample_ids sample_id (inl (rename "b")) tbl first.1 Hk) as (_ & _ & H2 & _).
  split_and!; [|reflexivity| |reflexivity].
  - apply H1. exists sample_id, (rename "a"), sample_row, sample_row. split_and!; done.
  - apply H2. discriminate.
Defined.

(** ** Listing *)

Lemma omap_filter_length {A} (p : A -> bool) (m : gmap string A) ord :
  length (List.filter p (omap (fun id => m !! id) ord))
  = length (filter (fun id => from_option p false (m !! id) = true) ord).
Proof.
  induction ord as [|id ord IH]; [done|]. simpl. destruct (m !! id) as [x|] eqn:Hx; simpl.
  - destruct (p x) eqn:Hp; simpl; [rewrite filter_cons_True|rewrite filter_cons_False]; simpl; rewrite ?Hx; simpl; rewrite ?Hp, ?IH; auto.
  - rewrite filter_cons_False; [done|]. by rewrite Hx.
Qed.

(** The rows that a listing by status is taken from are those that are counted. *)
Lemma listing_count ord status limit offset tbl :
  status <> ""%string -> range_order tbl ord ->
  length (listing ord (PipelineRepo.mkPipelineFilter status "" limit offset) tbl) = size (filter (fun kv => pr_Status kv.2 = status) tbl).
Proof.
  intros Hs Hord. unfold listing. rewrite (Permutation_length (merge_sort_Permutation PipelineRepo.newer _)), omap_filter_length.
  rewrite <- size_dom. unfold size, set_size. simpl. apply Permutation_length, NoDup_Permutation.
  - apply NoDup_filter. by eapply range_order_NoDup.
  - apply NoDup_elements.
  - intros id. rewrite list_elem_of_filter, elem_of_elements, elem_of_dom, (range_order_elem tbl ord id Hord). split.
    + intros [Hp [r Hr]]. rewrite Hr in Hp. exists r. apply map_lookup_filter_Some. split; [done|].
      cbn [from_option] in Hp. unfold matches in Hp. cbn [pf_Status pf_CreatedBy] in Hp.
      destruct (String.eqb_spec status ""); [done|]. by destruct (String.eqb_spec (pr_Status r) status).
    + intros [r [Hr Hst]%map_lookup_filter_Some]. rewrite Hr. split; [|eauto]. simpl in Hst. cbn [from_option]. unfold matches.
      cbn [pf_Status pf_CreatedBy]. by rewrite Hst, String.eqb_refl, orb_true_r.
Qed.

(** Listing pipelines.  A page is at least the first and has from one to a hundred rows; it is
    that piece of the rows with the status asked for, newest first, and the text to search for
    makes no difference.  The total is the number of those rows only if a status is asked for
    and the page is not empty: without a status it counts the rows without a status, of which
    there are none, so that pages are listed and zero is reported.  Where the offset of the
    page overflows to a negative number the answer is 500. *)
Theorem ListPipelines_correct ord (c : request_ids) q tbl :
  range_order tbl ord ->
  let page := page_number (lq_Page q) in
  let perPage := page_size 20 100 (lq_PerPage q) in
  let rows := listing ord (PipelineRepo.mkPipelineFilter (lq_Status q) "" perPage 0) tbl in
  let piece := take (Z.to_nat perPage) (drop (Z.to_nat ((page - 1) * perPage)) rows) in
  1 <= page /\ 1 <= perPage <= 100
  /\ (forall search, ListPipelines None None ord c (inl (mkListPipelines (lq_Status q) search (lq_Page q) (lq_PerPage q))) tbl tbl
                     = ListPipelines None None ord c (inl q) tbl tbl)
  /\ (page <= max_int64 -> int64 ((page - 1) * perPage) < 0 ->
      ListPipelines None None ord c (inl q) tbl tbl = Ok (internalError c "Failed to list pipelines"))
  /\ ((page - 1) * perPage <= max_int64 ->
      exists total,
        ListPipelines None None ord c (inl q) tbl tbl =
          Ok (200, mkResponse true (Some (PPipelines (scanned <$> piece))) None
                     (Some (mkResponseMeta page perPage total (total_pages total perPage))) (reqID c))
        /\ (piece = [] -> total = 0)
        /\ (piece <> [] -> lq_Status q <> ""%string -> total = Z.of_nat (length rows))
        /\ (lq_Status q = ""%string -> map_Forall (fun _ r => pr_Status r <> ""%string) tbl -> total = 0)).
Proof.
  intros Hord page perPage rows piece.
  assert (1 <= page) as Hpage by (unfold page, page_number; destruct (Z.ltb_spec (lq_Page q) 1); lia).
  assert (1 <= perPage <= 100) as Hper.
  { unfold perPage, page_size. destruct (Z.ltb_spec (lq_PerPage q) 1), (Z.ltb_spec 100 (lq_PerPage q)); simpl; lia. }
  split_and!; [done|lia..|done| |].
  - intros Hmax Hneg. unfold ListPipelines, bindQuery. fold page perPage.
    rewrite (int64_small (page - 1)) by (unfold in_int64, min_int64, max_int64 in *; lia).
    unfold PipelineRepo.List. cbn [pf_Offset]. by rewrite (proj2 (Z.ltb_lt _ _) Hneg).
  - intros Hoff.
    assert (int64 (int64 (page - 1) * perPage) = (page - 1) * perPage) as Hi.
    { rewrite (int64_small (page - 1)) by (unfold in_int64, min_int64, max_int64 in *; nia).
      apply int64_small. unfold in_int64, min_int64, max_int64 in *. nia. }
    unfold ListPipelines, bindQuery. fold page perPage. rewrite Hi. unfold PipelineRepo.List. cbn [pf_Offset pf_Limit].
    rewrite (proj2 (Z.ltb_ge _ _)) by nia.
    replace (clamp_limit perPage) with perPage
      by (unfold clamp_limit; destruct (Z.leb_spec perPage 0), (Z.ltb_spec 500 perPage); lia).
    change (listing ord _ tbl) with rows. fold piece. unfold paginated. destruct (Z.eqb_spec perPage 0); [lia|].
    eexists. split; [done|]. split_and!.
    + by intros ->.
    + intros Hne Hs. destruct piece; [done|]. unfold Count. by rewrite <- (listing_count ord (lq_Status q) perPage 0 tbl Hs Hord).
    + intros Hs Hall. destruct piece; [done|]. unfold Count. rewrite Hs.
      rewrite (proj2 (map_empty_filter _ tbl)); [by rewrite map_size_empty|].
      intros id r Hr Heq. by apply (Hall id r Hr).
Qed.

Definition query (status : string) (page : Z) : listPipelinesQuery := mkListPipelines status "" page 10.

Lemma ListPipelines_correct_witness :
  let tbl := {[sample_id := sample_row]} in
  exists n m,
    ListPipelines None None [sample_id] sample_ids (inl (query "draft" 1)) tbl tbl =
      Ok (200, mkResponse true (Some (PPipelines [scanned sample_row])) None (Some (mkResponseMeta 1 10 n 1)) "r-1")
    /\ n = 1
    /\ ListPipelines None None [sample_id] sample_ids (inl (query "" 1)) tbl tbl =
         Ok (200, mkResponse true (Some (PPipelines [scanned sample_row])) None (Some (mkResponseMeta 1 10 m 0)) "r-1")
    /\ m = 0.
Proof.
  intros tbl. assert (range_order tbl [sample_id]) as Hord by apply (range_order_keys tbl).
  destruct (ListPipelines_correct [sample_id] sample_ids (query "draft" 1) tbl Hord) as (_ & _ & _ & _ & H1).
  destruct H1 as (n & Hn & _ & Hn1 & _); [discriminate|].
  destruct (ListPipelines_correct [sample_id] sample_ids (query "" 1) tbl Hord) as (_ & _ & _ & _ & H2).
  destruct H2 as (m & Hm & _ & _ & Hm0); [discriminate|].
  assert (n = 1) as -> by (apply Hn1; discriminate).
  assert (m = 0) as -> by (apply Hm0; [done|]; apply map_Forall_singleton; discriminate).
  exists 1, 0. split_and!; [exact Hn|done|exact Hm|done].
Defined.

(** ** Tasks *)

(** A retry and a cancellation look at no status.  A task that is stored is cancelled or counted
    as retried whatever its status, also a completed one; the answer to a retry says that it is
    pending, which is true of the stored task exactly while it has retries left. *)
Theorem task_calls_correct now (c : request_ids) id tbl tbl' t t' :
  tbl !! id = Some t -> tbl' !! id = Some t' ->
  (exists u, (RetryTask None None now c id tbl tbl').1 = <[id := u]> tbl'
     /\ te_RetryCount u = te_RetryCount t' + 1
     /\ exists v, (RetryTask None None now c id tbl tbl').2 = success c (PTask v) /\ te_Status v = TaskStatusPending
          /\ (te_Status u = te_Status v <-> te_RetryCount t' + 1 < te_MaxRetries t'))
  /\ (exists u, CancelTask None None now c id tbl tbl' = (<[id := u]> tbl', noContent c)
       /\ te_Status u = TaskStatusCancelled /\ te_CompletedAt u = te_CompletedAt t').
Proof.
  intros Ht Ht'. unfold RetryTask, CancelTask, TaskRepo.GetByID, IncrementRetry, TaskRepo.UpdateStatus, update_row.
  rewrite Ht, Ht'. split.
  - eexists. split; [done|]. split; [done|]. eexists. split_and!; [done|done|]. simpl.
    destruct (Z.leb_spec (te_MaxRetries t') (te_RetryCount t' + 1)); split; try done; lia.
  - eexists. split; [done|]. done.
Qed.

Definition done_task : TaskExecution :=
  mkTaskExecution "t-1" sample_id "r-1" "completed" None None "" 2 3 None (Some 10) (Some 20) "w-1" 5 20.

Lemma task_calls_correct_witness :
  let tbl := {["t-1" := done_task]} in
  (exists u, (RetryTask None None 30 sample_ids "t-1" tbl tbl).1 = <["t-1" := u]> tbl)
  /\ te_Status <$> ((RetryTask None None 30 sample_ids "t-1" tbl tbl).1 !! "t-1") = Some TaskStatusFailed
  /\ te_Status <$> ((CancelTask None None 30 sample_ids "t-1" tbl tbl).1 !! "t-1") = Some TaskStatusCancelled.
Proof.
  intros tbl. destruct (task_calls_correct 30 sample_ids "t-1" tbl tbl done_task done_task eq_refl eq_refl) as [(u & Hu & _) _].
  split_and!; [by exists u|reflexivity|reflexivity].
Defined.
