(* ===== verification/ApiWebhooks.v ===== *)
(** * Webhooks over HTTP: internal/api/handlers/webhook.go

    The handler keeps its own tables of webhooks and deliveries, apart from those of
    internal/webhook.  Each pointer is only held by its table, so that the tables hold the
    records themselves; the calls of one handler are taken one after the other, although
    nothing in the code makes them so.  The body and the query are what gin makes of them. *)

From S2P Require Import Prelude ApiResponse.

(** ** Data *)

(* go: internal/api/handlers/webhook.go type Webhook *)
Record Webhook := mkWebhook {
  aw_ID : string;
  aw_Name : string;
  aw_URL : string;
  aw_PipelineID : string;
  aw_Secret : string;
  aw_Events : list string;
  aw_Headers : option (gmap string string);
  aw_Active : bool;
  aw_CreatedAt : Z;
  aw_UpdatedAt : Z
}.

(* go: internal/api/handlers/webhook.go type WebhookDelivery *)
Record WebhookDelivery := mkWebhookDelivery {
  ad_ID : string;
  ad_WebhookID : string;
  ad_EventType : string;
  ad_URL : string;
  ad_Status : string;
  ad_StatusCode : Z;
  ad_RequestBody : string;
  ad_ResponseBody : string;
  ad_DurationMS : Z;
  ad_Attempt : Z;
  ad_MaxRetries : Z;
  ad_Error : string;
  ad_CreatedAt : Z
}.

(* go: internal/api/handlers/webhook.go type WebhookHandler *)
Record WebhookHandler := mkWebhookHandler {
  webhooks : gmap string Webhook;
  deliveries : gmap string (list WebhookDelivery)
}.

(* go: internal/api/handlers/webhook.go func NewWebhookHandler *)
Definition NewWebhookHandler : WebhookHandler := mkWebhookHandler ∅ ∅.

(* go: internal/api/handlers/webhook.go type registerWebhookRequest *)
Record registerWebhookRequest := mkRegisterWebhook {
  rw_Name : string;
  rw_URL : string;
  rw_PipelineID : string;
  rw_Secret : string;
  rw_Events : list string;
  rw_Headers : option (gmap string string)
}.

(* go: internal/api/handlers/webhook.go type updateWebhookRequest *)
Record updateWebhookRequest := mkUpdateWebhook {
  uw_Name : option string;
  uw_URL : option string;
  uw_Secret : option string;
  uw_Events : option (list string);
  uw_Headers : option (option (gmap string string));
  uw_Active : option bool
}.

(* go: internal/api/handlers/webhook.go type deliveryHistoryQuery *)
Record deliveryHistoryQuery := mkDeliveryHistory { dh_Page : Z; dh_PerPage : Z }.

(* go: internal/api/handlers/webhook.go type retryDeliveryResponse *)
Record retryDeliveryResponse := mkRetryDelivery {
  rd_DeliveryID : string;
  rd_Status : string;
  rd_RetriedAt : Z;
  rd_NewAttempt : Z
}.

Inductive payload : Type :=
| PWebhook (wh : Webhook)
| PWebhooks (l : list Webhook)
| PDeliveries (l : list WebhookDelivery)
| PRetry (r : retryDeliveryResponse).

Abbreviation answer := (reply payload).

(** ** Handlers *)

Implicit Types (c : request_ids) (h : WebhookHandler).

(* go: internal/api/handlers/webhook.go func WebhookHandler.Register *)
Definition Register (newID : string) (now : Z) c (body : registerWebhookRequest + string) h : WebhookHandler * answer :=
  match bindJSON c body with
  | inr err => (h, err)
  | inl req =>
      let wh := mkWebhook newID (rw_Name req) (rw_URL req) (rw_PipelineID req) (rw_Secret req) (rw_Events req)
                  (Some (default ∅ (rw_Headers req))) true now now in
      (mkWebhookHandler (<[newID := wh]> (webhooks h)) (<[newID := []]> (deliveries h)), created c (PWebhook wh))
  end.

(** [ord] is an order of the range over the table. *)
(* go: internal/api/handlers/webhook.go func WebhookHandler.List *)
Definition ListWebhooks (ord : list string) c h : answer := success c (PWebhooks (omap (fun id => webhooks h !! id) ord)).

(* go: internal/api/handlers/webhook.go func WebhookHandler.Get *)
Definition GetWebhook c (id : string) h : answer :=
  match webhooks h !! id with
  | None => notFound c "Webhook not found"
  | Some wh => success c (PWebhook wh)
  end.

(* go: internal/api/handlers/webhook.go func WebhookHandler.Update *)
Definition UpdateWebhook (now : Z) c (id : string) (body : updateWebhookRequest + string) h : WebhookHandler * answer :=
  match webhooks h !! id with
  | None => (h, notFound c "Webhook not found")
  | Some wh =>
      match bindJSON c body with
      | inr err => (h, err)
      | inl req =>
          let wh' := mkWebhook (aw_ID wh) (default (aw_Name wh) (uw_Name req)) (default (aw_URL wh) (uw_URL req)) (aw_PipelineID wh)
                       (default (aw_Secret wh) (uw_Secret req)) (default (aw_Events wh) (uw_Events req))
                       (default (aw_Headers wh) (uw_Headers req)) (default (aw_Active wh) (uw_Active req)) (aw_CreatedAt wh) now in
          (mkWebhookHandler (<[id := wh']> (webhooks h)) (deliveries h), success c (PWebhook wh'))
      end
  end.

(* go: internal/api/handlers/webhook.go func WebhookHandler.Delete *)
Definition DeleteWebhook c (id : string) h : WebhookHandler * answer :=
  match webhooks h !! id with
  | None => (h, notFound c "Webhook not found")
  | Some _ => (mkWebhookHandler (delete id (webhooks h)) (delete id (deliveries h)), noContent c)
  end.

(** The piece of a list between two indices, which panics outside it. *)
Definition slice {A} (l : list A) (i j : Z) : option (list A) :=
  if (0 <=? i) && (i <=? j) && (j <=? Z.of_nat (length l)) then Some (take (Z.to_nat (j - i)) (drop (Z.to_nat i) l)) else None.

(** The multiplication that finds the start of the page wraps around. *)
(* go: internal/api/handlers/webhook.go func WebhookHandler.DeliveryHistory *)
Definition DeliveryHistory c (id : string) (query : deliveryHistoryQuery + string) h : go_result answer Empty_set :=
  match webhooks h !! id with
  | None => Ok (notFound c "Webhook not found")
  | Some _ =>
      match bindQuery c query with
      | inr err => Ok err
      | inl q =>
          let page := page_number (dh_Page q) in
          let perPage := page_size 20 100 (dh_PerPage q) in
          let ds := default [] (deliveries h !! id) in
          let total := Z.of_nat (length ds) in
          let start := int64 (int64 (page - 1) * perPage) in
          if total <=? start then paginated c (PDeliveries []) page perPage total
          else
            match slice ds start (Z.min (int64 (start + perPage)) total) with
            | None => Panic
            | Some l => paginated c (PDeliveries l) page perPage total
            end
      end
  end.

(** The first delivery with the identifier, as it is after the retry, and the list. *)
Fixpoint mark_retrying (deliveryID : string) (l : list WebhookDelivery) : option (WebhookDelivery * list WebhookDelivery) :=
  match l with
  | [] => None
  | d :: l =>
      if String.eqb (ad_ID d) deliveryID then
        let d' := mkWebhookDelivery (ad_ID d) (ad_WebhookID d) (ad_EventType d) (ad_URL d) "retrying" (ad_StatusCode d)
                    (ad_RequestBody d) (ad_ResponseBody d) (ad_DurationMS d) (int64 (ad_Attempt d + 1)) (ad_MaxRetries d) ""
                    (ad_CreatedAt d) in
        Some (d', d' :: l)
      else match mark_retrying deliveryID l with Some (d', l') => Some (d', d :: l') | None => None end
  end.

(* go: internal/api/handlers/webhook.go func WebhookHandler.RetryDelivery *)
Definition RetryDelivery (now : Z) c (id deliveryID : string) h : WebhookHandler * answer :=
  match webhooks h !! id with
  | None => (h, notFound c "Webhook not found")
  | Some _ =>
      match deliveries h !! id with
      | None => (h, notFound c "No deliveries found for this webhook")
      | Some l =>
          match mark_retrying deliveryID l with
          | None => (h, notFound c "Delivery not found")
          | Some (d, l') =>
              (mkWebhookHandler (webhooks h) (<[id := l']> (deliveries h)),
               success c (PRetry (mkRetryDelivery deliveryID "retrying" now (ad_Attempt d))))
          end
      end
  end.

(** ** Runs *)

Inductive webhook_call : Type :=
| CallRegister (newID : string) (now : Z) (body : registerWebhookRequest + string)
| CallUpdate (now : Z) (id : string) (body : updateWebhookRequest + string)
| CallDelete (id : string)
| CallRetry (now : Z) (id deliveryID : string).

Definition webhook_step c (x : webhook_call) h : WebhookHandler :=
  match x with
  | CallRegister newID now body => (Register newID now c body h).1
  | CallUpdate now id body => (UpdateWebhook now c id body h).1
  | CallDelete id => (DeleteWebhook c id h).1
  | CallRetry now id deliveryID => (RetryDelivery now c id deliveryID h).1
  end.
Definition webhook_run c (l : list webhook_call) : WebhookHandler := foldl (fun h x => webhook_step c x h) NewWebhookHandler l.

(** Webhooks are stored under their identifiers, each with a list of deliveries, which is
    empty. *)
Definition handler_inv h : Prop :=
  map_Forall (fun id wh => aw_ID wh = id) (webhooks h)
  /\ forall id, deliveries h !! id = (fun _ => []) <$> (webhooks h !! id).

Lemma webhook_step_inv c x h : handler_inv h -> handler_inv (webhook_step c x h).
Proof.
  intros [Hid Hd]. destruct x as [newID now [req|]|now id body|id|now id deliveryID]; simpl; try done.
  - split; simpl; [by apply map_Forall_insert_2|]. intros id.
    destruct (decide (newID = id)) as [->|Hne]; [by rewrite !lookup_insert_eq|]. by rewrite !lookup_insert_ne.
  - unfold UpdateWebhook. destruct (webhooks h !! id) as [wh|] eqn:Hw; [|done]. destruct body as [req|]; [|done].
    split; simpl; [apply map_Forall_insert_2; [exact (Hid id wh Hw)|exact Hid]|]. intros id'.
    destruct (decide (id = id')) as [<-|Hne]; [by rewrite lookup_insert_eq, Hd, Hw|]. by rewrite lookup_insert_ne.
  - unfold DeleteWebhook. destruct (webhooks h !! id) as [wh|]; [|done]. split; simpl; [by apply map_Forall_delete|].
    intros id'. destruct (decide (id = id')) as [<-|Hne]; [by rewrite !lookup_delete_eq|]. by rewrite !lookup_delete_ne.
  - unfold RetryDelivery. destruct (webhooks h !! id) as [wh|] eqn:Hw; [|done].
    rewrite Hd, Hw. by split.
Qed.

Lemma webhook_run_inv c l : handler_inv (webhook_run c l).
Proof.
  unfold webhook_run. induction l as [|x l IH] using rev_ind; [done|].
  rewrite foldl_app. by apply webhook_step_inv.
Qed.

(** Nothing ever enters the deliveries of the handler.  After any calls a delivery that is to be
    retried is not found, whatever its identifier and the webhook's; the history of a webhook
    that is registered is an empty page with total zero, unless the start of the page
    overflows to a negative number, where the call panics. *)
Theorem webhook_deliveries_empty c l now id deliveryID q :
  let h := webhook_run c l in
  let start := int64 (int64 (page_number (dh_Page q) - 1) * page_size 20 100 (dh_PerPage q)) in
  (RetryDelivery now c id deliveryID h).2.1 = 404 /\ (RetryDelivery now c id deliveryID h).1 = h
  /\ match webhooks h !! id with
     | None => DeliveryHistory c id (inl q) h = Ok (notFound c "Webhook not found")
     | Some _ =>
         DeliveryHistory c id (inl q) h =
           if start <? 0 then Panic
           else Ok (200, mkResponse true (Some (PDeliveries [])) None
                           (Some (mkResponseMeta (page_number (dh_Page q)) (page_size 20 100 (dh_PerPage q)) 0 0)) (reqID c))
     end.
Proof.
  intros h start. destruct (webhook_run_inv c l) as [_ Hd]. fold h in Hd. specialize (Hd id).
  unfold RetryDelivery, DeliveryHistory. destruct (webhooks h !! id) as [wh|]; [|done]. rewrite Hd. simpl.
  split_and!; [done..|]. fold start. change (Z.of_nat 0) with 0.
  assert (1 <= page_size 20 100 (dh_PerPage q) <= 100) as Hper.
  { unfold page_size. destruct (Z.ltb_spec (dh_PerPage q) 1), (Z.ltb_spec 100 (dh_PerPage q)); simpl; lia. }
  destruct (Z.leb_spec 0 start), (Z.ltb_spec start 0); try lia.
  - unfold paginated. destruct (Z.eqb_spec (page_size 20 100 (dh_PerPage q)) 0); [lia|].
    assert (total_pages 0 (page_size 20 100 (dh_PerPage q)) = 0) as Htp; [|by rewrite Htp].
    unfold total_pages. change (int64 0) with 0. by rewrite Z.quot_0_l, Z.rem_0_l by lia.
  - unfold slice. by rewrite (proj2 (Z.leb_gt 0 start)).
Qed.

(** A page number that overflows. *)
Example huge_page :
  let h := webhook_run (mkRequestIds None "" "r") [CallRegister "w" 1 (inl (mkRegisterWebhook "n" "http://a.b" "p" "s" ["e"] None))] in
  DeliveryHistory (mkRequestIds None "" "r") "w" (inl (mkDeliveryHistory (2 ^ 62) 20)) h = Panic.
Proof. reflexivity. Qed.
