(* ===== verification/RateLimit.v ===== *)
(** * Token buckets: internal/api/middleware/ratelimit.go

    The buckets of the global, per-address and per-user limits, with their float64
    tokens, and the four request handlers.  A handler is a function of the limiter, the
    request's address and user and the clock, to the new limiter and the response.  The
    bucket that a handler looks up is the one it changes in place. *)

From S2P Require Import Prelude GoFloat.

(** ** Data *)

(* go: internal/api/middleware/ratelimit.go type tokenBucket *)
Record tokenBucket := mkBucket {
  tokens : float64;
  lastRefill : Z;
  rate : float64;
  burst : Z
}.

(* go: internal/api/middleware/ratelimit.go type RateLimiter *)
Record RateLimiter := mkRateLimiter {
  ipBuckets : gmap string tokenBucket;
  userBuckets : gmap string tokenBucket;
  globalRate : float64;
  globalBurst : Z;
  ipRate : float64;
  ipBurst : Z;
  userRate : float64;
  userBurst : Z;
  cleanupInterval : Z;
  lastCleanup : Z
}.

(* go: internal/api/middleware/ratelimit.go type RateLimiterConfig *)
Record RateLimiterConfig := mkRateLimiterConfig {
  GlobalRate : float64;
  GlobalBurst : Z;
  IPRate : float64;
  IPBurst : Z;
  UserRate : float64;
  UserBurst : Z;
  CleanupInterval : Z
}.

(** A request passes on, or is answered with status 429. *)
Inductive response : Type :=
| Next
| TooManyRequests (message : string) (retry_after : float64).

(** [x == 0] for a float: both zeros. *)
Definition f64_is_zero (f : float64) : bool := match f with S754_zero _ => true | _ => false end.
Definition f64_or (f : float64) (d : Z) : float64 := if f64_is_zero f then f64_of_Z d else f.
Definition int_or (z d : Z) : Z := if z =? 0 then d else z.

(* go: internal/api/middleware/ratelimit.go func NewRateLimiter *)
Definition NewRateLimiter (now : Z) (c : RateLimiterConfig) : RateLimiter :=
  mkRateLimiter ∅ ∅ (f64_or (GlobalRate c) 1000) (int_or (GlobalBurst c) 1500)
    (f64_or (IPRate c) 10) (int_or (IPBurst c) 20)
    (f64_or (UserRate c) 100) (int_or (UserBurst c) 200)
    (int_or (CleanupInterval c) (5 * Minute)) now.

Definition with_ip (rl : RateLimiter) (m : gmap string tokenBucket) : RateLimiter :=
  mkRateLimiter m (userBuckets rl) (globalRate rl) (globalBurst rl) (ipRate rl) (ipBurst rl)
    (userRate rl) (userBurst rl) (cleanupInterval rl) (lastCleanup rl).
Definition with_user (rl : RateLimiter) (m : gmap string tokenBucket) : RateLimiter :=
  mkRateLimiter (ipBuckets rl) m (globalRate rl) (globalBurst rl) (ipRate rl) (ipBurst rl)
    (userRate rl) (userBurst rl) (cleanupInterval rl) (lastCleanup rl).

(** ** Buckets *)

(* go: internal/api/middleware/ratelimit.go func RateLimiter.refillBucket *)
Definition refillBucket (now : Z) (b : tokenBucket) : tokenBucket :=
  let elapsed := Seconds (time_Sub now (lastRefill b)) in
  let tokensToAdd := f64_mul elapsed (rate b) in
  let t := f64_add (tokens b) tokensToAdd in
  mkBucket (if f64_lt (f64_of_Z (burst b)) t then f64_of_Z (burst b) else t) now (rate b) (burst b).

(* go: internal/api/middleware/ratelimit.go func RateLimiter.retryAfter *)
Definition retryAfter (b : tokenBucket) : float64 :=
  let needed := f64_sub (f64_of_Z 1) (tokens b) in
  if f64_le needed (f64_of_Z 0) then f64_of_Z 0 else f64_div needed (rate b).

(** The body shared by the handlers: refill, refuse below one token, or take one. *)
(* go: internal/api/middleware/ratelimit.go @107-116 RateLimiter.IPRateLimit *)
Definition take (now : Z) (message : string) (b : tokenBucket) : tokenBucket * response :=
  let b1 := refillBucket now b in
  if f64_lt (tokens b1) (f64_of_Z 1) then (b1, TooManyRequests message (retryAfter b1))
  else (mkBucket (f64_sub (tokens b1) (f64_of_Z 1)) (lastRefill b1) (rate b1) (burst b1), Next).

(* go: internal/api/middleware/ratelimit.go func RateLimiter.getOrCreateIPBucket *)
Definition getOrCreateIPBucket (now : Z) (rl : RateLimiter) (ip : string) : RateLimiter * tokenBucket :=
  match ipBuckets rl !! ip with
  | Some b => (rl, b)
  | None => let b := mkBucket (f64_of_Z (ipBurst rl)) now (ipRate rl) (ipBurst rl) in
            (with_ip rl (<[ip := b]> (ipBuckets rl)), b)
  end.

(* go: internal/api/middleware/ratelimit.go func RateLimiter.getOrCreateUserBucket *)
Definition getOrCreateUserBucket (now : Z) (rl : RateLimiter) (userID : string) : RateLimiter * tokenBucket :=
  match userBuckets rl !! userID with
  | Some b => (rl, b)
  | None => let b := mkBucket (f64_of_Z (userBurst rl)) now (userRate rl) (userBurst rl) in
            (with_user rl (<[userID := b]> (userBuckets rl)), b)
  end.

(** The idle buckets of one table, last used before [threshold], are dropped. *)
Definition drop_idle (threshold : Z) (m : gmap string tokenBucket) : gmap string tokenBucket :=
  filter (fun kv => ~ lastRefill kv.2 < threshold) m.

(* go: internal/api/middleware/ratelimit.go func RateLimiter.performCleanup *)
Definition performCleanup (now : Z) (rl : RateLimiter) : RateLimiter :=
  if time_Sub now (lastCleanup rl) <? cleanupInterval rl then rl
  else
    let threshold := now + int64 (-2 * cleanupInterval rl) in
    mkRateLimiter (drop_idle threshold (ipBuckets rl)) (drop_idle threshold (userBuckets rl))
      (globalRate rl) (globalBurst rl) (ipRate rl) (ipBurst rl) (userRate rl) (userBurst rl)
      (cleanupInterval rl) now.

(** ** Handlers *)

(** The bucket created when the handler is built; its clock starts at the zero time. *)
(* go: internal/api/middleware/ratelimit.go @80-84 RateLimiter.GlobalRateLimit *)
Definition globalBucket (rl : RateLimiter) : tokenBucket :=
  mkBucket (f64_of_Z (globalBurst rl)) 0 (globalRate rl) (globalBurst rl).

(* go: internal/api/middleware/ratelimit.go func RateLimiter.GlobalRateLimit *)
Definition GlobalRateLimit (now : Z) (g : tokenBucket) : tokenBucket * response :=
  take now "global rate limit exceeded" g.

(* go: internal/api/middleware/ratelimit.go func RateLimiter.IPRateLimit *)
Definition IPRateLimit (now : Z) (ip : string) (rl : RateLimiter) : RateLimiter * response :=
  let rl1 := performCleanup now rl in
  let '(rl2, bucket) := getOrCreateIPBucket now rl1 ip in
  let '(bucket', r) := take now "rate limit exceeded for this IP" bucket in
  (with_ip rl2 (<[ip := bucket']> (ipBuckets rl2)), r).

(** [userID] is empty for a request that is not authenticated. *)
(* go: internal/api/middleware/ratelimit.go func RateLimiter.UserRateLimit *)
Definition UserRateLimit (now : Z) (userID : string) (rl : RateLimiter) : RateLimiter * response :=
  let rl1 := performCleanup now rl in
  if bool_decide (userID = "") then (rl1, Next)
  else
    let '(rl2, bucket) := getOrCreateUserBucket now rl1 userID in
    let '(bucket', r) := take now "rate limit exceeded for this user" bucket in
    (with_user rl2 (<[userID := bucket']> (userBuckets rl2)), r).

(* go: internal/api/middleware/ratelimit.go func RateLimiter.RateLimit *)
Definition RateLimit (now : Z) (ip userID : string) (st : RateLimiter * tokenBucket)
  : RateLimiter * tokenBucket * response :=
  let '(rl, g) := st in
  let rl1 := performCleanup now rl in
  match take now "global rate limit exceeded" g with
  | (g', TooManyRequests m a) => (rl1, g', TooManyRequests m a)
  | (g', Next) =>
      let '(rl2, ipBucket) := getOrCreateIPBucket now rl1 ip in
      match take now "IP rate limit exceeded" ipBucket with
      | (ipBucket', TooManyRequests m a) =>
          (with_ip rl2 (<[ip := ipBucket']> (ipBuckets rl2)), g', TooManyRequests m a)
      | (ipBucket', Next) =>
          let rl3 := with_ip rl2 (<[ip := ipBucket']> (ipBuckets rl2)) in
          if bool_decide (userID = "") then (rl3, g', Next)
          else
            let '(rl4, userBucket) := getOrCreateUserBucket now rl3 userID in
            let '(userBucket', r) := take now "user rate limit exceeded" userBucket in
            (with_user rl4 (<[userID := userBucket']> (userBuckets rl4)), g', r)
      end
  end.

(** ** Administration *)

(* go: internal/api/middleware/ratelimit.go func RateLimiter.ResetIPBucket *)
Definition ResetIPBucket (ip : string) (rl : RateLimiter) : RateLimiter := with_ip rl (delete ip (ipBuckets rl)).

(* go: internal/api/middleware/ratelimit.go func RateLimiter.ResetUserBucket *)
Definition ResetUserBucket (userID : string) (rl : RateLimiter) : RateLimiter :=
  with_user rl (delete userID (userBuckets rl)).

(* go: internal/api/middleware/ratelimit.go func RateLimiter.GetIPBucketState *)
Definition GetIPBucketState (ip : string) (rl : RateLimiter) : float64 * float64 * Z :=
  match ipBuckets rl !! ip with
  | None => (f64_of_Z (ipBurst rl), ipRate rl, ipBurst rl)
  | Some b => (tokens b, rate b, burst b)
  end.

(* go: internal/api/middleware/ratelimit.go func RateLimiter.GetUserBucketState *)
Definition GetUserBucketState (userID : string) (rl : RateLimiter) : float64 * float64 * Z :=
  match userBuckets rl !! userID with
  | None => (f64_of_Z (userBurst rl), userRate rl, userBurst rl)
  | Some b => (tokens b, rate b, burst b)
  end.

(** ** Whole numbers of tokens *)

(** Comparing whole numbers up to 200, subtracting one and adding zero are exact. *)
Definition whole_numbers (n : Z) : list (Z * float64) := (fun k => (k, f64_of_Z k)) <$> seqZ 0 (n + 1).

Lemma forallb_whole (f : Z * float64 -> bool) n k :
  forallb f (whole_numbers n) = true -> 0 <= k <= n -> f (k, f64_of_Z k) = true.
Proof.
  intros Hf Hk. rewrite forallb_forall in Hf. apply Hf, list_elem_of_In, list_elem_of_fmap.
  exists k. split; [done|]. apply elem_of_seqZ. lia.
Qed.

Definition lt_exact (b : Z * float64) : bool :=
  forallb (fun k => Bool.eqb (f64_lt b.2 k.2) (b.1 <? k.1)) (whole_numbers 200).
Definition add_exact (k : Z * float64) : bool := bool_decide (f64_add k.2 (S754_zero false) = k.2).
Definition sub_exact (k : Z * float64) : bool :=
  (k.1 <? 1) || bool_decide (f64_sub k.2 (f64_of_Z 1) = f64_of_Z (k.1 - 1)).

Lemma lt_exact_200 : forallb lt_exact (whole_numbers 200) = true.
Proof. vm_compute. reflexivity. Qed.

Lemma add_exact_200 : forallb add_exact (whole_numbers 200) = true.
Proof. vm_compute. reflexivity. Qed.

Lemma sub_exact_200 : forallb sub_exact (whole_numbers 200) = true.
Proof. vm_compute. reflexivity. Qed.

Lemma small_lt b k : 0 <= b <= 200 -> 0 <= k <= 200 -> f64_lt (f64_of_Z b) (f64_of_Z k) = (b <? k).
Proof.
  intros Hb Hk. pose proof (forallb_whole lt_exact 200 b lt_exact_200 Hb) as He. unfold lt_exact in He.
  apply Bool.eqb_prop. exact (forallb_whole _ 200 k He Hk).
Qed.

Lemma small_sub k : 1 <= k <= 200 -> f64_sub (f64_of_Z k) (f64_of_Z 1) = f64_of_Z (k - 1).
Proof.
  intros Hk. pose proof (forallb_whole sub_exact 200 k sub_exact_200 ltac:(lia)) as He.
  unfold sub_exact in He. cbn [fst snd] in He.
  destruct (Z.ltb_spec k 1); [lia|]. exact (bool_decide_eq_true_1 _ He).
Qed.

Lemma add_no_tokens k : 0 <= k <= 200 -> f64_add (f64_of_Z k) (S754_zero false) = f64_of_Z k.
Proof.
  intros Hk. pose proof (forallb_whole add_exact 200 k add_exact_200 Hk) as He.
  exact (bool_decide_eq_true_1 _ He).
Qed.

(** A finite rate above zero. *)
Definition positive_rate (f : float64) : Prop := match f with S754_finite false _ _ => True | _ => False end.

Lemma no_time_no_tokens f : positive_rate f -> f64_mul (Seconds 0) f = S754_zero false.
Proof. destruct f as [| | |[] m e]; intros []. vm_compute. reflexivity. Qed.

(** A bucket that holds [k] whole tokens and was refilled at [now]. *)
Definition holds (b : tokenBucket) (now k : Z) : Prop :=
  tokens b = f64_of_Z k /\ lastRefill b = now /\ positive_rate (rate b) /\ 0 <= k <= burst b /\ burst b <= 200.

Lemma refill_same_instant now b k : holds b now k -> refillBucket now b = b.
Proof.
  intros (Ht & Hl & Hr & Hk & Hb). unfold refillBucket. rewrite Ht, Hl.
  assert (time_Sub now now = 0) as Hz by (unfold time_Sub, min_int64, max_int64; lia).
  rewrite Hz, no_time_no_tokens, add_no_tokens, small_lt by (done || lia).
  destruct (Z.ltb_spec (burst b) k); [lia|]. destruct b; simpl in *; congruence.
Qed.

Lemma take_same_instant now msg b k : holds b now k ->
  (1 <= k -> (take now msg b).2 = Next /\ holds (take now msg b).1 now (k - 1)
             /\ rate (take now msg b).1 = rate b /\ burst (take now msg b).1 = burst b)
  /\ (k = 0 -> take now msg b = (b, TooManyRequests msg (retryAfter b))).
Proof.
  intros Hh. pose proof (refill_same_instant now b k Hh) as Hf. pose proof Hh as (Ht & Hl & Hr & Hk & Hb).
  unfold take. rewrite Hf, Ht, small_lt by lia. split.
  - intros Hk1. destruct (Z.ltb_spec k 1); [lia|]. simpl. split_and!; [done| |done|done].
    unfold holds; simpl. rewrite small_sub by lia. split_and!; [done|done|done|lia|lia|lia].
  - intros ->. done.
Qed.

(** ** Bursts *)

(** [n] requests of one address at the instant [now]: the responses. *)
Fixpoint ip_requests (n : nat) (now : Z) (ip : string) (rl : RateLimiter) : list bool :=
  match n with
  | O => []
  | S n' => let '(rl', r) := IPRateLimit now ip rl in
            (match r with Next => true | _ => false end) :: ip_requests n' now ip rl'
  end.

(** The limiter just after a cleanup (or within the interval). *)
Definition quiet (now : Z) (rl : RateLimiter) : Prop := time_Sub now (lastCleanup rl) < cleanupInterval rl.

Lemma performCleanup_quiet now rl : quiet now rl -> performCleanup now rl = rl.
Proof. intros Hq. unfold performCleanup. by apply Z.ltb_lt in Hq as ->. Qed.

Lemma IPRateLimit_bucket now ip rl b :
  quiet now rl -> ipBuckets rl !! ip = Some b ->
  IPRateLimit now ip rl
    = (with_ip rl (<[ip := (take now "rate limit exceeded for this IP" b).1]> (ipBuckets rl)),
       (take now "rate limit exceeded for this IP" b).2).
Proof.
  intros Hq Hb. unfold IPRateLimit. rewrite performCleanup_quiet by done. unfold getOrCreateIPBucket.
  rewrite Hb. by destruct (take _ _ _).
Qed.

Lemma ip_requests_bucket n : forall now ip rl b k,
  quiet now rl -> ipBuckets rl !! ip = Some b -> holds b now k ->
  ip_requests n now ip rl = (fun i => bool_decide (Z.of_nat i < k)) <$> seq 0 n.
Proof.
  induction n as [|n IH]; intros now ip rl b k Hq Hb Hh; [done|].
  cbn [ip_requests]. rewrite (IPRateLimit_bucket now ip rl b) by done.
  destruct (take_same_instant now "rate limit exceeded for this IP" b k Hh) as [Hpos Hzero].
  pose proof Hh as (_ & _ & _ & Hk & _).
  rewrite <- cons_seq, fmap_cons, <- fmap_S_seq, <- list_fmap_compose.
  destruct (Z.eq_dec k 0) as [->|Hne].
  - rewrite Hzero by done. simpl. f_equal.
    rewrite (IH now ip _ b 0); [|done|simpl; apply lookup_insert_eq|done].
    apply list_fmap_ext. intros ? i _. simpl. by rewrite !bool_decide_eq_false_2 by lia.
  - destruct Hpos as (-> & Hh' & _); [lia|]. apply (f_equal2 cons); [by rewrite bool_decide_eq_true_2 by lia|].
    rewrite (IH now ip _ (take now "rate limit exceeded for this IP" b).1 (k - 1)); [|done|simpl; apply lookup_insert_eq|done].
    apply list_fmap_ext. intros ? i _. simpl. apply bool_decide_ext. lia.
Qed.

(** ** Properties *)


Definition default_limiter : RateLimiter :=
  NewRateLimiter 1000 (mkRateLimiterConfig (f64_of_Z 0) 0 (f64_of_Z 0) 0 (f64_of_Z 0) 0 0).


(** The cleanup drops exactly the buckets that no request has touched for two cleanup
    intervals, leaves every other bucket as it is, and does nothing when less than one
    interval has passed since the last one. *)
Theorem performCleanup_correct (now : Z) (rl : RateLimiter) (ip : string) (b : tokenBucket)
  (Hb : ipBuckets rl !! ip = Some b) (Hi : 0 <= 2 * cleanupInterval rl <= max_int64) :
  (time_Sub now (lastCleanup rl) < cleanupInterval rl -> performCleanup now rl = rl)
  /\ (cleanupInterval rl <= time_Sub now (lastCleanup rl) ->
        lastCleanup (performCleanup now rl) = now
        /\ ipBuckets (performCleanup now rl) !! ip
             = if now - lastRefill b <=? 2 * cleanupInterval rl then Some b else None).
Proof.
  unfold performCleanup. split.
  - intros Hlt. by apply Z.ltb_lt in Hlt as ->.
  - intros Hge. apply Z.ltb_ge in Hge as ->. simpl. split; [done|]. unfold drop_idle.
    rewrite map_lookup_filter, Hb. simpl.
    rewrite int64_small by (unfold in_int64, min_int64, max_int64 in *; lia).
    destruct (Z.leb_spec (now - lastRefill b) (2 * cleanupInterval rl)).
    + rewrite option_guard_True; [done|lia].
    + rewrite option_guard_False; [done|lia].
Qed.

Definition idle_bucket : tokenBucket := mkBucket (f64_of_Z 3) 5 (f64_of_Z 10) 20.
Definition used_limiter : RateLimiter := with_ip default_limiter {["10.0.0.9" := idle_bucket]}.

Lemma performCleanup_correct_witness :
  (time_Sub (20 * Minute) (lastCleanup used_limiter) < cleanupInterval used_limiter ->
     performCleanup (20 * Minute) used_limiter = used_limiter)
  /\ (cleanupInterval used_limiter <= time_Sub (20 * Minute) (lastCleanup used_limiter) ->
        lastCleanup (performCleanup (20 * Minute) used_limiter) = 20 * Minute
        /\ ipBuckets (performCleanup (20 * Minute) used_limiter) !! "10.0.0.9"
             = if 20 * Minute - lastRefill idle_bucket <=? 2 * cleanupInterval used_limiter
               then Some idle_bucket else None).
Proof.
  apply (performCleanup_correct (20 * Minute) used_limiter "10.0.0.9" idle_bucket); [reflexivity|].
  vm_compute. split; discriminate.
Defined.
