(* ===== verification/ApiMiddleware.v ===== *)
(** * The request middleware of the API server: internal/api/middleware.go

    The visitor table of the rate limiter and the middlewares that look at the request:
    each is a function of the request's context to a new context or an abort with its
    status.  The logger and the cross-origin middleware are in [ApiCors]. *)

From S2P Require Import Prelude.

(** ** The context of a request *)

(** What the middlewares store under a key of the context. *)
Inductive ctxval : Type :=
| CtxString (s : string)
| CtxStrings (l : list string)
| CtxOther (code : Z).

Record Context := mkContext {
  Method : string;
  headers : gmap string string;
  keys_ : gmap string ctxval;
  respHeaders : gmap string string
}.

Inductive outcome_mw : Type :=
| Continue (c : Context)
| Abort (status : Z) (message : string) (c : Context).

(** [c.GetHeader] is empty for a missing header. *)
Definition GetHeader (c : Context) (k : string) : string := default "" (headers c !! k).
Definition ctx_Set (k : string) (v : ctxval) (c : Context) : Context :=
  mkContext (Method c) (headers c) (<[k := v]> (keys_ c)) (respHeaders c).
Definition ctx_Header (k v : string) (c : Context) : Context :=
  mkContext (Method c) (headers c) (keys_ c) (<[k := v]> (respHeaders c)).

(** [newID] is the identifier drawn when the request has none. *)
(* go: internal/api/middleware.go func requestIDMiddleware *)
Definition requestIDMiddleware (newID : string) (c : Context) : outcome_mw :=
  let h := GetHeader c "X-Request-ID" in
  let requestID := if bool_decide (h = "") then newID else h in
  Continue (ctx_Header "X-Request-ID" requestID (ctx_Set "request_id" (CtxString requestID) c)).

(** ** The visitor table *)

(* go: internal/api/middleware.go type visitor *)
Record visitor := mkVisitor { v_count : Z; v_lastSeen : Z }.

(* go: internal/api/middleware.go type rateLimiter *)
Record rateLimiter := mkRateLimiter { visitors : gmap string visitor; rl_rate : Z; rl_window : Z }.

(* go: internal/api/middleware.go func newRateLimiter *)
Definition newRateLimiter (rate window : Z) : rateLimiter := mkRateLimiter ∅ rate window.

(** One tick of the cleanup goroutine. *)
(* go: internal/api/middleware.go func rateLimiter.cleanup *)
Definition cleanup_tick (now : Z) (rl : rateLimiter) : rateLimiter :=
  mkRateLimiter (filter (fun kv => ~ int64 (rl_window rl * 2) < time_Sub now (v_lastSeen kv.2)) (visitors rl))
    (rl_rate rl) (rl_window rl).

(** [Time.Unix]: seconds since 1970, for an instant counted from the year 1. *)
Definition time_Unix (t : Z) : Z := Z.div t Second - 62135596800.

(* go: internal/api/middleware.go func rateLimiter.allow *)
Definition allow (now : Z) (ip : string) (rl : rateLimiter) : rateLimiter * (bool * Z * Z) :=
  let put v := mkRateLimiter (<[ip := v]> (visitors rl)) (rl_rate rl) (rl_window rl) in
  let resetAt := time_Unix (now + rl_window rl) in
  match visitors rl !! ip with
  | None => (put (mkVisitor 1 now), (true, int64 (rl_rate rl - 1), resetAt))
  | Some v =>
      if rl_window rl <? time_Sub now (v_lastSeen v)
      then (put (mkVisitor 1 now), (true, int64 (rl_rate rl - 1), resetAt))
      else
        let c := int64 (v_count v + 1) in
        if rl_rate rl <? c then (put (mkVisitor c now), (false, 0, resetAt))
        else (put (mkVisitor c now), (true, int64 (rl_rate rl - c), resetAt))
  end.

(* go: internal/api/middleware.go func rateLimiter.getRate *)
Definition getRate (rl : rateLimiter) : Z := rl_rate rl.

(** The configured rate, or 100 per minute. *)
(* go: internal/api/middleware.go @147-155 rateLimitMiddleware *)
Definition configured_limiter (rateLimitPerMin : Z) : rateLimiter :=
  newRateLimiter (if rateLimitPerMin <=? 0 then 100 else rateLimitPerMin) (1 * Minute).

(* go: internal/api/middleware.go func rateLimitMiddleware *)
Definition rateLimitMiddleware (now : Z) (clientIP : string) (rl : rateLimiter) (c : Context)
  : rateLimiter * outcome_mw :=
  let '(rl', (allowed, remaining, resetAt)) := allow now clientIP rl in
  let limitStr := itoa (getRate rl') in
  let c1 := ctx_Header "X-RateLimit-Reset" limitStr
              (ctx_Header "X-RateLimit-Remaining" limitStr (ctx_Header "X-RateLimit-Limit" limitStr c)) in
  if negb allowed then (rl', Abort 429 "Rate limit exceeded" c1)
  else (rl', Continue (ctx_Header "X-RateLimit-Reset" (itoa resetAt)
                         (ctx_Header "X-RateLimit-Remaining" (itoa remaining) c1))).

(** ** Content type and authentication *)

(* go: internal/api/middleware.go func contentTypeMiddleware *)
Definition contentTypeMiddleware (contentType : string) (c : Context) : outcome_mw :=
  if bool_decide (Method c = "POST") || bool_decide (Method c = "PUT") || bool_decide (Method c = "PATCH")
  then
    let ct := GetHeader c "Content-Type" in
    if negb (bool_decide (ct = "")) && negb (String.prefix contentType ct)
    then Abort 415 ("Content-Type must be " +:+ contentType)%string c
    else Continue c
  else Continue c.

(* go: internal/api/middleware.go type jwtClaims *)
Record jwtClaims := mkJwtClaims { Subject : string; Roles : list string }.

(** The error is always nil. *)
(* go: internal/api/middleware.go func validateJWT *)
Definition validateJWT (tokenString secret : string) : jwtClaims * option string :=
  (mkJwtClaims "user" ["user"], None).

(** [strings.TrimPrefix]. *)
Definition TrimPrefix (s prefix : string) : string :=
  if String.prefix prefix s
  then String.substring (String.length prefix) (String.length s - String.length prefix) s else s.

(* go: internal/api/middleware.go func authMiddleware *)
Definition authMiddleware (secret : string) (c : Context) : outcome_mw :=
  let authHeader := GetHeader c "Authorization" in
  if bool_decide (authHeader = "") then Abort 401 "Missing authorization header" c
  else
    let tokenString := TrimPrefix authHeader "Bearer " in
    if bool_decide (tokenString = authHeader)
    then Abort 401 "Invalid authorization format, use Bearer <token>" c
    else
      match validateJWT tokenString secret with
      | (_, Some _) => Abort 401 "Invalid or expired token" c
      | (claims, None) =>
          Continue (ctx_Set "user_roles" (CtxStrings (Roles claims)) (ctx_Set "user_id" (CtxString (Subject claims)) c))
      end.

(* go: internal/api/middleware.go func adminMiddleware *)
Definition adminMiddleware (c : Context) : outcome_mw :=
  match keys_ c !! "user_roles" with
  | None => Abort 403 "Access denied" c
  | Some (CtxStrings roleList) =>
      let isAdmin := existsb (fun role => bool_decide (role = "admin")) roleList in
      if negb isAdmin then Abort 403 "Admin access required" c else Continue c
  | Some _ => Abort 403 "Access denied" c
  end.

(** ** A steady client *)

(** The requests of one address at the instants [ts]: which are allowed? *)
Fixpoint requests (rl : rateLimiter) (ip : string) (ts : list Z) : list bool :=
  match ts with
  | [] => []
  | t :: ts' => let '(rl', (ok, _, _)) := allow t ip rl in ok :: requests rl' ip ts'
  end.

(** No pause between consecutive requests is longer than the window. *)
Fixpoint steady (window prev : Z) (ts : list Z) : Prop :=
  match ts with
  | [] => True
  | t :: ts' => time_Sub t prev <= window /\ steady window t ts'
  end.

Lemma requests_steady ip ts : forall rl c prev,
  visitors rl !! ip = Some (mkVisitor c prev) -> 0 <= c -> c + Z.of_nat (length ts) <= max_int64 ->
  steady (rl_window rl) prev ts ->
  requests rl ip ts = (fun i => bool_decide (c + i <= rl_rate rl)) <$> seqZ 1 (Z.of_nat (length ts)).
Proof.
  induction ts as [|t ts IH]; intros rl c prev Hv Hc Hmax Hs; [done|].
  rewrite length_cons, Nat2Z.inj_succ, seqZ_cons by lia. csimpl. destruct Hs as [Hgap Hs].
  unfold allow. rewrite Hv. simpl.
  destruct (Z.ltb_spec (rl_window rl) (time_Sub t prev)) as [Hlt|_]; [lia|].
  simpl in Hmax. rewrite int64_small by (unfold in_int64, min_int64, max_int64 in *; lia).
  set (rl' := mkRateLimiter _ _ _).
  assert (requests rl' ip ts = (fun i => bool_decide (c + i <= rl_rate rl)) <$> seqZ (Z.succ 1) (Z.of_nat (length ts))) as Htail.
  { rewrite (IH rl' (c + 1) t); [|apply lookup_insert_eq|lia|lia|done]. simpl.
    rewrite <- (fmap_add_seqZ 1 1), <- list_fmap_compose.
    apply list_fmap_ext. intros i x _. simpl. apply bool_decide_ext. lia. }
  rewrite Z.pred_succ. destruct (Z.ltb_spec (rl_rate rl) (c + 1)).
  - rewrite Htail, bool_decide_eq_false_2 by lia. done.
  - rewrite Htail, bool_decide_eq_true_2 by lia. done.
Qed.

(** ** Properties *)

(** A visitor's window restarts only after a pause longer than the window, and a
    refused request counts as a visit: a client that keeps sending at shorter intervals
    is allowed [rl_rate] requests in all and refused for ever after, however much time
    passes. *)
Theorem allow_steady_client (rl : rateLimiter) (ip : string) (t0 : Z) (ts : list Z)
  (Hnew : visitors rl !! ip = None) (Hs : steady (rl_window rl) t0 ts)
  (Hlen : 1 + Z.of_nat (length ts) <= max_int64) :
  requests rl ip (t0 :: ts)
    = true :: ((fun i => bool_decide (1 + i <= rl_rate rl)) <$> seqZ 1 (Z.of_nat (length ts))).
Proof.
  cbn [requests]. unfold allow. rewrite Hnew. f_equal.
  apply (requests_steady ip ts (mkRateLimiter (<[ip := mkVisitor 1 t0]> (visitors rl)) (rl_rate rl) (rl_window rl)) 1 t0);
    [apply lookup_insert_eq|lia|exact Hlen|exact Hs].
Qed.

(** Two per minute, one request every 50 seconds: four minutes later still refused. *)
Lemma allow_steady_client_witness :
  requests (newRateLimiter 2 Minute) "10.0.0.1" [0; 50 * Second; 100 * Second; 150 * Second; 200 * Second; 250 * Second]
    = [true; true; false; false; false; false].
Proof.
  rewrite (allow_steady_client (newRateLimiter 2 Minute) "10.0.0.1" 0
    [50 * Second; 100 * Second; 150 * Second; 200 * Second; 250 * Second]).
  - vm_compute. reflexivity.
  - reflexivity.
  - vm_compute. repeat split; discriminate.
  - vm_compute. discriminate.
Defined.

(** [authMiddleware] accepts every bearer token, whatever the token and the secret, as
    the same user with the single role "user"; so the chain of [authMiddleware] and
    [adminMiddleware] refuses every request: without a bearer token with 401, with one
    with 403. *)
Theorem auth_accepts_any_token (secret : string) (c : Context) :
  match authMiddleware secret c with
  | Continue c' =>
      String.prefix "Bearer " (GetHeader c "Authorization") = true
      /\ keys_ c' !! "user_id" = Some (CtxString "user")
      /\ keys_ c' !! "user_roles" = Some (CtxStrings ["user"])
      /\ adminMiddleware c' = Abort 403 "Admin access required" c'
  | Abort status _ c' =>
      status = 401 /\ c' = c /\ String.prefix "Bearer " (GetHeader c "Authorization") = false
  end.
Proof.
  unfold authMiddleware, TrimPrefix. set (h := GetHeader c "Authorization").
  case_bool_decide as Hempty; [by rewrite Hempty|].
  destruct (String.prefix "Bearer " h) eqn:Hp.
  - rewrite bool_decide_eq_false_2.
    + simpl. split_and!; [done|by rewrite lookup_insert_ne, lookup_insert_eq|apply lookup_insert_eq|].
      unfold adminMiddleware. simpl. by rewrite lookup_insert_eq.
    + destruct (prefix_app _ _ Hp) as [t Ht]. rewrite Ht.
      rewrite string_length_app, Nat.add_comm, Nat.add_sub, substring_app.
      intros Heq%(f_equal String.length). rewrite string_length_app in Heq. simpl in Heq. lia.
  - rewrite bool_decide_eq_true_2 by done. done.
Qed.
