(* ===== verification/ApiRoutes.v ===== *)
(** * The routes of the API: internal/api/routes.go and server.go

    The table of routes with the middlewares of their groups, and a request to one of them
    from the global middlewares to its handler.  gin finds the route of a request; here the
    route is an argument.  The recovery of panics and the logger pass every request on and
    are left out, and the cross-origin requests are in [ApiCors].  Left out is the route
    /metrics, too, which gives gin a boolean for a handler and does not compile. *)

From S2P Require Import Prelude GoStrings ApiMiddleware ApiResponse.

(** ** The table *)

Inductive handler : Type :=
| Health | Readiness | Liveness
| CreatePipeline | ListPipelines | GetPipeline | UpdatePipeline | DeletePipeline | ExecutePipeline
| RegisterWebhook | ListWebhooks | GetWebhook | UpdateWebhook | DeleteWebhook | DeliveryHistory | RetryDelivery
| ListTasks | GetTask | RetryTask | CancelTask
| EmitEvent | ListEvents | GetEvent | UpdateEventStatus
| CreateSchedule | ListSchedules | GetSchedule | UpdateSchedule | DeleteSchedule | ToggleSchedule
| SystemStats | SystemLogs.

(** The middlewares of a group, in the order in which they run. *)
Inductive group_mw : Type := UseAuth | UseAdmin.

Record route := mkRoute {
  rt_Method : string;
  rt_Path : string;
  rt_Handler : handler;
  rt_Use : list group_mw
}.

(* go: internal/api/routes.go func RegisterRoutes *)
Definition routes : list route :=
  [mkRoute "GET" "/health" Health []; mkRoute "GET" "/ready" Readiness []; mkRoute "GET" "/live" Liveness [];
   mkRoute "POST" "/pipelines" CreatePipeline []; mkRoute "GET" "/pipelines" ListPipelines [];
   mkRoute "GET" "/pipelines/:id" GetPipeline []; mkRoute "PUT" "/pipelines/:id" UpdatePipeline [];
   mkRoute "DELETE" "/pipelines/:id" DeletePipeline []; mkRoute "POST" "/pipelines/:id/execute" ExecutePipeline [];
   mkRoute "POST" "/webhooks" RegisterWebhook []; mkRoute "GET" "/webhooks" ListWebhooks [];
   mkRoute "GET" "/webhooks/:id" GetWebhook []; mkRoute "PUT" "/webhooks/:id" UpdateWebhook [];
   mkRoute "DELETE" "/webhooks/:id" DeleteWebhook []; mkRoute "GET" "/webhooks/:id/deliveries" DeliveryHistory [];
   mkRoute "POST" "/webhooks/:id/deliveries/:delivery_id/retry" RetryDelivery [];
   mkRoute "GET" "/tasks" ListTasks [UseAuth]; mkRoute "GET" "/tasks/:id" GetTask [UseAuth];
   mkRoute "PUT" "/tasks/:id/retry" RetryTask [UseAuth]; mkRoute "POST" "/tasks/:id/cancel" CancelTask [UseAuth];
   mkRoute "POST" "/events" EmitEvent [UseAuth]; mkRoute "GET" "/events" ListEvents [UseAuth];
   mkRoute "GET" "/events/:id" GetEvent [UseAuth]; mkRoute "PUT" "/events/:id/status" UpdateEventStatus [UseAuth];
   mkRoute "POST" "/schedules" CreateSchedule [UseAuth]; mkRoute "GET" "/schedules" ListSchedules [UseAuth];
   mkRoute "GET" "/schedules/:id" GetSchedule [UseAuth]; mkRoute "PUT" "/schedules/:id" UpdateSchedule [UseAuth];
   mkRoute "DELETE" "/schedules/:id" DeleteSchedule [UseAuth]; mkRoute "POST" "/schedules/:id/toggle" ToggleSchedule [UseAuth];
   mkRoute "GET" "/admin/stats" SystemStats [UseAuth; UseAdmin]; mkRoute "GET" "/admin/logs" SystemLogs [UseAuth; UseAdmin]].

(** The handlers that answer 501. *)
(* go: internal/api/handlers/pipeline.go @360-406 EmitEvent *)
Definition unimplemented (h : handler) : bool :=
  match h with
  | EmitEvent | ListEvents | GetEvent | UpdateEventStatus | CreateSchedule | ListSchedules | GetSchedule | UpdateSchedule
  | DeleteSchedule | ToggleSchedule | SystemStats | SystemLogs => true
  | _ => false
  end.

(** ** A request *)

Definition group_step (secret : string) (m : group_mw) (c : Context) : outcome_mw :=
  match m with UseAuth => authMiddleware secret c | UseAdmin => adminMiddleware c end.

Definition mw_bind (o : outcome_mw) (k : Context -> outcome_mw) : outcome_mw :=
  match o with Continue c => k c | Abort status message c => Abort status message c end.

(** Middlewares one after the other, until one aborts. *)
Fixpoint chain (ms : list (Context -> outcome_mw)) (c : Context) : outcome_mw :=
  match ms with [] => Continue c | m :: ms => mw_bind (m c) (chain ms) end.

(** From the request's identifier to the handler, which gets the context. *)
(* go: internal/api/server.go @93-102 setupGlobalMiddleware *)
Definition serve (newID secret clientIP : string) (now : Z) (rl : rateLimiter) (r : route) (c : Context) : rateLimiter * outcome_mw :=
  match requestIDMiddleware newID c with
  | Abort status message c => (rl, Abort status message c)
  | Continue c =>
      match rateLimitMiddleware now clientIP rl c with
      | (rl', Abort status message c) => (rl', Abort status message c)
      | (rl', Continue c) =>
          (rl', chain (contentTypeMiddleware "application/json" :: (group_step secret <$> rt_Use r)) c)
      end
  end.

(** What a handler reads of the request's identifiers. *)
Definition ids_of (newID : string) (c : Context) : request_ids :=
  mkRequestIds (match keys_ c !! "request_id" with Some (CtxString s) => Some (AnyString s) | Some _ => Some AnyNil | None => None end)
    (GetHeader c "X-Request-ID") newID.

(** ** Who gets through *)

Definition bearer (c : Context) : bool :=
  String.prefix "Bearer " (GetHeader c "Authorization").

(** A body whose type is given and is not JSON. *)
Definition other_content (c : Context) : bool :=
  bool_decide (Method c ∈ ["POST"; "PUT"; "PATCH"])
  && negb (bool_decide (GetHeader c "Content-Type" = "")) && negb (String.prefix "application/json" (GetHeader c "Content-Type")).

Lemma authMiddleware_bearer secret c :
  authMiddleware secret c =
    if bearer c then Continue (ctx_Set "user_roles" (CtxStrings ["user"]) (ctx_Set "user_id" (CtxString "user") c))
    else Abort 401 (if bool_decide (GetHeader c "Authorization" = "") then "Missing authorization header"
                    else "Invalid authorization format, use Bearer <token>") c.
Proof.
  unfold authMiddleware, bearer, ApiMiddleware.TrimPrefix. set (h := GetHeader c "Authorization").
  case_bool_decide as Hempty; [by rewrite Hempty|].
  destruct (String.prefix "Bearer " h) eqn:Hp; [|by rewrite bool_decide_eq_true_2].
  rewrite bool_decide_eq_false_2; [done|].
  destruct (prefix_app _ _ Hp) as [t Ht]. rewrite Ht.
  rewrite string_length_app, Nat.add_comm, Nat.add_sub, substring_app.
  intros Heq%(f_equal String.length). rewrite string_length_app in Heq. simpl in Heq. lia.
Qed.

Lemma contentType_spec c :
  contentTypeMiddleware "application/json" c = if other_content c then Abort 415 "Content-Type must be application/json" c else Continue c.
Proof.
  unfold contentTypeMiddleware, other_content.
  replace (bool_decide (Method c ∈ ["POST"; "PUT"; "PATCH"]))
    with (bool_decide (Method c = "POST") || bool_decide (Method c = "PUT") || bool_decide (Method c = "PATCH")).
  - set (b := bool_decide (Method c = "POST") || _ || _). destruct b; [|done].
    by destruct (bool_decide (GetHeader c "Content-Type" = "")), (String.prefix "application/json" (GetHeader c "Content-Type")).
  - apply eq_true_iff_eq. rewrite !orb_true_iff, !bool_decide_eq_true. set_solver.
Qed.

(** Within its rate a request reaches the group with its headers, its method and its identifier. *)
Lemma serve_within_rate newID secret ip now rl r c :
  (allow now ip rl).2.1.1 = true ->
  exists c1, headers c1 = headers c /\ Method c1 = Method c
    /\ keys_ c1 = <["request_id" := CtxString (if bool_decide (GetHeader c "X-Request-ID" = "") then newID else GetHeader c "X-Request-ID")]> (keys_ c)
    /\ (serve newID secret ip now rl r c).2 = chain (contentTypeMiddleware "application/json" :: (group_step secret <$> rt_Use r)) c1.
Proof.
  intros Hal. unfold serve, requestIDMiddleware, rateLimitMiddleware.
  destruct (allow now ip rl) as [rl1 [[a n] t]]. simpl in Hal. subst a. cbn [negb].
  eexists. split_and!; [| | |reflexivity]; reflexivity.
Qed.

Lemma routes_use r : r ∈ routes ->
  rt_Use r = [] /\ rt_Handler r <> SystemStats /\ rt_Handler r <> SystemLogs
  \/ rt_Use r = [UseAuth] /\ rt_Handler r <> SystemStats /\ rt_Handler r <> SystemLogs
  \/ rt_Use r = [UseAuth; UseAdmin] /\ (rt_Handler r = SystemStats \/ rt_Handler r = SystemLogs).
Proof.
  unfold routes. intros Hr. repeat (apply elem_of_cons in Hr as [->|Hr]; [simpl; naive_solver|]). by apply elem_of_nil in Hr.
Qed.


Definition sample_request (hs : list (string * string)) : Context := mkContext "GET" (list_to_map hs) ∅ ∅.

