(* ===== verification/ApiCors.v ===== *)
(** * The server around its routes: internal/api/middleware.go and server.go

    The middlewares that [ApiRoutes.serve] passes over, the logger's and the one for cross-origin
    requests, the handler that the server wraps around its router, and what they add to
    [ApiRoutes].  The library rs/cors is an interface ([CorsLib]).  Two contexts of a request are
    equivalent when they differ in the headers of the answer only; the middlewares behind respect
    this equivalence. *)

From S2P Require Import Prelude GoStrings ApiMiddleware ApiResponse ApiRoutes.

(** ** The logger's middleware *)

Inductive log_level : Type := InfoLevel | WarnLevel | ErrorLevel.

(** The level and message of the line for a request, from the number of the context's errors and
    the status of the answer. *)
(* go: internal/api/middleware.go func loggerMiddleware *)
Definition loggerMiddleware (errors : nat) (status : Z) : log_level * string :=
  if (0 <? errors)%nat then (ErrorLevel, "request completed with errors"%string)
  else if 500 <=? status then (ErrorLevel, "server error"%string)
  else if 400 <=? status then (WarnLevel, "client error"%string)
  else (InfoLevel, "request completed"%string).

(** ** Cross-origin requests *)

Record cors_options := mkCorsOptions {
  AllowedOrigins : list string;
  AllowedMethods : list string;
  AllowedHeaders : list string;
  AllowCredentials : bool;
  MaxAge : Z
}.

(** [cors_apply] is what [HandlerFunc] does to the answer. *)
Class CorsLib := { cors_apply : cors_options -> Context -> Context }.

(* go: internal/api/middleware.go @69-75 corsMiddleware *)
Definition cors_config (origins : list string) : cors_options :=
  mkCorsOptions origins ["GET"; "POST"; "PUT"; "DELETE"; "PATCH"; "OPTIONS"]
    ["Authorization"; "Content-Type"; "X-Request-ID"; "X-API-Key"] true 300.

(** What the library documents to be a preflight request. *)
Definition preflight (c : Context) : bool :=
  String.eqb (Method c) "OPTIONS" && negb (String.eqb (GetHeader c "Access-Control-Request-Method") "").

Section server.
Context `{CorsLib}.

(* go: internal/api/middleware.go func corsMiddleware *)
Definition corsMiddleware (origins : list string) (c : Context) : outcome_mw :=
  let c := cors_apply (cors_config origins) c in
  if String.eqb (Method c) "OPTIONS" then Abort 204 "" c else Continue c.

(** A request to the router, in the order in which [NewServer] installs the middlewares; [route] is
    what gin finds, if it finds one. *)
(* go: internal/api/server.go @67-102 NewServer *)
Definition router (origins : list string) (newID secret clientIP : string) (now : Z) (rl : rateLimiter) (r : option route)
    (c : Context) : rateLimiter * outcome_mw :=
  match mw_bind (requestIDMiddleware newID c) (corsMiddleware origins) with
  | Abort status message c => (rl, Abort status message c)
  | Continue c =>
      match rateLimitMiddleware now clientIP rl c, r with
      | (rl', Abort status message c), _ => (rl', Abort status message c)
      | (rl', Continue c), Some r =>
          (rl', chain (contentTypeMiddleware "application/json" :: (group_step secret <$> rt_Use r)) c)
      | (rl', Continue c), None => (rl', Abort 404 "404 page not found" c)
      end
  end.

(** The library's handler around the router: it answers the preflight requests itself. *)
(* go: internal/api/server.go @119-129 Server.Start *)
Definition server_handler (origins : list string) (newID secret clientIP : string) (now : Z) (rl : rateLimiter) (r : option route)
    (c : Context) : rateLimiter * outcome_mw :=
  let c' := cors_apply (cors_config origins) c in
  if preflight c then (rl, Abort 204 "" c') else router origins newID secret clientIP now rl r c'.
End server.

(** ** Equivalent contexts *)

(** The library only writes headers of the answer. *)
Definition same_request (c c' : Context) : Prop := Method c = Method c' /\ headers c = headers c' /\ keys_ c = keys_ c'.

Definition same_outcome (o o' : outcome_mw) : Prop :=
  match o, o' with
  | Continue c, Continue c' => same_request c c'
  | Abort s m c, Abort s' m' c' => s = s' /\ m = m' /\ same_request c c'
  | _, _ => False
  end.

#[export] Instance same_request_equivalence : Equivalence same_request.
Proof. unfold same_request. split; [done|intros ? ?; naive_solver|intros ? ? ? ? ?; naive_solver congruence]. Qed.

Lemma same_outcome_refl o : same_outcome o o.
Proof. destruct o; simpl; by split_and?. Qed.

Class CorsLaws `{CorsLib} := { cors_keeps_request opts c : same_request (cors_apply opts c) c }.

Definition respects (m : Context -> outcome_mw) : Prop := Proper (same_request ==> same_outcome) m.

#[export] Instance GetHeader_proper : Proper (same_request ==> eq ==> eq) GetHeader.
Proof. intros c c' (_ & Hh & _) k _ <-. unfold GetHeader. by rewrite Hh. Qed.
#[export] Instance Method_proper : Proper (same_request ==> eq) Method.
Proof. by intros c c' (Hm & _). Qed.
#[export] Instance ctx_Set_proper k v : Proper (same_request ==> same_request) (ctx_Set k v).
Proof. intros c c' (Hm & Hh & Hk). unfold same_request. simpl. by rewrite Hm, Hh, Hk. Qed.

Lemma ctx_Header_same k v c c' : same_request c c' -> same_request (ctx_Header k v c) c'.
Proof. done. Qed.

(** Rewrites what a middleware reads of the first context. *)
Ltac use_same Hc :=
  rewrite ?(fun k => GetHeader_proper _ _ Hc k k eq_refl), ?(Method_proper _ _ Hc).

Lemma requestID_respects newID : respects (requestIDMiddleware newID).
Proof.
  intros c c' Hc. unfold requestIDMiddleware. use_same Hc. simpl. apply ctx_Header_same. symmetry. apply ctx_Header_same. symmetry.
  by apply ctx_Set_proper.
Qed.

Lemma contentType_respects ct : respects (contentTypeMiddleware ct).
Proof. intros c c' Hc. unfold contentTypeMiddleware. use_same Hc. repeat case_match; simpl; auto. Qed.

Lemma auth_respects secret : respects (authMiddleware secret).
Proof.
  intros c c' Hc. unfold authMiddleware. use_same Hc. repeat (case_match; simpl; auto). by do 2 apply ctx_Set_proper.
Qed.

Lemma admin_respects : respects adminMiddleware.
Proof. intros c c' Hc. unfold adminMiddleware. destruct Hc as (Hm & Hh & Hk). rewrite Hk. repeat (case_match; simpl; auto); done. Qed.

Lemma chain_respects ms : Forall respects ms -> respects (chain ms).
Proof.
  induction 1 as [|m ms Hm Hms IH]; intros c c' Hc; simpl; [done|]. specialize (Hm c c' Hc).
  destruct (m c), (m c'); simpl in *; try done. by apply IH.
Qed.

Lemma group_chain_respects secret r :
  respects (chain (contentTypeMiddleware "application/json" :: (group_step secret <$> rt_Use r))).
Proof.
  apply chain_respects. constructor; [apply contentType_respects|].
  induction (rt_Use r) as [|[] ms IH]; constructor; [apply auth_respects|done|apply admin_respects|done].
Qed.

Lemma rateLimit_respects now ip rl c c' :
  same_request c c' ->
  (rateLimitMiddleware now ip rl c).1 = (rateLimitMiddleware now ip rl c').1
  /\ same_outcome (rateLimitMiddleware now ip rl c).2 (rateLimitMiddleware now ip rl c').2.
Proof. intros Hc. unfold rateLimitMiddleware. destruct (allow now ip rl) as [rl' [[[] n] t]]; simpl; auto. Qed.

(** ** Properties *)

Section facts.
Context `{CorsLaws}.

Lemma serve_respects newID secret ip now rl r c c' :
  same_request c c' ->
  (serve newID secret ip now rl r c).1 = (serve newID secret ip now rl r c').1
  /\ same_outcome (serve newID secret ip now rl r c).2 (serve newID secret ip now rl r c').2.
Proof.
  intros Hc. unfold serve. pose proof (requestID_respects newID c c' Hc) as Hid.
  destruct (requestIDMiddleware newID c) as [c1|s m c1], (requestIDMiddleware newID c') as [c1'|s' m' c1']; simpl in Hid; try done.
  destruct (rateLimit_respects now ip rl c1 c1' Hid) as [Hl Ho].
  destruct (rateLimitMiddleware now ip rl c1) as [rl1 [c2|? ? c2]], (rateLimitMiddleware now ip rl c1') as [rl1' [c2'|? ? c2']];
    simpl in Hl, Ho; try done; (split; [done|]).
  by apply (group_chain_respects secret r).
Qed.

(** Behind the library, a request that is not OPTIONS is served as if it were not there. *)
Lemma router_serve origins newID secret ip now rl r c :
  Method c <> "OPTIONS"%string ->
  (router origins newID secret ip now rl (Some r) c).1 = (serve newID secret ip now rl r c).1
  /\ same_outcome (router origins newID secret ip now rl (Some r) c).2 (serve newID secret ip now rl r c).2.
Proof.
  intros Hm. unfold router, serve. set (c1 := match requestIDMiddleware newID c with Continue c1 => c1 | Abort _ _ c1 => c1 end).
  assert (requestIDMiddleware newID c = Continue c1) as Hid by done. rewrite Hid. simpl. unfold corsMiddleware.
  pose proof (cors_keeps_request (cors_config origins) c1) as Hs.
  rewrite (Method_proper _ _ Hs). replace (Method c1) with (Method c) by done.
  destruct (String.eqb_spec (Method c) "OPTIONS"); [done|].
  destruct (rateLimit_respects now ip rl _ _ Hs) as [Hl Ho].
  destruct (rateLimitMiddleware now ip rl (cors_apply _ c1)) as [rl1 [c2|? ? c2]], (rateLimitMiddleware now ip rl c1) as [rl1' [c2'|? ? c2']];
    simpl in Hl, Ho; try done; (split; [done|]).
  by apply (group_chain_respects secret r).
Qed.

(** What the server adds to its routes.  An OPTIONS request, preflight or not, is answered 204 for every
    path, reaches no handler and is not counted by the rate limiter.  Every other request
    to a route is served as by [ApiRoutes.serve], whatever its origin: the limiter's table, the
    status, and what the handler finds of the request and in the context are the same, and only
    headers of the answer differ.  So no origin is refused. *)
Theorem server_cors origins newID secret ip now rl c :
  (Method c = "OPTIONS"%string -> forall r, exists c',
     server_handler origins newID secret ip now rl r c = (rl, Abort 204 "" c'))
  /\ (Method c <> "OPTIONS"%string -> forall r,
        (server_handler origins newID secret ip now rl (Some r) c).1 = (serve newID secret ip now rl r c).1
        /\ same_outcome (server_handler origins newID secret ip now rl (Some r) c).2 (serve newID secret ip now rl r c).2).
Proof.
  pose proof (cors_keeps_request (cors_config origins) c) as Hs. unfold server_handler. split.
  - intros Hm r. destruct (preflight c); [by eexists|]. unfold router, requestIDMiddleware. simpl. unfold corsMiddleware.
    set (c1 := ctx_Header _ _ _). pose proof (cors_keeps_request (cors_config origins) c1) as Hs1.
    rewrite (Method_proper _ _ Hs1). unfold c1. simpl. rewrite (Method_proper _ _ Hs), Hm. simpl. by eexists.
  - intros Hm r. unfold preflight. destruct (String.eqb_spec (Method c) "OPTIONS"); [done|]. simpl.
    rewrite <- (Method_proper _ _ Hs) in Hm.
    destruct (router_serve origins newID secret ip now rl r _ Hm) as [Hl Ho].
    destruct (serve_respects newID secret ip now rl r _ _ Hs) as [Hl' Ho']. split; [congruence|].
    revert Ho Ho'. destruct (router _ _ _ _ _ _ _ _).2, (serve newID secret ip now rl r (cors_apply _ c)).2, (serve newID secret ip now rl r c).2;
      simpl; try done; [by intros -> ->|]. intros (-> & -> & ->) (-> & -> & ->). by split_and!.
Qed.
End facts.

(** A library that lets one origin in. *)
Definition toy_cors : CorsLib := {| cors_apply opts c :=
  match AllowedOrigins opts with
  | o :: _ => if String.eqb (GetHeader c "Origin") o then ctx_Header "Access-Control-Allow-Origin" o c else c
  | [] => c
  end |}.

Lemma toy_cors_laws : @CorsLaws toy_cors.
Proof. split. intros opts c. simpl. destruct (AllowedOrigins opts); [done|]. by case_match. Qed.

Lemma server_cors_witness :
  let c := mkContext "GET" (list_to_map [("Origin", "https://evil.example")]) ∅ ∅ in
  (exists c', (@server_handler toy_cors ["https://good.example"] "r-1" "secret" "1.2.3.4" 0 (newRateLimiter 5 Minute)
                 (Some (mkRoute "GET" "/pipelines" ListPipelines [])) c).2 = Continue c')
  /\ Method c <> "OPTIONS"%string.
Proof.
  intros c. assert (Method c <> "OPTIONS"%string) as Hm by discriminate. split; [|exact Hm].
  destruct (proj2 (@server_cors toy_cors toy_cors_laws ["https://good.example"] "r-1" "secret" "1.2.3.4" 0 (newRateLimiter 5 Minute) c) Hm
              (mkRoute "GET" "/pipelines" ListPipelines [])) as [_ Ho].
  destruct (server_handler _ _ _ _ _ _ _ _).2 as [c'|s m c']; [by eexists|].
  exfalso. revert Ho. vm_compute. done.
Defined.
