(* ===== verification/ApiServer.v ===== *)
(** * The HTTP server: internal/api/server.go

    The server with the clients it was given, its start and its shutdown.  Clients are numbers;
    the shutdown is the trace of what is closed, with what each closing answers; the routes and
    the global middlewares are in [ApiRoutes].  gin, net/http and the clients are not modelled
    beyond what they answer. *)

From S2P Require Import Prelude Config ApiRoutes.

(** ** The server *)

(** [sv_repos] is whether the repositories are there, [sv_routes] the paths that are registered. *)
(* go: internal/api/server.go type Server *)
Record Server := mkServer {
  sv_cfg : Config;
  sv_httpSrv : bool;
  sv_db : option nat;
  sv_rdb : option nat;
  sv_amqpConn : option nat;
  sv_repos : bool;
  sv_routes : list (string * string)
}.

(* go: internal/api/server.go func WithDB *)
Definition WithDB (pool : option nat) (s : Server) : Server :=
  mkServer (sv_cfg s) (sv_httpSrv s) pool (sv_rdb s) (sv_amqpConn s) (sv_repos s) (sv_routes s).

(* go: internal/api/server.go func WithRedis *)
Definition WithRedis (client : option nat) (s : Server) : Server :=
  mkServer (sv_cfg s) (sv_httpSrv s) (sv_db s) client (sv_amqpConn s) (sv_repos s) (sv_routes s).

(* go: internal/api/server.go func WithAMQP *)
Definition WithAMQP (conn : option nat) (s : Server) : Server :=
  mkServer (sv_cfg s) (sv_httpSrv s) (sv_db s) (sv_rdb s) conn (sv_repos s) (sv_routes s).

Definition with_routes (repos : bool) (rs : list (string * string)) (s : Server) : Server :=
  mkServer (sv_cfg s) (sv_httpSrv s) (sv_db s) (sv_rdb s) (sv_amqpConn s) repos rs.

(* go: internal/api/server.go func Server.registerRoutes *)
Definition registerRoutes : list (string * string) :=
  (fun r => (rt_Method r, ("/api/v1" +:+ rt_Path r)%string)) <$> routes.

(* go: internal/api/server.go func Server.mountMetrics *)
Definition mountMetrics (cfg : MetricsConfig) : list (string * string) :=
  if me_Enabled cfg then [("GET"%string, me_Path cfg)] else [].

(** The repositories are made after the options. *)
(* go: internal/api/server.go func NewServer *)
Definition NewServer (cfg : Config) (opts : list (Server -> Server)) : Server :=
  let s := foldl (fun s opt => opt s) (mkServer cfg false None None None false []) opts in
  with_routes (match sv_db s with Some _ => true | None => false end) (registerRoutes ++ mountMetrics (Metrics cfg)) s.

(** ** Start *)

(** The fields of [http.Server] that are set. *)
Record http_server := mkHttpServer {
  hs_Addr : string;
  hs_ReadTimeout : Z;
  hs_WriteTimeout : Z;
  hs_IdleTimeout : Z
}.

Definition listen_addr (cfg : AppConfig) : string := strings_Join [app_Host cfg; ":"; itoa (app_Port cfg)]%string "".

(** The listener is a goroutine of its own: a port that is taken is not an error of [Start]. *)
(* go: internal/api/server.go func Server.Start *)
Definition Start (s : Server) : Server * http_server :=
  (mkServer (sv_cfg s) true (sv_db s) (sv_rdb s) (sv_amqpConn s) (sv_repos s) (sv_routes s),
   mkHttpServer (listen_addr (App (sv_cfg s))) (app_ReadTimeout (App (sv_cfg s))) (app_WriteTimeout (App (sv_cfg s))) (120 * Second)).

(** ** Shutdown *)

Inductive closing : Type :=
| ShutdownHTTP (grace : Z)
| CloseAMQP (conn : nat)
| CloseRedis (client : nat)
| ClosePool (pool : nat).

(** What the shutdown of the listener answers within the grace period, and whether the connection
    to the queue is closed already; errors of the other closings are logged. *)
Record shutdown_env := mkShutdownEnv {
  sh_http : option string;
  sh_amqpClosed : bool
}.

Definition opt_list {A} (o : option A) : list A := match o with Some a => [a] | None => [] end.

(** A server that was not started has no listener: following its nil pointer panics. *)
(* go: internal/api/server.go func Server.Shutdown *)
Definition Shutdown (w : shutdown_env) (s : Server) : list closing * go_result unit string :=
  if sv_httpSrv s then
    let grace := app_ShutdownGracePeriod (App (sv_cfg s)) in
    let http := ShutdownHTTP (if grace =? 0 then 15 * Second else grace) in
    match sh_http w with
    | Some err => ([http], Err ("server shutdown failed: " +:+ err)%string)
    | None =>
        ([http]
           ++ (if sh_amqpClosed w then [] else CloseAMQP <$> opt_list (sv_amqpConn s))
           ++ (CloseRedis <$> opt_list (sv_rdb s)) ++ (ClosePool <$> opt_list (sv_db s)), Ok tt)
    end
  else ([], Panic).

(** After the signal. *)
(* go: internal/api/server.go func Server.Run *)
Definition Run (w : shutdown_env) (s : Server) : list closing * go_result unit string := Shutdown w (Start s).1.

(** ** Facts *)

(** What a server was given stays with it. *)
Lemma NewServer_given cfg opts :
  let s0 := foldl (fun s opt => opt s) (mkServer cfg false None None None false []) opts in
  sv_db (NewServer cfg opts) = sv_db s0 /\ sv_rdb (NewServer cfg opts) = sv_rdb s0 /\ sv_amqpConn (NewServer cfg opts) = sv_amqpConn s0
  /\ (sv_repos (NewServer cfg opts) = true <-> is_Some (sv_db s0)).
Proof. simpl. split_and!; try done. unfold NewServer. simpl. destruct (sv_db _); simpl; split; [eauto|done|done|by intros []]. Qed.

(** The shutdown of a server that runs first ends its requests, and then closes each client that
    it was given, the connection to the queue only if it is open, exactly once and the database
    last.  When requests do not end within the grace period nothing else is closed. *)
Theorem Shutdown_correct w s :
  let '(trace, res) := Run w s in
  match sh_http w with
  | Some _ => (exists err, res = Err err) /\ forall c, c ∈ trace -> exists grace, c = ShutdownHTTP grace
  | None =>
      res = Ok tt /\ NoDup trace
      /\ (forall n, CloseAMQP n ∈ trace <-> sv_amqpConn s = Some n /\ sh_amqpClosed w = false)
      /\ (forall n, CloseRedis n ∈ trace <-> sv_rdb s = Some n)
      /\ (forall n, ClosePool n ∈ trace <-> sv_db s = Some n)
      /\ (forall n, sv_db s = Some n -> last trace = Some (ClosePool n))
      /\ exists grace, 0 <> grace /\ head trace = Some (ShutdownHTTP grace)
  end.
Proof.
  unfold Run, Shutdown. simpl. destruct (sh_http w) as [err|].
  - split; [by eexists|]. intros c ->%list_elem_of_singleton. by eexists.
  - split; [done|]. set (g := if _ =? 0 then _ else _).
    assert (0 <> g) as Hg by (unfold g; destruct (Z.eqb_spec (app_ShutdownGracePeriod (App (sv_cfg s))) 0); [done|congruence]).
    clearbody g.
    destruct (sv_amqpConn s) as [a|], (sv_rdb s) as [r|], (sv_db s) as [d|], (sh_amqpClosed w); simpl.
    all: split_and!; [repeat constructor; set_solver|set_solver..|naive_solver|by exists g].
Qed.
