(* ===== verification/PipelineValidator.v ===== *)
(** * The pipeline validator: internal/pipeline/validator.go

    The checks of [ValidatePipeline] one by one, and the depth-first search for a cycle
    among the dependencies of the stages, with its array of colours.  Messages are
    kept as the arguments of their format strings. *)

From S2P Require Import Prelude GoStrings GoFloat PipelineModels.

(** ** Data *)

Inductive Message : Type :=
| MsgText (s : string)
| MsgTimeoutMax (d : Z)
| MsgConcurrencyMax (n : Z)
| MsgStagesMax (n : Z)
| MsgInvalidType (t : string)
| MsgForbiddenType (t : string)
| MsgMissingDep (stage dep : string)
| MsgDuplicateName (name : string) (index : nat)
| MsgStageTimeout (d max : Z).

(* go: internal/pipeline/validator.go type ValidationError *)
Record ValidationError := mkValidationError { Field : string; Msg : Message }.

(** [text] renders a message with its format string. *)
(* go: internal/pipeline/validator.go func ValidationError.Error *)
Definition ValidationError_Error (text : Message -> string) (e : ValidationError) : string :=
  (Field e +:+ ": " +:+ text (Msg e))%string.

(* go: internal/pipeline/validator.go type ValidationResult *)
Record ValidationResult := mkValidationResult { Valid : bool; Errors : list ValidationError }.

(* go: internal/pipeline/validator.go func ValidationResult.Error *)
Definition ValidationResult_Error (text : Message -> string) (r : ValidationResult) : string :=
  ("validation failed: " +:+ strings_Join (ValidationError_Error text <$> Errors r) "; ")%string.

(* go: internal/pipeline/validator.go type PipelineValidator *)
Record PipelineValidator := mkPipelineValidator {
  maxStages : Z;
  maxConcurrency : Z;
  maxTimeout : Z;
  forbiddenTypes : gmap string bool
}.

(* go: internal/pipeline/validator.go func NewPipelineValidator *)
Definition NewPipelineValidator : PipelineValidator := mkPipelineValidator 50 10 (3600 * Second) ∅.

(* go: internal/pipeline/validator.go func PipelineValidator.ForbidType *)
Definition ForbidType (v : PipelineValidator) (t : string) : PipelineValidator :=
  mkPipelineValidator (maxStages v) (maxConcurrency v) (maxTimeout v) (<[t := true]> (forbiddenTypes v)).

(* go: internal/pipeline/validator.go func PipelineValidator.AllowType *)
Definition AllowType (v : PipelineValidator) (t : string) : PipelineValidator :=
  mkPipelineValidator (maxStages v) (maxConcurrency v) (maxTimeout v) (delete t (forbiddenTypes v)).

(** ** Names *)

Definition letter (c : Ascii.ascii) : bool := between 97 122 c || between 65 90 c.
Definition name_char (c : Ascii.ascii) : bool :=
  letter c || between 48 57 c || ((code c =? 95) || (code c =? 45) || (code c =? 46))%N.

(** The pattern [^[a-zA-Z][a-zA-Z0-9_\-\.]{1,63}$]. *)
(* go: internal/pipeline/validator.go @47-47 NewPipelineValidator *)
Definition namePattern (s : string) : bool :=
  match s with
  | String c rest =>
      letter c && forallb name_char (String.list_ascii_of_string rest)
      && (1 <=? String.length rest)%nat && (String.length rest <=? 63)%nat
  | EmptyString => false
  end.

(** ** The checks *)

(** [when b f m] is the error reported when [b] holds. *)
Definition when (b : bool) (f : string) (m : Message) : list ValidationError :=
  if b then [mkValidationError f m] else [].

(* go: internal/pipeline/validator.go func PipelineValidator.validateName *)
Definition validateName (name : string) : list ValidationError :=
  if blank name then [mkValidationError "name" (MsgText "pipeline name must not be empty")]
  else if (64 <? String.length name)%nat
       then [mkValidationError "name" (MsgText "pipeline name must be at most 64 characters")]
  else if negb (namePattern name)
       then [mkValidationError "name" (MsgText "pipeline name must start with a letter and contain only alphanumeric, underscore, hyphen, or dot characters (2-64 chars)")]
  else [].

(* go: internal/pipeline/validator.go func PipelineValidator.validateConfig *)
Definition validateConfig (v : PipelineValidator) (cfg : PipelineConfig) : list ValidationError :=
  when (TimeoutSeconds cfg <=? 0) "config.timeout_seconds" (MsgText "timeout must be positive")
  ++ when (f64_to_int64 min_int64 (Seconds (maxTimeout v)) <? TimeoutSeconds cfg)
       "config.timeout_seconds" (MsgTimeoutMax (maxTimeout v))
  ++ when (Concurrency cfg <=? 0) "config.concurrency" (MsgText "concurrency must be positive")
  ++ when (maxConcurrency v <? Concurrency cfg) "config.concurrency" (MsgConcurrencyMax (maxConcurrency v))
  ++ when (MaxRetries cfg <? 0) "config.max_retries" (MsgText "max retries must not be negative")
  ++ when (25 <? MaxRetries cfg) "config.max_retries" (MsgText "max retries must not exceed 25")
  ++ when ((Priority cfg <? 0) || (100 <? Priority cfg)) "config.priority"
       (MsgText "priority must be between 0 and 100")
  ++ when (blank (QueueName cfg)) "config.queue_name" (MsgText "queue name must not be empty")
  ++ when (RetryBackoffMS cfg <? 0) "config.retry_backoff_ms" (MsgText "retry backoff must not be negative")
  ++ when (f64_le (BackoffMultiplier cfg) (f64_of_Z 0)) "config.backoff_multiplier"
       (MsgText "backoff multiplier must be positive").

Definition stage_field (i : nat) (f : string) : string :=
  ("stages[" +:+ itoa (Z.of_nat i) +:+ "]." +:+ f)%string.

(** The body of the loop of [validateStages]. *)
(* go: internal/pipeline/validator.go @151-170 PipelineValidator.validateStages *)
Definition validateStage (v : PipelineValidator) (i : nat) (stage : Stage) : list ValidationError :=
  when (blank (st_Name stage)) (stage_field i "name") (MsgText "stage name must not be empty")
  ++ when (negb (TaskType_IsValid (st_Type stage))) (stage_field i "type") (MsgInvalidType (st_Type stage))
  ++ when (default false (forbiddenTypes v !! st_Type stage)) (stage_field i "type")
       (MsgForbiddenType (st_Type stage))
  ++ when (st_Timeout stage <? 0) (stage_field i "timeout") (MsgText "stage timeout must not be negative")
  ++ when (st_MaxRetry stage <? 0) (stage_field i "max_retry") (MsgText "max retry must not be negative")
  ++ when (10 <? st_MaxRetry stage) (stage_field i "max_retry") (MsgText "max retry must not exceed 10").

(* go: internal/pipeline/validator.go func PipelineValidator.validateStages *)
Definition validateStages (v : PipelineValidator) (stages : list Stage) : list ValidationError :=
  match stages with
  | [] => [mkValidationError "stages" (MsgText "pipeline must have at least one stage")]
  | _ => if maxStages v <? Z.of_nat (length stages)
         then [mkValidationError "stages" (MsgStagesMax (maxStages v))]
         else concat (imap (validateStage v) stages)
  end.

(** The table from names to positions: the last stage of a name wins. *)
(* go: internal/pipeline/validator.go @197-200 PipelineValidator.detectCycles *)
Definition stage_index (stages : list Stage) : gmap string nat :=
  foldl (fun m '(i, s) => <[st_Name s := i]> m) ∅ (imap pair stages).

(* go: internal/pipeline/validator.go func PipelineValidator.validateDependencies *)
Definition validateDependencies (stages : list Stage) : list ValidationError :=
  let stageNames := stage_index stages in
  concat (imap (fun i stage =>
    omap (fun dep => match stageNames !! dep with
                     | Some _ => None
                     | None => Some (mkValidationError (stage_field i "depends_on")
                                       (MsgMissingDep (st_Name stage) dep))
                     end) (st_DependsOn stage)) stages).

(** The loop of [validateStageNames], from position [i]. *)
(* go: internal/pipeline/validator.go @248-256 PipelineValidator.validateStageNames *)
Fixpoint stage_names_loop (i : nat) (seen : gmap string nat) (stages : list Stage) : list ValidationError :=
  match stages with
  | [] => []
  | stage :: stages' =>
      match seen !! st_Name stage with
      | Some existing =>
          [mkValidationError (stage_field i "name") (MsgDuplicateName (st_Name stage) existing)]
      | None => []
      end ++ stage_names_loop (S i) (<[st_Name stage := i]> seen) stages'
  end.

(* go: internal/pipeline/validator.go func PipelineValidator.validateStageNames *)
Definition validateStageNames (stages : list Stage) : list ValidationError := stage_names_loop 0 ∅ stages.

(* go: internal/pipeline/validator.go func PipelineValidator.validateResourceLimits *)
Definition validateResourceLimits (v : PipelineValidator) (stages : list Stage) : list ValidationError :=
  concat (imap (fun i stage =>
    when (maxTimeout v <? st_Timeout stage) (stage_field i "timeout")
      (MsgStageTimeout (st_Timeout stage) (maxTimeout v))) stages).

(** ** The search for a cycle *)

(* go: internal/pipeline/validator.go @202-209 PipelineValidator.detectCycles *)
Definition dep_graph (stages : list Stage) : list (list nat) :=
  let stageIndex := stage_index stages in
  (fun s => omap (fun dep => stageIndex !! dep) (st_DependsOn s)) <$> stages.

(** The colour of a stage: 0 not reached, 1 being explored, 2 done. *)
Definition color_of (color : list Z) (u : nat) : Z := default 0 (color !! u).

(** The loop of the recursive closure [dfs] over the successors of [u], with the recursive
    call as [visit]: a successor being explored sets the flag and ends the call at
    once, so that [u] keeps colour 1. *)
(* go: internal/pipeline/validator.go @217-226 PipelineValidator.detectCycles *)
Fixpoint successors (visit : list Z * bool -> nat -> option (list Z * bool)) (u : nat) (vs : list nat)
  (st : list Z * bool) : option (list Z * bool) :=
  match vs with
  | [] => Some (<[u := 2]> st.1, st.2)
  | v :: vs' =>
      if color_of st.1 v =? 1 then Some (st.1, true)
      else if color_of st.1 v =? 0
      then match visit st v with
           | Some st' => successors visit u vs' st'
           | None => None
           end
      else successors visit u vs' st
  end.

(** The colours and the flag [hasCycle] after [dfs u]. *)
(* go: internal/pipeline/validator.go @215-227 PipelineValidator.detectCycles *)
Fixpoint dfs (fuel : nat) (graph : list (list nat)) (st : list Z * bool) (u : nat) : option (list Z * bool) :=
  match fuel with
  | O => None
  | S fuel' => successors (dfs fuel' graph) u (default [] (graph !! u)) (<[u := 1]> st.1, st.2)
  end.

(** The loop over all stages; it stops at the first exploration that finds a cycle. *)
(* go: internal/pipeline/validator.go @229-241 PipelineValidator.detectCycles *)
Fixpoint dfs_all (fuel : nat) (graph : list (list nat)) (us : list nat) (color : list Z) : option bool :=
  match us with
  | [] => Some false
  | i :: us' =>
      if color_of color i =? 0
      then match dfs fuel graph (color, false) i with
           | Some (color', true) => Some true
           | Some (color', false) => dfs_all fuel graph us' color'
           | None => None
           end
      else dfs_all fuel graph us' color
  end.

(* go: internal/pipeline/validator.go func PipelineValidator.detectCycles *)
Definition detectCycles (stages : list Stage) : option (list ValidationError) :=
  let n := length stages in
  match dfs_all n (dep_graph stages) (seq 0 n) (replicate n 0) with
  | Some true => Some [mkValidationError "stages" (MsgText "circular dependency detected in stage graph")]
  | Some false => Some []
  | None => None
  end.

(* go: internal/pipeline/validator.go func PipelineValidator.extractStages *)
Definition extractStages (p : Pipeline) : list Stage := GetStagesFromPipeline p.

(** The checks of [ValidatePipeline] on the extracted stages. *)
(* go: internal/pipeline/validator.go @69-82 PipelineValidator.ValidatePipeline *)
Definition stage_errors (v : PipelineValidator) (stages : list Stage) : option (list ValidationError) :=
  match detectCycles stages with
  | None => None
  | Some cycleErrs =>
      Some (validateStages v stages ++ validateDependencies stages ++ cycleErrs
              ++ validateStageNames stages ++ validateResourceLimits v stages)
  end.

(** [pipeline] is a pointer; nil is [None]. *)
(* go: internal/pipeline/validator.go func PipelineValidator.ValidatePipeline *)
Definition ValidatePipeline (v : PipelineValidator) (pipeline : option Pipeline) : option ValidationResult :=
  match pipeline with
  | None => Some (mkValidationResult false [mkValidationError "pipeline" (MsgText "pipeline must not be nil")])
  | Some p =>
      match stage_errors v (extractStages p) with
      | None => None
      | Some stageErrs =>
          let errors := validateName (p_Name p) ++ validateConfig v (p_Config p) ++ stageErrs in
          Some (mkValidationResult (Nat.eqb (length errors) 0) errors)
      end
  end.

(** ** The search finds a cycle exactly when there is one *)

Lemma length_filter_mono {A} (P Q : A -> Prop) `{forall x, Decision (P x), forall x, Decision (Q x)} (l : list A) :
  (forall x, P x -> Q x) -> (length (filter P l) <= length (filter Q l))%nat.
Proof.
  intros Hpq. induction l as [|x l IH]; [done|]. rewrite !filter_cons.
  destruct (decide (P x)), (decide (Q x)); simpl; try lia. exfalso; auto.
Qed.

Lemma length_filter_strict {A} (P Q : A -> Prop) `{forall x, Decision (P x), forall x, Decision (Q x)} (l : list A) x :
  (forall x, P x -> Q x) -> x ∈ l -> Q x -> ~ P x -> (length (filter P l) < length (filter Q l))%nat.
Proof.
  intros Hpq Hx HQ HP. induction l as [|y l IH]; [inversion Hx|]. rewrite !filter_cons.
  apply elem_of_cons in Hx as [<-|Hx].
  - rewrite decide_False, decide_True by done. simpl. pose proof (length_filter_mono P Q l Hpq). lia.
  - specialize (IH Hx). destruct (decide (P y)), (decide (Q y)); simpl; try lia. exfalso; auto.
Qed.

Section search.
Context (G : list (list nat)) (HG : forall u vs v, G !! u = Some vs -> v ∈ vs -> (v < length G)%nat).

Definition succ_rel (u v : nat) : Prop := exists vs, G !! u = Some vs /\ v ∈ vs.

(** The stages not reached yet. *)
Definition whites (c : list Z) : nat := length (filter (fun x => c !! x = Some 0) (seq 0 (length G))).

(** Colours are in range, and what a done stage reaches is done and cycle free. *)
Record good (c : list Z) : Prop := {
  gd_range : forall x k, c !! x = Some k -> k = 0 \/ k = 1 \/ k = 2;
  gd_closed : forall x y, c !! x = Some 2 -> succ_rel x y -> c !! y = Some 2;
  gd_acyclic : forall x, c !! x = Some 2 -> ~ tc succ_rel x x
}.

Lemma good_reach c x y : good c -> c !! x = Some 2 -> rtc succ_rel x y -> c !! y = Some 2.
Proof. intros Hg Hx Hr. induction Hr; eauto using gd_closed. Qed.

(** No colour turns back to 0, and the set of colours keeps its length. *)
Definition grown (c c' : list Z) : Prop :=
  length c' = length c /\ forall x, c' !! x = Some 0 -> c !! x = Some 0.

Lemma grown_trans c1 c2 c3 : grown c1 c2 -> grown c2 c3 -> grown c1 c3.
Proof. intros [L1 H1] [L2 H2]. split; [congruence|auto]. Qed.

Lemma grown_whites c c' : grown c c' -> (whites c' <= whites c)%nat.
Proof. intros [_ H]. by apply length_filter_mono. Qed.

(** What a call that starts at [u], with the stages being explored all reaching [u],
    leaves behind: a cycle if it sets the flag, else the stage done. *)
Definition found (c : list Z) (u : nat) (c' : list Z) (h' : bool) : Prop :=
  (h' = true -> exists x, tc succ_rel x x)
  /\ (h' = false -> good c' /\ (forall x, x <> u -> c' !! x = Some 1 <-> c !! x = Some 1)
                    /\ (forall x, c !! x = Some 2 -> c' !! x = Some 2) /\ c' !! u = Some 2).

Definition visit_ok (visit : list Z * bool -> nat -> option (list Z * bool)) (f : nat) : Prop :=
  forall c h v, length c = length G -> c !! v = Some 0 -> (whites c <= f)%nat ->
  exists c' h', visit (c, h) v = Some (c', h') /\ grown c c' /\ (h = true -> h' = true)
    /\ (h = false -> good c -> (forall g, c !! g = Some 1 -> rtc succ_rel g v) -> found c v c' h').

Lemma color_of_eq c v k : color_of c v = k -> (v < length c)%nat -> c !! v = Some k.
Proof.
  unfold color_of. intros Hk Hv. apply lookup_lt_is_Some_2 in Hv as [k' Hk']. rewrite Hk' in *. simpl in Hk. congruence.
Qed.

(** The last step of a call: all successors of [u] are done. *)
Lemma good_finish c u : good c -> c !! u = Some 1 -> (u < length c)%nat ->
  (forall y, succ_rel u y -> c !! y = Some 2) -> good (<[u := 2]> c).
Proof.
  intros Hg Hu Hlen Hsucc. split.
  - intros x k. rewrite list_lookup_insert_Some. intros [(_ & <- & _)|[_ Hx]]; [auto|by eapply gd_range].
  - intros x y. rewrite list_lookup_insert_Some. intros [(-> & _ & _)|[_ Hx]] Hxy.
    + destruct (decide (x = y)) as [->|]; [by rewrite list_lookup_insert_eq|]. rewrite list_lookup_insert_ne by done. auto.
    + pose proof (gd_closed c Hg x y Hx Hxy). destruct (decide (u = y)) as [->|]; [congruence|].
      by rewrite list_lookup_insert_ne.
  - intros x. rewrite list_lookup_insert_Some. intros [(-> & _ & _)|[_ Hx]] Hc; [|by apply (gd_acyclic c Hg x)].
    assert (exists y, succ_rel x y /\ rtc succ_rel y x) as (y & Hxy & Hyx).
    { inversion Hc; subst; eauto using tc_rtc. }
    pose proof (good_reach c y x Hg (Hsucc y Hxy) Hyx). congruence.
Qed.

(** The state inside a call: [u] is being explored and its successors [pre] are done. *)
Record exploring (c : list Z) (u : nat) (pre : list nat) : Prop := {
  ex_good : good c;
  ex_gray : forall g, c !! g = Some 1 -> rtc succ_rel g u;
  ex_self : c !! u = Some 1;
  ex_done : forall v, v ∈ pre -> c !! v = Some 2
}.

Lemma exploring_visited c u pre v c1 :
  exploring c u pre -> succ_rel u v -> c !! v = Some 0 -> found c v c1 false -> exploring c1 u (pre ++ [v]).
Proof.
  intros [Hg Hgray Hu Hpre] Huv Hv [_ Hf]. destruct (Hf eq_refl) as (Hg' & Hgray' & Hblack & Hv2).
  assert (u <> v) by congruence. split; [done| |by apply Hgray'|].
  - intros g Hg1. apply Hgray. destruct (decide (g = v)) as [->|]; [congruence|by apply Hgray'].
  - intros x [Hx| ->%list_elem_of_singleton]%elem_of_app; auto.
Qed.

Lemma found_trans c u v c1 c' h' :
  c !! v = Some 0 -> found c v c1 false -> found c1 u c' h' -> found c u c' h'.
Proof.
  intros Hv [_ Hf] [Hcyc Hf']. split; [done|]. intros ->.
  destruct (Hf eq_refl) as (Hg1 & Hgray1 & Hblack1 & Hv2).
  destruct (Hf' eq_refl) as (Hg2 & Hgray2 & Hblack2 & Hu2).
  split_and!; [done| |auto|done]. intros x Hx. rewrite Hgray2 by done.
  destruct (decide (x = v)) as [->|]; [|by apply Hgray1]. split; congruence.
Qed.

Lemma successors_ok visit f u : visit_ok visit f -> forall vs pre c h,
  G !! u = Some (pre ++ vs) -> length c = length G -> (whites c <= f)%nat ->
  exists c' h', successors visit u vs (c, h) = Some (c', h') /\ grown c c' /\ (h = true -> h' = true)
    /\ (h = false -> exploring c u pre -> found c u c' h').
Proof using HG.
  intros Hvisit. induction vs as [|v vs IH]; intros pre c h Hadj Hlen Hw; cbn [successors fst snd].
  - exists (<[u := 2]> c), h. assert (u < length c)%nat by (rewrite Hlen; by eapply lookup_lt_Some).
    split; [done|]. split; [|split; [done|]].
    + split; [apply length_insert|]. intros x. rewrite list_lookup_insert_Some. naive_solver.
    + intros -> [Hg Hgray Hu Hpre]. split; [done|]. intros _. rewrite app_nil_r in Hadj. split_and!.
      * apply good_finish; [done..|]. intros y (ws & Hws & Hy). simplify_eq. auto.
      * intros x Hx. by rewrite list_lookup_insert_ne.
      * intros x Hx. destruct (decide (u = x)) as [->|]; [by rewrite list_lookup_insert_eq|by rewrite list_lookup_insert_ne].
      * by rewrite list_lookup_insert_eq.
  - assert (v < length G)%nat as Hv by (eapply HG; [exact Hadj|set_solver]).
    assert (succ_rel u v) as Huv by (exists (pre ++ v :: vs); set_solver).
    assert (G !! u = Some ((pre ++ [v]) ++ vs)) as Hadj' by (by rewrite <- app_assoc).
    destruct (Z.eqb_spec (color_of c v) 1) as [H1|H1]; [|destruct (Z.eqb_spec (color_of c v) 0) as [H0|H0]].
    + apply color_of_eq in H1; [|lia]. exists c, true. split_and!; [done|by split|done|].
      intros _ [_ Hgray _ _]. split; [|done]. intros _.
      exists v. eapply tc_rtc_l; [by apply Hgray|by apply tc_once].
    + apply color_of_eq in H0; [|lia].
      destruct (Hvisit c h v Hlen H0 Hw) as (c1 & h1 & -> & Hgr & Hmono & Hfound).
      destruct (IH (pre ++ [v]) c1 h1) as (c' & h' & -> & Hgr' & Hmono' & Hfound');
        [done|destruct Hgr; congruence|pose proof (grown_whites _ _ Hgr); lia|].
      exists c', h'. split_and!; [done|by eapply grown_trans|auto|].
      intros -> Hex. assert (found c v c1 h1) as Hf
        by (apply Hfound; [done|apply Hex|intros g Hgg; eapply rtc_r; [by apply (ex_gray _ _ _ Hex)|done]]).
      destruct h1; [rewrite (Hmono' eq_refl); split; [intros _; by apply Hf|done]|].
      apply (found_trans c u v c1); [done|done|]. apply Hfound'; [done|]. by apply (exploring_visited c u pre v).
    + destruct (IH (pre ++ [v]) c h) as (c' & h' & Hs & Hgr & Hmono & Hfound); [done..|].
      exists c', h'. split_and!; [done..|]. intros Hh [Hg Hgray Hu Hpre]. apply Hfound; [done|]. split; [done..|].
      intros x [Hx| ->%list_elem_of_singleton]%elem_of_app; [auto|].
      assert (v < length c)%nat as Hvc by lia. apply lookup_lt_is_Some_2 in Hvc as [k Hk].
      unfold color_of in H1, H0. rewrite Hk in H1, H0. simpl in *.
      destruct (gd_range c Hg v k Hk) as [?|[?|?]]; congruence.
Qed.

Lemma exploring_start c u : good c -> (forall g, c !! g = Some 1 -> rtc succ_rel g u) -> c !! u = Some 0 ->
  exploring (<[u := 1%Z]> c) u [].
Proof.
  intros Hg Hgray Hu. assert (u < length c)%nat as Hlt by (by eapply lookup_lt_Some). split.
  - split.
    + intros x k. rewrite list_lookup_insert_Some. intros [(_ & <- & _)|[_ Hx]]; [auto|by eapply gd_range].
    + intros x y. rewrite list_lookup_insert_Some. intros [(_ & ? & _)|[_ Hx]] Hxy; [done|].
      pose proof (gd_closed c Hg x y Hx Hxy). rewrite list_lookup_insert_ne; [done|congruence].
    + intros x. rewrite list_lookup_insert_Some. intros [(_ & ? & _)|[_ Hx]]; [done|by apply gd_acyclic with c].
  - intros g. rewrite list_lookup_insert_Some. intros [(-> & _ & _)|[_ Hx]]; [done|auto].
  - by rewrite list_lookup_insert_eq.
  - intros v Hv. inversion Hv.
Qed.

Lemma dfs_ok fuel : visit_ok (dfs fuel G) fuel.
Proof using HG.
  induction fuel as [|fuel IH]; intros c h u Hlen Hu Hw.
  - exfalso. assert (u < length G)%nat by (rewrite <- Hlen; by eapply lookup_lt_Some).
    assert (u ∈ filter (fun x => c !! x = Some 0) (seq 0 (length G))) as Hin
      by (apply list_elem_of_filter; split; [done|]; apply elem_of_seq; lia).
    unfold whites in Hw. destruct (filter _ _); [inversion Hin|simpl in Hw; lia].
  - assert (u < length c)%nat as Hlt by (by eapply lookup_lt_Some).
    destruct (lookup_lt_is_Some_2 G u) as [vs Hvs]; [lia|]. cbn [dfs fst snd]. rewrite Hvs. simpl.
    set (c1 := <[u := 1%Z]> c).
    assert (grown c c1) as Hgr.
    { split; [apply length_insert|]. intros x. unfold c1. rewrite list_lookup_insert_Some. naive_solver. }
    assert (whites c1 < whites c)%nat as Hw1.
    { apply (length_filter_strict _ _ _ u); [intros x; apply Hgr|apply elem_of_seq; lia|done|].
      unfold c1. by rewrite list_lookup_insert_eq. }
    destruct (successors_ok (dfs fuel G) fuel u IH vs [] c1 h Hvs)
      as (c' & h' & -> & Hgr' & Hmono & Hfound); [unfold c1; by rewrite length_insert|lia|].
    exists c', h'. split_and!; [done|by eapply grown_trans|done|].
    intros -> Hg Hgray. destruct (Hfound eq_refl) as [Hcyc Hf]; [by apply exploring_start|].
    split; [done|]. intros ->. destruct (Hf eq_refl) as (Hg' & Hgray' & Hblack & Hu2). split_and!; [done| | |done].
    + intros x Hx. rewrite Hgray' by done. unfold c1. by rewrite list_lookup_insert_ne.
    + intros x Hx. apply Hblack. unfold c1. rewrite list_lookup_insert_ne; [done|congruence].
Qed.

(** The loop over the stages, with nothing being explored in between. *)
Lemma dfs_all_ok us : forall c,
  length c = length G -> good c -> (forall g, c !! g <> Some 1) -> (forall u, u ∈ us -> (u < length G)%nat) ->
  exists b, dfs_all (length G) G us c = Some b
    /\ (b = true -> exists x, tc succ_rel x x)
    /\ (b = false -> forall x, x ∈ us \/ c !! x = Some 2 -> ~ tc succ_rel x x).
Proof using HG.
  induction us as [|u us IH]; intros c Hlen Hg Hgray Hus; cbn [dfs_all].
  - exists false. split_and!; [done|done|]. intros _ x [Hx|Hx]; [inversion Hx|by apply (gd_acyclic c Hg)].
  - assert (u < length c)%nat as Hu by (rewrite Hlen; apply Hus; left).
    destruct (Z.eqb_spec (color_of c u) 0) as [H0|H0].
    + apply color_of_eq in H0; [|done].
      destruct (dfs_ok (length G) c false u Hlen H0) as (c' & h' & -> & Hgr & _ & Hf).
      { unfold whites. etrans; [apply length_filter|]. by rewrite length_seq. }
      destruct Hf as [Hcyc Hf]; [done|done|intros g Hg1; by destruct (Hgray g)|].
      destruct h'; [exists true; split_and!; [done|auto|done]|].
      destruct (Hf eq_refl) as (Hg' & Hgray' & Hblack & Hu2).
      destruct (IH c') as (b & -> & Hb1 & Hb2); [destruct Hgr; congruence|done| |intros; apply Hus; by right|].
      * intros g Hg1. destruct (decide (g = u)) as [->|]; [congruence|]. apply (Hgray g). by apply Hgray'.
      * exists b. split_and!; [done..|]. intros Hb x [[->|Hx]%elem_of_cons|Hx]; apply Hb2; auto.
    + destruct (IH c) as (b & -> & Hb1 & Hb2); [done..|intros; apply Hus; by right|].
      exists b. split_and!; [done..|]. intros Hb x [[->|Hx]%elem_of_cons|Hx]; apply Hb2; auto.
      right. apply lookup_lt_is_Some_2 in Hu as [k Hk]. unfold color_of in H0. rewrite Hk in H0. simpl in H0.
      destruct (gd_range c Hg u k Hk) as [?|[ -> | -> ]]; [congruence|by destruct (Hgray u)|done].
Qed.

Lemma dfs_all_correct :
  exists b, dfs_all (length G) G (seq 0 (length G)) (replicate (length G) 0) = Some b
    /\ (b = true <-> exists x, tc succ_rel x x).
Proof using HG.
  destruct (dfs_all_ok (seq 0 (length G)) (replicate (length G) 0)) as (b & Hb & H1 & H2).
  - apply length_replicate.
  - split; [intros x k [-> _]%lookup_replicate; auto|intros x y [? _]%lookup_replicate; done
           |intros x [? _]%lookup_replicate; done].
  - intros g [? _]%lookup_replicate. done.
  - intros u Hu%elem_of_seq. lia.
  - exists b. split; [done|]. split; [done|]. intros [x Hx]. destruct b; [done|exfalso].
    apply (H2 eq_refl x); [|done]. left. apply elem_of_seq.
    assert (exists y, succ_rel x y) as (y & vs & Hvs & _) by (inversion Hx; eauto).
    apply lookup_lt_Some in Hvs. lia.
Qed.

End search.

(** ** Names and positions *)

(** Stage [j] is the last one called [name]. *)
Definition last_named (stages : list Stage) (name : string) (j : nat) : Prop :=
  (exists s, stages !! j = Some s /\ st_Name s = name)
  /\ forall k s, stages !! k = Some s -> st_Name s = name -> (k <= j)%nat.

(** Stage [i] depends on stage [j]. *)
Definition depends (stages : list Stage) (i j : nat) : Prop :=
  exists s dep, stages !! i = Some s /\ dep ∈ st_DependsOn s /\ last_named stages dep j.

Lemma stage_index_snoc stages s :
  stage_index (stages ++ [s]) = <[st_Name s := length stages]> (stage_index stages).
Proof. unfold stage_index. rewrite imap_app, foldl_app. simpl. by rewrite Nat.add_0_r. Qed.

Lemma lookup_snoc_inv {A} (l : list A) x i y :
  (l ++ [x]) !! i = Some y -> l !! i = Some y \/ (i = length l /\ y = x).
Proof. rewrite lookup_app_Some. intros [?|[? Hi]]; [by left|right]. apply list_lookup_singleton_Some in Hi. lia || (destruct Hi; split; [lia|done]). Qed.

Lemma stage_index_spec stages name j : stage_index stages !! name = Some j <-> last_named stages name j.
Proof.
  revert j. induction stages as [|s stages IH] using rev_ind; intros j.
  { split; [done|]. intros [(s & Hs & _) _]. done. }
  assert ((stages ++ [s]) !! length stages = Some s) as Hlast by (by rewrite lookup_app_r, Nat.sub_diag by lia).
  rewrite stage_index_snoc, lookup_insert_Some. split.
  - intros [[Hn <-]|[Hn Hj]].
    + split; [by exists s|]. intros k s' Hk _. apply lookup_lt_Some in Hk. rewrite length_app in Hk. simpl in Hk. lia.
    + apply IH in Hj as [(s' & Hs' & Hn') Hmax]. split.
      * exists s'. split; [by apply lookup_app_l_Some|done].
      * intros k s'' [Hk|[-> ->]]%lookup_snoc_inv Hn''; [by eapply Hmax|done].
  - intros [(s' & Hs' & Hn') Hmax]. destruct (decide (st_Name s = name)) as [Hn|Hn].
    + left. split; [done|]. apply lookup_snoc_inv in Hs' as [Hs'|[-> _]]; [|done].
      specialize (Hmax _ _ Hlast Hn). apply lookup_lt_Some in Hs'. lia.
    + right. split; [done|]. apply IH. apply lookup_snoc_inv in Hs' as [Hs'|[_ ->]]; [|done].
      split; [by exists s'|]. intros k s'' Hk Hn''. eapply Hmax; [by apply lookup_app_l_Some|done].
Qed.

Lemma stage_index_is_Some stages name : is_Some (stage_index stages !! name) <-> name ∈ st_Name <$> stages.
Proof.
  induction stages as [|s stages IH] using rev_ind; [split; [by intros []|intros Hin; inversion Hin]|].
  rewrite stage_index_snoc, lookup_insert_is_Some', IH, fmap_app, elem_of_app. simpl.
  rewrite list_elem_of_singleton. naive_solver.
Qed.

Lemma succ_rel_depends stages i j : succ_rel (dep_graph stages) i j <-> depends stages i j.
Proof.
  unfold succ_rel, depends, dep_graph. split.
  - intros (vs & Hvs & Hj). rewrite list_lookup_fmap in Hvs.
    destruct (stages !! i) as [s|] eqn:Hi; simplify_eq/=.
    apply list_elem_of_omap in Hj as (dep & Hdep & Hj). exists s, dep. by rewrite <- stage_index_spec.
  - intros (s & dep & Hs & Hdep & Hj). exists (omap (fun dep => stage_index stages !! dep) (st_DependsOn s)).
    rewrite list_lookup_fmap, Hs. split; [done|]. apply list_elem_of_omap. exists dep.
    by rewrite stage_index_spec.
Qed.

Lemma dep_graph_length stages : length (dep_graph stages) = length stages.
Proof. apply length_fmap. Qed.

Lemma dep_graph_wf stages u vs v : dep_graph stages !! u = Some vs -> v ∈ vs -> (v < length (dep_graph stages))%nat.
Proof.
  intros Hu Hv. assert (succ_rel (dep_graph stages) u v) as Hr by (by exists vs).
  apply succ_rel_depends in Hr as (s & dep & _ & _ & (s' & Hs' & _) & _).
  rewrite dep_graph_length. by eapply lookup_lt_Some.
Qed.

Lemma tc_iff {A} (R S : relation A) x y : (forall a b, R a b <-> S a b) -> tc R x y <-> tc S x y.
Proof. intros HRS. split; apply (tc_congruence (fun z => z)); naive_solver. Qed.

Lemma detectCycles_spec stages :
  exists errs, detectCycles stages = Some errs /\ (errs = [] <-> forall i, ~ tc (depends stages) i i).
Proof.
  destruct (dfs_all_correct (dep_graph stages) (dep_graph_wf stages)) as (b & Hb & Hspec).
  rewrite dep_graph_length in Hb. unfold detectCycles. rewrite Hb. destruct b; eexists; (split; [done|]).
  - split; [done|]. intros Hno. destruct Hspec as [Hs _]. destruct (Hs eq_refl) as [x Hx].
    exfalso. apply (Hno x). eapply tc_iff; [|exact Hx]. intros. symmetry. apply succ_rel_depends.
  - split; [intros _|done]. intros i Hi. destruct Hspec as [_ Hs]. discriminate Hs. exists i.
    eapply tc_iff; [|exact Hi]. intros. apply succ_rel_depends.
Qed.

Lemma concat_imap_nil {A B} (f : nat -> A -> list B) l :
  concat (imap f l) = [] <-> forall i x, l !! i = Some x -> f i x = [].
Proof.
  revert f. induction l as [|x l IH]; intros f; [split; [done|done]|].
  rewrite imap_cons. cbn [concat]. rewrite app_nil, IH. split.
  - intros [H1 H2] [|i] y Hy; simplify_eq/=; [done|]. by apply H2.
  - intros Hall. split; [by apply (Hall 0%nat x)|]. intros i y Hy. by apply (Hall (S i)).
Qed.

Lemma validateDependencies_nil stages :
  validateDependencies stages = []
    <-> forall s dep, s ∈ stages -> dep ∈ st_DependsOn s -> dep ∈ st_Name <$> stages.
Proof.
  unfold validateDependencies. rewrite concat_imap_nil. split.
  - intros Hall s dep [i Hi]%list_elem_of_lookup Hdep. specialize (Hall i s Hi). rewrite omap_nil in Hall.
    specialize (Hall dep Hdep). apply stage_index_is_Some.
    destruct (stage_index stages !! dep) eqn:He; [eauto|done].
  - intros Hall i s Hi. apply omap_nil. intros dep Hdep.
    assert (is_Some (stage_index stages !! dep)) as [j ->]; [|done].
    apply stage_index_is_Some. eapply Hall; [by eapply list_elem_of_lookup_2|done].
Qed.

Lemma stage_names_loop_nil stages : forall i seen,
  stage_names_loop i seen stages = []
    <-> NoDup (st_Name <$> stages) /\ forall s, s ∈ stages -> seen !! st_Name s = None.
Proof.
  induction stages as [|s stages IH]; intros i seen; cbn [stage_names_loop].
  { split; [|done]. split; [constructor|]. intros s Hs. inversion Hs. }
  rewrite app_nil, IH, fmap_cons, NoDup_cons, list_elem_of_fmap. split.
  - intros [H1 [Hnd Hseen]]. destruct (seen !! st_Name s) eqn:Hs; [done|]. split_and!; [|done|].
    + intros (s' & Hn & Hin). specialize (Hseen s' Hin). rewrite <- Hn, lookup_insert_eq in Hseen. done.
    + intros s' [->|Hin]%elem_of_cons; [done|]. specialize (Hseen s' Hin).
      by apply lookup_insert_None in Hseen as [? _].
  - intros [[Hn Hnd] Hseen]. rewrite (Hseen s) by left. split_and!; [done|done|].
    intros s' Hin. apply lookup_insert_None. split; [apply Hseen; by right|]. intros Heq. apply Hn. eauto.
Qed.

(** Three stages in a row, and the same with the first waiting for the last. *)
Definition mk_stage (name : string) (deps : list string) : Stage :=
  mkStage 1 name "http" (task_config "" "" "" "" "" "" false) 0 false deps 0 0.
Definition chain : list Stage := [mk_stage "a" []; mk_stage "b" ["a"]; mk_stage "c" ["a"; "b"]].
Definition ring : list Stage := [mk_stage "a" ["c"]; mk_stage "b" ["a"]; mk_stage "c" ["b"]].

Example chain_ring :
  detectCycles chain = Some [] /\ (length <$> detectCycles ring) = Some 1%nat.
Proof. vm_compute. done. Qed.

Definition some_pipeline : Pipeline := NewPipeline 7 100 0 "nightly" 0.

(** ** Properties *)

(** C18: the depth-first search of [detectCycles] terminates and reports an error exactly when
    some stage depends on itself through the dependencies (where a name stands for the
    last stage that has it); [validateDependencies] is silent exactly when every
    dependency names a stage, and [validateStageNames] when no two stages share a name. *)
Theorem stage_checks_correct (stages : list Stage) :
  (exists errs, detectCycles stages = Some errs /\ (errs = [] <-> forall i, ~ tc (depends stages) i i))
  /\ (validateDependencies stages = []
        <-> forall s dep, s ∈ stages -> dep ∈ st_DependsOn s -> dep ∈ st_Name <$> stages)
  /\ (validateStageNames stages = [] <-> NoDup (st_Name <$> stages)).
Proof.
  split_and!; [apply detectCycles_spec|apply validateDependencies_nil|].
  unfold validateStageNames. rewrite stage_names_loop_nil. split; [by intros [? _]|done].
Qed.

(** [ValidatePipeline] never declares a pipeline valid: the stages of a stored pipeline
    are always the empty list, so "pipeline must have at least one stage" is among the
    errors for every pipeline and every validator. *)
Theorem ValidatePipeline_never_valid (v : PipelineValidator) (pipeline : option Pipeline) :
  exists r, ValidatePipeline v pipeline = Some r /\ Valid r = false
    /\ (pipeline <> None ->
        mkValidationError "stages" (MsgText "pipeline must have at least one stage") ∈ Errors r).
Proof.
  destruct pipeline as [p|]; [|eexists; split; [done|]; split; [done|by intros []]].
  eexists. split; [done|]. simpl. split; [|intros _; set_solver].
  destruct (_ ++ _) as [|e es] eqn:He; [|done]. by apply app_eq_nil in He as [_ [_ ?]%app_eq_nil].
Qed.

Lemma ValidatePipeline_never_valid_witness :
  exists r, ValidatePipeline NewPipelineValidator (Some some_pipeline) = Some r /\ Valid r = false
    /\ mkValidationError "stages" (MsgText "pipeline must have at least one stage") ∈ Errors r.
Proof.
  destruct (ValidatePipeline_never_valid NewPipelineValidator (Some some_pipeline)) as (r & H1 & H2 & H3).
  exists r. split_and!; [exact H1|exact H2|]. apply H3. discriminate.
Defined.
