(* ===== verification/PipelineBuilder.v ===== *)
(** * The pipeline builder: internal/pipeline/builder.go

    The fluent builder as a state: the pipeline under construction, its stages and the
    errors collected.  A setter that rejects its argument appends an error and changes
    nothing else.  The map of tags is a reference into a store, because [Clone] copies
    the pipeline but not the map.  What [uuid.New], the clock and [make] return are
    arguments.  [Build] returns the builder's own pipeline, so its result is the state at
    the moment of the call; the capacity of the slices of dependencies, which two
    clones also share, is not modelled. *)

From S2P Require Import Prelude GoFloat PipelineModels.

(** ** State *)

(** The messages of the rejected setters, with the arguments of their formats. *)
Inductive BuilderError : Type :=
| NameEmpty
| InvalidPipelineStatus (s : string)
| MaxRetriesNegative
| TimeoutNotPositive
| ConcurrencyNotPositive
| PriorityOutOfRange.

(** The errors of [Build]. *)
Inductive BuildError : Type :=
| BuildFailed (errs : list BuilderError)
| NameRequired
| NoStages.

(* go: internal/pipeline/builder.go type PipelineBuilder *)
Record PipelineBuilder := mkPipelineBuilder {
  b_pipeline : Pipeline;
  b_stages : list Stage;
  b_errors : list BuilderError
}.

(** The maps of tags by reference. *)
Definition tag_store := gmap N (gmap string string).

Definition set_pipeline (f : Pipeline -> Pipeline) (b : PipelineBuilder) : PipelineBuilder :=
  mkPipelineBuilder (f (b_pipeline b)) (b_stages b) (b_errors b).
Definition set_stages (f : list Stage -> list Stage) (b : PipelineBuilder) : PipelineBuilder :=
  mkPipelineBuilder (b_pipeline b) (f (b_stages b)) (b_errors b).
Definition reject (e : BuilderError) (b : PipelineBuilder) : PipelineBuilder :=
  mkPipelineBuilder (b_pipeline b) (b_stages b) (b_errors b ++ [e]).

Definition with_name (n : string) (p : Pipeline) : Pipeline :=
  mkPipeline (p_ID p) n (p_Description p) (p_Status p) (p_Version p) (p_Config p) (p_Tags p)
    (p_CreatedBy p) (p_CreatedAt p) (p_UpdatedAt p) (p_DeletedAt p).
Definition with_description (d : string) (p : Pipeline) : Pipeline :=
  mkPipeline (p_ID p) (p_Name p) d (p_Status p) (p_Version p) (p_Config p) (p_Tags p)
    (p_CreatedBy p) (p_CreatedAt p) (p_UpdatedAt p) (p_DeletedAt p).
Definition with_status (s : string) (p : Pipeline) : Pipeline :=
  mkPipeline (p_ID p) (p_Name p) (p_Description p) s (p_Version p) (p_Config p) (p_Tags p)
    (p_CreatedBy p) (p_CreatedAt p) (p_UpdatedAt p) (p_DeletedAt p).
Definition map_config (f : PipelineConfig -> PipelineConfig) (p : Pipeline) : Pipeline :=
  mkPipeline (p_ID p) (p_Name p) (p_Description p) (p_Status p) (p_Version p) (f (p_Config p)) (p_Tags p)
    (p_CreatedBy p) (p_CreatedAt p) (p_UpdatedAt p) (p_DeletedAt p).
Definition with_tags (t : option N) (p : Pipeline) : Pipeline :=
  mkPipeline (p_ID p) (p_Name p) (p_Description p) (p_Status p) (p_Version p) (p_Config p) t
    (p_CreatedBy p) (p_CreatedAt p) (p_UpdatedAt p) (p_DeletedAt p).
Definition with_created_by (u : UUID) (p : Pipeline) : Pipeline :=
  mkPipeline (p_ID p) (p_Name p) (p_Description p) (p_Status p) (p_Version p) (p_Config p) (p_Tags p)
    u (p_CreatedAt p) (p_UpdatedAt p) (p_DeletedAt p).

(** The five fields of a configuration that have a setter. *)
Definition cfg_update (r t c p : Z) (q : string) (g : PipelineConfig) : PipelineConfig :=
  mkPipelineConfig r t c p q (ExchangeName g) (RoutingKey g) (ErrorHandler g) (SuccessHandler g)
    (DLQEnabled g) (DLQName g) (RetryBackoffMS g) (MaxBackoffMS g) (BackoffMultiplier g)
    (Environment g) (Metadata g).

(** ** Operations *)

(* go: internal/pipeline/builder.go func NewPipelineBuilder *)
Definition NewPipelineBuilder (id : UUID) (now : Z) (tags : N) (name : string) (h : tag_store)
    : tag_store * PipelineBuilder :=
  (<[tags := ∅]> h, mkPipelineBuilder (NewPipeline id now tags name uuid_Nil) [] []).

(* go: internal/pipeline/builder.go func NewPipelineBuilderFromExisting *)
Definition NewPipelineBuilderFromExisting (p : Pipeline) : PipelineBuilder :=
  mkPipelineBuilder p (GetStagesFromPipeline p) [].

(* go: internal/pipeline/builder.go func PipelineBuilder.SetName *)
Definition SetName (name : string) (b : PipelineBuilder) : PipelineBuilder :=
  if String.eqb name "" then reject NameEmpty b else set_pipeline (with_name name) b.

(* go: internal/pipeline/builder.go func PipelineBuilder.SetDescription *)
Definition SetDescription (desc : string) (b : PipelineBuilder) : PipelineBuilder :=
  set_pipeline (with_description desc) b.

(* go: internal/pipeline/builder.go func PipelineBuilder.SetStatus *)
Definition SetStatus (status : string) (b : PipelineBuilder) : PipelineBuilder :=
  if negb (PipelineStatus_IsValid status) then reject (InvalidPipelineStatus status) b
  else set_pipeline (with_status status) b.

(* go: internal/pipeline/builder.go func PipelineBuilder.WithConfig *)
Definition WithConfig (cfg : PipelineConfig) (b : PipelineBuilder) : PipelineBuilder :=
  set_pipeline (map_config (fun _ => cfg)) b.

(** The modifier is handed a pointer to the configuration: a function on it. *)
(* go: internal/pipeline/builder.go func PipelineBuilder.WithConfigModifier *)
Definition WithConfigModifier (fn : PipelineConfig -> PipelineConfig) (b : PipelineBuilder) : PipelineBuilder :=
  set_pipeline (map_config fn) b.

(* go: internal/pipeline/builder.go func PipelineBuilder.SetMaxRetries *)
Definition SetMaxRetries (retries : Z) (b : PipelineBuilder) : PipelineBuilder :=
  if retries <? 0 then reject MaxRetriesNegative b
  else set_pipeline (map_config (fun g =>
         cfg_update retries (TimeoutSeconds g) (Concurrency g) (Priority g) (QueueName g) g)) b.

(* go: internal/pipeline/builder.go func PipelineBuilder.SetTimeout *)
Definition SetTimeout (seconds : Z) (b : PipelineBuilder) : PipelineBuilder :=
  if seconds <=? 0 then reject TimeoutNotPositive b
  else set_pipeline (map_config (fun g =>
         cfg_update (MaxRetries g) seconds (Concurrency g) (Priority g) (QueueName g) g)) b.

(* go: internal/pipeline/builder.go func PipelineBuilder.SetConcurrency *)
Definition SetConcurrency (c : Z) (b : PipelineBuilder) : PipelineBuilder :=
  if c <=? 0 then reject ConcurrencyNotPositive b
  else set_pipeline (map_config (fun g =>
         cfg_update (MaxRetries g) (TimeoutSeconds g) c (Priority g) (QueueName g) g)) b.

(* go: internal/pipeline/builder.go func PipelineBuilder.SetPriority *)
Definition SetPriority (p : Z) (b : PipelineBuilder) : PipelineBuilder :=
  if (p <? 0) || (100 <? p) then reject PriorityOutOfRange b
  else set_pipeline (map_config (fun g =>
         cfg_update (MaxRetries g) (TimeoutSeconds g) (Concurrency g) p (QueueName g) g)) b.

(* go: internal/pipeline/builder.go func PipelineBuilder.SetQueueName *)
Definition SetQueueName (name : string) (b : PipelineBuilder) : PipelineBuilder :=
  set_pipeline (map_config (fun g =>
    cfg_update (MaxRetries g) (TimeoutSeconds g) (Concurrency g) (Priority g) name g)) b.

(* go: internal/pipeline/builder.go func PipelineBuilder.SetCreatedBy *)
Definition SetCreatedBy (userID : UUID) (b : PipelineBuilder) : PipelineBuilder :=
  set_pipeline (with_created_by userID) b.

(** [fresh] is the reference [make] allocates when the map of tags is nil. *)
(* go: internal/pipeline/builder.go func PipelineBuilder.AddTag *)
Definition AddTag (fresh : N) (key value : string) (h : tag_store) (b : PipelineBuilder)
    : tag_store * PipelineBuilder :=
  match p_Tags (b_pipeline b) with
  | None => (<[fresh := {[key := value]}]> h, set_pipeline (with_tags (Some fresh)) b)
  | Some r => (<[r := <[key := value]> (default ∅ (h !! r))]> h, b)
  end.

(* go: internal/pipeline/builder.go @122-126 PipelineBuilder.AddStage *)
Definition stage_default_name (p : Pipeline) (n : Z) : string :=
  (if String.eqb (p_Name p) "" then "stage-" +:+ itoa n else p_Name p +:+ "-stage-" +:+ itoa n)%string.

(** [id] is what [uuid.New] returns. *)
(* go: internal/pipeline/builder.go func PipelineBuilder.AddStage *)
Definition AddStage (id : UUID) (stage : Stage) (b : PipelineBuilder) : PipelineBuilder :=
  let n := Z.of_nat (length (b_stages b)) in
  let name := if String.eqb (st_Name stage) "" then stage_default_name (b_pipeline b) (n + 1)
              else st_Name stage in
  let sid := if (st_ID stage =? uuid_Nil)%N then id else st_ID stage in
  set_stages (fun l => l ++ [mkStage sid name (st_Type stage) (st_Config stage) n (st_Optional stage)
                               (st_DependsOn stage) (st_Timeout stage) (st_MaxRetry stage)]) b.

(** A literal [Stage] with the fields the shorthands set, and the timeout of the pipeline. *)
Definition stage_literal (name type : string) (cfg : TaskConfig) (timeout max_retry : Z) : Stage :=
  mkStage uuid_Nil name type cfg 0 false [] timeout max_retry.
Definition pipeline_timeout (b : PipelineBuilder) : Z :=
  int64 (TimeoutSeconds (p_Config (b_pipeline b)) * Second).
Definition pipeline_retries (b : PipelineBuilder) : Z := MaxRetries (p_Config (b_pipeline b)).

(* go: internal/pipeline/builder.go func PipelineBuilder.AddHTTPStage *)
Definition AddHTTPStage (id : UUID) (name url method : string) (b : PipelineBuilder) : PipelineBuilder :=
  AddStage id (stage_literal name "http" (task_config method url "" "" "" "" false)
                 (pipeline_timeout b) (pipeline_retries b)) b.

(* go: internal/pipeline/builder.go func PipelineBuilder.AddSQLStage *)
Definition AddSQLStage (id : UUID) (name query : string) (b : PipelineBuilder) : PipelineBuilder :=
  AddStage id (stage_literal name "sql" (task_config "" "" query "" "" "" false)
                 (pipeline_timeout b) (pipeline_retries b)) b.

(* go: internal/pipeline/builder.go func PipelineBuilder.AddTransformStage *)
Definition AddTransformStage (id : UUID) (name transform : string) (b : PipelineBuilder) : PipelineBuilder :=
  AddStage id (stage_literal name "transform" (task_config "" "" "" transform "" "" false)
                 (pipeline_timeout b) 0) b.

(* go: internal/pipeline/builder.go func PipelineBuilder.AddScriptStage *)
Definition AddScriptStage (id : UUID) (name script : string) (b : PipelineBuilder) : PipelineBuilder :=
  AddStage id (stage_literal name "script" (task_config "" "" "" "" script "" false)
                 (pipeline_timeout b) (pipeline_retries b)) b.

(* go: internal/pipeline/builder.go func PipelineBuilder.AddNotificationStage *)
Definition AddNotificationStage (id : UUID) (name channel : string) (b : PipelineBuilder) : PipelineBuilder :=
  AddStage id (stage_literal name "notification" (task_config "" "" "" "" "" channel true)
                 (30 * Second) 3) b.

Definition with_sequence (i : nat) (s : Stage) : Stage :=
  mkStage (st_ID s) (st_Name s) (st_Type s) (st_Config s) (Z.of_nat i) (st_Optional s)
    (st_DependsOn s) (st_Timeout s) (st_MaxRetry s).

(* go: internal/pipeline/builder.go func PipelineBuilder.SetStages *)
Definition SetStages (stages : list Stage) (b : PipelineBuilder) : PipelineBuilder :=
  set_stages (fun _ => imap with_sequence stages) b.

Definition add_deps (deps : list string) (s : Stage) : Stage :=
  mkStage (st_ID s) (st_Name s) (st_Type s) (st_Config s) (st_Sequence s) (st_Optional s)
    (st_DependsOn s ++ deps) (st_Timeout s) (st_MaxRetry s).

(** The loop stops at the first stage of the name. *)
(* go: internal/pipeline/builder.go @208-213 PipelineBuilder.WithStageDependency *)
Fixpoint depend_first (stageName : string) (deps : list string) (l : list Stage) : list Stage :=
  match l with
  | [] => []
  | s :: l' => if String.eqb (st_Name s) stageName then add_deps deps s :: l'
               else s :: depend_first stageName deps l'
  end.

(* go: internal/pipeline/builder.go func PipelineBuilder.WithStageDependency *)
Definition WithStageDependency (stageName : string) (dependsOn : list string) (b : PipelineBuilder)
    : PipelineBuilder :=
  set_stages (depend_first stageName dependsOn) b.

(* go: internal/pipeline/builder.go func PipelineBuilder.Build *)
Definition Build (b : PipelineBuilder) : go_result Pipeline BuildError :=
  if bool_decide (0 < length (b_errors b))%nat then Err (BuildFailed (b_errors b))
  else if String.eqb (p_Name (b_pipeline b)) "" then Err NameRequired
  else if (length (b_stages b) =? 0)%nat then Err NoStages
  else Ok (b_pipeline b).

(* go: internal/pipeline/builder.go func PipelineBuilder.BuildWithStages *)
Definition BuildWithStages (b : PipelineBuilder) : go_result (Pipeline * list Stage) BuildError :=
  (p <-- Build b ;; Ok (p, b_stages b))%go.

(* go: internal/pipeline/builder.go func PipelineBuilder.Errors *)
Definition Errors (b : PipelineBuilder) : list BuilderError := b_errors b.
(* go: internal/pipeline/builder.go func PipelineBuilder.Pipeline *)
Definition Pipeline_ (b : PipelineBuilder) : Pipeline := b_pipeline b.
(* go: internal/pipeline/builder.go func PipelineBuilder.Stages *)
Definition Stages (b : PipelineBuilder) : list Stage := b_stages b.

(* go: internal/pipeline/builder.go func PipelineBuilder.Reset *)
Definition Reset (id : UUID) (now : Z) (tags : N) (h : tag_store) (b : PipelineBuilder)
    : tag_store * PipelineBuilder :=
  (<[tags := ∅]> h, mkPipelineBuilder (NewPipeline id now tags "" uuid_Nil) [] []).

(** The slices are copied; the pipeline is copied with its reference to the tags. *)
(* go: internal/pipeline/builder.go func PipelineBuilder.Clone *)
Definition Clone (b : PipelineBuilder) : PipelineBuilder :=
  mkPipelineBuilder (b_pipeline b) (b_stages b) (b_errors b).

(** ** Chains of calls *)

Inductive builder_op : Type :=
| OSetName (name : string)
| OSetDescription (desc : string)
| OSetStatus (status : string)
| OWithConfig (cfg : PipelineConfig)
| OWithConfigModifier (fn : PipelineConfig -> PipelineConfig)
| OSetMaxRetries (n : Z)
| OSetTimeout (n : Z)
| OSetConcurrency (n : Z)
| OSetPriority (n : Z)
| OSetQueueName (name : string)
| OSetCreatedBy (u : UUID)
| OAddTag (fresh : N) (key value : string)
| OAddStage (id : UUID) (stage : Stage)
| OAddHTTPStage (id : UUID) (name url method : string)
| OAddSQLStage (id : UUID) (name query : string)
| OAddTransformStage (id : UUID) (name transform : string)
| OAddScriptStage (id : UUID) (name script : string)
| OAddNotificationStage (id : UUID) (name channel : string)
| OSetStages (stages : list Stage)
| OWithStageDependency (name : string) (deps : list string)
| OReset (id : UUID) (now : Z) (tags : N).

Definition builder_step (hb : tag_store * PipelineBuilder) (op : builder_op) : tag_store * PipelineBuilder :=
  let '(h, b) := hb in
  match op with
  | OSetName n => (h, SetName n b)
  | OSetDescription d => (h, SetDescription d b)
  | OSetStatus s => (h, SetStatus s b)
  | OWithConfig g => (h, WithConfig g b)
  | OWithConfigModifier f => (h, WithConfigModifier f b)
  | OSetMaxRetries n => (h, SetMaxRetries n b)
  | OSetTimeout n => (h, SetTimeout n b)
  | OSetConcurrency n => (h, SetConcurrency n b)
  | OSetPriority n => (h, SetPriority n b)
  | OSetQueueName n => (h, SetQueueName n b)
  | OSetCreatedBy u => (h, SetCreatedBy u b)
  | OAddTag r k v => AddTag r k v h b
  | OAddStage id s => (h, AddStage id s b)
  | OAddHTTPStage id n u m => (h, AddHTTPStage id n u m b)
  | OAddSQLStage id n q => (h, AddSQLStage id n q b)
  | OAddTransformStage id n t => (h, AddTransformStage id n t b)
  | OAddScriptStage id n s => (h, AddScriptStage id n s b)
  | OAddNotificationStage id n c => (h, AddNotificationStage id n c b)
  | OSetStages l => (h, SetStages l b)
  | OWithStageDependency n ds => (h, WithStageDependency n ds b)
  | OReset id now r => Reset id now r h b
  end.

Definition run_builder (hb : tag_store * PipelineBuilder) (ops : list builder_op) : tag_store * PipelineBuilder :=
  foldl builder_step hb ops.

(** ** What a chain of calls promises *)

(** The error a call adds, if it rejects its argument. *)
Definition rejected (op : builder_op) : option BuilderError :=
  match op with
  | OSetName n => if String.eqb n "" then Some NameEmpty else None
  | OSetStatus s => if PipelineStatus_IsValid s then None else Some (InvalidPipelineStatus s)
  | OSetMaxRetries n => if n <? 0 then Some MaxRetriesNegative else None
  | OSetTimeout n => if n <=? 0 then Some TimeoutNotPositive else None
  | OSetConcurrency n => if n <=? 0 then Some ConcurrencyNotPositive else None
  | OSetPriority n => if (0 <=? n) && (n <=? 100) then None else Some PriorityOutOfRange
  | _ => None
  end.

(** The errors, the name and the number of stages of the outcome, each by a fold of its own. *)
Definition rejections (ops : list builder_op) : list BuilderError :=
  foldl (fun es op => match op with
                      | OReset _ _ _ => []
                      | _ => es ++ option_list (rejected op)
                      end) [] ops.

Definition final_name (name : string) (ops : list builder_op) : string :=
  foldl (fun n op => match op with
                     | OReset _ _ _ => EmptyString
                     | OSetName m => if String.eqb m "" then n else m
                     | _ => n
                     end) name ops.

(** The identifier a call takes from [uuid.New]. *)
Definition drawn_id (op : builder_op) : option UUID :=
  match op with
  | OAddStage id _ | OAddHTTPStage id _ _ _ | OAddSQLStage id _ _ | OAddTransformStage id _ _
  | OAddScriptStage id _ _ | OAddNotificationStage id _ _ => Some id
  | _ => None
  end.

Definition count_step (n : nat) (op : builder_op) : nat :=
  match op with
  | OReset _ _ _ => 0%nat
  | OSetStages l => length l
  | _ => match drawn_id op with Some _ => S n | None => n end
  end.
Definition stage_count (ops : list builder_op) : nat := foldl count_step 0%nat ops.

(** The calls that replace the configuration, or the stages, without a check. *)
Definition overrides_config (op : builder_op) : bool :=
  match op with OWithConfig _ | OWithConfigModifier _ => true | _ => false end.
Definition overrides_stages (op : builder_op) : bool :=
  match op with OSetStages _ => true | _ => false end.

Definition config_in_bounds (g : PipelineConfig) : Prop :=
  0 <= MaxRetries g /\ 0 < TimeoutSeconds g /\ 0 < Concurrency g /\ 0 <= Priority g <= 100.

Definition sequenced (l : list Stage) : Prop := forall i s, l !! i = Some s -> st_Sequence s = Z.of_nat i.
Definition stage_named (s : Stage) : Prop := st_Name s <> EmptyString /\ st_ID s <> uuid_Nil.

(** ** One call *)

(** Every setter with a guard either rejects or writes one field. *)
Ltac builder_cases :=
  cbn [builder_step fst snd]; unfold SetName, SetStatus, SetMaxRetries, SetTimeout, SetConcurrency, SetPriority, AddTag;
  repeat match goal with
         | |- context [if ?c then _ else _] => let H := fresh "Hg" in destruct c eqn:H
         | |- context [match p_Tags ?p with _ => _ end] => destruct (p_Tags p)
         end.

Lemma builder_step_errors h b op :
  b_errors (builder_step (h, b) op).2
    = match op with OReset _ _ _ => [] | _ => b_errors b ++ option_list (rejected op) end.
Proof.
  destruct op; cbn [rejected]; builder_cases; cbn;
    first [reflexivity|symmetry; apply app_nil_r|exfalso; rewrite ?negb_true_iff, ?negb_false_iff in *; first [congruence|lia]].
Qed.

Lemma builder_step_name h b op :
  p_Name (b_pipeline (builder_step (h, b) op).2)
    = match op with
      | OReset _ _ _ => EmptyString
      | OSetName m => if String.eqb m "" then p_Name (b_pipeline b) else m
      | _ => p_Name (b_pipeline b)
      end.
Proof. destruct op; builder_cases; done. Qed.

Lemma builder_step_status h b op :
  PipelineStatus_IsValid (p_Status (b_pipeline b)) = true ->
  PipelineStatus_IsValid (p_Status (b_pipeline (builder_step (h, b) op).2)) = true.
Proof. intros Hv. destruct op; builder_cases; try done. cbn. by apply negb_false_iff. Qed.

Lemma builder_step_config h b op :
  overrides_config op = false -> config_in_bounds (p_Config (b_pipeline b)) ->
  config_in_bounds (p_Config (b_pipeline (builder_step (h, b) op).2)).
Proof.
  unfold config_in_bounds. intros Ho Hb. destruct op; try discriminate; builder_cases; cbn in *; lia.
Qed.

Lemma length_depend_first n ds l : length (depend_first n ds l) = length l.
Proof. induction l as [|s l IH]; simpl; [done|]. destruct (String.eqb _ _); simpl; [done|by rewrite IH]. Qed.

(** A property of stages that does not look at the dependencies. *)
Lemma depend_first_preserves (P : nat -> Stage -> Prop) n ds l :
  (forall i s, P i s -> P i (add_deps ds s)) ->
  (forall i s, l !! i = Some s -> P i s) -> forall i s, depend_first n ds l !! i = Some s -> P i s.
Proof.
  intros HP. revert P HP. induction l as [|s0 l IH]; intros P HP Hl; [done|]. simpl.
  destruct (String.eqb _ _).
  - intros [|i] s Hi; simplify_eq/=; [by apply HP, (Hl 0%nat)|by apply (Hl (S i))].
  - intros [|i] s Hi; simplify_eq/=; [by apply (Hl 0%nat)|].
    apply (IH (fun i => P (S i))); [by intros; apply HP|by intros j t Hj; apply (Hl (S j))|done].
Qed.

Lemma AddStage_stages id s b : exists s',
  b_stages (AddStage id s b) = b_stages b ++ [s']
  /\ st_Sequence s' = Z.of_nat (length (b_stages b)) /\ (id <> uuid_Nil -> stage_named s').
Proof.
  eexists. split; [reflexivity|]. split; [done|]. intros Hid. unfold stage_named. simpl. split.
  - unfold stage_default_name. destruct (String.eqb_spec (st_Name s) ""); [|done].
    destruct (String.eqb_spec (p_Name (b_pipeline b)) "") as [|Hn]; [done|].
    by destruct (p_Name (b_pipeline b)).
  - destruct (N.eqb_spec (st_ID s) uuid_Nil); done.
Qed.

(** How a call changes the stages. *)
Lemma builder_step_stages h b op :
  let l := b_stages b in let l' := b_stages (builder_step (h, b) op).2 in
  match op with
  | OReset _ _ _ => l' = []
  | OSetStages ss => l' = imap with_sequence ss
  | OWithStageDependency n ds => l' = depend_first n ds l
  | _ => match drawn_id op with
         | Some id => exists s, l' = l ++ [s] /\ st_Sequence s = Z.of_nat (length l)
                                /\ (id <> uuid_Nil -> stage_named s)
         | None => l' = l
         end
  end.
Proof. destruct op; cbn [drawn_id]; try apply AddStage_stages; builder_cases; done. Qed.

Lemma sequenced_snoc l s :
  sequenced l -> st_Sequence s = Z.of_nat (length l) -> sequenced (l ++ [s]).
Proof.
  intros Hl Hs i t. rewrite lookup_snoc_Some. intros [[_ Hi]|[-> <-]]; [by apply Hl|done].
Qed.

Lemma builder_step_sequenced h b op :
  sequenced (b_stages b) -> sequenced (b_stages (builder_step (h, b) op).2).
Proof.
  intros Hs. pose proof (builder_step_stages h b op) as Ht. cbv zeta in Ht.
  destruct op; cbn [drawn_id] in Ht; try (rewrite Ht; done);
    try (destruct Ht as (s & -> & Hq & _); by apply sequenced_snoc); rewrite Ht.
  - intros i s. rewrite list_lookup_imap. intros (s' & Hi & ->)%fmap_Some. done.
  - unfold sequenced. apply depend_first_preserves; [done|exact Hs].
Qed.

Lemma builder_step_named h b op :
  overrides_stages op = false -> drawn_id op <> Some uuid_Nil ->
  Forall stage_named (b_stages b) -> Forall stage_named (b_stages (builder_step (h, b) op).2).
Proof.
  intros Ho Hd Hs. pose proof (builder_step_stages h b op) as Ht. cbv zeta in Ht.
  destruct op; try discriminate; cbn [drawn_id] in *; try (rewrite Ht; done);
    try (destruct Ht as (s & -> & _ & Hn); apply Forall_app; split; [done|];
         apply Forall_singleton, Hn; congruence).
  rewrite Ht. apply Forall_lookup. apply (depend_first_preserves (fun _ => stage_named)); [done|].
  by apply Forall_lookup.
Qed.

Lemma builder_step_count h b op :
  length (b_stages (builder_step (h, b) op).2) = count_step (length (b_stages b)) op.
Proof.
  pose proof (builder_step_stages h b op) as Ht. cbv zeta in Ht.
  destruct op; cbn [drawn_id count_step] in *;
    first [by rewrite Ht|rewrite Ht; apply length_imap|rewrite Ht; apply length_depend_first
          |destruct Ht as (s & -> & _); rewrite length_app; simpl; lia].
Qed.

(** ** Chains of calls *)

Section run.
Context (h0 : tag_store) (id : UUID) (now : Z) (tags : N) (name : string).

Let start := NewPipelineBuilder id now tags name h0.

Lemma run_builder_snoc hb ops op : run_builder hb (ops ++ [op]) = builder_step (run_builder hb ops) op.
Proof. apply foldl_snoc. Qed.

(** A property kept by the calls of a chain holds at its end. *)
Lemma run_builder_inv (I : PipelineBuilder -> Prop) (Q : builder_op -> Prop) ops :
  (forall h b op, Q op -> I b -> I (builder_step (h, b) op).2) ->
  I start.2 -> Forall Q ops -> I (run_builder start ops).2.
Proof.
  intros Hstep H0. induction ops as [|op ops IH] using rev_ind; [done|].
  intros [Hops [Hop _]%Forall_cons]%Forall_app. rewrite run_builder_snoc.
  destruct (run_builder start ops) as [h b]. apply Hstep; [done|by apply IH].
Qed.

(** The folds of the specification follow the state. *)
Lemma run_builder_folds ops :
  let b := (run_builder start ops).2 in
  b_errors b = rejections ops /\ p_Name (b_pipeline b) = final_name name ops
  /\ length (b_stages b) = stage_count ops.
Proof.
  cbv zeta. induction ops as [|op ops IH] using rev_ind; [done|].
  rewrite run_builder_snoc. unfold rejections, final_name, stage_count in *. rewrite !foldl_snoc.
  destruct (run_builder start ops) as [h b]. destruct IH as (<- & <- & <-).
  rewrite builder_step_errors, builder_step_name, builder_step_count. done.
Qed.
End run.

(** Two stages, one from a shorthand, and the rejected argument of a setter. *)
Definition sample_ops : list builder_op :=
  [OSetName "nightly"; OSetTimeout 60; OSetPriority 101;
   OAddHTTPStage 5 "" "http://localhost" "GET"; OAddNotificationStage 6 "done" "ops";
   OWithStageDependency "done" ["nightly-stage-1"]].

Example sample_run :
  let b := (run_builder (NewPipelineBuilder 1 0 0 "draft" ∅) sample_ops).2 in
  st_Name <$> Stages b = ["nightly-stage-1"; "done"] /\ st_Timeout <$> Stages b = [60 * Second; 30 * Second]
  /\ Build b = Err (BuildFailed [PriorityOutOfRange]).
Proof. vm_compute. done. Qed.

(** A tag added through a clone is seen through the original: the map is shared. *)
Lemma Clone_shares_tags r fresh k v h b :
  p_Tags (b_pipeline b) = Some r ->
  let '(h', c) := AddTag fresh k v h (Clone b) in
  p_Tags (b_pipeline b) = p_Tags (b_pipeline c) /\ (h' !! r ≫= lookup k) = Some v.
Proof.
  intros Hr. unfold AddTag. change (b_pipeline (Clone b)) with (b_pipeline b). rewrite Hr.
  split; [done|]. rewrite (lookup_insert_eq h r). apply lookup_insert_eq.
Qed.

(** ** Properties *)

(** C17: whatever chain of calls is made on a new builder, the stages are numbered from zero
    in order; the errors are those of the calls rejected since the last [Reset], in order;
    [Build] fails with exactly those errors if there are any, fails if the name is empty or
    no stage was added, and returns the pipeline otherwise, with the last accepted name
    and a valid status; as long as no call replaces the configuration its four bounded
    fields stay in bounds, and as long as no call replaces the stages each has a name
    and an identifier. *)
Theorem builder_run_correct (h0 : tag_store) (id : UUID) (now : Z) (tags : N) (name : string)
    (ops : list builder_op) :
  let b := (run_builder (NewPipelineBuilder id now tags name h0) ops).2 in
  (forall i s, Stages b !! i = Some s -> st_Sequence s = Z.of_nat i)
  /\ Errors b = rejections ops
  /\ Build b = match rejections ops with
               | [] => if String.eqb (final_name name ops) "" then Err NameRequired
                       else if (stage_count ops =? 0)%nat then Err NoStages else Ok (Pipeline_ b)
               | errs => Err (BuildFailed errs)
               end
  /\ p_Name (Pipeline_ b) = final_name name ops /\ PipelineStatus_IsValid (p_Status (Pipeline_ b)) = true
  /\ (Forall (fun op => overrides_config op = false) ops -> config_in_bounds (p_Config (Pipeline_ b)))
  /\ (Forall (fun op => overrides_stages op = false /\ drawn_id op <> Some uuid_Nil) ops ->
      Forall stage_named (Stages b)).
Proof.
  cbv zeta. destruct (run_builder_folds h0 id now tags name ops) as (He & Hn & Hc).
  split_and!; [|done| |done|..]; unfold Stages, Errors, Pipeline_ in *.
  - apply (run_builder_inv h0 id now tags name (fun b => sequenced (b_stages b)) (fun _ => True));
      [intros; by apply builder_step_sequenced|done|by apply Forall_true].
  - unfold Build. rewrite He, Hn, Hc. by destruct (rejections ops).
  - apply (run_builder_inv h0 id now tags name
             (fun b => PipelineStatus_IsValid (p_Status (b_pipeline b)) = true) (fun _ => True));
      [intros; by apply builder_step_status|done|by apply Forall_true].
  - apply (run_builder_inv h0 id now tags name (fun b => config_in_bounds (p_Config (b_pipeline b))));
      [intros; by apply builder_step_config|unfold config_in_bounds; simpl; lia].
  - apply (run_builder_inv h0 id now tags name (fun b => Forall stage_named (b_stages b)));
      [intros ???[]; by apply builder_step_named|constructor].
Qed.
