(* ===== verification/PipelineEvents.v ===== *)
(** * The event bus: internal/pipeline/events.go

    Subscriptions by event type, and the delivery of events, at once or through a
    buffered channel that one dispatcher empties.  Handlers are functions of the
    caller, here named by numbers; what a dispatch does to them is the list of their
    invocations (a handler that panics is recovered and the next one runs). *)

From S2P Require Import Prelude.

(* go: internal/pipeline/events.go type Event *)
Record Event := mkEvent {
  ev_Type : string;
  ev_PipelineID : UUID;
  ev_RunID : UUID;
  ev_StageName : string;
  ev_Error : string;
  ev_Metadata : gmap string any
}.

Definition EventPipelineStarted : string := "pipeline.started".
Definition EventPipelineCompleted : string := "pipeline.completed".
Definition EventPipelineFailed : string := "pipeline.failed".
Definition EventPipelineRetrying : string := "pipeline.retrying".
Definition EventStageStarted : string := "stage.started".
Definition EventStageCompleted : string := "stage.completed".
Definition EventStageFailed : string := "stage.failed".

(** The channel is the list of the events in it, oldest first. *)
(* go: internal/pipeline/events.go type EventBus *)
Record EventBus := mkEventBus {
  handlers : gmap string (list nat);
  async : bool;
  bufferSize : Z;
  eventCh : list Event;
  stopped : bool
}.

Definition invocations : Type := list (nat * Event).

Definition with_handlers (b : EventBus) (h : gmap string (list nat)) : EventBus :=
  mkEventBus h (async b) (bufferSize b) (eventCh b) (stopped b).
Definition with_channel (b : EventBus) (l : list Event) : EventBus :=
  mkEventBus (handlers b) (async b) (bufferSize b) l (stopped b).

(* go: internal/pipeline/events.go func NewEventBus *)
Definition NewEventBus : EventBus := mkEventBus ∅ false 256 [] false.

(* go: internal/pipeline/events.go func NewAsyncEventBus *)
Definition NewAsyncEventBus (size : Z) : EventBus :=
  mkEventBus ∅ true (if size <=? 0 then 256 else size) [] false.

(** Appending to the handlers of a type, present or not. *)
Definition add_handler (m : gmap string (list nat)) (t : string) (h : nat) : gmap string (list nat) :=
  <[t := default [] (m !! t) ++ [h]]> m.

(* go: internal/pipeline/events.go func EventBus.Subscribe *)
Definition Subscribe (t : string) (h : nat) (b : EventBus) : EventBus := with_handlers b (add_handler (handlers b) t h).

(** [&h == &handler] compares the addresses of two variables of the function. *)
(* go: internal/pipeline/events.go @87-87 EventBus.Unsubscribe *)
Definition same_variable (h handler : nat) : bool := false.

(* go: internal/pipeline/events.go @86-91 EventBus.Unsubscribe *)
Fixpoint remove_first (handler : nat) (l : list nat) : option (list nat) :=
  match l with
  | [] => None
  | h :: l' => if same_variable h handler then Some l' else cons h <$> remove_first handler l'
  end.

(* go: internal/pipeline/events.go func EventBus.Unsubscribe *)
Definition Unsubscribe (t : string) (handler : nat) (b : EventBus) : EventBus :=
  match remove_first handler (default [] (handlers b !! t)) with
  | Some l => with_handlers b (<[t := l]> (handlers b))
  | None => b
  end.

(** Only the types that have an entry already. *)
(* go: internal/pipeline/events.go func EventBus.SubscribeAll *)
Definition SubscribeAll (h : nat) (b : EventBus) : EventBus := with_handlers b ((fun l => l ++ [h]) <$> handlers b).

(* go: internal/pipeline/events.go func EventBus.SubscribeMany *)
Definition SubscribeMany (h : nat) (types : list string) (b : EventBus) : EventBus :=
  with_handlers b (foldl (fun m t => add_handler m t h) (handlers b) types).

(* go: internal/pipeline/events.go func EventBus.dispatch *)
Definition dispatch (e : Event) (b : EventBus) : invocations :=
  (fun h => (h, e)) <$> default [] (handlers b !! ev_Type e).

(** Sending on a full channel drops the event. *)
(* go: internal/pipeline/events.go func EventBus.Publish *)
Definition Publish (e : Event) (b : EventBus) : EventBus * invocations :=
  if async b
  then (if Z.of_nat (length (eventCh b)) <? bufferSize b then with_channel b (eventCh b ++ [e]) else b, [])
  else (b, dispatch e b).

(** One round of the dispatcher: the oldest event of the channel, if it has one. *)
(* go: internal/pipeline/events.go @156-157 EventBus.startDispatcher *)
Definition dispatcher_step (b : EventBus) : EventBus * invocations :=
  match eventCh b with
  | [] => (b, [])
  | e :: l => (with_channel b l, dispatch e b)
  end.

(* go: internal/pipeline/events.go func EventBus.drainRemaining *)
Definition drainRemaining (b : EventBus) : EventBus * invocations :=
  (with_channel b [], concat ((fun e => dispatch e b) <$> eventCh b)).

(** Closing the channel of a bus that is stopped already panics; [Stop] waits until the
    dispatcher has drained the events. *)
(* go: internal/pipeline/events.go func EventBus.Stop *)
Definition Stop (b : EventBus) : go_result (EventBus * invocations) unit :=
  if async b
  then if stopped b then Panic
       else let '(b', l) := drainRemaining b in
            Ok (mkEventBus (handlers b') (async b') (bufferSize b') (eventCh b') true, l)
  else Ok (b, []).

(* go: internal/pipeline/events.go func EventBus.HasHandlers *)
Definition HasHandlers (t : string) (b : EventBus) : bool :=
  match handlers b !! t with Some (_ :: _) => true | _ => false end.

(* go: internal/pipeline/events.go func EventBus.HandlerCount *)
Definition HandlerCount (t : string) (b : EventBus) : Z := Z.of_nat (length (default [] (handlers b !! t))).

(* go: internal/pipeline/events.go func EventBus.ClearHandlers *)
Definition ClearHandlers (b : EventBus) : EventBus := with_handlers b ∅.

(* go: internal/pipeline/events.go func EventBus.ClearHandlersForType *)
Definition ClearHandlersForType (t : string) (b : EventBus) : EventBus := with_handlers b (delete t (handlers b)).

(** An event without metadata. *)
Definition new_event (t : string) (pipelineID runID : UUID) (stageName err : string) : Event :=
  mkEvent t pipelineID runID stageName err ∅.

(* go: internal/pipeline/events.go func NewStartedEvent *)
Definition NewStartedEvent (pipelineID runID : UUID) : Event :=
  new_event EventPipelineStarted pipelineID runID EmptyString EmptyString.
(* go: internal/pipeline/events.go func NewCompletedEvent *)
Definition NewCompletedEvent (pipelineID runID : UUID) : Event :=
  new_event EventPipelineCompleted pipelineID runID EmptyString EmptyString.
(* go: internal/pipeline/events.go func NewFailedEvent *)
Definition NewFailedEvent (pipelineID runID : UUID) (err : string) : Event :=
  new_event EventPipelineFailed pipelineID runID EmptyString err.
(* go: internal/pipeline/events.go func NewRetryingEvent *)
Definition NewRetryingEvent (pipelineID runID : UUID) (stageName err : string) : Event :=
  new_event EventPipelineRetrying pipelineID runID stageName err.
(* go: internal/pipeline/events.go func NewStageStartedEvent *)
Definition NewStageStartedEvent (pipelineID runID : UUID) (stageName : string) : Event :=
  new_event EventStageStarted pipelineID runID stageName EmptyString.
(* go: internal/pipeline/events.go func NewStageCompletedEvent *)
Definition NewStageCompletedEvent (pipelineID runID : UUID) (stageName : string) : Event :=
  new_event EventStageCompleted pipelineID runID stageName EmptyString.
(* go: internal/pipeline/events.go func NewStageFailedEvent *)
Definition NewStageFailedEvent (pipelineID runID : UUID) (stageName err : string) : Event :=
  new_event EventStageFailed pipelineID runID stageName err.

(** ** Runs of an asynchronous bus *)

(** What happened so far: the events accepted by the channel, those dropped, and those
    dispatched with their invocations, each oldest first. *)
Record bus_log := mkBusLog {
  accepted : list Event;
  dropped : list Event;
  dispatched : list Event;
  invoked : invocations
}.

Inductive bus_step : EventBus * bus_log -> EventBus * bus_log -> Prop :=
| bus_accept b g e : Z.of_nat (length (eventCh b)) < bufferSize b ->
    bus_step (b, g) ((Publish e b).1, mkBusLog (accepted g ++ [e]) (dropped g) (dispatched g) (invoked g))
| bus_drop b g e : bufferSize b <= Z.of_nat (length (eventCh b)) ->
    bus_step (b, g) ((Publish e b).1, mkBusLog (accepted g) (dropped g ++ [e]) (dispatched g) (invoked g))
| bus_dispatch b g e l : eventCh b = e :: l ->
    bus_step (b, g) ((dispatcher_step b).1,
      mkBusLog (accepted g) (dropped g) (dispatched g ++ [e]) (invoked g ++ (dispatcher_step b).2))
| bus_handlers b g f :
    bus_step (b, g) (with_handlers b f, g).

Definition bus_inv (hist : EventBus * bus_log) : Prop :=
  async hist.1 = true /\ 0 < bufferSize hist.1
  /\ accepted hist.2 = dispatched hist.2 ++ eventCh hist.1
  /\ Z.of_nat (length (eventCh hist.1)) <= bufferSize hist.1.

Lemma bus_step_inv x y : bus_step x y -> bus_inv x -> bus_inv y.
Proof.
  unfold bus_inv. destruct 1 as [b g e Hl|b g e Hl|b g e l Hl|b g f]; simpl; intros (Ha & Hb & Hacc & Hlen).
  - unfold Publish. rewrite Ha. destruct (Z.ltb_spec (Z.of_nat (length (eventCh b))) (bufferSize b)); [|lia].
    simpl. rewrite Hacc, length_app, <- app_assoc. simpl. split_and!; [done|done|done|lia].
  - unfold Publish. rewrite Ha. destruct (Z.ltb_spec (Z.of_nat (length (eventCh b))) (bufferSize b)); [lia|done].
  - unfold dispatcher_step. rewrite Hl in *. simpl in *. rewrite Hacc, <- app_assoc. split_and!; [done|done|done|lia].
  - done.
Qed.

Lemma remove_first_none h l : remove_first h l = None.
Proof. induction l as [|x l IH]; [done|]. simpl. by rewrite IH. Qed.

(** ** Property *)

(** In every run of an asynchronous bus, whatever happens to its handlers, the events
    accepted are dispatched in the order of their publication, each exactly once: those
    dispatched followed by those in the channel are all that were accepted.  The channel
    never holds more than its size, an event is dropped only when it is full, and [Stop]
    dispatches every event that is left.  [Unsubscribe] removes no handler at all. *)
Theorem event_bus_fifo (size : Z) (hist : EventBus * bus_log)
  (Hrun : rtc bus_step (NewAsyncEventBus size, mkBusLog [] [] [] []) hist) :
  let '(b, g) := hist in
  accepted g = dispatched g ++ eventCh b
  /\ Z.of_nat (length (eventCh b)) <= bufferSize b
  /\ (forall e, (Publish e b).1 = b -> Z.of_nat (length (eventCh b)) = bufferSize b)
  /\ (stopped b = false -> exists b', Stop b = Ok (b', concat ((fun e => dispatch e b) <$> eventCh b))
        /\ eventCh b' = [])
  /\ forall t h, Unsubscribe t h b = b.
Proof.
  assert (bus_inv hist) as (Ha & Hb & Hacc & Hlen).
  { revert Hrun. apply (rtc_ind_r bus_inv).
    - unfold bus_inv, NewAsyncEventBus. simpl. destruct (Z.leb_spec size 0); split_and!; (done || lia).
    - intros x y _ Hs. by apply bus_step_inv. }
  destruct hist as [b g]. simpl in *. split_and!; [done|done|..].
  - intros e. unfold Publish. rewrite Ha. destruct (Z.ltb_spec (Z.of_nat (length (eventCh b))) (bufferSize b)); [|lia].
    intros Heq. apply (f_equal (length ∘ eventCh)) in Heq. simpl in Heq. rewrite length_app in Heq. simpl in Heq. lia.
  - intros Hs. unfold Stop. rewrite Ha, Hs. eexists. split; reflexivity.
  - intros t h. unfold Unsubscribe. by rewrite remove_first_none.
Qed.

Definition start_event : Event := NewStartedEvent 1 2.
Definition busy_bus : EventBus := (Publish start_event (with_handlers (NewAsyncEventBus 2) {[EventPipelineStarted := [7%nat]]})).1.

Lemma event_bus_fifo_witness :
  exists b', Stop busy_bus = Ok (b', [(7%nat, start_event)]) /\ eventCh b' = []
    /\ Unsubscribe EventPipelineStarted 7 busy_bus = busy_bus.
Proof.
  assert (rtc bus_step (NewAsyncEventBus 2, mkBusLog [] [] [] []) (busy_bus, mkBusLog [start_event] [] [] [])) as Hrun.
  { eapply rtc_l; [apply (bus_handlers _ _ {[EventPipelineStarted := [7%nat]]})|].
    eapply rtc_l; [apply (bus_accept _ _ start_event); vm_compute; reflexivity|]. apply rtc_refl. }
  destruct (event_bus_fifo 2 _ Hrun) as (_ & _ & _ & Hstop & Hun).
  destruct (Hstop eq_refl) as (b' & Hb & He). exists b'. split; [exact Hb|]. split; [exact He|apply Hun].
Defined.
