(* ===== verification/PipelineExec.v ===== *)
(** * Running pipelines: internal/pipeline/executor.go and engine.go

    A stage with its retries, the stages of a pipeline one after the other, and the
    engine around them with its active runs and its events.  A handler is a function of
    the stage, the input and the number of the attempt; what the contexts and the clock
    do is a record.  Metrics and logging are left out. *)

From S2P Require Import Prelude GoFloat PipelineModels PipelineEvents.

(** ** Data *)

(** The errors of a stage, with the arguments of their formats. *)
Inductive StageError : Type :=
| StageNoError
| StageNoHandler (t : string)
| StageTimedOut (timeout : Z)
| StageCancelled
| StageCancelledInBackoff
| StageFailed (retries : Z) (err : string).

(* go: internal/pipeline/engine.go type StageResult *)
Record StageResult := mkStageResult {
  sr_StageName : string;
  sr_Status : string;
  sr_Output : any;
  sr_Error : StageError;
  sr_Duration : Z
}.

(* go: internal/pipeline/executor.go @45-45 StageHandler *)
Definition StageHandler : Type := Stage -> any -> Z -> any * option string.

(* go: internal/pipeline/executor.go type PipelineExecutor *)
Record PipelineExecutor := mkPipelineExecutor {
  pe_handlers : gmap string StageHandler;
  pe_timeout : Z
}.

(** Why a context is done. *)
Inductive ctx_err : Type := DeadlineExceeded | Canceled.

(** What one stage observes: its context at the start of each attempt, whether it ends
    during a pause, and the time it takes. *)
Record stage_env := mkStageEnv {
  se_ctx : Z -> option ctx_err;
  se_interrupted : Z -> bool;
  se_elapsed : Z
}.

(** ** The executor *)

(** The eight built-in handlers only return an error. *)
(* go: internal/pipeline/executor.go @217-247 PipelineExecutor.executeHTTPStage *)
Definition not_implemented (name : string) : StageHandler :=
  fun _ _ _ => (AnyNil, Some (name +:+ " stage not implemented")%string).

(* go: internal/pipeline/executor.go func PipelineExecutor.RegisterHandler *)
Definition RegisterHandler (t : string) (handler : StageHandler) (e : PipelineExecutor) : PipelineExecutor :=
  mkPipelineExecutor (<[t := handler]> (pe_handlers e)) (pe_timeout e).

(* go: internal/pipeline/executor.go func PipelineExecutor.registerDefaultHandlers *)
Definition registerDefaultHandlers (e : PipelineExecutor) : PipelineExecutor :=
  foldl (fun e t => RegisterHandler t (not_implemented t) e) e
    ["http"; "script"; "sql"; "shell"; "transform"; "webhook"; "notification"; "custom"].

(* go: internal/pipeline/executor.go func NewPipelineExecutor *)
Definition NewPipelineExecutor : PipelineExecutor :=
  registerDefaultHandlers (mkPipelineExecutor ∅ (300 * Second)).

(* go: internal/pipeline/executor.go func PipelineExecutor.resolveTimeout *)
Definition resolveTimeout (e : PipelineExecutor) (stage : Stage) : Z :=
  if 0 <? st_Timeout stage then st_Timeout stage else pe_timeout e.

(* go: internal/pipeline/executor.go func PipelineExecutor.resolveMaxRetries *)
Definition resolveMaxRetries (stage : Stage) : Z := if 0 <? st_MaxRetry stage then st_MaxRetry stage else 2.

(* go: internal/pipeline/executor.go func PipelineExecutor.calculateBackoff *)
Definition calculateBackoff (attempt : Z) : Z :=
  let backoff := int64 (int64 (int64 (attempt * attempt) * 500) * Millisecond) in
  if 30 * Second <? backoff then 30 * Second else backoff.

(** What a stage does: the handler's calls and the pauses. *)
Inductive stage_action : Type := Called (attempt : Z) | Slept (d : Z).

(** The loop over the attempts: [n] are left. *)
(* go: internal/pipeline/executor.go @107-170 PipelineExecutor.ExecuteStage *)
Fixpoint stage_loop (w : stage_env) (handler : StageHandler) (stage : Stage) (input : any) (timeout max : Z)
    (n : nat) (attempt : Z) (lastErr : string) : list stage_action * StageResult :=
  let result status output err := mkStageResult (st_Name stage) status output err (se_elapsed w) in
  match n with
  | O => ([], result TaskStatusFailed AnyNil (StageFailed max lastErr))
  | S n' =>
      match se_ctx w attempt with
      | Some DeadlineExceeded => ([], result TaskStatusTimedOut AnyNil (StageTimedOut timeout))
      | Some Canceled => ([], result TaskStatusCancelled AnyNil StageCancelled)
      | None =>
          if (0 <? attempt) && se_interrupted w attempt
          then ([], result TaskStatusCancelled AnyNil StageCancelledInBackoff)
          else
            let pause := if 0 <? attempt then [Slept (calculateBackoff attempt)] else [] in
            match handler stage input attempt with
            | (output, None) => (pause ++ [Called attempt], result TaskStatusCompleted output StageNoError)
            | (_, Some err) =>
                let '(acts, r) := stage_loop w handler stage input timeout max n' (attempt + 1) err in
                (pause ++ Called attempt :: acts, r)
            end
      end
  end.

(* go: internal/pipeline/executor.go func PipelineExecutor.ExecuteStage *)
Definition ExecuteStage (w : stage_env) (e : PipelineExecutor) (stage : Stage) (input : any)
    : list stage_action * StageResult :=
  match pe_handlers e !! st_Type stage with
  | None => ([], mkStageResult (st_Name stage) TaskStatusFailed AnyNil (StageNoHandler (st_Type stage)) (se_elapsed w))
  | Some handler =>
      let maxRetries := resolveMaxRetries stage in
      stage_loop w handler stage input (resolveTimeout e stage) maxRetries (S (Z.to_nat maxRetries)) 0 EmptyString
  end.

(** [w i] is what the [i]-th stage observes. *)
(* go: internal/pipeline/executor.go func PipelineExecutor.ExecutePipelineStages *)
Fixpoint ExecutePipelineStages (w : nat -> stage_env) (e : PipelineExecutor) (stages : list Stage) (input : any)
    : list StageResult :=
  match stages with
  | [] => []
  | stage :: stages' =>
      let result := (ExecuteStage (w 0%nat) e stage input).2 in
      result :: (if String.eqb (sr_Status result) TaskStatusFailed && negb (st_Optional stage) then []
                 else ExecutePipelineStages (fun i => w (S i)) e stages' input)
  end.

(** ** The engine *)

Inductive RunError : Type :=
| RunStageFailed (stage : string) (err : StageError)
| RunCancelled.

(* go: internal/pipeline/engine.go type PipelineRunResult *)
Record PipelineRunResult := mkPipelineRunResult {
  pr_RunID : UUID;
  pr_PipelineID : UUID;
  pr_Status : string;
  pr_StageResults : list StageResult;
  pr_TotalDuration : Z;
  pr_Error : option RunError
}.

(** The active runs by identifier; cancelling one is what its context then reports. *)
(* go: internal/pipeline/engine.go type PipelineEngine *)
Record PipelineEngine := mkPipelineEngine {
  en_executor : PipelineExecutor;
  en_eventBus : EventBus;
  en_active : gset UUID
}.

(* go: internal/pipeline/engine.go func NewPipelineEngine *)
Definition NewPipelineEngine (e : PipelineExecutor) (bus : EventBus) : PipelineEngine := mkPipelineEngine e bus ∅.

Record run_env := mkRunEnv {
  re_RunID : UUID;
  re_ctx : nat -> option ctx_err;       (** the run's context before each stage *)
  re_stage : nat -> stage_env;
  re_error_text : RunError -> string;   (** [Error] of the errors *)
  re_elapsed : Z
}.

(* go: internal/pipeline/engine.go @128-154 PipelineEngine.ExecutePipeline *)
Fixpoint run_stages (w : run_env) (e : PipelineExecutor) (i : nat) (stages : list Stage) (input : any)
    (results : list StageResult) (finalErr : option RunError)
    : list StageResult * option RunError * option ctx_err :=
  match stages with
  | [] => (results, finalErr, None)
  | stage :: stages' =>
      match re_ctx w i with
      | Some c => (results, finalErr, Some c)
      | None =>
          let result := (ExecuteStage (re_stage w i) e stage input).2 in
          let results' := results ++ [result] in
          if String.eqb (sr_Status result) TaskStatusFailed || String.eqb (sr_Status result) TaskStatusTimedOut
          then
            let finalErr' := Some (RunStageFailed (st_Name stage) (sr_Error result)) in
            if negb (st_Optional stage) then (results', finalErr', None)
            else run_stages w e (S i) stages' input results' finalErr'
          else run_stages w e (S i) stages' input results' finalErr
      end
  end.

(* go: internal/pipeline/engine.go func PipelineEngine.resolveStages *)
Definition resolveStages (pipeline : option Pipeline) : go_result (list Stage) string :=
  match pipeline with
  | None => Err "pipeline is nil"
  | Some p => Ok (GetStagesFromPipeline p)
  end.

Definition publish_all (evs : list Event) (b : EventBus) : EventBus * invocations :=
  foldl (fun '(b, l) e => let '(b', l') := Publish e b in (b', l ++ l')) (b, []) evs.

(** The end of a run over the stages: the result, its error, and the last event. *)
(* go: internal/pipeline/engine.go @129-175 PipelineEngine.ExecutePipeline *)
Definition finish_run (w : run_env) (p : Pipeline) (e : PipelineExecutor) (stages : list Stage) (input : any)
    : PipelineRunResult * option (RunError + ctx_err) * Event :=
  match run_stages w e 0 stages input [] None with
  | (results, _, Some c) =>
      (mkPipelineRunResult (re_RunID w) (p_ID p) "failed" results (re_elapsed w) (Some RunCancelled), Some (inr c),
       NewFailedEvent (p_ID p) (re_RunID w) "cancelled")
  | (results, Some err, None) =>
      (mkPipelineRunResult (re_RunID w) (p_ID p) "failed" results (re_elapsed w) (Some err), Some (inl err),
       NewFailedEvent (p_ID p) (re_RunID w) (re_error_text w err))
  | (results, None, None) =>
      (mkPipelineRunResult (re_RunID w) (p_ID p) "active" results (re_elapsed w) None, None,
       NewCompletedEvent (p_ID p) (re_RunID w))
  end.

(** A nil pipeline panics at the first line that reads its identifier; the run is active
    only while its stages run. *)
(* go: internal/pipeline/engine.go func PipelineEngine.ExecutePipeline *)
Definition ExecutePipeline (w : run_env) (pipeline : option Pipeline) (input : any) (en : PipelineEngine)
    : go_result (PipelineEngine * PipelineRunResult * option (RunError + ctx_err) * invocations) string :=
  match pipeline with
  | None => Panic
  | Some p =>
      (stages <-- resolveStages pipeline ;;
       let '(result, err, last) := finish_run w p (en_executor en) stages input in
       let '(bus, l) := publish_all [NewStartedEvent (p_ID p) (re_RunID w); last] (en_eventBus en) in
       Ok (mkPipelineEngine (en_executor en) bus (en_active en ∖ {[re_RunID w]}), result, err, l))%go
  end.

(** The runs whose contexts are cancelled. *)
(* go: internal/pipeline/engine.go func PipelineEngine.CancelRun *)
Definition CancelRun (runID : UUID) (en : PipelineEngine) : list UUID :=
  if bool_decide (runID ∈ en_active en) then [runID] else [].

(* go: internal/pipeline/engine.go func PipelineEngine.shutdown *)
Definition shutdown (en : PipelineEngine) : PipelineEngine * list UUID :=
  (mkPipelineEngine (en_executor en) (en_eventBus en) ∅, elements (en_active en)).

(* go: internal/pipeline/engine.go func PipelineEngine.IsRunning *)
Definition IsRunning (runID : UUID) (en : PipelineEngine) : bool := bool_decide (runID ∈ en_active en).

(** ** One stage *)

(** The calls and pauses of the attempts before [k]. *)
Fixpoint stage_trace (k : nat) (attempt : Z) : list stage_action :=
  (if 0 <? attempt then [Slept (calculateBackoff attempt)] else [])
  ++ Called attempt :: match k with O => [] | S k' => stage_trace k' (attempt + 1) end.

Section stage.
Context (w : stage_env) (handler : StageHandler) (stage : Stage) (input : any) (timeout max : Z).
Context (Hctx : forall a, se_ctx w a = None) (Hint : forall a, se_interrupted w a = false).

Lemma stage_loop_success k : forall n attempt last output,
  (k < n)%nat ->
  (forall i, (i < k)%nat -> (handler stage input (attempt + Z.of_nat i)).2 <> None) ->
  handler stage input (attempt + Z.of_nat k) = (output, None) ->
  stage_loop w handler stage input timeout max n attempt last
    = (stage_trace k attempt, mkStageResult (st_Name stage) TaskStatusCompleted output StageNoError (se_elapsed w)).
Proof using Hctx Hint.
  induction k as [|k IH]; intros [|n] attempt last output Hn Hf Hk; [lia| |lia|]; cbn [stage_loop stage_trace];
    rewrite Hctx, Hint, andb_false_r.
  - rewrite Z.add_0_r in Hk. by rewrite Hk.
  - pose proof (Hf 0%nat ltac:(lia)) as H0. rewrite Z.add_0_r in H0.
    destruct (handler stage input attempt) as [o [err|]]; [|done].
    rewrite (IH n (attempt + 1) err output); [done|lia|..].
    + intros i Hi. replace (attempt + 1 + Z.of_nat i) with (attempt + Z.of_nat (S i)) by lia. apply Hf. lia.
    + by replace (attempt + 1 + Z.of_nat k) with (attempt + Z.of_nat (S k)) by lia.
Qed.

Lemma stage_loop_failure n : forall attempt last output err,
  (forall i, (i <= n)%nat -> (handler stage input (attempt + Z.of_nat i)).2 <> None) ->
  handler stage input (attempt + Z.of_nat n) = (output, Some err) ->
  stage_loop w handler stage input timeout max (S n) attempt last
    = (stage_trace n attempt,
       mkStageResult (st_Name stage) TaskStatusFailed AnyNil (StageFailed max err) (se_elapsed w)).
Proof using Hctx Hint.
  induction n as [|n IH]; intros attempt last output err Hf Hn.
  - cbn [stage_loop stage_trace]. rewrite Hctx, Hint, andb_false_r. rewrite Z.add_0_r in Hn. by rewrite Hn.
  - assert (exists m, m = S n) as [m Hm] by eauto. rewrite <- Hm at 1. cbn [stage_loop stage_trace].
    rewrite Hctx, Hint, andb_false_r. pose proof (Hf 0%nat ltac:(lia)) as H0. rewrite Z.add_0_r in H0.
    destruct (handler stage input attempt) as [o [e|]]; [|done]. rewrite Hm.
    rewrite (IH (attempt + 1) e output err); [done|..].
    + intros i Hi. replace (attempt + 1 + Z.of_nat i) with (attempt + Z.of_nat (S i)) by lia. apply Hf. lia.
    + by replace (attempt + 1 + Z.of_nat n) with (attempt + Z.of_nat (S n)) by lia.
Qed.
End stage.

Lemma calculateBackoff_exact attempt :
  0 <= attempt -> attempt * attempt * 500 * Millisecond <= max_int64 ->
  calculateBackoff attempt = Z.min (attempt * attempt * 500 * Millisecond) (30 * Second).
Proof.
  intros Ha Hm. unfold calculateBackoff, Second, Millisecond, Microsecond, Nanosecond in *.
  assert (0 <= attempt * attempt) as H0 by nia.
  assert (in_int64 (attempt * attempt) /\ in_int64 (attempt * attempt * 500)
          /\ in_int64 (attempt * attempt * 500 * (1000 * (1000 * 1)))) as (H1 & H2 & H3)
    by (unfold in_int64, min_int64, max_int64 in *; lia).
  rewrite (int64_small _ H1), (int64_small _ H2), (int64_small _ H3). case_match eqn:Hc; lia.
Qed.

(** ** The stages of a run *)

Definition bad (r : StageResult) : bool :=
  String.eqb (sr_Status r) TaskStatusFailed || String.eqb (sr_Status r) TaskStatusTimedOut.

Definition stage_results (w : nat -> stage_env) (e : PipelineExecutor) (input : any) (stages : list Stage) :=
  imap (fun i s => (ExecuteStage (w i) e s input).2) stages.

(** How far a run gets: to the end, or to the first bad result of a stage that is not optional. *)
Definition runs_to (results : list StageResult) (stages : list Stage) (k : nat) : Prop :=
  (k <= length stages)%nat
  /\ (forall i s r, (S i < k)%nat -> stages !! i = Some s -> results !! i = Some r -> bad r = true ->
        st_Optional s = true)
  /\ ((k < length stages)%nat -> exists j s r, k = S j /\ stages !! j = Some s /\ results !! j = Some r
        /\ bad r = true /\ st_Optional s = false).

Lemma runs_to_cons results stages k s r :
  (bad r = true -> st_Optional s = true) -> runs_to results stages k -> runs_to (r :: results) (s :: stages) (S k).
Proof.
  intros Hr (Hk & Hmid & Hlast). split_and!; [simpl; lia|..].
  - intros [|i] s' r' Hi Hs Hr'; simplify_eq/=; [done|]. apply Hmid with (i := i); [lia|done|done].
  - intros Hl. destruct Hlast as (j & s' & r' & -> & Hs & Hr' & Hb & Ho); [simpl in Hl; lia|]. by exists (S j), s', r'.
Qed.

Lemma run_stages_correct w e input stages : forall i results err,
  (forall j, re_ctx w j = None) ->
  exists k, let new := stage_results (fun j => re_stage w (i + j)%nat) e input (take k stages) in
    run_stages w e i stages input results err
      = (results ++ new, (run_stages w e i stages input results err).1.2, None)
    /\ runs_to new stages k
    /\ ((run_stages w e i stages input results err).1.2 = None <-> err = None /\ Forall (fun r => bad r = false) new).
Proof.
  induction stages as [|s stages IH]; intros i results err Hctx.
  { exists 0%nat. cbn. rewrite app_nil_r. split_and!; [done| |].
    - unfold runs_to. simpl. split_and!; [lia|by intros i0 ?? ?|lia].
    - split; [intros ->; done|by intros [-> _]]. }
  cbn [run_stages]. rewrite Hctx. set (r := (ExecuteStage (re_stage w i) e s input).2).
  fold (bad r). assert (forall j, (i + S j = S i + j)%nat) as Hij by lia.
  destruct (bad r) eqn:Hb; [destruct (st_Optional s) eqn:Ho|]; cbn [negb].
  - destruct (IH (S i) (results ++ [r]) (Some (RunStageFailed (st_Name s) (sr_Error r))) Hctx) as (k & He & Hr & Hn).
    exists (S k). cbn [take]. unfold stage_results in *. rewrite imap_cons, Nat.add_0_r. fold r.
    erewrite (imap_ext (_ ∘ S)); [|intros j x _; cbn [compose]; rewrite Hij; reflexivity].
    split_and!; [by rewrite He, <- app_assoc|by apply runs_to_cons|]. rewrite Hn. split; [by intros [? _]|].
    intros [_ Hf]. apply Forall_cons in Hf as [Hf _]. congruence.
  - exists 1%nat. unfold stage_results. cbn. rewrite Nat.add_0_r. fold r. split_and!; [done| |].
    + unfold runs_to. simpl. split_and!; [lia|intros i0 ???; lia|]. intros _. by exists 0%nat, s, r.
    + split; [done|]. intros [_ Hf]. apply Forall_cons in Hf as [Hf _]. congruence.
  - destruct (IH (S i) (results ++ [r]) err Hctx) as (k & He & Hr & Hn).
    exists (S k). cbn [take]. unfold stage_results in *. rewrite imap_cons, Nat.add_0_r. fold r.
    erewrite (imap_ext (_ ∘ S)); [|intros j x _; cbn [compose]; rewrite Hij; reflexivity].
    split_and!; [by rewrite He, <- app_assoc|apply runs_to_cons; [congruence|done]|].
    rewrite Hn, Forall_cons. naive_solver.
Qed.

(** ** Properties *)

(** C31: a stage whose contexts stay alive is attempted until its handler succeeds and at
    most one more time than its retries, which are two when the stage asks for none: it
    completes with the output of the first success, or fails with the error of the last
    attempt.  The pauses in between are half a second times the square of the attempt,
    capped at 30 seconds. *)
Theorem ExecuteStage_correct (w : stage_env) (e : PipelineExecutor) (stage : Stage) (input : any) (handler : StageHandler)
  (Hh : pe_handlers e !! st_Type stage = Some handler)
  (Hctx : forall a, se_ctx w a = None) (Hint : forall a, se_interrupted w a = false) :
  let max := if 0 <? st_MaxRetry stage then st_MaxRetry stage else 2 in
  (forall k output, Z.of_nat k <= max ->
     (forall i, (i < k)%nat -> (handler stage input (Z.of_nat i)).2 <> None) ->
     handler stage input (Z.of_nat k) = (output, None) ->
     ExecuteStage w e stage input
       = (stage_trace k 0, mkStageResult (st_Name stage) TaskStatusCompleted output StageNoError (se_elapsed w)))
  /\ (forall output err, (forall i, 0 <= i <= max -> (handler stage input i).2 <> None) ->
     handler stage input max = (output, Some err) ->
     ExecuteStage w e stage input
       = (stage_trace (Z.to_nat max) 0,
          mkStageResult (st_Name stage) TaskStatusFailed AnyNil (StageFailed max err) (se_elapsed w)))
  /\ (forall a, 0 <= a -> a * a * 500 * Millisecond <= max_int64 ->
        calculateBackoff a = Z.min (a * a * 500 * Millisecond) (30 * Second)).
Proof.
  intros max. assert (0 <= max) as Hmax by (unfold max; destruct (Z.ltb_spec 0 (st_MaxRetry stage)); lia).
  unfold ExecuteStage. rewrite Hh. fold (resolveMaxRetries stage) in *.
  change (resolveMaxRetries stage) with max. split_and!; [..|apply calculateBackoff_exact].
  - intros k output Hk Hf Hs. apply stage_loop_success; [done|done|lia|done|done].
  - intros output err Hf Hs. apply (stage_loop_failure w handler stage input _ max Hctx Hint _ 0 _ output err).
    + intros i Hi. apply Hf. lia.
    + by rewrite Z.add_0_l, Z2Nat.id.
Qed.

(** A run whose context stays alive executes its stages in order up to the end, or up
    to the first stage that is not optional and fails or times out; every result before is
    good or of an optional stage.  It reports success exactly when no stage it ran failed
    or timed out, optional ones included.  But the stages of a stored pipeline are
    always empty: [ExecutePipeline] succeeds for every pipeline without running anything,
    and panics for a nil one. *)
Theorem engine_run_correct (w : run_env) (p : Pipeline) (e : PipelineExecutor) (stages : list Stage) (input : any)
  (Hctx : forall i, re_ctx w i = None) :
  (exists k result err last,
     finish_run w p e stages input = (result, err, last)
     /\ pr_StageResults result = stage_results (re_stage w) e input (take k stages)
     /\ runs_to (pr_StageResults result) stages k
     /\ (err = None <-> Forall (fun r => bad r = false) (pr_StageResults result))
     /\ pr_Status result = (if decide (err = None) then "active" else "failed")
     /\ ev_Type last = (if decide (err = None) then EventPipelineCompleted else EventPipelineFailed))
  /\ (forall en, exists en' l, ExecutePipeline w (Some p) input en
        = Ok (en', mkPipelineRunResult (re_RunID w) (p_ID p) "active" [] (re_elapsed w) None, None, l)
      /\ (async (en_eventBus en) = false ->
          l = dispatch (NewStartedEvent (p_ID p) (re_RunID w)) (en_eventBus en)
              ++ dispatch (NewCompletedEvent (p_ID p) (re_RunID w)) (en_eventBus en)))
  /\ forall en, ExecutePipeline w None input en = Panic.
Proof.
  split_and!; [|intros en|done].
  - destruct (run_stages_correct w e input stages 0 [] None Hctx) as (k & He & Hr & Hn).
    exists k. unfold finish_run. rewrite He. simpl in *.
    destruct (run_stages w e 0 stages input [] None).1.2 as [err|]; eexists _, _, _; (split; [done|]); simpl.
    + split_and!; [done|done| |done|done]. split; [done|]. intros Hf. by specialize (proj2 Hn (conj eq_refl Hf)).
    + split_and!; [done|done| |done|done]. split; [|done]. intros _. by apply Hn.
  - unfold ExecutePipeline, resolveStages, GetStagesFromPipeline, finish_run. simpl.
    destruct (publish_all _ _) as [bus l] eqn:Hp. eexists _, _. split; [done|]. intros Ha.
    unfold publish_all in Hp. simpl in Hp. unfold Publish in Hp. rewrite !Ha in Hp. by injection Hp as _ <-.
Qed.

(** A stage that succeeds at its second attempt. *)
Definition flaky : StageHandler := fun _ _ a => if a =? 0 then (AnyNil, Some "refused") else (AnyInt a, None).
Definition flaky_executor : PipelineExecutor := RegisterHandler "custom" flaky NewPipelineExecutor.
Definition flaky_stage : Stage := mkStage 1 "s" "custom" (task_config "" "" "" "" "" "" false) 0 false [] 0 0.
Definition calm : stage_env := mkStageEnv (fun _ => None) (fun _ => false) 7.
Definition calm_run : run_env := mkRunEnv 5 (fun _ => None) (fun _ => calm) (fun _ => EmptyString) 9.

Lemma ExecuteStage_correct_witness :
  ExecuteStage calm flaky_executor flaky_stage AnyNil
    = ([Called 0; Slept (500 * Millisecond); Called 1],
       mkStageResult "s" TaskStatusCompleted (AnyInt 1) StageNoError 7).
Proof.
  destruct (ExecuteStage_correct calm flaky_executor flaky_stage AnyNil flaky
              ltac:(vm_compute; reflexivity) (fun _ => eq_refl) (fun _ => eq_refl)) as (Hok & _ & _).
  rewrite (Hok 1%nat (AnyInt 1)); [reflexivity|vm_compute; discriminate| |reflexivity].
  intros i Hi. assert (i = 0%nat) as -> by lia. vm_compute. discriminate.
Defined.

Lemma engine_run_correct_witness :
  exists en' l, ExecutePipeline calm_run (Some (NewPipeline 7 100 0 "nightly" 0)) AnyNil
                  (NewPipelineEngine flaky_executor NewEventBus)
    = Ok (en', mkPipelineRunResult 5 7 "active" [] 9 None, None, l).
Proof.
  destruct (engine_run_correct calm_run (NewPipeline 7 100 0 "nightly" 0) flaky_executor [flaky_stage] AnyNil
              (fun _ => eq_refl)) as (_ & Hx & _).
  destruct (Hx (NewPipelineEngine flaky_executor NewEventBus)) as (en' & l & He & _). exists en', l. exact He.
Defined.
