(* ===== verification/PostgresPool.v ===== *)
(** * The pool of connections: internal/db/postgres.go

    Opening and closing the pool, its connections and its statistics, over an interface of pgx's
    pool with a state of its own ([PgxPool]).  A call that has not returned is a result of
    [None].  Logging is left out. *)

From S2P Require Import Prelude GoStrings.

(** ** Data *)

(** The level of the client's tracer is named by its constant. *)
(* go: internal/db/postgres.go type PostgresConfig *)
Record PostgresConfig := mkPostgresConfig {
  Host : string;
  Port : Z;
  User : string;
  Password : string;
  DatabaseName : string;
  MaxConns : Z;
  MinConns : Z;
  MaxConnLifetime : Z;
  MaxConnIdleTime : Z;
  HealthCheckPeriod : Z;
  LogLevel : string;
  ApplicationName : string
}.

(* go: internal/db/postgres.go func DefaultPostgresConfig *)
Definition DefaultPostgresConfig : PostgresConfig :=
  mkPostgresConfig "localhost" 5432 "nexuspipe" "" "nexuspipe" 25 5 (30 * Minute) (5 * Minute) (30 * Second)
    "LogLevelWarn" "nexuspipe".

(** Instants are nanoseconds, the zero time 0. *)
(* go: internal/db/postgres.go type PoolMetrics *)
Record PoolMetrics := mkPoolMetrics {
  AcquireCount : Z;
  AcquireDuration : Z;
  AcquiredConns : Z;
  IdleConns : Z;
  pm_MaxConns : Z;
  TotalConns : Z;
  lastHealthCheck : Z
}.

(** [po_done] is whether the channel is closed. *)
(* go: internal/db/postgres.go type PostgresPool *)
Record PostgresPool := mkPostgresPool {
  po_pool : nat;
  po_config : PostgresConfig;
  po_metrics : PoolMetrics;
  po_done : bool
}.

Definition with_metrics (m : PoolMetrics) (p : PostgresPool) : PostgresPool :=
  mkPostgresPool (po_pool p) (po_config p) m (po_done p).
Definition with_done (p : PostgresPool) : PostgresPool := mkPostgresPool (po_pool p) (po_config p) (po_metrics p) true.

(** What the client is given. *)
Record pgx_config := mkPgxConfig {
  px_ConnString : string;
  px_MaxConns : Z;
  px_MinConns : Z;
  px_MaxConnLifetime : Z;
  px_MaxConnIdleTime : Z;
  px_HealthCheckPeriod : Z;
  px_TraceLevel : string
}.

Record pgx_stat := mkPgxStat { ps_Acquired : Z; ps_Idle : Z; ps_Max : Z; ps_Total : Z }.

(** pgx's pools and their connections, both named by numbers.  [pgx_Close] is followed by whether
    it has returned. *)
Class PgxPool (D : Type) := {
  pgx_ParseConfig : string -> option string;
  pgx_NewWithConfig : pgx_config -> D -> D * (nat + string);
  pgx_Ping : nat -> D -> D * option string;
  pgx_Close : nat -> D -> D * bool;
  pgx_Acquire : nat -> D -> D * (nat + string);
  pgx_Release : nat -> nat -> D -> D;
  pgx_Select1 : nat -> nat -> D -> D * option string;
  pgx_Stat : nat -> D -> pgx_stat
}.

Inductive PoolError : Type :=
| ErrPoolParse (err : string)
| ErrPoolCreate (err : string)
| ErrPoolPing (err : string)
| ErrPoolAcquire (err : string)
| ErrHealthAcquire (err : string)
| ErrHealthPing (err : string).

(** ** Operations *)

(** The parts of the string are not escaped. *)
(* go: internal/db/postgres.go @65-68 NewPostgresPool *)
Definition connString (cfg : PostgresConfig) : string :=
  strings_Join ["postgres://"; User cfg; ":"; Password cfg; "@"; Host cfg; ":"; itoa (Port cfg); "/"; DatabaseName cfg;
                "?application_name="; ApplicationName cfg; "&sslmode=disable"]%string "".

(* go: internal/db/postgres.go @75-85 NewPostgresPool *)
Definition poolConfig (cfg : PostgresConfig) : pgx_config :=
  mkPgxConfig (connString cfg) (MaxConns cfg) (MinConns cfg) (MaxConnLifetime cfg) (MaxConnIdleTime cfg)
    (HealthCheckPeriod cfg) (LogLevel cfg).

Section pool.
Context {D : Type} `{PgxPool D}.

(* go: internal/db/postgres.go func NewPostgresPool *)
Definition NewPostgresPool (cfg : PostgresConfig) (d : D) : D * (PostgresPool + PoolError) :=
  match pgx_ParseConfig (connString cfg) with
  | Some err => (d, inr (ErrPoolParse err))
  | None =>
      match pgx_NewWithConfig (poolConfig cfg) d with
      | (d, inr err) => (d, inr (ErrPoolCreate err))
      | (d, inl pool) =>
          match pgx_Ping pool d with
          | (d, Some err) => ((pgx_Close pool d).1, inr (ErrPoolPing err))
          | (d, None) => (d, inl (mkPostgresPool pool cfg (mkPoolMetrics 0 0 0 0 0 0 0) false))
          end
      end
  end.

(* go: internal/db/postgres.go func PostgresPool.Pool *)
Definition Pool (p : PostgresPool) : nat := po_pool p.

(** A failure is counted too. *)
(* go: internal/db/postgres.go func PostgresPool.Acquire *)
Definition Acquire (duration : Z) (p : PostgresPool) (d : D) : PostgresPool * D * (nat + PoolError) :=
  let '(d, conn) := pgx_Acquire (po_pool p) d in
  let m := po_metrics p in
  let m := mkPoolMetrics (int64 (AcquireCount m + 1)) (int64 (AcquireDuration m + duration)) (AcquiredConns m) (IdleConns m)
             (pm_MaxConns m) (TotalConns m) (lastHealthCheck m) in
  (with_metrics m p, d, match conn with inl c => inl c | inr err => inr (ErrPoolAcquire err) end).

(* go: internal/db/postgres.go func PostgresPool.HealthCheck *)
Definition HealthCheck (now : Z) (p : PostgresPool) (d : D) : PostgresPool * D * option PoolError :=
  match pgx_Acquire (po_pool p) d with
  | (d, inr err) => (p, d, Some (ErrHealthAcquire err))
  | (d, inl conn) =>
      match pgx_Select1 (po_pool p) conn d with
      | (d, Some err) => (p, pgx_Release (po_pool p) conn d, Some (ErrHealthPing err))
      | (d, None) =>
          let m := po_metrics p in
          let m := mkPoolMetrics (AcquireCount m) (AcquireDuration m) (AcquiredConns m) (IdleConns m) (pm_MaxConns m)
                     (TotalConns m) now in
          (with_metrics m p, pgx_Release (po_pool p) conn d, None)
      end
  end.

(* go: internal/db/postgres.go func PostgresPool.Metrics *)
Definition Metrics (p : PostgresPool) (d : D) : PoolMetrics :=
  let stats := pgx_Stat (po_pool p) d in
  mkPoolMetrics (AcquireCount (po_metrics p)) (AcquireDuration (po_metrics p)) (ps_Acquired stats) (ps_Idle stats)
    (ps_Max stats) (ps_Total stats) (lastHealthCheck (po_metrics p)).

(** [time.NewTicker] panics for a period that is not positive, in a goroutine: the program ends. *)
(* go: internal/db/postgres.go @174-174 PostgresPool.collectMetrics *)
Definition collector_starts (p : PostgresPool) : go_result unit unit :=
  if HealthCheckPeriod (po_config p) <=? 0 then Panic else Ok tt.

(** A tick of the collector; [MaxConns] is not among what it stores. *)
(* go: internal/db/postgres.go @179-192 PostgresPool.collectMetrics *)
Definition collectMetrics (p : PostgresPool) (d : D) : PostgresPool :=
  let stats := pgx_Stat (po_pool p) d in
  let m := po_metrics p in
  with_metrics (mkPoolMetrics (AcquireCount m) (AcquireDuration m) (ps_Acquired stats) (ps_Idle stats) (pm_MaxConns m)
                  (ps_Total stats) (lastHealthCheck m)) p.

(* go: internal/db/postgres.go func PostgresPool.Ping *)
Definition Ping (p : PostgresPool) (d : D) : D * option string := pgx_Ping (po_pool p) d.

(** Closing a closed channel panics.  The last component is whether the call has returned. *)
(* go: internal/db/postgres.go func PostgresPool.Close *)
Definition Close (p : PostgresPool) (d : D) : go_result (PostgresPool * D * bool) unit :=
  if po_done p then Panic
  else let '(d, returned) := pgx_Close (po_pool p) d in Ok (with_done p, d, returned).

(** [expired] is the error of the context when it is done before the goroutine that closes, or when
    the select prefers it: then the client's pool is closed once more, and only then the error is
    returned. *)
(* go: internal/db/postgres.go func PostgresPool.Shutdown *)
Definition Shutdown (expired : option string) (p : PostgresPool) (d : D)
    : go_result (PostgresPool * D * option (option string)) unit :=
  match Close p d with
  | Panic => Panic
  | Err e => Err e
  | Ok (p, d, closed) =>
      match expired with
      | None => Ok (p, d, if closed then Some None else None)
      | Some err =>
          let '(d, returned) := pgx_Close (po_pool p) d in Ok (p, d, if returned then Some (Some err) else None)
      end
  end.
End pool.

(** ** The client's contract *)

(** What pgx documents: a pool that is closed takes no more connections out, and the call returns
    when all its connections are back; a connection is handed out once. *)
Class PgxLaws (D : Type) `{PgxPool D} := {
  pools : D -> gset nat;
  taken : nat -> D -> gset nat;
  new_ok cfg d d' p : pgx_NewWithConfig cfg d = (d', inl p) -> (p ∉ pools d) /\ pools d' = {[p]} ∪ pools d /\ taken p d' = ∅
    /\ forall q, q <> p -> taken q d' = taken q d;
  new_err cfg d d' err : pgx_NewWithConfig cfg d = (d', inr err) -> pools d' = pools d /\ forall q, taken q d' = taken q d;
  ping_keeps p d : pools (pgx_Ping p d).1 = pools d /\ forall q, taken q (pgx_Ping p d).1 = taken q d;
  close_keeps p d : pools (pgx_Close p d).1 = pools d ∖ {[p]} /\ forall q, taken q (pgx_Close p d).1 = taken q d;
  close_returns p d : (pgx_Close p d).2 = true <-> taken p d = ∅;
  acquire_ok p d d' c : pgx_Acquire p d = (d', inl c) -> p ∈ pools d /\ pools d' = pools d /\ (c ∉ taken p d)
    /\ taken p d' = {[c]} ∪ taken p d /\ forall q, q <> p -> taken q d' = taken q d;
  acquire_err p d d' err : pgx_Acquire p d = (d', inr err) -> pools d' = pools d /\ forall q, taken q d' = taken q d;
  release_gives p c d : pools (pgx_Release p c d) = pools d /\ taken p (pgx_Release p c d) = taken p d ∖ {[c]}
    /\ forall q, q <> p -> taken q (pgx_Release p c d) = taken q d;
  select_keeps p c d : pools (pgx_Select1 p c d).1 = pools d /\ forall q, taken q (pgx_Select1 p c d).1 = taken q d;
  stat_acquired p d : ps_Acquired (pgx_Stat p d) = Z.of_nat (size (taken p d))
}.

Section facts.
Context {D : Type} `{PgxLaws D}.

(** C35: the pool of connections.  A pool that could not be pinged is closed before its error is
    returned, and one that was opened has all its connections.  A check of its health gives the
    connection back on every path, and notes the time only if it succeeded.  [Acquire] counts
    every attempt.  [Close] and [Shutdown] close the client's pool and stop at nothing but a
    connection that is out: then they wait for it, [Shutdown] also when its context has ended; and
    after either of them both panic. *)
Theorem pool_correct p (d : D) (Hpool : po_pool p ∈ pools d) (Hopen : po_done p = false) :
  (forall cfg, match NewPostgresPool cfg d with
     | (d', inr _) => pools d' = pools d
     | (d', inl p') => pools d' = {[po_pool p']} ∪ pools d /\ (po_pool p' ∉ pools d) /\ taken (po_pool p') d' = ∅
                       /\ po_done p' = false
     end)
  /\ (forall now, let '(p', d', err) := HealthCheck now p d in
        pools d' = pools d /\ (forall q, taken q d' = taken q d)
        /\ (match err with None => lastHealthCheck (po_metrics p') = now | Some _ => p' = p end))
  /\ (forall t, let '(p', d', res) := Acquire t p d in
        AcquireCount (po_metrics p') = int64 (AcquireCount (po_metrics p) + 1)
        /\ match res with
           | inl c => (c ∉ taken (po_pool p) d) /\ taken (po_pool p) d' = {[c]} ∪ taken (po_pool p) d
           | inr _ => taken (po_pool p) d' = taken (po_pool p) d
           end)
  /\ AcquiredConns (Metrics p d) = Z.of_nat (size (taken (po_pool p) d))
  /\ (forall expired, exists p' d' res, Shutdown expired p d = Ok (p', d', res)
        /\ pools d' = pools d ∖ {[po_pool p]}
        /\ res = (if decide (taken (po_pool p) d = ∅) then Some expired else None)
        /\ Close p' d' = Panic /\ forall ctx, Shutdown ctx p' d' = Panic).
Proof.
  split_and!.
  - intros cfg. unfold NewPostgresPool. destruct (pgx_ParseConfig _); [done|].
    destruct (pgx_NewWithConfig _ d) as [d1 [q|err]] eqn:Hn; [|by eapply new_err].
    apply new_ok in Hn as (Hq & Hp & Ht & _). pose proof (ping_keeps q d1) as [Hpp Hpt].
    destruct (pgx_Ping q d1) as [d2 [err|]]; simpl in *.
    + destruct (close_keeps q d2) as [-> _]. rewrite Hpp, Hp. set_solver.
    + rewrite Hpp, Hp, Hpt. done.
  - intros now. unfold HealthCheck. destruct (pgx_Acquire (po_pool p) d) as [d1 [c|err]] eqn:Ha.
    + apply acquire_ok in Ha as (_ & Hp & Hc & Ht & Hother). pose proof (select_keeps (po_pool p) c d1) as [Hsp Hst].
      assert (forall d2, pools d2 = pools d1 -> (forall q, taken q d2 = taken q d1) ->
        pools (pgx_Release (po_pool p) c d2) = pools d /\ forall q, taken q (pgx_Release (po_pool p) c d2) = taken q d) as Hback.
      { intros d2 H2 H3. destruct (release_gives (po_pool p) c d2) as (Hrp & Hrt & Hro). split; [congruence|]. intros q.
        destruct (decide (q = po_pool p)) as [->|Hne]; [rewrite Hrt, H3, Ht; set_solver|by rewrite Hro, H3, Hother]. }
      destruct (pgx_Select1 (po_pool p) c d1) as [d2 [err|]]; simpl in *; destruct (Hback d2 Hsp Hst); done.
    + apply acquire_err in Ha as [Hp Ht]. done.
  - intros t. unfold Acquire. destruct (pgx_Acquire (po_pool p) d) as [d1 [c|err]] eqn:Ha; split; try done.
    + by apply acquire_ok in Ha as (_ & _ & Hc & Ht & _).
    + by apply acquire_err in Ha as [_ ->].
  - unfold Metrics. simpl. apply stat_acquired.
  - intros expired. unfold Shutdown, Close. rewrite Hopen.
    pose proof (close_keeps (po_pool p) d) as [Hcp Hct]. pose proof (close_returns (po_pool p) d) as Hr.
    destruct (pgx_Close (po_pool p) d) as [d1 b] eqn:Hc1. simpl in *. destruct expired as [err|].
    + pose proof (close_keeps (po_pool p) d1) as [Hcp2 Hct2]. pose proof (close_returns (po_pool p) d1) as Hr2.
      rewrite Hct in Hr2. destruct (pgx_Close (po_pool p) d1) as [d2 b2]. simpl in *. eexists _, _, _. split; [done|].
      split_and!; [set_solver| |done|done]. destruct (decide (taken (po_pool p) d = ∅)), b2; naive_solver.
    + eexists _, _, _. split; [done|]. split_and!; [done| |done|done].
      destruct (decide (taken (po_pool p) d = ∅)), b; naive_solver.
Qed.

(** The collector of a pool whose period is zero ends the program; the default configuration's does not. *)
Lemma collector_panics p : collector_starts p = Panic <-> HealthCheckPeriod (po_config p) <= 0.
Proof. unfold collector_starts. destruct (Z.leb_spec (HealthCheckPeriod (po_config p)) 0); split; (done || lia). Qed.
End facts.

(** A client that does what is documented: pools, and for each the connections that are out. *)
Record toy_client := mkToyClient { tc_pools : gset nat; tc_taken : gmap nat (gset nat) }.

Definition toy_taken (p : nat) (d : toy_client) : gset nat := default ∅ (tc_taken d !! p).

#[export] Instance toy_pgx : PgxPool toy_client := {
  pgx_ParseConfig s := None;
  pgx_NewWithConfig cfg d :=
    let p := fresh (tc_pools d) in (mkToyClient ({[p]} ∪ tc_pools d) (delete p (tc_taken d)), inl p);
  pgx_Ping p d := (d, None);
  pgx_Close p d := (mkToyClient (tc_pools d ∖ {[p]}) (tc_taken d), bool_decide (toy_taken p d = ∅));
  pgx_Acquire p d :=
    if bool_decide (p ∈ tc_pools d)
    then let c := fresh (toy_taken p d) in
         (mkToyClient (tc_pools d) (<[p := {[c]} ∪ toy_taken p d]> (tc_taken d)), inl c)
    else (d, inr "closed pool"%string);
  pgx_Release p c d := mkToyClient (tc_pools d) (<[p := toy_taken p d ∖ {[c]}]> (tc_taken d));
  pgx_Select1 p c d := (d, None);
  pgx_Stat p d := mkPgxStat (Z.of_nat (size (toy_taken p d))) 0 25 (Z.of_nat (size (toy_taken p d)))
}.

#[export] Instance toy_pgx_laws : PgxLaws toy_client.
Proof.
  refine {| pools := tc_pools; taken := toy_taken |}; simpl; try done.
  - intros _ d d' p [= <- <-]. unfold toy_taken. simpl. split; [apply is_fresh|]. split; [done|].
    rewrite lookup_delete_eq. split; [done|]. intros q Hq. by rewrite lookup_delete_ne.
  - intros p d. by rewrite bool_decide_eq_true.
  - intros p d d' c. case_bool_decide as Hp; [|done]. intros [= <- <-]. unfold toy_taken. simpl.
    split_and!; [done|done|apply is_fresh|by rewrite lookup_insert_eq|]. intros q Hq. by rewrite lookup_insert_ne.
  - intros p d d' err. by case_bool_decide; [|intros [= <- <-]].
  - intros p c d. unfold toy_taken. simpl. split; [done|]. rewrite lookup_insert_eq. split; [done|].
    intros q Hq. by rewrite lookup_insert_ne.
Defined.

(** A connection that is out keeps a shutdown waiting, whatever its context says. *)
Lemma pool_correct_witness :
  let d := mkToyClient {[1%nat]} {[1%nat := {[7%nat]}]} in
  let p := mkPostgresPool 1 DefaultPostgresConfig (mkPoolMetrics 0 0 0 0 0 0 0) false in
  exists p' d', Shutdown (Some "deadline exceeded"%string) p d = Ok (p', d', None).
Proof.
  intros d p.
  assert (po_pool p ∈ pools d) as Hp by (vm_compute; reflexivity).
  destruct (pool_correct p d Hp eq_refl) as (_ & _ & _ & _ & Hs).
  destruct (Hs (Some "deadline exceeded"%string)) as (p' & d' & res & He & _ & Hres & _).
  exists p', d'. rewrite He, Hres. reflexivity.
Defined.
