(* ===== verification/CmdWorker.v ===== *)
(** * The worker's command: cmd/worker/main.go

    The consumers that the command starts, what each does with a message, and what becomes of a
    message that the broker delivers again.  The command does not use internal/worker: its
    handlers only log.  Connections are those of [Amqp]; what the scheduler of [SchedJob]
    publishes is compared with what the command knows.  Logging is left out. *)

From S2P Require Import Prelude QueueMessage QueueRabbit QueueConsumer SchedJob Config.

(** ** Handlers *)

(* go: cmd/worker/main.go func Worker.handlePipelineExecute *)
Definition handlePipelineExecute (body : option json) : option string := None.

(* go: cmd/worker/main.go func Worker.handleTaskProcess *)
Definition handleTaskProcess (body : option json) : option string := None.

(* go: cmd/worker/main.go func Worker.handleEventIngest *)
Definition handleEventIngest (body : option json) : option string := None.

(* go: cmd/worker/main.go func Worker.handleDelivery *)
Definition handleDelivery (msg : Delivery) : option string :=
  if String.eqb (d_RoutingKey msg) "pipeline.execute" then handlePipelineExecute (d_Body msg)
  else if String.eqb (d_RoutingKey msg) "task.process" then handleTaskProcess (d_Body msg)
  else if String.eqb (d_RoutingKey msg) "event.ingest" then handleEventIngest (d_Body msg)
  else Some ("unknown routing key: " +:+ d_RoutingKey msg)%string.

(** What the command asks of the broker; it only logs a refusal. *)
(* go: cmd/worker/main.go func Worker.processMessage *)
Definition processMessage (msg : Delivery) : settlement :=
  match handleDelivery msg with
  | Some _ => Nacked (d_Redelivered msg)
  | None => Acked
  end.

(** ** Consumers *)

(** What a consumer's loop receives: the end of the context, or its channel, which is closed
    ([None]) or has a message. *)
Inductive consumer_event : Type :=
| CtxDone
| FromChannel (msg : option Delivery).

(** The settlements of a loop that receives [events], and whether it has returned. *)
(* go: cmd/worker/main.go @284-306 Worker.consumeQueue *)
Fixpoint consume_loop (events : list consumer_event) : list settlement * bool :=
  match events with
  | [] => ([], false)
  | CtxDone :: _ | FromChannel None :: _ => ([], true)
  | FromChannel (Some msg) :: events =>
      let r := consume_loop events in (processMessage msg :: r.1, r.2)
  end.

Definition consumer_tag (consumerID : Z) (unix : Z) : string :=
  strings_Join ["worker-"; itoa consumerID; "-"; itoa unix]%string "".

Section consumers.
Context {W : Type} `{Amqp W}.

(** Whether the consumer is registered. *)
(* go: cmd/worker/main.go @258-282 Worker.consumeQueue *)
Definition register_consumer (ch : nat) (queueName : string) (consumerID unix : Z) (w : W) : W * bool :=
  match ch_Consume ch queueName (consumer_tag consumerID unix) w with
  | (w, None) => (w, true)
  | (w, Some _) => (w, false)
  end.
End consumers.

(** The goroutines that are started, by queue and number. *)
(* go: cmd/worker/main.go func Worker.startConsumers *)
Definition startConsumers (cfg : WorkerConfig) : list (string * Z) :=
  queueName ← wk_QueueNames cfg; i ← seqZ 0 (wk_Concurrency cfg); [(queueName, i)].

(** What [handleRabbitMQReconnect] does after its ticks, each with the outcome of [connectRabbitMQ]:
    how often it tries to connect, and whether it then starts the consumers again; [done] are the
    ticks at which the context is over, which ends the loop. *)
(* go: cmd/worker/main.go func Worker.handleRabbitMQReconnect *)
Fixpoint reconnect_loop (ticks : list (bool * bool)) : nat * bool :=
  match ticks with
  | [] => (0%nat, false)
  | (true, _) :: _ => (0%nat, false)
  | (false, true) :: _ => (1%nat, true)
  | (false, false) :: ticks => let r := reconnect_loop ticks in (S r.1, r.2)
  end.

(** ** The life of a message

    A message that is returned to its queue is delivered again, marked as such; [life n] are the
    settlements of its first [n] deliveries. *)

Definition redelivered (msg : Delivery) : Delivery :=
  mkDelivery (d_Body msg) (d_ConsumerTag msg) (d_DeliveryTag msg) true (d_Exchange msg) (d_RoutingKey msg).

Fixpoint life (n : nat) (msg : Delivery) : list settlement :=
  match n with
  | O => []
  | S n => processMessage msg :: match processMessage msg with
                                 | Nacked true => life n (redelivered msg)
                                 | _ => []
                                 end
  end.

Definition known_keys : list string := ["pipeline.execute"; "task.process"; "event.ingest"]%string.

(** ** Facts *)

Lemma handleDelivery_known msg : handleDelivery msg = None <-> d_RoutingKey msg ∈ known_keys.
Proof.
  unfold handleDelivery, known_keys, handlePipelineExecute, handleTaskProcess, handleEventIngest. set_unfold.
  destruct (String.eqb_spec (d_RoutingKey msg) "pipeline.execute"), (String.eqb_spec (d_RoutingKey msg) "task.process"),
    (String.eqb_spec (d_RoutingKey msg) "event.ingest"); naive_solver.
Qed.

Lemma processMessage_known msg :
  processMessage msg = if decide (d_RoutingKey msg ∈ known_keys) then Acked else Nacked (d_Redelivered msg).
Proof.
  unfold processMessage. pose proof (handleDelivery_known msg) as Hk.
  destruct (handleDelivery msg), (decide (d_RoutingKey msg ∈ known_keys)); naive_solver.
Qed.

Lemma life_redelivered n msg :
  d_RoutingKey msg ∉ known_keys -> d_Redelivered msg = true -> life n msg = replicate n (Nacked true).
Proof.
  revert msg. induction n as [|n IH]; intros msg Hk Hr; [done|]. simpl.
  rewrite processMessage_known, decide_False, Hr by done. by rewrite IH.
Qed.

(** A text with another prefix is not one of the known keys. *)
Lemma unknown_prefix p s : Forall (fun k => String.prefix p k = false) known_keys -> (p +:+ s)%string ∉ known_keys.
Proof.
  intros Hall Hin. pose proof (proj1 (Forall_forall _ _) Hall _ Hin) as Hp. simpl in Hp. revert Hp.
  clear. induction p as [|c p IH]; simpl; [by destruct s|]. by destruct (Ascii.ascii_dec c c).
Qed.

(** What a job of the scheduler's service sends has no key that the worker knows. *)
Lemma RoutingKey_unknown e : RoutingKey e ∉ known_keys.
Proof.
  unfold RoutingKey.
  repeat case_match; apply unknown_prefix; repeat constructor; vm_compute; done.
Qed.
Lemma config_key_unknown jobType : ("scheduler." +:+ jobType)%string ∉ known_keys.
Proof. apply unknown_prefix. repeat constructor; vm_compute; done. Qed.

(** A message with one of three keys is acknowledged at its first delivery, whatever its body,
    and nothing else happens; any other message is given up at its first delivery, unless the
    broker marks that delivery as a repeated one: then it goes back to the queue each time, for
    ever.  No job of the scheduler's service, no job of the scheduler's configuration and no
    heartbeat has one of the three keys. *)
Theorem message_life_correct msg n :
  (d_RoutingKey msg ∈ known_keys -> life (S n) msg = [Acked])
  /\ (d_RoutingKey msg ∉ known_keys -> d_Redelivered msg = false -> life (S n) msg = [Nacked false])
  /\ (d_RoutingKey msg ∉ known_keys -> d_Redelivered msg = true -> life n msg = replicate n (Nacked true))
  /\ (forall e jobType, d_RoutingKey msg ∈ [RoutingKey e; ("scheduler." +:+ jobType)%string; "system.heartbeat"%string] ->
        d_RoutingKey msg ∉ known_keys).
Proof.
  split_and!.
  - intros Hk. simpl. by rewrite processMessage_known, decide_True.
  - intros Hk Hr. simpl. by rewrite processMessage_known, decide_False, Hr.
  - apply life_redelivered.
  - intros e jobType Hin. rewrite !list_elem_of_In in Hin. destruct Hin as [<-|[<-|[<-|[]]]].
    + apply RoutingKey_unknown.
    + apply config_key_unknown.
    + apply (bool_decide_unpack _). vm_compute. exact I.
Qed.

(** Consumers of two queues that register within one second have a tag in common, although tags
    have to be unique on the channel, which all consumers share. *)
Lemma tags_collide cfg q q' rest unix :
  wk_QueueNames cfg = q :: q' :: rest -> 0 < wk_Concurrency cfg ->
  ~ NoDup ((fun c => consumer_tag c.2 unix) <$> startConsumers cfg).
Proof.
  intros Hq Hc. unfold startConsumers. rewrite Hq.
  rewrite (seqZ_cons 0) by done. csimpl. rewrite fmap_app. csimpl. intros [Hn _]%NoDup_cons. apply Hn.
  rewrite elem_of_app. right. by left.
Qed.

(** Without a positive concurrency nothing is consumed: the command does not check it. *)
Lemma no_consumers cfg : wk_Concurrency cfg <= 0 -> startConsumers cfg = [].
Proof.
  intros Hc. unfold startConsumers. assert (seqZ 0 (wk_Concurrency cfg) = []) as -> by by apply seqZ_nil.
  by induction (wk_QueueNames cfg).
Qed.

Definition run_message : Delivery := mkDelivery None "worker-0-7" 1 true "nexuspipe.events" "pipeline.run.p".

Lemma message_life_correct_witness :
  d_RoutingKey run_message ∉ known_keys /\ life 3 run_message = [Nacked true; Nacked true; Nacked true].
Proof.
  assert (d_RoutingKey run_message ∉ known_keys) as Hk by (apply (bool_decide_unpack _); vm_compute; exact I).
  split; [exact Hk|]. exact (proj1 (proj2 (proj2 (message_life_correct run_message 3))) Hk eq_refl).
Defined.
