(* ===== verification/CmdScheduler.v ===== *)
(** * The scheduler's command: cmd/scheduler/main.go

    The jobs that the command registers with the cron library ([CronOps]), and what each run
    of one does to the tables of tasks and events and sends to the broker ([Amqp]).  A run
    reads the clock, and the texts of instants are arguments; what the database answers to
    its statement is [fail].  The deletion of an event clears it in the tasks, as the schema
    in migrations/001_initial.up.sql has it.  Logging is left out. *)

From S2P Require Import Prelude CronLib QueueMessage QueueRabbit PipelineModels ModelsEvent Config.

(** ** Jobs *)

Inductive job_fn : Type :=
| CleanupStaleTasks
| RetryFailedEvents
| SendHeartbeat
| TakeMetricsSnapshot
| PurgeOldEvents
| ConfigJob (job : CronJob).

(* go: cmd/scheduler/main.go @224-254 Scheduler.registerBuiltinJobs *)
Definition builtin_jobs : gmap string (string * job_fn) :=
  {[ "cleanup_stale_tasks" := ("0 */5 * * * *", CleanupStaleTasks);
     "retry_failed_events" := ("0 */1 * * * *", RetryFailedEvents);
     "heartbeat" := ("0 */30 * * * *", SendHeartbeat);
     "metrics_snapshot" := ("0 */15 * * * *", TakeMetricsSnapshot);
     "purge_old_events" := ("0 0 3 * * *", PurgeOldEvents) ]}%string.

(** [sc_funcs] are the functions of the library's entries. *)
(* go: cmd/scheduler/main.go type Scheduler *)
Record Scheduler (C : Type) := mkScheduler {
  sc_cron : C;
  sc_funcs : gmap Z job_fn;
  sc_jobs : gmap string Z
}.
Arguments mkScheduler {C}.
Arguments sc_cron {C}.
Arguments sc_funcs {C}.
Arguments sc_jobs {C}.

Section register.
Context {C : Type} `{CronOps C}.

(** A job whose schedule the library refuses is only logged. *)
Definition register (name schedule : string) (fn : job_fn) (s : Scheduler C) : Scheduler C :=
  match cron_AddFunc (sc_cron s) schedule with
  | Ok (c, id) => mkScheduler c (<[id := fn]> (sc_funcs s)) (<[name := id]> (sc_jobs s))
  | _ => s
  end.

(** [ord] is the order of the range over the map of jobs. *)
(* go: cmd/scheduler/main.go func Scheduler.registerBuiltinJobs *)
Definition registerBuiltinJobs (ord : list string) (s : Scheduler C) : Scheduler C :=
  foldl (fun s name => match builtin_jobs !! name with
                       | Some (schedule, fn) => register name schedule fn s
                       | None => s
                       end) s ord.

(* go: cmd/scheduler/main.go func Scheduler.registerConfigJobs *)
Definition registerConfigJobs (cfg : SchedulerConfig) (s : Scheduler C) : Scheduler C :=
  foldl (fun s job => register (cj_Name job) (cj_Schedule job) (ConfigJob job) s) s (sk_CronExpressions cfg).
End register.

(** ** What a run does *)

Record tables := mkTables {
  tb_tasks : gmap UUID Task;
  tb_events : gmap UUID Event;
  tb_pipelines : gmap UUID Pipeline
}.

Definition set_task_status (status : string) (now : Z) (t : Task) : Task :=
  mkTask (t_ID t) (t_PipelineID t) (t_EventID t) (t_ParentTaskID t) (t_Name t) (t_Type t) status (t_Priority t) (t_Sequence t)
    (t_Input t) (t_Output t) (t_Error t) (t_Config t) (t_RetryCount t) (t_MaxRetries t) (t_Timeout t) (t_WorkerID t)
    (t_StartedAt t) (t_CompletedAt t) (t_DurationMS t) (t_ScheduledAt t) (t_CreatedAt t) now.
Definition set_task_event (e : option UUID) (t : Task) : Task :=
  mkTask (t_ID t) (t_PipelineID t) e (t_ParentTaskID t) (t_Name t) (t_Type t) (t_Status t) (t_Priority t) (t_Sequence t)
    (t_Input t) (t_Output t) (t_Error t) (t_Config t) (t_RetryCount t) (t_MaxRetries t) (t_Timeout t) (t_WorkerID t)
    (t_StartedAt t) (t_CompletedAt t) (t_DurationMS t) (t_ScheduledAt t) (t_CreatedAt t) (t_UpdatedAt t).
Definition set_event_retry (status : string) (count now : Z) (e : Event) : Event :=
  mkEvent (ev_ID e) (ev_PipelineID e) (ev_EventType e) (ev_Source e) status (ev_Priority e) (ev_Body e) (ev_Headers e)
    count (ev_MaxRetries e) (ev_CorrelationID e) (ev_CausationID e) (ev_CreatedAt e) now (ev_ProcessedAt e)
    (ev_ScheduledAt e) (ev_TTL e).

Definition Day : Z := 24 * Hour.

(* go: cmd/scheduler/main.go @337-338 Scheduler.cleanupStaleTasks *)
Definition stale (now : Z) (t : Task) : bool := String.eqb (t_Status t) TaskStatusRunning && (t_UpdatedAt t <? now - Hour).
(* go: cmd/scheduler/main.go @347-348 Scheduler.retryFailedEvents *)
Definition retriable (now : Z) (e : Event) : bool :=
  String.eqb (ev_Status e) EventStatusFailed && (ev_RetryCount e <? 5) && (ev_UpdatedAt e <? now - 5 * Minute).
(* go: cmd/scheduler/main.go @397-397 Scheduler.purgeOldEvents *)
Definition expired (now : Z) (e : Event) : bool := ev_CreatedAt e <? now - 90 * Day.

(* go: cmd/scheduler/main.go func Scheduler.cleanupStaleTasks *)
Definition cleanupStaleTasks (fail : option string) (now : Z) (t : tables) : tables :=
  if fail is Some _ then t
  else mkTables ((fun r => if stale now r then set_task_status TaskStatusFailed now r else r) <$> tb_tasks t)
         (tb_events t) (tb_pipelines t).

(* go: cmd/scheduler/main.go func Scheduler.retryFailedEvents *)
Definition retryFailedEvents (fail : option string) (now : Z) (t : tables) : tables :=
  if fail is Some _ then t
  else mkTables (tb_tasks t)
         ((fun r => if retriable now r then set_event_retry EventStatusPending (ev_RetryCount r + 1) now r else r) <$> tb_events t)
         (tb_pipelines t).

(** The number of deleted rows is only logged. *)
(* go: cmd/scheduler/main.go func Scheduler.purgeOldEvents *)
Definition purgeOldEvents (fail : option string) (now : Z) (t : tables) : tables :=
  if fail is Some _ then t
  else
    let kept := filter (fun r => expired now r.2 = false) (tb_events t) in
    let clear task := match t_EventID task with
                      | Some e => if (tb_events t !! e) is Some r then if expired now r then set_task_event None task else task else task
                      | None => task
                      end in
    mkTables (clear <$> tb_tasks t) kept (tb_pipelines t).

(** The counts of tasks, events and pipelines that are logged; each query may fail. *)
(* go: cmd/scheduler/main.go func Scheduler.takeMetricsSnapshot *)
Definition takeMetricsSnapshot (failTasks failEvents failPipelines : option string) (t : tables) : Z * Z * Z :=
  let count (fail : option string) (n : nat) := if fail is Some _ then 0 else Z.of_nat n in
  (count failTasks (size (tb_tasks t)), count failEvents (size (tb_events t)), count failPipelines (size (tb_pipelines t))).

Section runs.
Context {W : Type} `{Amqp W}.
Context (cfg : RabbitMQConfig) (ch : nat) (format_rfc3339 : Z -> string).

(** The seconds since the start of 1970 of an instant. *)
Definition unix_seconds (t : Z) : Z := t / Second - 62135596800.
Definition unix_nanos (t : Z) : Z := int64 (t - 62135596800 * Second).

(** The two parts of the heartbeat's JSON, around its instant. *)
Definition quote : string := String (Ascii.ascii_of_nat 34) EmptyString.
Definition quoted (s : string) : string := strings_Join [quote; s; quote] "".
Definition heartbeat_open : string :=
  strings_Join ["{"; quoted "type"; ":"; quoted "scheduler_heartbeat"; ","; quoted "timestamp"; ":"; quote]%string "".
Definition heartbeat_close : string := (quote +:+ "}")%string.

(** The clock is read for each field; what the broker answers is only logged. *)
(* go: cmd/scheduler/main.go func Scheduler.sendHeartbeat *)
Definition sendHeartbeat (now1 now2 now3 : Z) (w : W) : W :=
  let body := strings_Join [heartbeat_open; format_rfc3339 now1; heartbeat_close] "" in
  (ch_Publish ch (mq_Exchange cfg) "system.heartbeat" false
     (mkPublishing body "application/json" now2 0 "" ("hb-" +:+ itoa (unix_seconds now3)) None 0 "") w).1.

(** The function that [createConfigJob] returns, with the two readings of the clock. *)
(* go: cmd/scheduler/main.go func Scheduler.createConfigJob *)
Definition createConfigJob (job : CronJob) (now now' : Z) (w : W) : W :=
  (ch_Publish ch (mq_Exchange cfg) ("scheduler." +:+ cj_Type job) true
     (mkPublishing (cj_Payload job) "application/json" now 0 ""
        (strings_Join [cj_Name job; "-"; itoa (unix_nanos now')] "") None 2 "") w).1.

Definition run_job (fail : option string) (now : Z) (fn : job_fn) (t : tables) (w : W) : tables * W :=
  match fn with
  | CleanupStaleTasks => (cleanupStaleTasks fail now t, w)
  | RetryFailedEvents => (retryFailedEvents fail now t, w)
  | SendHeartbeat => (t, sendHeartbeat now now now w)
  | TakeMetricsSnapshot => (t, w)
  | PurgeOldEvents => (purgeOldEvents fail now t, w)
  | ConfigJob job => (t, createConfigJob job now now w)
  end.
End runs.

(** ** Registration *)

(** The name under which a function was registered. *)
Definition fn_name (fn : job_fn) : string :=
  match fn with
  | CleanupStaleTasks => "cleanup_stale_tasks"
  | RetryFailedEvents => "retry_failed_events"
  | SendHeartbeat => "heartbeat"
  | TakeMetricsSnapshot => "metrics_snapshot"
  | PurgeOldEvents => "purge_old_events"
  | ConfigJob job => cj_Name job
  end.

Section registered.
Context {C : Type} `{CronOps C, !CronLaws C}.
Implicit Types s : Scheduler C.

Definition sc_entries s : list Z := (cron_Entries (sc_cron s)).*1.

(** Every entry has a function, each name is that of an entry's function, and every function
    has its name in the map, if only for a later entry. *)
Record registered (s : Scheduler C) : Prop := {
  reg_NoDup : NoDup (sc_entries s);
  reg_funcs : forall id, id ∈ sc_entries s <-> is_Some (sc_funcs s !! id);
  reg_jobs : forall name id, sc_jobs s !! name = Some id -> exists fn, sc_funcs s !! id = Some fn /\ fn_name fn = name;
  reg_names : forall id fn, sc_funcs s !! id = Some fn -> is_Some (sc_jobs s !! fn_name fn)
}.

(** The functions that one state has, with their entries, another one still has. *)
Definition keeps s s' : Prop := sc_funcs s ⊆ sc_funcs s'.

Lemma keeps_refl s : keeps s s.
Proof. by unfold keeps. Qed.
#[local] Hint Resolve keeps_refl : core.

Lemma register_registered name schedule fn s :
  fn_name fn = name -> registered s -> registered (register name schedule fn s) /\ keeps s (register name schedule fn s).
Proof.
  intros <- [Hnd Hf Hj Hn]. unfold register, keeps.
  destruct (cron_AddFunc (sc_cron s) schedule) as [[c id]|e|] eqn:Hadd; [|split; [by split|done]..].
  pose proof (addfunc_entries _ _ _ _ Hadd) as Hp. pose proof (addfunc_fresh _ _ _ _ Hadd) as Hfresh.
  assert (sc_funcs s !! id = None) as Hnone.
  { destruct (sc_funcs s !! id) eqn:Hid; [|done]. exfalso. apply Hfresh, Hf. by eexists. }
  split; [split|]; unfold sc_entries; simpl.
  - rewrite Hp. by constructor.
  - intros j. rewrite Hp, elem_of_cons, lookup_insert_is_Some. change ((cron_Entries (sc_cron s)).*1) with (sc_entries s).
    rewrite Hf. destruct (decide (j = id)); naive_solver.
  - intros nm j. rewrite lookup_insert_Some. intros [[<- <-]|[Hne Hnm]].
    + exists fn. by rewrite lookup_insert_eq.
    + destruct (Hj _ _ Hnm) as (g & Hg & <-). exists g. split; [|done]. rewrite lookup_insert_ne; [done|]. congruence.
  - intros j g. rewrite lookup_insert_Some, lookup_insert_is_Some. intros [[<- <-]|[Hne Hg]]; [by left|].
    destruct (decide (fn_name fn = fn_name g)); [by left|right]. split; [done|]. by eapply Hn.
  - by apply insert_subseteq.
Qed.

Lemma builtin_name name schedule fn : builtin_jobs !! name = Some (schedule, fn) -> fn_name fn = name.
Proof.
  assert (map_Forall (fun name job => fn_name job.2 = name) builtin_jobs) as Hall
    by (apply (bool_decide_unpack _); vm_compute; exact I).
  intros Hl. exact (Hall _ _ Hl).
Qed.

Lemma foldl_registered {A} (step : Scheduler C -> A -> Scheduler C) (l : list A) s :
  (forall s a, registered s -> registered (step s a) /\ keeps s (step s a)) ->
  registered s -> registered (foldl step s l) /\ keeps s (foldl step s l).
Proof.
  intros Hstep. revert s. induction l as [|a l IH]; intros s Hs; [by split|]. simpl.
  destruct (Hstep s a Hs) as [H1 H2]. destruct (IH _ H1) as [H3 H4]. split; [done|]. unfold keeps in *. by etrans.
Qed.

(** Registering the jobs of the command and those of the configuration leaves the library with one
    entry and one function per accepted job; a job that takes the name of an earlier one takes
    its place in the command's map only, and both run. *)
Theorem registration_correct ord cfg s :
  registered s ->
  registered (registerConfigJobs cfg (registerBuiltinJobs ord s))
  /\ keeps s (registerBuiltinJobs ord s) /\ keeps (registerBuiltinJobs ord s) (registerConfigJobs cfg (registerBuiltinJobs ord s)).
Proof.
  intros Hs. unfold registerConfigJobs, registerBuiltinJobs.
  destruct (foldl_registered (fun s name => match builtin_jobs !! name with
                                            | Some (schedule, fn) => register name schedule fn s
                                            | None => s
                                            end) ord s) as [H1 H2]; [|done|].
  - intros s' name Hs'. destruct (builtin_jobs !! name) as [[schedule fn]|] eqn:Hb; [|by split].
    eapply register_registered; [by eapply builtin_name|done].
  - split_and!; [| done |]; apply foldl_registered; try done; intros s' job Hs'; by apply register_registered.
Qed.
End registered.

(** ** Maintenance *)

Section maintenance.
Context {W : Type} `{Amqp W}.
Context (cfg : RabbitMQConfig) (ch : nat) (format_rfc3339 : Z -> string).

(** The runs of the jobs, and other clients, which may do anything to the tables but give an event
    another number of retries. *)
Inductive maintenance_step : tables -> tables -> Prop :=
| step_job fail now fn t w : maintenance_step t (run_job cfg ch format_rfc3339 fail now fn t w).1
| step_client t t' :
    (forall id e', tb_events t' !! id = Some e' -> exists e, tb_events t !! id = Some e /\ ev_RetryCount e = ev_RetryCount e') ->
    maintenance_step t t'.

Lemma purge_events fail now t :
  tb_events (purgeOldEvents fail now t) ⊆ tb_events t.
Proof. unfold purgeOldEvents. destruct fail; [done|]. apply map_filter_subseteq. Qed.

Lemma step_retries t t' id e' :
  maintenance_step t t' -> tb_events t' !! id = Some e' ->
  exists e, tb_events t !! id = Some e /\ ev_RetryCount e <= ev_RetryCount e' <= Z.max 5 (ev_RetryCount e).
Proof.
  assert (forall e, ev_RetryCount e <= ev_RetryCount e <= Z.max 5 (ev_RetryCount e)) as Hrefl by (intros; lia).
  intros [fail now fn u w|u u' Hc] He'.
  - destruct fn; simpl in *; eauto.
    + unfold cleanupStaleTasks in He'. destruct fail; simpl in He'; eauto.
    + unfold retryFailedEvents in He'. destruct fail; simpl in He'; [eauto|].
      apply lookup_fmap_Some in He' as (e & <- & He). exists e. split; [done|].
      destruct (retriable now e) eqn:Hr; [|lia]. unfold retriable in Hr.
      apply andb_true_iff in Hr as [[_ Hr%Z.ltb_lt]%andb_true_iff _]. simpl. lia.
    + exists e'. split; [|done]. by eapply lookup_weaken; [|apply purge_events].
  - destruct (Hc _ _ He') as (e & He & Heq). exists e. split; [done|]. rewrite Heq. lia.
Qed.

Lemma run_retries t t' id e' :
  rtc maintenance_step t t' -> tb_events t' !! id = Some e' ->
  exists e, tb_events t !! id = Some e /\ ev_RetryCount e <= ev_RetryCount e' <= Z.max 5 (ev_RetryCount e).
Proof.
  intros Hr. revert e'. induction Hr as [t|t t1 t2 Hstep _ IH]; intros e' He'; [exists e'; split; [done|lia]|].
  destruct (IH _ He') as (e1 & He1 & Hle1). destruct (step_retries _ _ _ _ Hstep He1) as (e & He & Hle).
  exists e. split; [done|lia].
Qed.

(** Each event that a task names is in the table, as the schema demands. *)
Definition refs_ok (t : tables) : Prop :=
  forall id r e, tb_tasks t !! id = Some r -> t_EventID r = Some e -> is_Some (tb_events t !! e).

End maintenance.

(** A new event allows three retries and is retried a fifth time. *)
Example retried_beyond_max :
  let e := set_event_retry EventStatusFailed 4 0 (NewEvent 1 0 "order.created" "shop" None) in
  let t := retryFailedEvents None Hour (mkTables ∅ {[1%N := e]} ∅) in
  (fun e => (ev_RetryCount e, ev_MaxRetries e, ev_Status e)) <$> tb_events t !! 1%N = Some (5, 3, EventStatusPending).
Proof. reflexivity. Qed.
