(* ===== verification/CmdLifecycle.v ===== *)
(** * The life of the commands: cmd/worker, cmd/scheduler, cmd/migrator and cmd/api

    What each command opens and closes, from its configuration to its end.  The outcomes of the
    steps that reach outside are arguments; the result is a trace with the error that the command
    returns.  Deferred calls run in the reverse order of their defer statements, and a deferred
    method is that of the value at the time of the statement. *)

From S2P Require Import Prelude Config.

(** ** Traces *)

(** Connections and channels count the connections that a process makes. *)
Inductive resource : Type :=
| ResPool
| ResConn (n : nat)
| ResChan (n : nat)
| ResRedis
| ResSql
| ResMigrate.

#[export] Instance resource_eq_dec : EqDecision resource.
Proof. solve_decision. Defined.

Inductive event : Type :=
| Opened (r : resource)
| Closed (r : resource).

Abbreviation trace := (list event).

(** What is open after a trace. *)
Definition open_step (open : list resource) (e : event) : list resource :=
  match e with Opened r => r :: open | Closed r => filter (.≠ r) open end.
Definition open_after (t : trace) : list resource := foldl open_step [] t.

Inductive CmdError : Type :=
| ErrConfig (err : string)
| ErrInvalidConfig (err : ConfigError)
| ErrLogger (err : string)
| ErrDatabase (step err : string)
| ErrRabbit (step err : string)
| ErrRedis (err : string)
| ErrMigrator (step err : string).

(** ** Connections *)

Inductive db_outcome : Type :=
| DbParse (err : string)
| DbCreate (err : string)
| DbPing (err : string)
| DbOk.

(** The limits of a pool; the settings are cut to 32 bits. *)
Record pool_limits := mkPoolLimits {
  pl_MaxConns : Z;
  pl_MinConns : Z;
  pl_MaxConnLifetime : option Z;
  pl_MaxConnIdleTime : option Z
}.

(* go: cmd/worker/main.go @138-141 Worker.connectDatabase *)
Definition worker_pool (c : DatabaseConfig) : pool_limits :=
  mkPoolLimits (wrap_s 32 (db_MaxOpenConns c)) (wrap_s 32 (db_MaxIdleConns c)) (Some (db_ConnMaxLifetime c)) (Some (db_ConnMaxIdleTime c)).

(* go: cmd/scheduler/main.go @164-165 Scheduler.connectDatabase *)
Definition scheduler_pool : pool_limits := mkPoolLimits 5 1 None None.

(** The address of the Redis client; its other options are settings. *)
(* go: cmd/worker/main.go @225-225 Worker.connectRedis *)
Definition redis_addr (c : RedisConfig) : string := strings_Join [rd_Host c; ":"; itoa (rd_Port c)]%string "".

(** A pool that does not answer is not closed. *)
(* go: cmd/worker/main.go func Worker.connectDatabase *)
Definition connectDatabase (o : db_outcome) : trace * option CmdError :=
  match o with
  | DbParse err => ([], Some (ErrDatabase "parse" err))
  | DbCreate err => ([], Some (ErrDatabase "create" err))
  | DbPing err => ([Opened ResPool], Some (ErrDatabase "ping" err))
  | DbOk => ([Opened ResPool], None)
  end.

(** [MqSetup] is the last step: the quality of service in the worker, the exchange in the
    scheduler. *)
Inductive mq_outcome : Type :=
| MqDial (err : string)
| MqChannel (err : string)
| MqSetup (err : string)
| MqOk.

(* go: cmd/worker/main.go func Worker.connectRabbitMQ *)
Definition connectRabbitMQ (n : nat) (o : mq_outcome) : trace * option CmdError :=
  match o with
  | MqDial err => ([], Some (ErrRabbit "dial" err))
  | MqChannel err => ([Opened (ResConn n); Closed (ResConn n)], Some (ErrRabbit "channel" err))
  | MqSetup err =>
      ([Opened (ResConn n); Opened (ResChan n); Closed (ResChan n); Closed (ResConn n)], Some (ErrRabbit "setup" err))
  | MqOk => ([Opened (ResConn n); Opened (ResChan n)], None)
  end.

(** The scheduler's copy of the code keeps the channel only. *)
(* go: cmd/scheduler/main.go func Scheduler.connectRabbitMQ *)
Definition scheduler_connectRabbitMQ (o : mq_outcome) : trace * option CmdError := connectRabbitMQ 0 o.

(* go: cmd/scheduler/main.go func Scheduler.connectDatabase *)
Definition scheduler_connectDatabase (o : db_outcome) : trace * option CmdError := connectDatabase o.

(** The client is made before it is asked, and is not closed if it does not answer. *)
(* go: cmd/worker/main.go func Worker.connectRedis *)
Definition connectRedis (ping : option string) : trace * option CmdError :=
  match ping with
  | Some err => ([Opened ResRedis], Some (ErrRedis err))
  | None => ([Opened ResRedis], None)
  end.

(** ** Commands *)

(** The steps of a command one after the other, each with what it defers when it succeeds; the
    deferred calls run at the end, the last one first. *)
Fixpoint run_steps (steps : list (trace * option CmdError * list resource)) (deferred : list resource) (body : trace)
    : trace * option CmdError :=
  match steps with
  | [] => (body ++ (Closed <$> deferred), None)
  | (t, Some err, _) :: _ => (t ++ (Closed <$> deferred), Some err)
  | (t, None, ds) :: steps =>
      let r := run_steps steps (ds ++ deferred) body in (t ++ r.1, r.2)
  end.

(** The configuration and the logger open nothing that is closed. *)
Definition load_step (config logger : option string) : trace * option CmdError * list resource :=
  ([], match config with
       | Some err => Some (ErrConfig err)
       | None => match logger with Some err => Some (ErrLogger err) | None => None end
       end, []).

(** The connections that the worker loses and makes again while it runs: a lost one is closed by the
    broker's end. *)
Fixpoint reconnections (n : nat) (count : nat) : trace :=
  match count with
  | O => []
  | S count =>
      [Closed (ResChan n); Closed (ResConn n)] ++ (connectRabbitMQ (S n) MqOk).1 ++ reconnections (S n) count
  end.

(** [count] connections are made again before the signal. *)
(* go: cmd/worker/main.go func runWorker *)
Definition runWorker (config logger : option string) (db : db_outcome) (mq : mq_outcome) (redis : option string) (count : nat)
    : trace * option CmdError :=
  run_steps [load_step config logger;
             (connectDatabase db, [ResPool]);
             (connectRabbitMQ 0 mq, [ResChan 0; ResConn 0]);
             (connectRedis redis, [ResRedis])] [] (reconnections 0 count).

(** A time zone that does not load is UTC; a scheduler that is not enabled ends at once. *)
(* go: cmd/scheduler/main.go func runScheduler *)
Definition runScheduler (config logger : option string) (enabled : bool) (db : db_outcome) (mq : mq_outcome)
    : trace * option CmdError :=
  if enabled then
    run_steps [load_step config logger; (scheduler_connectDatabase db, [ResPool]); (scheduler_connectRabbitMQ mq, [ResChan 0])] [] []
  else run_steps [load_step config logger] [] [].

Inductive migrator_outcome : Type :=
| MgOpen (err : string)
| MgPing (err : string)
| MgDriver (err : string)
| MgNew (err : string)
| MgOk.

(* go: cmd/migrator/main.go func getMigrator *)
Definition getMigrator (config logger : option string) (o : migrator_outcome) : trace * option CmdError :=
  match (load_step config logger).1.2 with
  | Some err => ([], Some err)
  | None =>
      match o with
      | MgOpen err => ([], Some (ErrMigrator "open" err))
      | MgPing err => ([Opened ResSql; Closed ResSql], Some (ErrMigrator "ping" err))
      | MgDriver err => ([Opened ResSql; Closed ResSql], Some (ErrMigrator "driver" err))
      | MgNew err => ([Opened ResSql; Closed ResSql], Some (ErrMigrator "migrator" err))
      | MgOk => ([Opened ResSql; Opened ResMigrate], None)
      end
  end.

(** ** The API command *)

(** The first seven bytes of a shorter commit are out of range. *)
(* go: cmd/api/main.go func configVersion *)
Definition configVersion (commitHash buildTime : string) : go_result string unit :=
  if negb (String.eqb commitHash "") && negb (String.eqb buildTime "") then
    if (String.length commitHash <? 7)%nat then Panic
    else Ok (strings_Join [String.substring 0 7 commitHash; " (built "; buildTime; ")"]%string "")
  else Ok "development"%string.

Inductive api_handler : Type :=
| healthHandler | readinessHandler
| createPipelineHandler | listPipelinesHandler | getPipelineHandler | updatePipelineHandler | deletePipelineHandler
| executePipelineHandler
| emitEventHandler | listEventsHandler | getEventHandler | updateEventStatusHandler
| listTasksHandler | getTaskHandler | retryTaskHandler | cancelTaskHandler.

(** The status and the body; [now] is the text of the clock. *)
(* go: cmd/api/main.go @182-282 healthHandler *)
Definition api_answer (now : string) (h : api_handler) : Z * list (string * string) :=
  match h with
  | healthHandler => (200, [("status", "ok"); ("service", "nexuspipe-api"); ("timestamp", now)]%string)
  | readinessHandler => (200, [("status", "ready")]%string)
  | createPipelineHandler | listPipelinesHandler | getPipelineHandler | updatePipelineHandler | deletePipelineHandler
  | executePipelineHandler | emitEventHandler | listEventsHandler | getEventHandler | updateEventStatusHandler
  | listTasksHandler | getTaskHandler | retryTaskHandler | cancelTaskHandler => (501, [("error", "not implemented")]%string)
  end.

(** The routes under /api/v1. *)
(* go: cmd/api/main.go @104-134 runAPI *)
Definition api_routes : list (string * string * api_handler) := [
  ("GET", "/health", healthHandler); ("GET", "/ready", readinessHandler);
  ("POST", "/pipelines/", createPipelineHandler); ("GET", "/pipelines/", listPipelinesHandler);
  ("GET", "/pipelines/:id", getPipelineHandler); ("PUT", "/pipelines/:id", updatePipelineHandler);
  ("DELETE", "/pipelines/:id", deletePipelineHandler); ("POST", "/pipelines/:id/execute", executePipelineHandler);
  ("POST", "/events/", emitEventHandler); ("GET", "/events/", listEventsHandler);
  ("GET", "/events/:id", getEventHandler); ("PUT", "/events/:id/status", updateEventStatusHandler);
  ("GET", "/tasks/", listTasksHandler); ("GET", "/tasks/:id", getTaskHandler);
  ("PUT", "/tasks/:id/retry", retryTaskHandler); ("POST", "/tasks/:id/cancel", cancelTaskHandler)
]%string.

(** What the command does before it waits for a signal: the answer is the address it listens on.
    The version is logged before anything is served. *)
(* go: cmd/api/main.go @65-179 runAPI *)
Definition runAPI (config : Config + string) (logger : option string) (commitHash buildTime : string) : go_result string CmdError :=
  match config with
  | inr err => Err (ErrConfig err)
  | inl cfg =>
      match Config_Validate cfg with
      | Some err => Err (ErrInvalidConfig err)
      | None =>
          match logger with
          | Some err => Err (ErrLogger err)
          | None =>
              match configVersion commitHash buildTime with
              | Panic => Panic
              | _ => Ok (strings_Join [app_Host (App cfg); ":"; itoa (app_Port (App cfg))]%string "")
              end
          end
      end
  end.

(** Serving: the goroutine of the server and the wait for a signal.  A fatal log ends the process
    without the deferred calls; [EvListenEnds None] is that the server was closed. *)
Inductive api_state : Type :=
| Serving
| Draining (grace : Z)
| Exited
| Killed (err : string).

Inductive api_event : Type :=
| EvListenEnds (err : option string)
| EvSignal
| EvDrained (err : option string).

(** What cannot happen in a state leaves it: the signals behind the first are buffered and never read. *)
(* go: cmd/api/main.go @158-180 runAPI *)
Definition api_step (cfg : Config) (st : api_state) (e : api_event) : api_state :=
  match st, e with
  | Serving, EvListenEnds (Some err) | Draining _, EvListenEnds (Some err) => Killed err
  | Serving, EvSignal => Draining (app_ShutdownGracePeriod (App cfg))
  | Draining _, EvDrained None => Exited
  | Draining _, EvDrained (Some err) => Killed err
  | _, _ => st
  end.
Definition api_run (cfg : Config) (es : list api_event) : api_state := foldl (api_step cfg) Serving es.

(** ** Facts *)

Lemma api_ended cfg st es : (st = Exited \/ exists err, st = Killed err) -> foldl (api_step cfg) st es = st.
Proof. intros Hst. induction es as [|e es IH]; [done|]. simpl. by replace (api_step cfg st e) with st by (destruct Hst as [->|[? ->]]; by destruct e as [[]| |[]]). Qed.

(** An event that a state ignores. *)
Definition quiet (draining : bool) (e : api_event) : Prop :=
  match e with EvListenEnds (Some _) => False | EvSignal => draining = true | EvDrained _ => draining = false | _ => True end.

Lemma api_quiet cfg st es :
  match st with Serving => Forall (quiet false) es | Draining _ => Forall (quiet true) es | _ => True end ->
  foldl (api_step cfg) st es = st.
Proof.
  destruct st; [| |intros _; apply api_ended; by left|intros _; apply api_ended; right; eauto];
    (induction es as [|e es IH]; [done|]; intros [He Hes]%Forall_cons; destruct e as [[]| |[]]; try done; simpl; by apply IH).
Qed.

(** The command returns without an error exactly if a signal is followed by a shutdown that ends in time, with no failure
    of the listener before; a failure of either ends the process. *)
Lemma api_run_exits cfg es :
  api_run cfg es = Exited <->
  exists before drained after, es = before ++ EvSignal :: drained ++ EvDrained None :: after
    /\ Forall (quiet false) before /\ Forall (quiet true) drained.
Proof.
  unfold api_run. split.
  - assert (forall es g, foldl (api_step cfg) (Draining g) es = Exited ->
      exists drained after, es = drained ++ EvDrained None :: after /\ Forall (quiet true) drained) as Hd.
    { induction es0 as [|e es0 IH]; intros g; [done|]. cbn [foldl]. intros He.
      destruct e as [[err|]| |[err|]]; try (rewrite api_ended in He by (right; eauto); done);
        [| |by exists [], es0]; destruct (IH g He) as (d & a & -> & Hq); eexists (_ :: d), a; (split; [reflexivity|by constructor]). }
    induction es as [|e es IH]; [done|]. cbn [foldl]. intros He.
    destruct e as [[err|]| |o]; [rewrite api_ended in He by (right; eauto); done| | |];
      [|destruct (Hd _ _ He) as (d & a & -> & Hq); by exists [], d, a|];
      (destruct IH as (b & d & a & -> & Hb & Hq); [done|]); eexists (_ :: b), d, a; (split; [reflexivity|by split; [constructor|]]).
  - intros (b & d & a & -> & Hb & Hq). rewrite foldl_app, (api_quiet cfg Serving) by done. cbn [foldl api_step].
    rewrite foldl_app, (api_quiet cfg (Draining _)) by done. cbn [foldl api_step]. apply api_ended. by left.
Qed.

(** The command ends before it serves anything if it was built with a short commit. *)
Lemma short_commit_panics cfg commitHash buildTime :
  Config_Validate cfg = None -> commitHash <> ""%string -> buildTime <> ""%string -> (String.length commitHash < 7)%nat ->
  runAPI (inl cfg) None commitHash buildTime = Panic.
Proof.
  intros Hv Hc Hb Hl. unfold runAPI, configVersion. rewrite Hv.
  destruct (String.eqb_spec commitHash ""), (String.eqb_spec buildTime ""); try done. simpl. by rewrite (proj2 (Nat.ltb_lt _ _) Hl).
Qed.

Lemma open_after_app t1 t2 : open_after (t1 ++ t2) = foldl open_step (open_after t1) t2.
Proof. apply foldl_app. Qed.

(** What is not a connection or a channel. *)
Definition other (r : resource) : Prop := forall k, r <> ResConn k /\ r <> ResChan k.

Lemma filter_other n rest : Forall other rest -> filter (.≠ ResConn n) (filter (.≠ ResChan n) rest) = rest.
Proof.
  intros Hr. rewrite (list_filter_all _ rest) by (intros r Hin; apply (proj1 (Forall_forall _ _) Hr _ Hin)).
  apply list_filter_all. intros r Hin. apply (proj1 (Forall_forall _ _) Hr _ Hin).
Qed.

(** Simplifies what is left of an explicit list of resources. *)
Ltac close_resources :=
  repeat first [rewrite filter_cons_True by congruence | rewrite filter_cons_False by (intros Hne; by apply Hne) | rewrite filter_nil].

(** Of the connections made again only the last one is open. *)
Lemma reconnections_open n count open rest :
  filter (.≠ ResConn n) (filter (.≠ ResChan n) open) = rest -> Forall other rest ->
  foldl open_step open (reconnections n (S count)) = ResChan (n + S count) :: ResConn (n + S count) :: rest.
Proof.
  intros Hf Hr. revert n open Hf. induction count as [|count IH]; intros n open Hf.
  - simpl. rewrite Hf. by rewrite Nat.add_1_r.
  - change (reconnections n (S (S count)))
      with ([Closed (ResChan n); Closed (ResConn n); Opened (ResConn (S n)); Opened (ResChan (S n))] ++ reconnections (S n) (S count)).
    rewrite foldl_app. cbn [foldl open_step]. rewrite Hf, IH; [by replace (S n + S count)%nat with (n + S (S count))%nat by lia|].
    close_resources. by apply filter_other.
Qed.

(** Which resources a command leaves open.  The worker leaves its pool, or its Redis client, if they
    do not answer when they are asked for the first time; after it has connected to the broker again
    it leaves the connection and the channel that are in use, as its deferred calls close those it
    began with.  The scheduler leaves its connection to the broker whenever it has one, and its
    pool if that does not answer.  The migrator leaves nothing when it fails. *)
Theorem commands_leave_open config logger db mq redis count :
  let worker := runWorker config logger db mq redis count in
  (worker.2 = None -> open_after worker.1 =
     if (count =? 0)%nat then [] else [ResChan count; ResConn count])
  /\ (is_Some worker.2 -> forall r, r ∈ open_after worker.1 ->
       r = ResPool /\ (exists err, db = DbPing err) \/ r = ResRedis /\ is_Some redis)
  /\ (forall enabled, let sched := runScheduler config logger enabled db mq in
       open_after sched.1 = [] \/ open_after sched.1 = [ResConn 0] /\ mq = MqOk
       \/ open_after sched.1 = [ResPool] /\ exists err, db = DbPing err)
  /\ (forall o, is_Some (getMigrator config logger o).2 -> open_after (getMigrator config logger o).1 = []).
Proof.
  split_and!.
  - unfold runWorker. destruct config, logger; try done. destruct db, mq, redis; try done. intros _.
    cbn [run_steps load_step connectDatabase connectRabbitMQ connectRedis fst snd app]. unfold open_after.
    cbn [foldl open_step fmap list_fmap]. rewrite foldl_app. destruct count as [|count]; [reflexivity|].
    rewrite (reconnections_open 0 count _ [ResRedis; ResPool]); [|by close_resources|by repeat constructor].
    cbn [foldl open_step]. by close_resources.
  - unfold runWorker. destruct config as [?|], logger as [?|]; simpl; try (intros _ r Hin; by apply elem_of_nil in Hin).
    destruct db, mq, redis; cbn; intros [e He] r Hin; try done; set_solver.
  - unfold runScheduler. destruct config as [?|], logger as [?|]; intros [|]; simpl; auto.
    destruct db; [by left..|right; right; split; [reflexivity|eauto]|].
    destruct mq; [by left..|right; left; split; reflexivity].
  - unfold getMigrator. destruct config as [?|], logger as [?|]; simpl; intros o; try done; destruct o; simpl; try done; by intros [].
Qed.
