(* ===== verification/Metrics.v ===== *)
(** * Metrics: internal/metrics/prometheus.go, collectors.go and http.go

    The registry of collectors with its names, over an interface of Prometheus ([PromOps],
    [PromLaws]); the registration of the two groups of collectors; the measurement of requests,
    whose gauges are counters here, with the requests that overlap as steps.  What Prometheus
    computes from an observation is not modelled: an observation is an entry of a list. *)

From S2P Require Import Prelude GoStrings.

(** ** Prometheus *)

Inductive reg_error : Type :=
| AlreadyRegistered
| OtherReg (err : string).

(* go: internal/metrics/prometheus.go func isAlreadyRegistered *)
Definition isAlreadyRegistered (err : option reg_error) : bool :=
  match err with Some AlreadyRegistered => true | _ => false end.

Class PromOps (R Col : Type) := {
  prom_NewRegistry : R;
  prom_Register : Col -> R -> R * option reg_error;
  prom_Unregister : Col -> R -> R * bool
}.

(** A registry takes a collector at most once, and answers for one that it has that it is
    registered already; it may also refuse others for their descriptions. *)
Class PromLaws (R Col : Type) `{PromOps R Col} := {
  prom_has : R -> Col -> Prop;
  new_has : forall c, ~ prom_has prom_NewRegistry c;
  register_ok : forall c r r', prom_Register c r = (r', None) ->
    ~ prom_has r c /\ forall d, prom_has r' d <-> d = c \/ prom_has r d;
  register_refused : forall c r r' err, prom_Register c r = (r', Some err) -> r' = r;
  register_twice : forall c r, prom_has r c -> prom_Register c r = (r, Some AlreadyRegistered);
  unregister_has : forall c r, (prom_Unregister c r).2 = true <-> prom_has r c;
  unregister_removes : forall c r d, prom_has (prom_Unregister c r).1 d <-> prom_has r d /\ d <> c
}.

(** ** The registry *)

(* go: internal/metrics/prometheus.go type MetricsRegistry *)
Record MetricsRegistry (R Col : Type) := mkMetricsRegistry {
  mr_registry : R;
  mr_namespace : string;
  mr_subsystem : string;
  mr_collectors : gmap string Col
}.
Arguments mkMetricsRegistry {R Col}.
Arguments mr_registry {R Col}.
Arguments mr_namespace {R Col}.
Arguments mr_subsystem {R Col}.
Arguments mr_collectors {R Col}.

Inductive MetricsError : Type :=
| ErrNameTaken (name : string)
| ErrRegister (name err : string)
| ErrRegisterDefault (err : string).

Section registry.
Context {R Col : Type} `{PromOps R Col}.
Implicit Types m : MetricsRegistry R Col.

(* go: internal/metrics/prometheus.go func WithNamespace *)
Definition WithNamespace (ns : string) m : MetricsRegistry R Col :=
  mkMetricsRegistry (mr_registry m) ns (mr_subsystem m) (mr_collectors m).

(* go: internal/metrics/prometheus.go func WithSubsystem *)
Definition WithSubsystem (ss : string) m : MetricsRegistry R Col :=
  mkMetricsRegistry (mr_registry m) (mr_namespace m) ss (mr_collectors m).

(* go: internal/metrics/prometheus.go func NewMetricsRegistry *)
Definition NewMetricsRegistry (opts : list (MetricsRegistry R Col -> MetricsRegistry R Col)) : MetricsRegistry R Col :=
  foldl (fun m opt => opt m) (mkMetricsRegistry prom_NewRegistry "nexuspipe" "pipeline" ∅) opts.

Definition set_registry (r : R) m : MetricsRegistry R Col :=
  mkMetricsRegistry r (mr_namespace m) (mr_subsystem m) (mr_collectors m).

(** The collectors of the Go runtime and of the process. *)
(* go: internal/metrics/prometheus.go func MetricsRegistry.RegisterDefault *)
Fixpoint RegisterDefault (defaultCollectors : list Col) m : MetricsRegistry R Col * option MetricsError :=
  match defaultCollectors with
  | [] => (m, None)
  | c :: cs =>
      match prom_Register c (mr_registry m) with
      | (r, None) | (r, Some AlreadyRegistered) => RegisterDefault cs (set_registry r m)
      | (r, Some (OtherReg err)) => (set_registry r m, Some (ErrRegisterDefault err))
      end
  end.

(* go: internal/metrics/prometheus.go func MetricsRegistry.Register *)
Definition Register_ (name : string) (c : Col) m : MetricsRegistry R Col * option MetricsError :=
  match mr_collectors m !! name with
  | Some _ => (m, Some (ErrNameTaken name))
  | None =>
      match prom_Register c (mr_registry m) with
      | (r, Some AlreadyRegistered) => (set_registry r m, None)
      | (r, Some (OtherReg err)) => (set_registry r m, Some (ErrRegister name err))
      | (r, None) => (mkMetricsRegistry r (mr_namespace m) (mr_subsystem m) (<[name := c]> (mr_collectors m)), None)
      end
  end.

(* go: internal/metrics/prometheus.go func MetricsRegistry.Unregister *)
Definition Unregister (name : string) m : MetricsRegistry R Col * bool :=
  match mr_collectors m !! name with
  | None => (m, false)
  | Some c =>
      match prom_Unregister c (mr_registry m) with
      | (r, true) => (mkMetricsRegistry r (mr_namespace m) (mr_subsystem m) (delete name (mr_collectors m)), true)
      | (r, false) => (set_registry r m, false)
      end
  end.

(* go: internal/metrics/prometheus.go func MetricsRegistry.MustRegister *)
Definition MustRegister (name : string) (c : Col) m : MetricsRegistry R Col * go_result unit MetricsError :=
  match Register_ name c m with
  | (m, None) => (m, Ok tt)
  | (m, Some _) => (m, Panic)
  end.

(* go: internal/metrics/prometheus.go func MetricsRegistry.Collector *)
Definition Collector_ (name : string) m : option Col := mr_collectors m !! name.

(* go: internal/metrics/prometheus.go func MetricsRegistry.Registry *)
Definition Registry m : R := mr_registry m.
(* go: internal/metrics/prometheus.go func MetricsRegistry.Namespace *)
Definition Namespace_ m : string := mr_namespace m.
(* go: internal/metrics/prometheus.go func MetricsRegistry.Subsystem *)
Definition Subsystem m : string := mr_subsystem m.

(** The names in the order of a range over the map. *)
(* go: internal/metrics/prometheus.go func MetricsRegistry.RegisteredNames *)
Definition RegisteredNames (ord : list string) m : list string := filter (fun n => is_Some (mr_collectors m !! n)) ord.

(* go: internal/metrics/prometheus.go func MetricsRegistry.Reset *)
Definition Reset_ m : MetricsRegistry R Col := mkMetricsRegistry prom_NewRegistry (mr_namespace m) (mr_subsystem m) ∅.

(** The registration of a group of collectors, in the order of a range over a map; the first that
    fails panics, and those before it stay. *)
Fixpoint register_all (cols : list (string * Col)) m : MetricsRegistry R Col * go_result unit MetricsError :=
  match cols with
  | [] => (m, Ok tt)
  | (name, c) :: cols =>
      match MustRegister name c m with
      | (m, Ok _) => register_all cols m
      | (m, r) => (m, r)
      end
  end.

(** The five collectors are new values; [ord] is the order of the range. *)
Definition in_order (ord : list string) (cols : gmap string Col) : list (string * Col) :=
  omap (fun name => pair name <$> cols !! name) ord.

(* go: internal/metrics/collectors.go @74-83 NewPipelineCollectors *)
Definition NewPipelineCollectors (execDuration tasksProcessed activeWorkers queueDepth errorsTotal : Col) (ord : list string) m
    : MetricsRegistry R Col * go_result unit MetricsError :=
  register_all (in_order ord (list_to_map [("execution_duration", execDuration); ("tasks_processed", tasksProcessed);
    ("active_workers", activeWorkers); ("queue_depth", queueDepth); ("errors_total", errorsTotal)]%string)) m.

(* go: internal/metrics/http.go @73-82 NewHTTPMetrics *)
Definition NewHTTPMetrics (requestDuration requestsTotal responseSize activeRequests inFlight : Col) (ord : list string) m
    : MetricsRegistry R Col * go_result unit MetricsError :=
  register_all (in_order ord (list_to_map [("http_request_duration", requestDuration); ("http_requests_total", requestsTotal);
    ("http_response_size", responseSize); ("http_active_requests", activeRequests); ("http_in_flight", inFlight)]%string)) m.

(* go: internal/metrics/collectors.go func PipelineCollectors.WithDBStats *)
Definition WithDBStats (dbStats : Col) m : MetricsRegistry R Col * go_result unit MetricsError := MustRegister "db_stats" dbStats m.
End registry.

(** ** Measured requests *)

(** What is observed when a request has been answered. *)
Record observation := mkObservation {
  ob_method : string;
  ob_route : string;
  ob_status : string;
  ob_duration : Z;
  ob_size : Z
}.

(* go: internal/metrics/http.go type HTTPMetrics *)
Record HTTPMetrics := mkHTTPMetrics {
  hm_activeRequests : Z;
  hm_inFlight : Z;
  hm_observed : list observation
}.

(** Before and after the handlers run; nothing is deferred. *)
(* go: internal/metrics/http.go @89-91 HTTPMetrics.Middleware *)
Definition request_begin (m : HTTPMetrics) : HTTPMetrics :=
  mkHTTPMetrics (hm_activeRequests m + 1) (hm_inFlight m + 1) (hm_observed m).

(** [fullPath] is the pattern of the route, which is empty for a path without one. *)
(* go: internal/metrics/http.go @95-108 HTTPMetrics.Middleware *)
Definition request_end (method fullPath : string) (status duration size : Z) (m : HTTPMetrics) : HTTPMetrics :=
  let route := if String.eqb fullPath "" then "unknown"%string else fullPath in
  mkHTTPMetrics (hm_activeRequests m - 1) (hm_inFlight m - 1)
    (hm_observed m ++ [mkObservation method route (itoa status) duration size]).

(** The writer that [InstrumentedHandler] puts between the handlers and the answer. *)
(* go: internal/metrics/http.go type responseWriterWrapper *)
Record responseWriterWrapper := mkWrapper {
  rw_bodySize : Z;
  rw_statusCode : Z;
  rw_written : bool
}.

(** [status] is that of the writer it wraps. *)
(* go: internal/metrics/http.go func wrapResponseWriter *)
Definition wrapResponseWriter (status : Z) : responseWriterWrapper := mkWrapper 0 status false.

(* go: internal/metrics/http.go func responseWriterWrapper.WriteHeader *)
Definition WriteHeader (code : Z) (w : responseWriterWrapper) : responseWriterWrapper :=
  if rw_written w then w else mkWrapper (rw_bodySize w) code true.

(** [len] is the length of what is written. *)
(* go: internal/metrics/http.go func responseWriterWrapper.Write *)
Definition Write_ (len : Z) (w : responseWriterWrapper) : responseWriterWrapper :=
  mkWrapper (int64 (rw_bodySize w + len)) (rw_statusCode w) (rw_written w).

(* go: internal/metrics/http.go func responseWriterWrapper.Size *)
Definition Size (w : responseWriterWrapper) : Z := rw_bodySize w.

Inductive write_op : Type :=
| OpHeader (code : Z)
| OpWrite (len : Z).

Definition write (w : responseWriterWrapper) (op : write_op) : responseWriterWrapper :=
  match op with OpHeader code => WriteHeader code w | OpWrite len => Write_ len w end.

(** The end of an instrumented request whose handlers have done [ops]. *)
(* go: internal/metrics/http.go @156-174 HTTPMetrics.InstrumentedHandler *)
Definition instrumented_end (method fullPath : string) (status duration : Z) (ops : list write_op) (m : HTTPMetrics) : HTTPMetrics :=
  let w := foldl write (wrapResponseWriter status) ops in
  request_end method fullPath (rw_statusCode w) duration (Size w) m.

(** Requests overlap; [mw_panicked] are those whose handlers panicked, which the recovery in front
    of the middleware answers. *)
Record measured := mkMeasured {
  mw_metrics : HTTPMetrics;
  mw_running : nat;
  mw_panicked : nat
}.

Inductive request_step : measured -> measured -> Prop :=
| rq_begin m n p : request_step (mkMeasured m n p) (mkMeasured (request_begin m) (S n) p)
| rq_end m n p method path status duration size :
    request_step (mkMeasured m (S n) p) (mkMeasured (request_end method path status duration size m) n p)
| rq_panic m n p : request_step (mkMeasured m (S n) p) (mkMeasured m n (S p)).

(** ** Facts *)

Section registry_facts.
Context {R Col : Type} `{PromOps R Col, !PromLaws R Col}.
Implicit Types m : MetricsRegistry R Col.

(** Every name has a collector of its own, which is registered. *)
Definition names_inv m : Prop :=
  map_Forall (fun _ c => prom_has (mr_registry m) c) (mr_collectors m)
  /\ forall name name' c, mr_collectors m !! name = Some c -> mr_collectors m !! name' = Some c -> name = name'.

Inductive registry_step : MetricsRegistry R Col -> MetricsRegistry R Col -> Prop :=
| rg_default m cs : registry_step m (RegisterDefault cs m).1
| rg_register m name c : registry_step m (Register_ name c m).1
| rg_unregister m name : registry_step m (Unregister name m).1
| rg_group m cols : registry_step m (register_all cols m).1
| rg_reset m : registry_step m (Reset_ m).

Lemma set_registry_same m : set_registry (mr_registry m) m = m.
Proof. by destruct m. Qed.

Lemma RegisterDefault_inv cs m : names_inv m -> names_inv (RegisterDefault cs m).1.
Proof.
  revert m. induction cs as [|c cs IH]; intros m Hm; [done|]. simpl.
  destruct (prom_Register c (mr_registry m)) as [r [[|err]|]] eqn:Hr.
  1, 2: apply register_refused in Hr as ->; rewrite set_registry_same; auto.
  apply IH. destruct (register_ok _ _ _ Hr) as [_ Hh]. split; [|apply Hm]. intros name d Hd. apply Hh. right. by eapply (proj1 Hm).
Qed.

Lemma Register_inv name c m : names_inv m -> names_inv (Register_ name c m).1.
Proof.
  intros [Hh Hinj]. unfold Register_. destruct (mr_collectors m !! name) eqn:Hn; [done|].
  destruct (prom_Register c (mr_registry m)) as [r [[|err]|]] eqn:Hr.
  1, 2: by apply register_refused in Hr as ->; rewrite set_registry_same.
  destruct (register_ok _ _ _ Hr) as [Hno Hr']. split; simpl.
  - intros name' d [[<- <-]|[_ Hd]]%lookup_insert_Some; apply Hr'; [by left|right]. by eapply Hh.
  - assert (forall name' d, mr_collectors m !! name' = Some d -> d <> c) as Hc by (intros name' d Hd ->; by apply Hno, (Hh name')).
    intros n1 n2 d [[<- <-]|[_ E1]]%lookup_insert_Some [[<- E2]|[_ E2]]%lookup_insert_Some; subst; try done.
    + by destruct (Hc _ _ E2).
    + by destruct (Hc _ _ E1).
    + by eapply Hinj.
Qed.

Lemma Unregister_inv name m : names_inv m -> names_inv (Unregister name m).1.
Proof.
  intros [Hh Hinj]. unfold Unregister. destruct (mr_collectors m !! name) as [c|] eqn:Hn; [|done].
  pose proof (unregister_has c (mr_registry m)) as Hu. pose proof (unregister_removes c (mr_registry m)) as Hd.
  destruct (prom_Unregister c (mr_registry m)) as [r []]; simpl in *.
  - split; simpl.
    + intros n d [Hne Hl]%lookup_delete_Some. apply Hd. split; [by eapply Hh|]. intros ->. by apply Hne, (Hinj _ _ c).
    + intros n1 n2 d [_ E1]%lookup_delete_Some [_ E2]%lookup_delete_Some. by eapply Hinj.
  - assert (prom_has (mr_registry m) c) as Hc by (by eapply Hh). by apply Hu in Hc.
Qed.

Lemma register_all_inv cols m : names_inv m -> names_inv (register_all cols m).1.
Proof.
  revert m. induction cols as [|[name c] cols IH]; intros m Hm; [done|]. simpl. unfold MustRegister.
  pose proof (Register_inv name c m Hm) as Hn. destruct (Register_ name c m) as [m' [e|]]; simpl in *; [done|]. by apply IH.
Qed.

Lemma registry_run_inv opts m :
  (forall opt m, opt ∈ opts -> mr_collectors (opt m) = mr_collectors m) ->
  rtc registry_step (NewMetricsRegistry opts) m -> names_inv m.
Proof.
  intros Ho. revert m. apply (rtc_ind_r names_inv).
  - assert (forall m : MetricsRegistry R Col, mr_collectors m = ∅ -> mr_collectors (foldl (fun m opt => opt m) m opts) = ∅) as Hf.
    { induction opts as [|opt opts IH]; intros m Hm; [done|]. simpl. apply IH; [set_solver|]. rewrite Ho; [done|by left]. }
    assert (mr_collectors (NewMetricsRegistry opts) = ∅) as He by (by apply Hf).
    unfold names_inv. rewrite He. split; [apply map_Forall_empty|]. intros ??? Hl. by rewrite lookup_empty in Hl.
  - intros m1 m2 _ Hs Hi. destruct Hs; auto using RegisterDefault_inv, Register_inv, Unregister_inv, register_all_inv.
    split; simpl; [apply map_Forall_empty|]. intros ??? Hl. by rewrite lookup_empty in Hl.
Qed.

(** In every run of a registry each of its names has a collector of its own, which Prometheus
    has.  A name is taken back exactly if it is there, and then Prometheus has its collector no
    more.  A collector that Prometheus has already can be registered again under a new name
    without an error, and the name is not recorded: it cannot be taken back. *)
Theorem registry_correct opts m :
  (forall opt m, opt ∈ opts -> mr_collectors (opt m) = mr_collectors m) ->
  rtc registry_step (NewMetricsRegistry opts) m ->
  (forall name c, Collector_ name m = Some c -> prom_has (mr_registry m) c
     /\ forall name', Collector_ name' m = Some c -> name' = name)
  /\ (forall name, (Unregister name m).2 = true <-> is_Some (Collector_ name m))
  /\ (forall name c, Collector_ name m = Some c ->
        let m' := (Unregister name m).1 in Collector_ name m' = None /\ ~ prom_has (mr_registry m') c)
  /\ (forall name c, prom_has (mr_registry m) c -> Collector_ name m = None ->
        let m' := (Register_ name c m).1 in (Register_ name c m).2 = None /\ (Unregister name m').2 = false).
Proof.
  intros Ho Hr. destruct (registry_run_inv opts m Ho Hr) as [Hh Hinj]. unfold Collector_. split_and!.
  - intros name c Hn. split; [by eapply Hh|]. intros name' Hn'. by eapply Hinj.
  - intros name. unfold Unregister. destruct (mr_collectors m !! name) as [c|] eqn:Hn; simpl; [|by split; [|intros []]].
    pose proof (proj2 (unregister_has c (mr_registry m)) (Hh _ _ Hn)) as Hu.
    destruct (prom_Unregister c (mr_registry m)) as [r b]; simpl in *. subst b. by split.
  - intros name c Hn. unfold Unregister. rewrite Hn.
    pose proof (proj2 (unregister_has c (mr_registry m)) (Hh _ _ Hn)) as Hu. pose proof (unregister_removes c (mr_registry m) c) as Hd.
    destruct (prom_Unregister c (mr_registry m)) as [r b]; simpl in *. subst b. split; [apply lookup_delete_eq|].
    simpl. rewrite Hd. tauto.
  - intros name c Hc Hn. unfold Register_. rewrite Hn, register_twice by done. simpl. split; [done|].
    unfold Unregister. simpl. by rewrite Hn.
Qed.

(** A group of collectors whose first name is taken cannot be registered: making the collectors of
    the pipelines, or those of the requests, twice for one registry panics in every order. *)
Lemma group_twice name c cols m : is_Some (Collector_ name m) -> register_all ((name, c) :: cols) m = (m, Panic).
Proof. intros [d Hd]. unfold Collector_ in Hd. simpl. unfold MustRegister, Register_. by rewrite Hd. Qed.
End registry_facts.

(** The gauges of running requests count every request whose handlers have panicked for ever:
    in every run they are the running requests and the panicked ones together. *)
Theorem gauges_drift s :
  rtc request_step (mkMeasured (mkHTTPMetrics 0 0 []) 0 0) s ->
  hm_activeRequests (mw_metrics s) = Z.of_nat (mw_running s + mw_panicked s)
  /\ hm_inFlight (mw_metrics s) = Z.of_nat (mw_running s + mw_panicked s).
Proof. revert s. apply rtc_ind_r; [done|]. intros s1 s2 _ Hs. destruct Hs; simpl; lia. Qed.

Lemma gauges_drift_witness :
  let s := mkMeasured (request_begin (mkHTTPMetrics 0 0 [])) 0 1 in
  hm_activeRequests (mw_metrics s) = 1 /\ mw_running s = 0%nat.
Proof.
  intros s. split; [|reflexivity].
  apply (gauges_drift s). eapply rtc_l; [apply rq_begin|]. apply rtc_once, rq_panic.
Defined.

(** The status that is observed is the first one that a handler sets, and the size what it wrote. *)
Lemma wrapper_status status ops code :
  rw_statusCode (foldl write (wrapResponseWriter status) (OpHeader code :: ops)) = code.
Proof.
  simpl. unfold wrapResponseWriter, WriteHeader. simpl.
  assert (forall w, rw_written w = true -> rw_statusCode (foldl write w ops) = rw_statusCode w) as Hf; [|by apply Hf].
  induction ops as [|[c|len] ops IH]; intros w Hw; simpl; [done| |].
  - unfold WriteHeader. rewrite Hw. by apply IH.
  - by rewrite IH.
Qed.
