(* ===== verification/MetricsCollectors.v ===== *)
(** * The collectors: internal/metrics/collectors.go and http.go

    The five collectors of the pipelines with their descriptions, what the methods of
    [PipelineCollectors] do to them, the statistics of a database, and the five of the requests.  Prometheus's collectors are an interface ([VecOps])
    with what it documents ([VecLaws]); their registration is in [Metrics]. *)

From S2P Require Import Prelude GoFloat.

(** ** Prometheus *)

Inductive collector_kind : Type :=
| HistogramKind (buckets : list float64)
| SummaryKind (objectives : list (float64 * float64))
| CounterKind
| GaugeKind.

(** A description: the kind, the three parts of the name, and the names of the labels. *)
Record description := mkDescription {
  ds_kind : collector_kind;
  ds_namespace : string;
  ds_subsystem : string;
  ds_name : string;
  ds_labels : list string
}.

(** A collector, with or without labels; a call for given values of the labels that panics is
    [None]. *)
Class VecOps (V : Type) := {
  vec_New : description -> V;
  vec_Inc : list string -> V -> option V;
  vec_Dec : list string -> V -> option V;
  vec_Set : list string -> float64 -> V -> option V;
  vec_Observe : list string -> float64 -> V -> option V
}.

(** Values of labels are taken exactly if there are as many as labels; counters count. *)
Class VecLaws (V : Type) `{VecOps V} := {
  vec_desc : V -> description;
  vec_count : list string -> V -> Z;
  new_desc d : vec_desc (vec_New d) = d;
  new_count d vs : vec_count vs (vec_New d) = 0;
  inc_labels vs v : is_Some (vec_Inc vs v) <-> length vs = length (ds_labels (vec_desc v));
  inc_counts vs v v' : vec_Inc vs v = Some v' -> vec_desc v' = vec_desc v
    /\ forall us, vec_count us v' = vec_count us v + (if decide (us = vs) then 1 else 0);
  dec_labels vs v : is_Some (vec_Dec vs v) <-> length vs = length (ds_labels (vec_desc v));
  dec_desc vs v v' : vec_Dec vs v = Some v' -> vec_desc v' = vec_desc v;
  set_labels vs x v : is_Some (vec_Set vs x v) <-> length vs = length (ds_labels (vec_desc v));
  set_desc vs x v v' : vec_Set vs x v = Some v' -> vec_desc v' = vec_desc v;
  observe_labels vs x v : is_Some (vec_Observe vs x v) <-> length vs = length (ds_labels (vec_desc v));
  observe_desc vs x v v' : vec_Observe vs x v = Some v' -> vec_desc v' = vec_desc v
}.

(** ** Data *)

(* go: internal/metrics/collectors.go type PipelineCollectorsConfig *)
Record PipelineCollectorsConfig := mkCollectorsConfig {
  ExecutionBuckets : list float64;
  ErrorLabels : list string;
  TaskTypeLabels : list string
}.

(** [defBuckets] are Prometheus's own. *)
(* go: internal/metrics/collectors.go func DefaultCollectorsConfig *)
Definition DefaultCollectorsConfig (defBuckets : list float64) : PipelineCollectorsConfig :=
  mkCollectorsConfig defBuckets ["type"; "stage"; "severity"] ["type"; "status"].

(** The statistics of package database/sql. *)
Record DBStats := mkDBStats {
  MaxOpenConnections : Z;
  OpenConnections : Z;
  InUse : Z;
  Idle : Z;
  WaitCount : Z;
  WaitDuration : Z;
  MaxIdleClosed : Z;
  MaxLifetimeClosed : Z
}.

(** A descriptor is a name without labels; the database is what it answers. *)
(* go: internal/metrics/collectors.go type DBStatsCollector *)
Record DBStatsCollector := mkDBStatsCollector {
  db_stats : DBStats;
  db_descriptors : list (string * string * string)
}.

(* go: internal/metrics/collectors.go type PipelineCollectors *)
Record PipelineCollectors (V : Type) := mkPipelineCollectors {
  execDuration : V;
  tasksProcessed : V;
  activeWorkers : V;
  queueDepth : V;
  errorsTotal : V;
  dbStats : option DBStatsCollector
}.
Arguments mkPipelineCollectors {V}.
Arguments execDuration {V}.
Arguments tasksProcessed {V}.
Arguments activeWorkers {V}.
Arguments queueDepth {V}.
Arguments errorsTotal {V}.
Arguments dbStats {V}.

(** ** The database *)

(* go: internal/metrics/collectors.go func NewDBStatsCollector *)
Definition NewDBStatsCollector (ns ss : string) (db : DBStats) : DBStatsCollector :=
  mkDBStatsCollector db
    [(ns, ss, "db_open_connections"); (ns, ss, "db_inuse_connections"); (ns, ss, "db_idle_connections");
     (ns, ss, "db_wait_count_total"); (ns, ss, "db_wait_duration_seconds_total"); (ns, ss, "db_max_open_connections");
     (ns, ss, "db_max_idle_closed_total"); (ns, ss, "db_max_lifetime_closed_total")]%string.

(* go: internal/metrics/collectors.go func DBStatsCollector.Describe *)
Definition db_Describe (c : DBStatsCollector) : list (string * string * string) := db_descriptors c.

(** The eight statistics, each under the descriptor of its index. *)
(* go: internal/metrics/collectors.go func DBStatsCollector.Collect *)
Definition db_Collect (c : DBStatsCollector) : list ((string * string * string) * collector_kind * float64) :=
  let stats := db_stats c in
  let at_index i kind x := (fun d => (d, kind, x)) <$> db_descriptors c !! i in
  omap id
    [at_index 0%nat GaugeKind (f64_of_Z (OpenConnections stats)); at_index 1%nat GaugeKind (f64_of_Z (InUse stats));
     at_index 2%nat GaugeKind (f64_of_Z (Idle stats)); at_index 3%nat CounterKind (f64_of_Z (WaitCount stats));
     at_index 4%nat CounterKind (Seconds (WaitDuration stats)); at_index 5%nat GaugeKind (f64_of_Z (MaxOpenConnections stats));
     at_index 6%nat CounterKind (f64_of_Z (MaxIdleClosed stats)); at_index 7%nat CounterKind (f64_of_Z (MaxLifetimeClosed stats))].

(** ** The collectors *)

Section collectors.
Context {V : Type} `{VecOps V}.

(* go: internal/metrics/collectors.go @36-72 NewPipelineCollectors *)
Definition new_collectors (ns ss : string) (cfg : PipelineCollectorsConfig) : PipelineCollectors V :=
  let make kind name labels := vec_New (mkDescription kind ns ss name labels) in
  mkPipelineCollectors
    (make (HistogramKind (ExecutionBuckets cfg)) "execution_duration_seconds" ["pipeline"; "stage"]%string)
    (make CounterKind "tasks_processed_total" (TaskTypeLabels cfg))
    (make GaugeKind "active_workers" [])
    (make GaugeKind "queue_depth" [])
    (make CounterKind "errors_total" (ErrorLabels cfg))
    None.

Implicit Types c : PipelineCollectors V.

Definition put_exec c v := mkPipelineCollectors v (tasksProcessed c) (activeWorkers c) (queueDepth c) (errorsTotal c) (dbStats c).
Definition put_tasks c v := mkPipelineCollectors (execDuration c) v (activeWorkers c) (queueDepth c) (errorsTotal c) (dbStats c).
Definition put_active c v := mkPipelineCollectors (execDuration c) (tasksProcessed c) v (queueDepth c) (errorsTotal c) (dbStats c).
Definition put_depth c v := mkPipelineCollectors (execDuration c) (tasksProcessed c) (activeWorkers c) v (errorsTotal c) (dbStats c).
Definition put_errors c v := mkPipelineCollectors (execDuration c) (tasksProcessed c) (activeWorkers c) (queueDepth c) v (dbStats c).

(** Each call is [None] when it panics. *)
(* go: internal/metrics/collectors.go func PipelineCollectors.ObserveExecution *)
Definition ObserveExecution (pipeline stage : string) (dur : Z) c : option (PipelineCollectors V) :=
  put_exec c <$> vec_Observe [pipeline; stage] (Seconds dur) (execDuration c).

(* go: internal/metrics/collectors.go func PipelineCollectors.IncTask *)
Definition IncTask (taskType status : string) c : option (PipelineCollectors V) :=
  put_tasks c <$> vec_Inc [taskType; status] (tasksProcessed c).

(* go: internal/metrics/collectors.go func PipelineCollectors.SetActiveWorkers *)
Definition SetActiveWorkers (n : Z) c : option (PipelineCollectors V) := put_active c <$> vec_Set [] (f64_of_Z n) (activeWorkers c).

(* go: internal/metrics/collectors.go func PipelineCollectors.IncActiveWorkers *)
Definition IncActiveWorkers c : option (PipelineCollectors V) := put_active c <$> vec_Inc [] (activeWorkers c).

(* go: internal/metrics/collectors.go func PipelineCollectors.DecActiveWorkers *)
Definition DecActiveWorkers c : option (PipelineCollectors V) := put_active c <$> vec_Dec [] (activeWorkers c).

(* go: internal/metrics/collectors.go func PipelineCollectors.SetQueueDepth *)
Definition SetQueueDepth (n : Z) c : option (PipelineCollectors V) := put_depth c <$> vec_Set [] (f64_of_Z n) (queueDepth c).

(* go: internal/metrics/collectors.go func PipelineCollectors.IncError *)
Definition IncError (errType stage severity : string) c : option (PipelineCollectors V) :=
  put_errors c <$> vec_Inc [errType; stage; severity] (errorsTotal c).

(** Without a database nothing is described and nothing is collected. *)
(* go: internal/metrics/collectors.go func PipelineCollectors.Describe *)
Definition Describe c : list (string * string * string) :=
  match dbStats c with Some db => db_Describe db | None => [] end.

(* go: internal/metrics/collectors.go func PipelineCollectors.Collect *)
Definition Collect c : list ((string * string * string) * collector_kind * float64) :=
  match dbStats c with Some db => db_Collect db | None => [] end.

(** A call of one of the methods. *)
Inductive collectors_op : Type :=
| OpObserve (pipeline stage : string) (dur : Z)
| OpTask (taskType status : string)
| OpSetWorkers (n : Z)
| OpIncWorkers
| OpDecWorkers
| OpSetDepth (n : Z)
| OpError (errType stage severity : string).

Definition collectors_call (op : collectors_op) c : option (PipelineCollectors V) :=
  match op with
  | OpObserve p s d => ObserveExecution p s d c
  | OpTask t s => IncTask t s c
  | OpSetWorkers n => SetActiveWorkers n c
  | OpIncWorkers => IncActiveWorkers c
  | OpDecWorkers => DecActiveWorkers c
  | OpSetDepth n => SetQueueDepth n c
  | OpError t s v => IncError t s v c
  end.

Fixpoint collectors_run (ops : list collectors_op) c : option (PipelineCollectors V) :=
  match ops with [] => Some c | op :: ops => collectors_call op c ≫= collectors_run ops end.
End collectors.

(** ** The collectors of the requests *)

(** The decimal fraction [n] / 10^[k]: a quotient of two exact values, rounded once. *)
Definition decimal (n k : Z) : float64 := f64_div (f64_of_Z n) (f64_of_Z (10 ^ k)).

(* go: internal/metrics/http.go type HTTPMetricsConfig *)
Record HTTPMetricsConfig := mkHTTPMetricsConfig {
  DurationBuckets : list float64;
  SizeObjectives : list (float64 * float64)
}.

(* go: internal/metrics/http.go func DefaultHTTPMetricsConfig *)
Definition DefaultHTTPMetricsConfig : HTTPMetricsConfig :=
  mkHTTPMetricsConfig
    [decimal 5 3; decimal 1 2; decimal 25 3; decimal 5 2; decimal 1 1; decimal 25 2; decimal 5 1; f64_of_Z 1; decimal 25 1;
     f64_of_Z 5; f64_of_Z 10]
    [(decimal 5 1, decimal 5 2); (decimal 9 1, decimal 1 2); (decimal 99 2, decimal 1 3)].

Record http_collectors (V : Type) := mkHttpCollectors {
  requestDuration : V;
  requestsTotal : V;
  responseSize : V;
  activeRequests : V;
  inFlight : V
}.
Arguments mkHttpCollectors {V}.
Arguments requestDuration {V}.
Arguments requestsTotal {V}.
Arguments responseSize {V}.
Arguments activeRequests {V}.
Arguments inFlight {V}.

Section http.
Context {V : Type} `{VecOps V}.

(* go: internal/metrics/http.go @33-71 NewHTTPMetrics *)
Definition new_http_collectors (ns ss : string) (cfg : HTTPMetricsConfig) : http_collectors V :=
  let make kind name labels := vec_New (mkDescription kind ns ss name labels) in
  mkHttpCollectors
    (make (HistogramKind (DurationBuckets cfg)) "http_request_duration_seconds" ["method"; "route"; "status"]%string)
    (make CounterKind "http_requests_total" ["method"; "route"; "status"]%string)
    (make (SummaryKind (SizeObjectives cfg)) "http_response_size_bytes" ["method"; "route"]%string)
    (make GaugeKind "http_active_requests" [])
    (make GaugeKind "http_requests_in_flight" []).

(** Before the handlers of a request, and after them. *)
(* go: internal/metrics/http.go @88-91 HTTPMetrics.Middleware *)
Definition http_begin (h : http_collectors V) : option (http_collectors V) :=
  a ← vec_Inc [] (activeRequests h); f ← vec_Inc [] (inFlight h);
  Some (mkHttpCollectors (requestDuration h) (requestsTotal h) (responseSize h) a f).

(* go: internal/metrics/http.go @95-109 HTTPMetrics.Middleware *)
Definition http_end (method fullPath : string) (status duration size : Z) (h : http_collectors V) : option (http_collectors V) :=
  let route := if String.eqb fullPath "" then "unknown"%string else fullPath in
  d ← vec_Observe [method; route; itoa status] (Seconds duration) (requestDuration h);
  t ← vec_Inc [method; route; itoa status] (requestsTotal h);
  z ← vec_Observe [method; route] (f64_of_Z size) (responseSize h);
  a ← vec_Dec [] (activeRequests h); f ← vec_Dec [] (inFlight h);
  Some (mkHttpCollectors d t z a f).

Record answered := mkAnswered { an_method : string; an_path : string; an_status : Z; an_duration : Z; an_size : Z }.

(** Requests one after the other. *)
Fixpoint http_run (rs : list answered) (h : http_collectors V) : option (http_collectors V) :=
  match rs with
  | [] => Some h
  | r :: rs => http_begin h ≫= fun h => http_end (an_method r) (an_path r) (an_status r) (an_duration r) (an_size r) h ≫= http_run rs
  end.
End http.

(** ** Properties *)

Definition op_ok (cfg : PipelineCollectorsConfig) (op : collectors_op) : Prop :=
  match op with
  | OpTask _ _ => length (TaskTypeLabels cfg) = 2%nat
  | OpError _ _ _ => length (ErrorLabels cfg) = 3%nat
  | _ => True
  end.

Definition is_task (t s : string) (op : collectors_op) : Prop := op = OpTask t s.
#[export] Instance is_task_dec t s op : Decision (is_task t s op).
Proof. unfold is_task. destruct op; try (right; discriminate). destruct (decide (taskType = t)), (decide (status = s)); [left|right..]; congruence. Defined.
Definition is_error (t s v : string) (op : collectors_op) : Prop := op = OpError t s v.
#[export] Instance is_error_dec t s v op : Decision (is_error t s v op).
Proof.
  unfold is_error. destruct op; try (right; discriminate).
  destruct (decide (errType = t)), (decide (stage = s)), (decide (severity = v)); [left|right..]; congruence.
Defined.

(** What a request is counted as. *)
Definition counted_as (vs : list string) (r : answered) : Prop :=
  vs = [an_method r; if String.eqb (an_path r) "" then "unknown"%string else an_path r; itoa (an_status r)].
#[export] Instance counted_as_dec vs r : Decision (counted_as vs r).
Proof. unfold counted_as. apply _. Defined.

Section facts.
Context {V : Type} `{VecLaws V}.

(** The labels stay what the configuration made them. *)
Definition labels_of (cfg : PipelineCollectorsConfig) (c : PipelineCollectors V) : Prop :=
  length (ds_labels (vec_desc (execDuration c))) = 2%nat /\ ds_labels (vec_desc (tasksProcessed c)) = TaskTypeLabels cfg
  /\ ds_labels (vec_desc (activeWorkers c)) = [] /\ ds_labels (vec_desc (queueDepth c)) = []
  /\ ds_labels (vec_desc (errorsTotal c)) = ErrorLabels cfg.

Lemma new_labels ns ss cfg : labels_of cfg (new_collectors ns ss cfg).
Proof. unfold labels_of, new_collectors. cbn [execDuration tasksProcessed activeWorkers queueDepth errorsTotal]. by rewrite !new_desc. Qed.

Lemma is_Some_fmap {A B} (f : A -> B) (o : option A) : is_Some (f <$> o) <-> is_Some o.
Proof. apply fmap_is_Some. Qed.

Lemma call_ok cfg op c : labels_of cfg c -> is_Some (collectors_call op c) <-> op_ok cfg op.
Proof.
  intros (He & Ht & Ha & Hd & Hr). destruct op; simpl;
    unfold ObserveExecution, IncTask, SetActiveWorkers, IncActiveWorkers, DecActiveWorkers, SetQueueDepth, IncError;
    rewrite is_Some_fmap, ?inc_labels, ?dec_labels, ?set_labels, ?observe_labels, ?He, ?Ht, ?Ha, ?Hd, ?Hr; simpl; split; congruence || done.
Qed.

Lemma call_keeps cfg op c c' : labels_of cfg c -> collectors_call op c = Some c' ->
  labels_of cfg c'
  /\ (forall t s, vec_count [t; s] (tasksProcessed c') = vec_count [t; s] (tasksProcessed c) + (if decide (is_task t s op) then 1 else 0))
  /\ (forall t s v, vec_count [t; s; v] (errorsTotal c') = vec_count [t; s; v] (errorsTotal c) + (if decide (is_error t s v op) then 1 else 0)).
Proof.
  intros (He & Ht & Ha & Hd & Hr). destruct op; simpl;
    unfold ObserveExecution, IncTask, SetActiveWorkers, IncActiveWorkers, DecActiveWorkers, SetQueueDepth, IncError;
    intros (v & Hv & ->)%fmap_Some; unfold labels_of; simpl;
    [apply observe_desc in Hv as Hl|apply inc_counts in Hv as [Hl Hn]|apply set_desc in Hv as Hl|apply inc_counts in Hv as [Hl _]
    |apply dec_desc in Hv as Hl|apply set_desc in Hv as Hl|apply inc_counts in Hv as [Hl Hn]]; rewrite ?Hl; (split; [done|]);
    (split; intros; [try rewrite Hn|try rewrite Hn]; repeat case_decide; unfold is_task, is_error in *; try lia; simplify_eq; done).
Qed.

(** The collectors.  A sequence of calls on new collectors panics exactly if it has a call whose
    values are not as many as the labels configured for its counter: with the default configuration none
    does.  Without a panic the counters hold, for all values of their labels, the number of calls with
    these values.  And what a database's collector collects are its descriptors, in their order. *)
Theorem collectors_correct ns ss cfg ops :
  (is_Some (collectors_run ops (new_collectors (V:=V) ns ss cfg)) <-> Forall (op_ok cfg) ops)
  /\ (forall c t s, collectors_run ops (new_collectors ns ss cfg) = Some c ->
        vec_count [t; s] (tasksProcessed c) = Z.of_nat (length (filter (is_task t s) ops)))
  /\ (forall c t s v, collectors_run ops (new_collectors ns ss cfg) = Some c ->
        vec_count [t; s; v] (errorsTotal c) = Z.of_nat (length (filter (is_error t s v) ops)))
  /\ (forall bs, Forall (op_ok (DefaultCollectorsConfig bs)) ops)
  /\ (forall db, (db_Collect (NewDBStatsCollector ns ss db)).*1.*1 = db_Describe (NewDBStatsCollector ns ss db)).
Proof.
  assert (forall c, labels_of cfg c ->
    (is_Some (collectors_run ops c) <-> Forall (op_ok cfg) ops)
    /\ forall c', collectors_run ops c = Some c' ->
        (forall t s, vec_count [t; s] (tasksProcessed c') = vec_count [t; s] (tasksProcessed c) + Z.of_nat (length (filter (is_task t s) ops)))
        /\ (forall t s v, vec_count [t; s; v] (errorsTotal c') = vec_count [t; s; v] (errorsTotal c) + Z.of_nat (length (filter (is_error t s v) ops))))
    as Hrun.
  { induction ops as [|op ops IH]; intros c Hc; simpl.
    - split; [by split|]. intros c' [= <-]. split; intros; lia.
    - pose proof (call_ok cfg op c Hc) as Hok. destruct (collectors_call op c) as [c1|] eqn:Hcall; simpl.
      + destruct (call_keeps cfg op c c1 Hc Hcall) as (Hc1 & Ht & Hr). destruct (IH c1 Hc1) as [Hs Hn].
        split; [rewrite Forall_cons, Hs; naive_solver|]. intros c' Hc'. destruct (Hn c' Hc') as [Hnt Hnr].
        split; intros; [rewrite Hnt, Ht|rewrite Hnr, Hr]; rewrite filter_cons; case_decide; simpl; lia.
      + split; [|done]. rewrite Forall_cons. split; [by intros [? ?]|]. intros [Hop _]. by apply Hok in Hop as [? ?]. }
  destruct (Hrun _ (new_labels ns ss cfg)) as [Hs Hn]. split_and!; [done|..].
  - intros c t s Hc. rewrite (proj1 (Hn c Hc)). unfold new_collectors. simpl. by rewrite new_count.
  - intros c t s v Hc. rewrite (proj2 (Hn c Hc)). unfold new_collectors. simpl. by rewrite new_count.
  - intros bs. apply Forall_true. by intros [].
  - done.
Qed.

Definition http_labels (h : http_collectors V) : Prop :=
  length (ds_labels (vec_desc (requestDuration h))) = 3%nat /\ length (ds_labels (vec_desc (requestsTotal h))) = 3%nat
  /\ length (ds_labels (vec_desc (responseSize h))) = 2%nat /\ ds_labels (vec_desc (activeRequests h)) = []
  /\ ds_labels (vec_desc (inFlight h)) = [].

Lemma http_request r h : http_labels h ->
  exists h', (http_begin h ≫= http_end (an_method r) (an_path r) (an_status r) (an_duration r) (an_size r)) = Some h'
    /\ http_labels h'
    /\ forall vs, vec_count vs (requestsTotal h') = vec_count vs (requestsTotal h) + (if decide (counted_as vs r) then 1 else 0).
Proof.
  intros (Hd & Ht & Hz & Ha & Hf). unfold http_begin.
  destruct (proj2 (inc_labels [] (activeRequests h)) ltac:(by rewrite Ha)) as [a Ea]. rewrite Ea. simpl.
  destruct (proj2 (inc_labels [] (inFlight h)) ltac:(by rewrite Hf)) as [f Ef]. rewrite Ef. simpl.
  apply inc_counts in Ea as [Da _]. apply inc_counts in Ef as [Df _]. unfold http_end. cbn [requestDuration requestsTotal responseSize activeRequests inFlight].
  set (vs0 := [_; _; itoa (an_status r)]).
  destruct (proj2 (observe_labels vs0 (Seconds (an_duration r)) (requestDuration h)) ltac:(by rewrite Hd)) as [d Ed]. rewrite Ed. simpl.
  destruct (proj2 (inc_labels vs0 (requestsTotal h)) ltac:(by rewrite Ht)) as [t Et]. rewrite Et. simpl.
  match goal with |- context [vec_Observe ?vs ?x (responseSize h)] =>
    destruct (proj2 (observe_labels vs x (responseSize h)) ltac:(by rewrite Hz)) as [z Ez] end. rewrite Ez. simpl.
  destruct (proj2 (dec_labels [] a) ltac:(by rewrite Da, Ha)) as [a' Ea]. rewrite Ea. simpl.
  destruct (proj2 (dec_labels [] f) ltac:(by rewrite Df, Hf)) as [f' Ef]. rewrite Ef. simpl.
  apply observe_desc in Ed, Ez. apply dec_desc in Ea, Ef. apply inc_counts in Et as [Dt Ct]. eexists. split; [done|].
  unfold http_labels. simpl. rewrite Ed, Dt, Ez, Ea, Da, Ef, Df. split; [done|]. intros vs. by rewrite Ct.
Qed.

(** Observing a request never panics, and the counter of each method, route and status is the
    number of the requests answered with them; a path without a route is counted as unknown. *)
Theorem http_collectors_correct ns ss cfg rs :
  exists h, http_run rs (new_http_collectors (V:=V) ns ss cfg) = Some h
    /\ forall vs, vec_count vs (requestsTotal h) = Z.of_nat (length (filter (fun r => counted_as vs r) rs)).
Proof.
  assert (forall h, http_labels h -> exists h', http_run rs h = Some h'
    /\ forall vs, vec_count vs (requestsTotal h') = vec_count vs (requestsTotal h) + Z.of_nat (length (filter (fun r => counted_as vs r) rs)))
    as Hrun.
  { induction rs as [|r rs IH]; intros h Hh; simpl; [exists h; split; [done|]; intros; lia|].
    destruct (http_request r h Hh) as (h1 & Hr & Hh1 & Hc). destruct (IH h1 Hh1) as (h' & Hr' & Hc').
    exists h'. split.
    - destruct (http_begin h) as [h0|]; [|done]. simpl in *. by rewrite Hr.
    - intros vs. rewrite Hc', Hc, filter_cons. case_decide; simpl; lia. }
  destruct (Hrun (new_http_collectors ns ss cfg)) as (h & Hh & Hc).
  - unfold http_labels, new_http_collectors. cbn [requestDuration requestsTotal responseSize activeRequests inFlight]. by rewrite !new_desc.
  - exists h. split; [done|]. intros vs. rewrite Hc. unfold new_http_collectors. simpl. by rewrite new_count.
Qed.
End facts.

(** Collectors that keep the counts of their labels. *)
Record toy_vec := mkToyVec { tv_desc : description; tv_counts : gmap (list string) Z }.

Definition toy_with (vs : list string) (v : toy_vec) (f : Z -> Z) : option toy_vec :=
  if bool_decide (length vs = length (ds_labels (tv_desc v)))
  then Some (mkToyVec (tv_desc v) (<[vs := f (default 0 (tv_counts v !! vs))]> (tv_counts v))) else None.

#[export] Instance toy_vec_ops : VecOps toy_vec := {
  vec_New d := mkToyVec d ∅;
  vec_Inc vs v := toy_with vs v (fun z => z + 1);
  vec_Dec vs v := toy_with vs v (fun z => z - 1);
  vec_Set vs x v := toy_with vs v id;
  vec_Observe vs x v := toy_with vs v id
}.

Lemma toy_with_some vs v f : is_Some (toy_with vs v f) <-> length vs = length (ds_labels (tv_desc v)).
Proof. unfold toy_with. case_bool_decide; split; [done|by eexists|by intros [? ?]|done]. Qed.

#[export] Instance toy_vec_laws : VecLaws toy_vec.
Proof.
  refine {| vec_desc := tv_desc; vec_count vs v := default 0 (tv_counts v !! vs) |}; simpl; intros;
    try apply toy_with_some; unfold toy_with in *; repeat case_bool_decide; simplify_eq; try done.
  split; [done|]. intros us. simpl. case_decide as Hu; [subst; by rewrite lookup_insert_eq|]. rewrite lookup_insert_ne by done. lia.
Defined.

Lemma collectors_correct_witness :
  exists c, collectors_run [OpTask "http" "ok"; OpIncWorkers; OpTask "http" "ok"]
      (new_collectors (V:=toy_vec) "nexuspipe" "pipeline" (DefaultCollectorsConfig [])) = Some c
    /\ vec_count ["http"; "ok"]%string (tasksProcessed c) = 2.
Proof.
  pose proof (collectors_correct (V:=toy_vec) "nexuspipe" "pipeline" (DefaultCollectorsConfig [])
    [OpTask "http" "ok"; OpIncWorkers; OpTask "http" "ok"]) as (Hs & Ht & _).
  destruct (proj2 Hs) as [c Hc]; [by repeat constructor|].
  exists c. split; [exact Hc|]. rewrite (Ht c _ _ Hc). reflexivity.
Defined.
