(* ===== verification/Tracing.v ===== *)
(** * Tracing: internal/metrics/tracing.go

    The provider of traces, and what the helpers do with the span of a context, over an interface
    of OpenTelemetry ([Otel], [OtelLaws]).  Its state, with the spans and the exporters, is a world
    of its own; a context and the identifiers of a span do not change.  What is exported, and how
    the root of a trace is sampled, is the library's. *)

From S2P Require Import Prelude GoStrings GoFloat.

(** ** OpenTelemetry *)

Inductive otlp_option : Type :=
| WithInsecure
| WithEndpoint (endpoint : string).

Inductive sampler : Type :=
| TraceIDRatioBased (fraction : float64)
| ParentBased (root : sampler).

Inductive propagator_part : Type :=
| TraceContext
| Baggage.

#[export] Instance propagator_part_eq_dec : EqDecision propagator_part.
Proof. solve_decision. Defined.

(** [NewCompositeTextMapPropagator] of its parts. *)
Abbreviation text_map_propagator := (list propagator_part).

(** The parts of a span's context that are used; an identifier is the number its bytes spell, and
    zero is not valid. *)
Record span_context := mkSpanContext {
  sc_TraceID : N;
  sc_SpanID : N;
  sc_Sampled : bool
}.
Definition sc_valid (sc : span_context) : Prop := sc_TraceID sc <> 0%N /\ sc_SpanID sc <> 0%N.

Class Otel := {
  World : Type;
  Exporter : Type;
  Resource : Type;
  Provider : Type;
  TracerT : Type;
  Ctx : Type;
  Span : Type;
  StartOption : Type;
  KeyValue : Type;
  Carrier : Type;
  attribute_String : string -> string -> KeyValue;
  otlptracegrpc_New : Ctx -> list otlp_option -> World -> World * (Exporter + string);
  resource_New : Ctx -> list KeyValue -> Resource + string;
  NewTracerProvider : sampler -> Exporter -> Z -> Resource -> World -> World * Provider;
  provider_Tracer : Provider -> string -> TracerT;
  provider_Shutdown : Provider -> Ctx -> World -> World * option string;
  otel_SetTracerProvider : Provider -> World -> World;
  otel_SetTextMapPropagator : text_map_propagator -> World -> World;
  tracer_Start : TracerT -> Ctx -> string -> list StartOption -> World -> World * (Ctx * Span);
  propagator_Inject : text_map_propagator -> Ctx -> Carrier -> Carrier;
  propagator_Extract : text_map_propagator -> Ctx -> Carrier -> Ctx;
  trace_SpanFromContext : Ctx -> Span;
  span_IsRecording : Span -> World -> bool;
  span_SpanContext : Span -> span_context;
  span_AddEvent : Span -> string -> list KeyValue -> World -> World;
  span_RecordError : Span -> string -> World -> World;
  span_SetAttributes : Span -> list KeyValue -> World -> World;
  SpanID_String : N -> string;
  TraceID_String : N -> string
}.

(** What OpenTelemetry documents: which exporters are open and what the globals are, by what a tracer
    of a provider that is running samples; a started span is in its context; under a sampler that asks the parent
    first the child of a valid span continues its trace and is sampled, and recorded, exactly if the
    parent is; the context of a span survives a carrier, as that of a remote span, which records nothing. *)
Class OtelLaws `{Otel} := {
  exporter_open : World -> Exporter -> Prop;
  provider_exporter : Provider -> Exporter;
  global_provider : World -> option Provider;
  global_propagator : World -> option text_map_propagator;
  samples_by : World -> TracerT -> option sampler;
  new_root : StartOption -> bool;
  exporter_new ctx opts w w' r : otlptracegrpc_New ctx opts w = (w', r) ->
    global_provider w' = global_provider w /\ global_propagator w' = global_propagator w
    /\ forall e, r = inl e -> ~ exporter_open w e /\ exporter_open w' e;
  provider_new s e n res w w' p : NewTracerProvider s e n res w = (w', p) ->
    provider_exporter p = e /\ (forall d, exporter_open w' d <-> exporter_open w d)
    /\ forall name, samples_by w' (provider_Tracer p name) = Some s;
  provider_set p w : let w' := otel_SetTracerProvider p w in
    global_provider w' = Some p
    /\ (forall d, exporter_open w' d <-> exporter_open w d) /\ (forall t, samples_by w' t = samples_by w t);
  propagator_set ps w : let w' := otel_SetTextMapPropagator ps w in
    global_propagator w' = Some ps /\ global_provider w' = global_provider w
    /\ (forall d, exporter_open w' d <-> exporter_open w d) /\ (forall t, samples_by w' t = samples_by w t);
  shutdown_closes p ctx w w' : provider_Shutdown p ctx w = (w', None) -> ~ exporter_open w' (provider_exporter p);
  start_context t ctx name opts w w' ctx' s : tracer_Start t ctx name opts w = (w', (ctx', s)) ->
    trace_SpanFromContext ctx' = s
    /\ (samples_by w t <> None -> sc_valid (span_SpanContext s) /\ span_IsRecording s w' = sc_Sampled (span_SpanContext s));
  start_child t root ctx name opts w w' ctx' s : tracer_Start t ctx name opts w = (w', (ctx', s)) ->
    samples_by w t = Some (ParentBased root) -> forallb (fun o => negb (new_root o)) opts = true ->
    let parent := span_SpanContext (trace_SpanFromContext ctx) in sc_valid parent ->
    sc_TraceID (span_SpanContext s) = sc_TraceID parent /\ sc_Sampled (span_SpanContext s) = sc_Sampled parent;
  remote_context ps ctx0 ctx c : TraceContext ∈ ps -> sc_valid (span_SpanContext (trace_SpanFromContext ctx)) ->
    let s := trace_SpanFromContext (propagator_Extract ps ctx0 (propagator_Inject ps ctx c)) in
    span_SpanContext s = span_SpanContext (trace_SpanFromContext ctx) /\ forall w, span_IsRecording s w = false
}.

(** ** Data *)

(* go: internal/metrics/tracing.go type TraceConfig *)
Record TraceConfig := mkTraceConfig {
  ServiceName : string;
  Environment : string;
  Endpoint : string;
  Insecure : bool;
  SampleRate : float64;
  MaxExportBatchSize : Z
}.

Definition f64_0_1 : float64 := S754_finite false 7205759403792794 (-56).

(* go: internal/metrics/tracing.go func DefaultTraceConfig *)
Definition DefaultTraceConfig : TraceConfig :=
  mkTraceConfig "nexuspipe" "production" "localhost:4317" true f64_0_1 512.

Inductive TraceError : Type :=
| ErrTraceExporter (err : string)
| ErrTraceResource (err : string)
| ErrTraceShutdown (err : string).

Section tracing.
Context `{Otel}.

(* go: internal/metrics/tracing.go type TraceProvider *)
Record TraceProvider := mkTraceProvider {
  tp_provider : Provider;
  tp_tracer : TracerT;
  tp_exporter : Exporter;
  tp_propagator : text_map_propagator;
  tp_serviceName : string;
  tp_environment : string
}.

(** ** The provider *)

(* go: internal/metrics/tracing.go @47-51 NewTraceProvider *)
Definition exporterOptions (cfg : TraceConfig) : list otlp_option :=
  (if Insecure cfg then [WithInsecure] else []) ++ [WithEndpoint (Endpoint cfg)].

(* go: internal/metrics/tracing.go @58-63 NewTraceProvider *)
Definition resourceAttributes (cfg : TraceConfig) : list KeyValue :=
  [attribute_String "service.name" (ServiceName cfg); attribute_String "deployment.environment" (Environment cfg)].

(* go: internal/metrics/tracing.go @80-83 NewTraceProvider *)
Definition tracePropagator : text_map_propagator := [TraceContext; Baggage].

(** An error of the resource leaves the exporter as it is. *)
(* go: internal/metrics/tracing.go func NewTraceProvider *)
Definition NewTraceProvider (ctx : Ctx) (cfg : TraceConfig) (w : World) : World * (TraceProvider + TraceError) :=
  match otlptracegrpc_New ctx (exporterOptions cfg) w with
  | (w, inr err) => (w, inr (ErrTraceExporter err))
  | (w, inl exporter) =>
      match resource_New ctx (resourceAttributes cfg) with
      | inr err => (w, inr (ErrTraceResource err))
      | inl res =>
          let '(w, tp) :=
            NewTracerProvider (ParentBased (TraceIDRatioBased (SampleRate cfg))) exporter (MaxExportBatchSize cfg) res w in
          let w := otel_SetTextMapPropagator tracePropagator (otel_SetTracerProvider tp w) in
          (w, inl (mkTraceProvider tp (provider_Tracer tp (ServiceName cfg)) exporter tracePropagator
                     (ServiceName cfg) (Environment cfg)))
      end
  end.

(* go: internal/metrics/tracing.go func TraceProvider.Tracer *)
Definition Tracer (tp : TraceProvider) : TracerT := tp_tracer tp.

(* go: internal/metrics/tracing.go func TraceProvider.Shutdown *)
Definition Shutdown (tp : TraceProvider) (ctx : Ctx) (w : World) : World * option TraceError :=
  match provider_Shutdown (tp_provider tp) ctx w with
  | (w, Some err) => (w, Some (ErrTraceShutdown err))
  | (w, None) => (w, None)
  end.

(* go: internal/metrics/tracing.go func TraceProvider.StartSpan *)
Definition StartSpan (tp : TraceProvider) (ctx : Ctx) (name : string) (opts : list StartOption) (w : World)
  : World * (Ctx * Span) := tracer_Start (tp_tracer tp) ctx name opts w.

(** The carrier is written in place. *)
(* go: internal/metrics/tracing.go func TraceProvider.InjectContext *)
Definition InjectContext (tp : TraceProvider) (ctx : Ctx) (carrier : Carrier) : Carrier :=
  propagator_Inject (tp_propagator tp) ctx carrier.

(* go: internal/metrics/tracing.go func TraceProvider.ExtractContext *)
Definition ExtractContext (tp : TraceProvider) (ctx : Ctx) (carrier : Carrier) : Ctx :=
  propagator_Extract (tp_propagator tp) ctx carrier.

(** ** The span of a context *)

(* go: internal/metrics/tracing.go func SpanIDFromContext *)
Definition SpanIDFromContext (ctx : Ctx) (w : World) : string :=
  let span := trace_SpanFromContext ctx in
  if negb (span_IsRecording span w) then "" else SpanID_String (sc_SpanID (span_SpanContext span)).

(* go: internal/metrics/tracing.go func TraceIDFromContext *)
Definition TraceIDFromContext (ctx : Ctx) (w : World) : string :=
  let span := trace_SpanFromContext ctx in
  if negb (span_IsRecording span w) then "" else TraceID_String (sc_TraceID (span_SpanContext span)).

(* go: internal/metrics/tracing.go func AddSpanEvent *)
Definition AddSpanEvent (ctx : Ctx) (name : string) (attrs : list KeyValue) (w : World) : World :=
  let span := trace_SpanFromContext ctx in
  if span_IsRecording span w then span_AddEvent span name attrs w else w.

(** An error is its text. *)
(* go: internal/metrics/tracing.go func SetSpanError *)
Definition SetSpanError (ctx : Ctx) (err : option string) (w : World) : World :=
  let span := trace_SpanFromContext ctx in
  match span_IsRecording span w, err with
  | true, Some e => span_SetAttributes span [attribute_String "error.message" e] (span_RecordError span e w)
  | _, _ => w
  end.

(* go: internal/metrics/tracing.go func SetSpanAttributes *)
Definition SetSpanAttributes (ctx : Ctx) (attrs : list KeyValue) (w : World) : World :=
  let span := trace_SpanFromContext ctx in
  if span_IsRecording span w then span_SetAttributes span attrs w else w.

(** ** What is proved *)

Context `{!OtelLaws}.

(** A provider whose library has not been shut down. *)
Definition running (tp : TraceProvider) (w : World) : Prop :=
  tp_propagator tp = tracePropagator /\ exists root, samples_by w (tp_tracer tp) = Some (ParentBased root).

(** A failed exporter changes none of the globals, and a failed resource leaves behind an exporter
    that nothing can close; otherwise the provider is running and is the global one, and what [Shutdown] closes is its exporter. *)
Theorem NewTraceProvider_correct ctx cfg w w' r :
  NewTraceProvider ctx cfg w = (w', r) ->
  match r with
  | inl tp => running tp w' /\ global_provider w' = Some (tp_provider tp) /\ global_propagator w' = Some (tp_propagator tp)
      /\ exporter_open w' (tp_exporter tp)
      /\ forall ctx w1 w2, Shutdown tp ctx w1 = (w2, None) -> ~ exporter_open w2 (tp_exporter tp)
  | inr err => global_provider w' = global_provider w /\ global_propagator w' = global_propagator w
      /\ (forall msg, err = ErrTraceResource msg -> exists e, ~ exporter_open w e /\ exporter_open w' e)
  end.
Proof.
  unfold NewTraceProvider. destruct (otlptracegrpc_New _ _ w) as [w1 [e|msg]] eqn:Hnew.
  - destruct (exporter_new _ _ _ _ _ Hnew) as (Hg & Hp & Ho). destruct (Ho e eq_refl) as [Hw Hw1].
    destruct (resource_New _ _) as [res|msg].
    + destruct (NewTracerProvider _ _ _ _ w1) as [w2 p] eqn:Hprov. intros [= <- <-].
      destruct (provider_new _ _ _ _ _ _ _ Hprov) as (He & Hopen & Hs). simpl.
      destruct (provider_set p w2) as (Hg2 & Ho2 & Hs2).
      destruct (propagator_set tracePropagator (otel_SetTracerProvider p w2)) as (Hp3 & Hg3 & Ho3 & Hs3).
      split_and!; [split; [done|]; eexists; simpl; by rewrite Hs3, Hs2, Hs|congruence|done|by apply Ho3, Ho2, Hopen|].
      intros ctx' wa wb. unfold Shutdown. simpl. destruct (provider_Shutdown _ _ _) as [wc [err|]] eqn:Hsh; [discriminate|].
      intros [= <-]. rewrite <- He. by eapply shutdown_closes.
    + intros [= <- <-]. split_and!; [done..|]. eauto.
  - destruct (exporter_new _ _ _ _ _ Hnew) as (Hg & Hp & _). intros [= <- <-]. split_and!; [done..|]. discriminate.
Qed.

(** A trace crosses from one process to another.  The context that is extracted carries a span
    that records nothing: its identifiers are empty, and events, errors and attributes are lost.  A span started
    under it continues the sender's trace, and its identifier of the trace reads the same as the
    sender's (the empty text if the trace is not sampled). *)
Theorem trace_continues tp1 tp2 w1 w2 w1' w2' ctx name opts ctx1 s1 carrier ctx0 name2 opts2 ctx2 s2 :
  running tp1 w1 -> running tp2 w2 ->
  StartSpan tp1 ctx name opts w1 = (w1', (ctx1, s1)) ->
  let remote := ExtractContext tp2 ctx0 (InjectContext tp1 ctx1 carrier) in
  StartSpan tp2 remote name2 opts2 w2 = (w2', (ctx2, s2)) ->
  forallb (fun o => negb (new_root o)) opts2 = true ->
  (TraceIDFromContext remote w2 = "" /\ SpanIDFromContext remote w2 = ""
   /\ forall ev attrs err, AddSpanEvent remote ev attrs w2 = w2 /\ SetSpanError remote err w2 = w2
        /\ SetSpanAttributes remote attrs w2 = w2)
  /\ sc_TraceID (span_SpanContext s2) = sc_TraceID (span_SpanContext s1)
  /\ TraceIDFromContext ctx2 w2' = TraceIDFromContext ctx1 w1'.
Proof.
  intros [Hp1 [root1 Hr1]] [Hp2 [root2 Hr2]] Hs1 remote Hs2 Hopts.
  destruct (start_context _ _ _ _ _ _ _ _ Hs1) as [Hc1 [Hv1 Hrec1]]; [by rewrite Hr1|].
  destruct (start_context _ _ _ _ _ _ _ _ Hs2) as [Hc2 [Hv2 Hrec2]]; [by rewrite Hr2|].
  destruct (remote_context tracePropagator ctx0 ctx1 carrier) as [Hsc Hrec]; [set_solver|by rewrite Hc1|].
  unfold remote, ExtractContext, InjectContext in *. rewrite Hp1, Hp2 in *. rewrite Hc1 in Hsc.
  destruct (start_child _ _ _ _ _ _ _ _ _ Hs2 Hr2 Hopts) as [Htr Hsam]; [by rewrite Hsc|]. rewrite Hsc in Htr, Hsam.
  unfold TraceIDFromContext, SpanIDFromContext, AddSpanEvent, SetSpanError, SetSpanAttributes.
  rewrite Hrec, Hc1, Hc2, Hrec1, Hrec2, Htr, Hsam. done.
Qed.

End tracing.

(** ** An instance

    Exporters are numbers, a context is its span, and every trace that begins is sampled if the
    fraction is not zero. *)

Record toy_world := mkToyWorld {
  tw_exporters : list nat;
  tw_next : N;
  tw_provider : option (nat * sampler);
  tw_propagator : option text_map_propagator
}.

Definition toy_fresh (l : list nat) : nat := S (foldr Nat.max O l).

Definition toy_start (t : nat * sampler) (parent : span_context * bool) (new_root : bool) (w : toy_world)
  : toy_world * (span_context * bool) :=
  let follow := negb new_root && bool_decide (sc_TraceID parent.1 <> 0%N /\ sc_SpanID parent.1 <> 0%N) in
  let sampled := match t.2 with
                 | ParentBased _ => if follow then sc_Sampled parent.1 else true
                 | TraceIDRatioBased f => f64_lt (f64_of_Z 0) f
                 end in
  let id := (tw_next w + 1)%N in
  (mkToyWorld (tw_exporters w) id (tw_provider w) (tw_propagator w),
   (mkSpanContext (if follow then sc_TraceID parent.1 else id) id sampled, sampled)).

#[export] Instance toy_otel : Otel := {
  World := toy_world; Exporter := nat; Resource := list (string * string); Provider := nat * sampler;
  TracerT := nat * sampler; Ctx := span_context * bool; Span := span_context * bool; StartOption := bool;
  KeyValue := string * string; Carrier := option span_context;
  attribute_String := pair;
  otlptracegrpc_New _ _ w :=
    (mkToyWorld (toy_fresh (tw_exporters w) :: tw_exporters w) (tw_next w) (tw_provider w) (tw_propagator w),
     inl (toy_fresh (tw_exporters w)));
  resource_New _ attrs := inl attrs;
  NewTracerProvider s e _ _ w := (w, (e, s));
  provider_Tracer p _ := p;
  provider_Shutdown p _ w :=
    (mkToyWorld (filter (fun e => e <> p.1) (tw_exporters w)) (tw_next w) (tw_provider w) (tw_propagator w), None);
  otel_SetTracerProvider p w := mkToyWorld (tw_exporters w) (tw_next w) (Some p) (tw_propagator w);
  otel_SetTextMapPropagator ps w := mkToyWorld (tw_exporters w) (tw_next w) (tw_provider w) (Some ps);
  tracer_Start t ctx _ opts w := let '(w, s) := toy_start t ctx (existsb id opts) w in (w, (s, s));
  propagator_Inject ps ctx c := if bool_decide (TraceContext ∈ ps) then Some ctx.1 else c;
  propagator_Extract ps ctx c :=
    match c with Some sc => if bool_decide (TraceContext ∈ ps) then (sc, false) else ctx | None => ctx end;
  trace_SpanFromContext ctx := ctx;
  span_IsRecording s _ := s.2;
  span_SpanContext s := s.1;
  span_AddEvent _ _ _ w := w;
  span_RecordError _ _ w := w;
  span_SetAttributes _ _ w := w;
  SpanID_String n := itoa (Z.of_N n);
  TraceID_String n := itoa (Z.of_N n)
}.

Lemma toy_fresh_new l : toy_fresh l ∉ l.
Proof.
  assert (forall x, x ∈ l -> (x <= foldr Nat.max O l)%nat) as Hle.
  { induction l as [|y l IH]; intros x; [set_solver|]. intros [->|Hx]%elem_of_cons; simpl; [lia|]. specialize (IH x Hx). lia. }
  intros H. specialize (Hle _ H). unfold toy_fresh in Hle. lia.
Qed.

Lemma toy_no_root opts : forallb (fun o => negb o) opts = true -> existsb id opts = false.
Proof. induction opts as [|[] opts IH]; [done|discriminate|exact IH]. Qed.

#[export] Instance toy_otel_laws : OtelLaws.
Proof.
  refine (Build_OtelLaws toy_otel (fun (w : toy_world) (e : nat) => e ∈ tw_exporters w) (fun p : nat * sampler => p.1)
            tw_provider tw_propagator (fun _ (t : nat * sampler) => Some t.2) (fun o : bool => o) _ _ _ _ _ _ _ _); simpl; try done.
  - intros _ _ w w' r [= <- <-]. split_and!; [done..|]. intros e [= <-]. simpl. split; [apply toy_fresh_new|set_solver].
  - by intros s e n res w w' p [= <- <-].
  - intros p _ w w' [= <-]. simpl. rewrite list_elem_of_filter. tauto.
  - intros t ctx name opts w w' ctx' s. unfold toy_start. simpl. intros [= <- <- <-]. split; [done|]. intros _. simpl. split; [|done].
    split; simpl; [case_match eqn:Hf; [|lia]|lia]. apply andb_true_iff in Hf as [_ Hf%bool_decide_eq_true]. tauto.
  - intros t root ctx name opts w w' ctx' s. unfold toy_start. simpl. intros [= <- <- <-] [= ->] Hopts Hv. simpl.
    rewrite toy_no_root, bool_decide_eq_true_2 by done. done.
  - intros ps ctx0 ctx c Hin Hv. by rewrite bool_decide_eq_true_2.
Defined.

Definition toy_idle : toy_world := mkToyWorld [] 0 None None.
Definition no_span : span_context * bool := (mkSpanContext 0 0 false, false).
Definition toy_tp : TraceProvider := mkTraceProvider (1%nat, ParentBased (TraceIDRatioBased f64_0_1))
  (1%nat, ParentBased (TraceIDRatioBased f64_0_1)) 1%nat tracePropagator "nexuspipe" "production".

Lemma NewTraceProvider_correct_witness :
  exists w', (NewTraceProvider no_span DefaultTraceConfig toy_idle = (w', inl toy_tp))
    /\ running toy_tp w' /\ tw_exporters w' = [1%nat].
Proof.
  eexists. split; [reflexivity|]. split; [|reflexivity].
  exact (proj1 (NewTraceProvider_correct no_span DefaultTraceConfig toy_idle _ _ eq_refl)).
Defined.

(** The second process starts its span with the number 8; the trace is that of the first. *)
Lemma trace_continues_witness :
  let w1 := mkToyWorld [1%nat] 3 None None in let w2 := mkToyWorld [1%nat] 7 None None in
  exists ctx1 ctx2 w1' w2', StartSpan toy_tp no_span "send" [] w1 = (w1', (ctx1, ctx1))
    /\ StartSpan toy_tp (ExtractContext toy_tp no_span (InjectContext toy_tp ctx1 None)) "receive" [] w2 = (w2', (ctx2, ctx2))
    /\ sc_TraceID (span_SpanContext ctx2) = 4%N /\ sc_SpanID (span_SpanContext ctx2) = 8%N
    /\ TraceIDFromContext ctx2 w2' = TraceIDFromContext ctx1 w1'.
Proof.
  do 4 eexists. split; [reflexivity|]. split; [reflexivity|]. split; [reflexivity|]. split; [reflexivity|].
  refine (proj2 (proj2 (trace_continues toy_tp toy_tp (mkToyWorld [1%nat] 3 None None) (mkToyWorld [1%nat] 7 None None) _ _
    no_span "send" [] _ _ None no_span "receive" [] _ _ _ _ eq_refl eq_refl eq_refl))).
  - split; [reflexivity|eexists; reflexivity].
  - split; [reflexivity|eexists; reflexivity].
Defined.
