(* ===== verification/Logger.v ===== *)
(** * The logger: internal/logger/logger.go

    The logger of the process, which is made once.  A logger is where its entries go: cores with a
    sink, an encoding and a level, which for the first is the level that can be changed later.
    What zap makes of the text of a level is the argument [level_of]; whether a file can be opened
    is [can_open]. *)

From S2P Require Import Prelude.

(** The levels of zap. *)
Definition InfoLevel : Z := 0.
Definition ErrorLevel : Z := 2.

Inductive sink : Type :=
| Stdout
| Stderr
| File (path : string).

(** [co_level] is [None] for the level that is shared. *)
Record core := mkCore {
  co_sink : sink;
  co_json : bool;
  co_level : option Z
}.

Record zap_logger := mkZapLogger {
  zl_cores : list core;
  zl_callerSkip : Z;
  zl_sampled : bool
}.

(* go: internal/logger/logger.go type Config *)
Record Config := mkConfig {
  lc_Level : string;
  lc_Format : string;
  lc_OutputPath : string;
  lc_ErrorPath : string;
  lc_AddSource : bool;
  lc_Sampling : bool;
  lc_Encoding : string
}.

(** The variables of the package; [lg_level] is [None] before the first logger. *)
(* go: internal/logger/logger.go @12-17 instance *)
Record logging := mkLogging {
  lg_instance : option zap_logger;
  lg_sugar : bool;
  lg_once : bool;
  lg_level : option Z
}.

Definition no_logging : logging := mkLogging None false false None.

Section logger.
Context (level_of : string -> Z + string) (can_open : string -> bool).

(** The cores of a configuration: the output path has no part in them. *)
(* go: internal/logger/logger.go @53-88 NewLogger *)
Definition cores_of (cfg : Config) : list core :=
  let json := String.eqb (lc_Format cfg) "json" || String.eqb (lc_Encoding cfg) "json" in
  [mkCore Stdout json None]
  ++ (if negb (String.eqb (lc_ErrorPath cfg) "stderr") && can_open (lc_ErrorPath cfg)
      then [mkCore (File (lc_ErrorPath cfg)) json (Some ErrorLevel)] else [])
  ++ [mkCore Stderr json (Some ErrorLevel)].

(** The error of a level that is not one is only returned by the call that makes the logger. *)
(* go: internal/logger/logger.go func NewLogger *)
Definition NewLogger (cfg : Config) (st : logging) : logging * (option zap_logger * option string) :=
  if lg_once st then (st, (lg_instance st, None))
  else
    let '(level, err) := match level_of (lc_Level cfg) with
                         | inl level => (level, None)
                         | inr err => (InfoLevel, Some err)
                         end in
    let logger := mkZapLogger (cores_of cfg) (if lc_AddSource cfg then 1 else 0) (lc_Sampling cfg) in
    (mkLogging (Some logger) true true (Some level), match err with Some err => (None, Some err) | None => (Some logger, None) end).

Definition default_logging : Config := mkConfig "info" "console" "" "" true false "".

(* go: internal/logger/logger.go func GetLogger *)
Definition GetLogger (st : logging) : logging * option zap_logger :=
  match lg_instance st with
  | None => let '(st, (logger, _)) := NewLogger default_logging st in (st, logger)
  | Some logger => (st, Some logger)
  end.

(* go: internal/logger/logger.go func GetSugaredLogger *)
Definition GetSugaredLogger (st : logging) : logging * bool :=
  let st := if lg_sugar st then st else (GetLogger st).1 in (st, lg_sugar st).

(** Setting the level before there is a logger follows a nil pointer. *)
(* go: internal/logger/logger.go func SetLogLevel *)
Definition SetLogLevel (lvl : string) (st : logging) : go_result logging string :=
  match level_of lvl with
  | inr err => Err err
  | inl l => match lg_level st with
             | Some _ => Ok (mkLogging (lg_instance st) (lg_sugar st) (lg_once st) (Some l))
             | None => Panic
             end
  end.

(** Where an entry of a level goes. *)
Definition goes_to (level : Z) (logger : zap_logger) (shared : Z) : list sink :=
  co_sink <$> filter (fun c => default shared (co_level c) <= level) (zl_cores logger).

Definition with_output (path : string) (cfg : Config) : Config :=
  mkConfig (lc_Level cfg) (lc_Format cfg) path (lc_ErrorPath cfg) (lc_AddSource cfg) (lc_Sampling cfg) (lc_Encoding cfg).

(** The first configuration is the only one: after any call that makes or asks for the logger every
    later call has the same logger, whatever its configuration, and an error of the first one's
    level is not seen again.  Errors go to the standard output and to the standard error, and
    nothing goes to the output path. *)
Theorem logger_correct cfg cfg' path st :
  lg_once st = false -> lg_instance st = None ->
  let '(st1, (logger, err)) := NewLogger cfg st in
  (is_Some err <-> logger = None) /\ (is_Some err <-> exists e, level_of (lc_Level cfg) = inr e)
  /\ (exists l, lg_instance st1 = Some l
        /\ NewLogger cfg' st1 = (st1, (Some l, None)) /\ GetLogger st1 = (st1, Some l)
        /\ forall level shared, ErrorLevel <= level -> shared <= level ->
             Stdout ∈ goes_to level l shared /\ Stderr ∈ goes_to level l shared)
  /\ NewLogger (with_output path cfg) st = NewLogger cfg st.
Proof.
  intros Ho Hi.
  assert (forall c level shared l, zl_cores l = cores_of c -> ErrorLevel <= level -> shared <= level ->
            Stdout ∈ goes_to level l shared /\ Stderr ∈ goes_to level l shared) as Hs.
  { intros c level shared l Hl He Hsh. unfold goes_to. rewrite Hl. unfold cores_of. split; apply list_elem_of_fmap.
    - eexists (mkCore Stdout _ None). split; [done|]. apply list_elem_of_filter. split; [done|]. by left.
    - eexists (mkCore Stderr _ (Some ErrorLevel)). split; [done|]. apply list_elem_of_filter. split; [done|].
      apply elem_of_app. right. apply elem_of_app. right. by left. }
  unfold NewLogger, GetLogger. rewrite Ho. destruct (level_of (lc_Level cfg)) as [level|e] eqn:Hlv; simpl; rewrite Hlv.
  - split; [split; [by intros []|done]|]. split; [split; [by intros []|by intros []]|]. split; [|done].
    eexists. split_and!; try done. intros. by apply (Hs cfg).
  - split; [split; [done|eauto]|]. split; [split; eauto|]. split; [|done].
    eexists. split_and!; try done. intros. by apply (Hs cfg).
Qed.

(** Who asks for the logger before it is made has made it: the configuration comes too late. *)
Lemma GetLogger_first cfg st level :
  lg_once st = false -> lg_instance st = None -> level_of "info" = inl level ->
  let '(st1, l) := GetLogger st in is_Some l /\ NewLogger cfg st1 = (st1, (l, None)).
Proof. intros Ho Hi Hl. unfold GetLogger, NewLogger. rewrite Hi, Ho. simpl. rewrite Hl. simpl. eauto. Qed.
End logger.
