(* ===== verification/EngineRuns.v ===== *)
(** * Overlapping runs of the pipeline engine: internal/pipeline/engine.go

    [PipelineExec.ExecutePipeline] is one run by itself.  Here any number of runs overlap, each
    the steps of its goroutine between which the others, the callers' contexts, [CancelRun] and
    [shutdown] take theirs; the table of active runs and the event bus are shared.  The handlers
    of the executor stay as they are.  The stages are resolved by a function [stages_of], which
    is [GetStagesFromPipeline] in the code. *)

From S2P Require Import Prelude GoFloat PipelineModels PipelineEvents PipelineExec.

(** ** Data *)

(** Where the goroutine of a run is.  [AtLoop] is before the check of the context, or behind the
    loop when nothing is left to do; at [AtReturn] only the deferred function is left. *)
Inductive run_pc : Type :=
| AtRegister
| AtLoop (i : nat) (todo : list Stage) (results : list StageResult) (finalErr : option RunError)
| InStage (i : nat) (stage : Stage) (todo : list Stage) (results : list StageResult) (finalErr : option RunError)
| AtReturn (result : PipelineRunResult) (err : option (RunError + ctx_err))
| Returned (result : PipelineRunResult) (err : option (RunError + ctx_err)).

Record run := mkRun {
  ru_pipeline : Pipeline;
  ru_input : any;
  ru_ctx : option ctx_err;    (** [Err] of the run's own context *)
  ru_pc : run_pc
}.

(** What a goroutine observes at a step. *)
Record run_obs := mkRunObs {
  ob_stage : stage_env;
  ob_elapsed : Z
}.

Record engine_state := mkEngineState {
  es_engine : PipelineEngine;
  es_runs : gmap UUID run;
  es_cancelling : list UUID;       (** the cancel functions that calls of [CancelRun] have read *)
  es_published : list Event;
  es_invoked : invocations
}.

(** A context that is done stays as it is. *)
Definition end_context (c : ctx_err) (r : run) : run :=
  mkRun (ru_pipeline r) (ru_input r) (match ru_ctx r with None => Some c | Some c' => Some c' end) (ru_pc r).
Definition at_pc (pc : run_pc) (r : run) : run := mkRun (ru_pipeline r) (ru_input r) (ru_ctx r) pc.

Section engine.
Context (stages_of : Pipeline -> list Stage) (error_text : RunError -> string).

(** ** The goroutine of one run *)

(** The result, the error and the last event of a run whose loop ended with [out]. *)
(* go: internal/pipeline/engine.go @131-183 PipelineEngine.ExecutePipeline *)
Definition conclude (id : UUID) (p : Pipeline) (elapsed : Z)
    (out : list StageResult * option RunError * option ctx_err)
    : PipelineRunResult * option (RunError + ctx_err) * Event :=
  match out with
  | (results, _, Some c) =>
      (mkPipelineRunResult id (p_ID p) "failed" results elapsed (Some RunCancelled), Some (inr c),
       NewFailedEvent (p_ID p) id "cancelled")
  | (results, Some err, None) =>
      (mkPipelineRunResult id (p_ID p) "failed" results elapsed (Some err), Some (inl err),
       NewFailedEvent (p_ID p) id (error_text err))
  | (results, None, None) =>
      (mkPipelineRunResult id (p_ID p) "active" results elapsed None, None, NewCompletedEvent (p_ID p) id)
  end.

(** The rest of the body of the loop when the executor has returned. *)
(* go: internal/pipeline/engine.go @141-153 PipelineEngine.ExecutePipeline *)
Definition after_stage (stage : Stage) (result : StageResult) (i : nat) (todo : list Stage)
    (results : list StageResult) (finalErr : option RunError) : run_pc :=
  let results' := results ++ [result] in
  if String.eqb (sr_Status result) TaskStatusFailed || String.eqb (sr_Status result) TaskStatusTimedOut
  then
    let finalErr' := Some (RunStageFailed (st_Name stage) (sr_Error result)) in
    if negb (st_Optional stage) then AtLoop (S i) [] results' finalErr' else AtLoop (S i) todo results' finalErr'
  else AtLoop (S i) todo results' finalErr.

(** One step: where it leads, what it publishes and what it does to the table of active runs. *)
(* go: internal/pipeline/engine.go @114-184 PipelineEngine.ExecutePipeline *)
Definition advance (o : run_obs) (ex : PipelineExecutor) (id : UUID) (r : run)
    : option (run_pc * list Event * (gset UUID -> gset UUID)) :=
  let leave out :=
    let '(result, err, last) := conclude id (ru_pipeline r) (ob_elapsed o) out in
    Some (AtReturn result err, [last], fun active => active) in
  match ru_pc r with
  | AtRegister => Some (AtLoop 0 (stages_of (ru_pipeline r)) [] None, [], fun active => {[id]} ∪ active)
  | AtLoop i [] results finalErr => leave (results, finalErr, None)
  | AtLoop i (stage :: todo) results finalErr =>
      match ru_ctx r with
      | Some c => leave (results, finalErr, Some c)
      | None => Some (InStage i stage todo results finalErr, [], fun active => active)
      end
  | InStage i stage todo results finalErr =>
      let result := (ExecuteStage (ob_stage o) ex stage (ru_input r)).2 in
      Some (after_stage stage result i todo results finalErr, [], fun active => active)
  | AtReturn result err => Some (Returned result err, [], fun active => active ∖ {[id]})
  | Returned _ _ => None
  end.

(** ** The engine with its runs *)

Definition set_active (active : gset UUID) (en : PipelineEngine) : PipelineEngine :=
  mkPipelineEngine (en_executor en) (en_eventBus en) active.

Definition publish (evs : list Event) (s : engine_state) : engine_state :=
  let '(bus, l) := publish_all evs (en_eventBus (es_engine s)) in
  mkEngineState (mkPipelineEngine (en_executor (es_engine s)) bus (en_active (es_engine s)))
    (es_runs s) (es_cancelling s) (es_published s ++ evs) (es_invoked s ++ l).

Definition put_run (id : UUID) (r : run) (s : engine_state) : engine_state :=
  mkEngineState (es_engine s) (<[id := r]> (es_runs s)) (es_cancelling s) (es_published s) (es_invoked s).

(** A step of the goroutine that [advance] describes. *)
Definition own_step (id : UUID) (r : run) (pc : run_pc) (evs : list Event) (upd : gset UUID -> gset UUID) (s : engine_state)
    : engine_state :=
  let s' := publish evs (put_run id (at_pc pc r) s) in
  mkEngineState (set_active (upd (en_active (es_engine s'))) (es_engine s')) (es_runs s') (es_cancelling s')
    (es_published s') (es_invoked s').

(** Stages that are not resolved; the code gets there for a nil pipeline only, whose identifier it has
    read before, which panics. *)
(* go: internal/pipeline/engine.go func PipelineEngine.handleFailure *)
Definition handleFailure (id : UUID) (pipelineID : UUID) (err : string) (s : engine_state) : engine_state :=
  publish [NewFailedEvent pipelineID id err] s.

(** A call with a pipeline that is not nil, up to its own context. *)
(* go: internal/pipeline/engine.go @95-108 PipelineEngine.ExecutePipeline *)
Definition begin_run (id : UUID) (p : Pipeline) (input : any) (parent : option ctx_err) (s : engine_state) : engine_state :=
  put_run id (mkRun p input parent AtRegister) (publish [NewStartedEvent (p_ID p) id] s).

(** The cancel functions are called while the mutex is held. *)
(* go: internal/pipeline/engine.go func PipelineEngine.shutdown *)
Definition shutdown_runs (s : engine_state) : engine_state :=
  let '(en, cancelled) := shutdown (es_engine s) in
  mkEngineState en (foldr (alter (end_context Canceled)) (es_runs s) cancelled)
    (es_cancelling s) (es_published s) (es_invoked s).

(** [CancelRun] calls the function after it has let go of the mutex. *)
(* go: internal/pipeline/engine.go @194-199 PipelineEngine.CancelRun *)
Definition lookup_cancel (id : UUID) (s : engine_state) : engine_state :=
  mkEngineState (es_engine s) (es_runs s) (CancelRun id (es_engine s) ++ es_cancelling s) (es_published s) (es_invoked s).

Definition end_run_context (id : UUID) (c : ctx_err) (s : engine_state) : engine_state :=
  mkEngineState (es_engine s) (alter (end_context c) id (es_runs s)) (es_cancelling s) (es_published s) (es_invoked s).

(** In some order. *)
(* go: internal/pipeline/engine.go func PipelineEngine.ActiveRuns *)
Definition ActiveRuns (s : engine_state) : list UUID := elements (en_active (es_engine s)).

(** [Run] waits for its context and returns its error, after the shutdown. *)
(* go: internal/pipeline/engine.go func PipelineEngine.Run *)
Definition Run (ctx : option ctx_err) (s : engine_state) : option (engine_state * ctx_err) :=
  match ctx with None => None | Some c => Some (shutdown_runs s, c) end.

(* go: internal/pipeline/engine.go func PipelineEngine.ExecutePipeline *)
Inductive engine_step : engine_state -> engine_state -> Prop :=
| step_begin s id p input parent : es_runs s !! id = None -> engine_step s (begin_run id p input parent s)
| step_own s id r o pc evs upd :
    es_runs s !! id = Some r -> advance o (en_executor (es_engine s)) id r = Some (pc, evs, upd) ->
    engine_step s (own_step id r pc evs upd s)
| step_parent s id c : engine_step s (end_run_context id c s)
| step_lookup s id : engine_step s (lookup_cancel id s)
| step_cancel s id : id ∈ es_cancelling s -> engine_step s (end_run_context id Canceled s)
| step_shutdown s : engine_step s (shutdown_runs s).

Definition fresh_engine (ex : PipelineExecutor) (bus : EventBus) : engine_state :=
  mkEngineState (NewPipelineEngine ex bus) ∅ [] [] [].

(** ** What holds of every run *)

Definition live (pc : run_pc) : Prop :=
  match pc with AtRegister | Returned _ _ => False | _ => True end.

Definition stopped_with (pc : run_pc) : option (PipelineRunResult * option (RunError + ctx_err)) :=
  match pc with AtReturn result err | Returned result err => Some (result, err) | _ => None end.

(** The steps that a goroutine has left at most. *)
Definition steps_left (p : Pipeline) (pc : run_pc) : nat :=
  match pc with
  | AtRegister => 2 * length (stages_of p) + 3
  | AtLoop _ todo _ _ => 2 * length todo + 2
  | InStage _ _ todo _ _ => 2 * length todo + 3
  | AtReturn _ _ => 1
  | Returned _ _ => 0
  end.

Definition events_of (id : UUID) (s : engine_state) : list Event := filter (fun e => ev_RunID e = id) (es_published s).

(** The loop of [run_stages] gets to stage [i] with these results, for some observations. *)
Definition loop_reaches (ex : PipelineExecutor) (stages : list Stage) (input : any) (i : nat) (todo : list Stage)
    (results : list StageResult) (finalErr : option RunError) : Prop :=
  exists ctxs envs, forall w, (forall j, (j < i)%nat -> re_ctx w j = ctxs j /\ re_stage w j = envs j) ->
    run_stages w ex 0 stages input [] None = run_stages w ex i todo input results finalErr.

Definition run_ok (ex : PipelineExecutor) (id : UUID) (r : run) (evs : list Event) : Prop :=
  let p := ru_pipeline r in
  let started := NewStartedEvent (p_ID p) id in
  match ru_pc r with
  | AtRegister => evs = [started]
  | AtLoop i todo results finalErr =>
      evs = [started] /\ loop_reaches ex (stages_of p) (ru_input r) i todo results finalErr
  | InStage i stage todo results finalErr =>
      evs = [started] /\ loop_reaches ex (stages_of p) (ru_input r) i (stage :: todo) results finalErr
  | AtReturn result err | Returned result err =>
      exists w last, re_RunID w = id /\ re_error_text w = error_text
        /\ finish_run w p ex (stages_of p) (ru_input r) = (result, err, last) /\ evs = [started; last]
  end.

Lemma finish_run_conclude w p ex stages input :
  re_error_text w = error_text ->
  finish_run w p ex stages input = conclude (re_RunID w) p (re_elapsed w) (run_stages w ex 0 stages input [] None).
Proof.
  intros Ht. unfold finish_run, conclude.
  destruct (run_stages _ _ _ _ _ _ _) as [[results [err|]] [c|]]; by rewrite ?Ht.
Qed.

Lemma conclude_run id p elapsed out : ev_RunID (conclude id p elapsed out).2 = id.
Proof. by destruct out as [[results [err|]] [c|]]. Qed.

(** What was observed up to stage [i], and [c] and [env] there. *)
Lemma loop_observe ex stages input i todo results finalErr (c : option ctx_err) (env : stage_env) :
  loop_reaches ex stages input i todo results finalErr ->
  exists ctxs envs, ctxs i = c /\ envs i = env /\
    forall w, (forall j, (j <= i)%nat -> re_ctx w j = ctxs j /\ re_stage w j = envs j) ->
      run_stages w ex 0 stages input [] None = run_stages w ex i todo input results finalErr.
Proof.
  intros (ctxs & envs & Hw).
  exists (fun j => if decide (j = i) then c else ctxs j), (fun j => if decide (j = i) then env else envs j).
  split_and!; [by destruct (decide (i = i))..|]. intros w Hj. apply Hw. intros j Hlt.
  specialize (Hj j ltac:(lia)). by destruct (decide (j = i)); [lia|].
Qed.

(** Leaving the loop, at its end or because the context is done. *)
Lemma leave_ok ex id p input i todo results finalErr c elapsed :
  loop_reaches ex (stages_of p) input i todo results finalErr ->
  (todo = [] /\ c = None) \/ (todo <> [] /\ c <> None) ->
  exists w last, re_RunID w = id /\ re_error_text w = error_text
    /\ finish_run w p ex (stages_of p) input = conclude id p elapsed (results, finalErr, c)
    /\ last = (conclude id p elapsed (results, finalErr, c)).2.
Proof.
  intros Hl Hc. destruct (loop_observe _ _ _ _ _ _ _ c (mkStageEnv (fun _ => None) (fun _ => false) 0) Hl)
    as (ctxs & envs & Hi & _ & Hw).
  exists (mkRunEnv id ctxs envs error_text elapsed). eexists. split_and!; [done..| |done].
  rewrite finish_run_conclude by done. cbn [re_RunID re_elapsed]. rewrite Hw by done.
  destruct Hc as [[-> ->]|[Ht Hc]]; [done|]. destruct todo as [|stage todo]; [done|]. destruct c as [c|]; [|done].
  simpl. by rewrite Hi.
Qed.

(** A stage that has been executed. *)
Lemma after_stage_ok ex stages input i stage todo results finalErr env :
  loop_reaches ex stages input i (stage :: todo) results finalErr ->
  exists i' todo' results' finalErr',
    after_stage stage (ExecuteStage env ex stage input).2 i todo results finalErr = AtLoop i' todo' results' finalErr'
    /\ (length todo' <= length todo)%nat
    /\ loop_reaches ex stages input i' todo' results' finalErr'.
Proof.
  intros Hl. destruct (loop_observe _ _ _ _ _ _ _ None env Hl) as (ctxs & envs & Hi & He & Hw).
  unfold after_stage.
  assert (forall todo' results' finalErr',
    (forall w, re_ctx w i = None -> re_stage w i = env ->
       run_stages w ex i (stage :: todo) input results finalErr = run_stages w ex (S i) todo' input results' finalErr') ->
    loop_reaches ex stages input (S i) todo' results' finalErr') as Hn.
  { intros todo' results' finalErr' Hr. exists ctxs, envs. intros w Hj. rewrite Hw by (intros j ?; apply Hj; lia).
    destruct (Hj i ltac:(lia)) as [Hc Hs]. apply Hr; congruence. }
  destruct (_ || _) eqn:Hb; [destruct (negb (st_Optional stage)) eqn:Ho|]; eexists _, _, _, _;
    (split; [reflexivity|]); (split; [simpl; lia|]); apply Hn; intros w Hc Hs; cbn [run_stages]; by rewrite Hc, Hs, Hb, ?Ho.
Qed.

Lemma advance_ok o ex id r evs0 pc evs upd :
  advance o ex id r = Some (pc, evs, upd) -> run_ok ex id r evs0 ->
  run_ok ex id (at_pc pc r) (evs0 ++ evs) /\ Forall (fun e => ev_RunID e = id) evs.
Proof.
  unfold advance, run_ok. cbn [at_pc ru_pc ru_pipeline ru_input].
  assert (forall i todo results finalErr c,
    loop_reaches ex (stages_of (ru_pipeline r)) (ru_input r) i todo results finalErr ->
    (todo = [] /\ c = None) \/ (todo <> [] /\ c <> None) -> evs0 = [NewStartedEvent (p_ID (ru_pipeline r)) id] ->
    (let '(result, err, last) := conclude id (ru_pipeline r) (ob_elapsed o) (results, finalErr, c) in
       Some (AtReturn result err, [last], fun active : gset UUID => active)) = Some (pc, evs, upd) ->
    run_ok ex id (at_pc pc r) (evs0 ++ evs) /\ Forall (fun e => ev_RunID e = id) evs) as Hleave.
  { intros i todo results finalErr c Hl Hc -> Ha. unfold run_ok.
    destruct (leave_ok ex id (ru_pipeline r) _ _ _ _ _ c (ob_elapsed o) Hl Hc) as (w & last & Hid & Ht & Hf & Hlast).
    pose proof (conclude_run id (ru_pipeline r) (ob_elapsed o) (results, finalErr, c)) as Hev.
    destruct (conclude _ _ _ _) as [[result err] last'] eqn:Hcon. simplify_eq/=. split; [by eauto 10|by constructor]. }
  destruct (ru_pc r) as [|i [|stage todo] results finalErr|i stage todo results finalErr|result err|result err].
  - intros [= <- <- <-] ->. split; [|done]. split; [done|]. by exists (fun _ => None), (fun _ => mkStageEnv (fun _ => None) (fun _ => false) 0).
  - intros Ha [He Hl]. eapply (Hleave _ _ _ _ None); eauto.
  - intros Ha [He Hl]. destruct (ru_ctx r) as [c|].
    + eapply (Hleave _ _ _ _ (Some c)); eauto.
    + injection Ha as <- <- <-. by rewrite app_nil_r.
  - intros [= <- <- <-] [-> Hl]. destruct (after_stage_ok _ _ _ _ _ _ _ _ (ob_stage o) Hl) as (i' & t' & rs' & e' & -> & _ & Hn).
    by rewrite app_nil_r.
  - intros [= <- <- <-] Hr. by rewrite app_nil_r.
  - done.
Qed.

(** A goroutine that has not returned can take a step, and is then nearer to its end. *)
Lemma advance_steps o ex id r :
  match advance o ex id r with
  | Some (pc, _, _) => (steps_left (ru_pipeline r) pc < steps_left (ru_pipeline r) (ru_pc r))%nat
  | None => exists result err, ru_pc r = Returned result err
  end.
Proof.
  unfold advance. destruct (ru_pc r) as [|i [|stage todo] results finalErr|i stage todo results finalErr|result err|result err];
    try (destruct (ru_ctx r)); try (destruct (conclude _ _ _ _) as [[??]?]); unfold after_stage;
    repeat case_match; simpl; eauto; lia.
Qed.

Lemma advance_active o ex id r pc evs upd active :
  advance o ex id r = Some (pc, evs, upd) -> (id ∈ active -> live (ru_pc r)) ->
  (forall id', id' <> id -> id' ∈ upd active <-> id' ∈ active)
  /\ (id ∈ upd active <-> live pc /\ (ru_pc r = AtRegister \/ id ∈ active)).
Proof.
  unfold advance. intros Ha Hlive.
  destruct (ru_pc r) as [|i [|stage todo] results finalErr|i stage todo results finalErr|result err|result err];
    try (destruct (ru_ctx r)); try (destruct (conclude _ _ _ _) as [[??]?]); simplify_eq/=; try (unfold after_stage; repeat case_match);
    simpl in *; set_solver.
Qed.

(** ** The invariant *)

Record engine_inv (ex : PipelineExecutor) (s : engine_state) : Prop := {
  ei_executor : en_executor (es_engine s) = ex;
  ei_runs id r : es_runs s !! id = Some r -> run_ok ex id r (events_of id s);
  ei_none id : es_runs s !! id = None -> events_of id s = [];
  ei_active id : id ∈ en_active (es_engine s) -> exists r, es_runs s !! id = Some r /\ live (ru_pc r);
  ei_live id r : es_runs s !! id = Some r -> live (ru_pc r) -> ru_ctx r = None -> id ∈ en_active (es_engine s)
}.

Lemma publish_fields evs s :
  es_runs (publish evs s) = es_runs s /\ es_published (publish evs s) = es_published s ++ evs
  /\ en_active (es_engine (publish evs s)) = en_active (es_engine s)
  /\ en_executor (es_engine (publish evs s)) = en_executor (es_engine s).
Proof. unfold publish. by destruct (publish_all _ _). Qed.

Lemma events_same id evs l : Forall (fun e => ev_RunID e = id) evs -> filter (fun e => ev_RunID e = id) (l ++ evs) = filter (fun e => ev_RunID e = id) l ++ evs.
Proof. intros Hf. rewrite filter_app. f_equal. induction Hf; [done|]. by rewrite filter_cons_True, IHHf. Qed.

Lemma events_other id id' evs l :
  id' <> id -> Forall (fun e => ev_RunID e = id) evs -> filter (fun e => ev_RunID e = id') (l ++ evs) = filter (fun e => ev_RunID e = id') l.
Proof.
  intros Hne Hf. rewrite filter_app.
  assert (filter (fun e => ev_RunID e = id') evs = []) as ->; [|by rewrite app_nil_r].
  induction Hf; [done|]. rewrite filter_cons_False; [done|congruence].
Qed.

Lemma run_ok_context ex id r c evs : run_ok ex id r evs -> run_ok ex id (end_context c r) evs.
Proof. done. Qed.

Lemma fresh_engine_inv ex bus : engine_inv ex (fresh_engine ex bus).
Proof. split; simpl; set_solver. Qed.

(** Contexts that end change no run otherwise. *)
Lemma contexts_inv ex s runs cancelling active :
  engine_inv ex s ->
  (forall id, runs !! id = es_runs s !! id \/ exists c, runs !! id = end_context c <$> es_runs s !! id) ->
  active ⊆ en_active (es_engine s) ->
  (forall id r, runs !! id = Some r -> ru_ctx r = None -> id ∈ en_active (es_engine s) -> id ∈ active) ->
  engine_inv ex (mkEngineState (set_active active (es_engine s)) runs cancelling (es_published s) (es_invoked s)).
Proof.
  intros [He Hr Hn Ha Hl] Hruns Hsub Hkeep. split; simpl; [done| | | |]; unfold events_of; simpl.
  - intros id r Hid. destruct (Hruns id) as [Hs|[c Hs]]; rewrite Hs in Hid; [by apply Hr|].
    apply fmap_Some in Hid as (r0 & Hr0 & ->). by apply run_ok_context, Hr.
  - intros id Hid. apply Hn. destruct (Hruns id) as [Hs|[c Hs]]; rewrite Hs in Hid; [done|]. by apply fmap_None in Hid.
  - intros id Hid. destruct (Ha id) as (r & Hs & Hlive); [set_solver|].
    destruct (Hruns id) as [->|[c ->]]; rewrite Hs; [by eauto|]. by exists (end_context c r).
  - intros id r Hid Hlive Hc. apply (Hkeep id r); [done..|].
    destruct (Hruns id) as [Hs|[c Hs]]; rewrite Hs in Hid; [by apply (Hl id r)|].
    apply fmap_Some in Hid as (r0 & Hr0 & ->). apply (Hl id r0); [done..|]. by destruct r0 as [?? [c0|] ?].
Qed.

Lemma end_run_context_inv ex s id c : engine_inv ex s -> engine_inv ex (end_run_context id c s).
Proof.
  intros Hi. unfold end_run_context. destruct s as [[x b act] runs canc pub inv]. simpl.
  apply (contexts_inv ex (mkEngineState (mkPipelineEngine x b act) runs canc pub inv) _ _ act Hi); simpl; [|done|done].
  intros id'. destruct (decide (id' = id)) as [->|Hne]; [right; exists c; apply lookup_alter_eq|left; by apply lookup_alter_ne].
Qed.

Lemma foldr_alter_lookup (f : run -> run) (l : list UUID) (m : gmap UUID run) id :
  NoDup l -> foldr (alter f) m l !! id = if decide (id ∈ l) then f <$> m !! id else m !! id.
Proof.
  intros Hl. revert id. induction Hl as [|id' l Hn Hl IH]; intros id; simpl.
  - destruct (decide (id ∈ [])) as [H%not_elem_of_nil|]; [|done]. done.
  - destruct (decide (id = id')) as [->|Hne].
    + rewrite lookup_alter_eq, IH. rewrite decide_False by done. rewrite decide_True by set_solver. done.
    + rewrite lookup_alter_ne by done. rewrite IH. destruct (decide (id ∈ l)), (decide (id ∈ id' :: l)); set_solver.
Qed.

Lemma shutdown_lookup s id :
  es_runs (shutdown_runs s) !! id
    = if decide (id ∈ en_active (es_engine s)) then end_context Canceled <$> es_runs s !! id else es_runs s !! id.
Proof.
  unfold shutdown_runs, shutdown. simpl. rewrite foldr_alter_lookup by apply NoDup_elements.
  destruct (decide (id ∈ elements (en_active (es_engine s)))), (decide (id ∈ en_active (es_engine s))); set_solver.
Qed.

Lemma shutdown_inv ex s : engine_inv ex s -> engine_inv ex (shutdown_runs s).
Proof.
  intros Hi. pose proof (shutdown_lookup s) as Hlook. unfold shutdown_runs, shutdown in *. destruct s as [[x b act] runs canc pub inv]. simpl in *.
  apply (contexts_inv ex (mkEngineState (mkPipelineEngine x b act) runs canc pub inv) _ _ ∅ Hi); simpl; [|set_solver|].
  - intros id. rewrite Hlook. case_decide; [right; by exists Canceled|by left].
  - intros id r Hid Hc Hact. rewrite Hlook, decide_True in Hid by done. apply fmap_Some in Hid as (r0 & _ & ->).
    by destruct r0 as [?? [c0|] ?].
Qed.

Lemma begin_inv ex s id p input parent :
  es_runs s !! id = None -> engine_inv ex s -> engine_inv ex (begin_run id p input parent s).
Proof.
  intros Hid [He Hr Hn Ha Hl]. unfold begin_run, put_run.
  destruct (publish_fields [NewStartedEvent (p_ID p) id] s) as (Hpr & Hpp & Hpa & Hpe).
  assert (Forall (fun e => ev_RunID e = id) [NewStartedEvent (p_ID p) id]) as Hf by by constructor.
  split; unfold events_of; simpl; rewrite ?Hpr, ?Hpp, ?Hpa, ?Hpe; [done|..].
  - intros id' r Hid'. destruct (decide (id' = id)) as [->|Hne].
    + rewrite lookup_insert_eq in Hid'. injection Hid' as <-. rewrite events_same by done. unfold events_of in Hn. by rewrite Hn.
    + rewrite lookup_insert_ne in Hid' by done. rewrite events_other with (id := id) by done. by apply Hr.
  - intros id' Hid'. apply lookup_insert_None in Hid' as [Hid' Hne]. rewrite events_other with (id := id) by done. by apply Hn.
  - intros id' Hact. destruct (Ha id' Hact) as (r & Hr' & Hlive). exists r. by rewrite lookup_insert_ne by congruence.
  - intros id' r Hid' Hlive Hc. destruct (decide (id' = id)) as [->|Hne].
    + rewrite lookup_insert_eq in Hid'. by injection Hid' as <-.
    + rewrite lookup_insert_ne in Hid' by done. by apply (Hl id' r).
Qed.

Lemma own_runs id r pc evs upd s : es_runs (own_step id r pc evs upd s) = <[id := at_pc pc r]> (es_runs s).
Proof. unfold own_step. simpl. by destruct (publish_fields evs (put_run id (at_pc pc r) s)) as (-> & _). Qed.

Lemma own_inv ex s id r o pc evs upd :
  es_runs s !! id = Some r -> advance o ex id r = Some (pc, evs, upd) ->
  engine_inv ex s -> engine_inv ex (own_step id r pc evs upd s).
Proof.
  intros Hid Hadv [He Hr Hn Ha Hl]. pose proof (own_runs id r pc evs upd s) as Hruns. revert Hruns. unfold own_step. intros Hruns.
  destruct (publish_fields evs (put_run id (at_pc pc r) s)) as (Hpr & Hpp & Hpa & Hpe).
  destruct (advance_ok _ _ _ _ _ _ _ _ Hadv (Hr _ _ Hid)) as [Hok Hf].
  assert (id ∈ en_active (es_engine s) -> live (ru_pc r)) as Hlive.
  { intros Hact. destruct (Ha id Hact) as (r0 & Hr0 & ?). congruence. }
  destruct (advance_active _ _ _ _ _ _ _ (en_active (es_engine s)) Hadv Hlive) as [Hother Hself].
  split; unfold events_of; simpl in *; rewrite ?Hpr, ?Hpp, ?Hpa, ?Hpe; [done|..].
  - intros id' r' Hid'. destruct (decide (id' = id)) as [->|Hne].
    + rewrite lookup_insert_eq in Hid'. injection Hid' as <-. by rewrite events_same.
    + rewrite lookup_insert_ne in Hid' by done. rewrite events_other with (id := id) by done. by apply Hr.
  - intros id' Hid'. apply lookup_insert_None in Hid' as [Hid' Hne]. rewrite events_other with (id := id) by done. by apply Hn.
  - intros id' Hact. destruct (decide (id' = id)) as [->|Hne].
    + rewrite lookup_insert_eq. eexists. split; [done|]. by apply Hself.
    + rewrite lookup_insert_ne by done. by apply Ha, Hother.
  - intros id' r' Hid' Hlv Hc. destruct (decide (id' = id)) as [->|Hne].
    + rewrite lookup_insert_eq in Hid'. injection Hid' as <-. apply Hself. split; [done|].
      destruct (ru_pc r) eqn:Hpc; [by left|right; apply (Hl id r); rewrite ?Hpc..|]; try done.
      unfold advance in Hadv. rewrite Hpc in Hadv. done.
    + rewrite lookup_insert_ne in Hid' by done. apply Hother; [done|]. by apply (Hl id' r').
Qed.

Lemma engine_step_inv ex s s' : engine_step s s' -> engine_inv ex s -> engine_inv ex s'.
Proof.
  destruct 1 as [s id p input parent Hid|s id r o pc evs upd Hid Hadv|s id c|s id|s id Hc|s]; intros Hi.
  - by apply begin_inv.
  - rewrite (ei_executor _ _ Hi) in Hadv. by apply (own_inv ex s id r o pc evs upd).
  - by apply end_run_context_inv.
  - destruct Hi. split; done.
  - by apply end_run_context_inv.
  - by apply shutdown_inv.
Qed.

Lemma engine_reachable_inv ex s s' : rtc engine_step s s' -> engine_inv ex s -> engine_inv ex s'.
Proof. induction 1; eauto using engine_step_inv. Qed.

(** What one step does to a run that is there. *)
Lemma step_run s s' id r :
  engine_step s s' -> es_runs s !! id = Some r ->
  exists r', es_runs s' !! id = Some r' /\ ru_pipeline r' = ru_pipeline r /\ ru_input r' = ru_input r
    /\ (ru_ctx r <> None -> ru_ctx r' = ru_ctx r)
    /\ (ru_pc r' = ru_pc r \/
         exists o evs upd, advance o (en_executor (es_engine s)) id r = Some (ru_pc r', evs, upd)).
Proof.
  assert (forall c, (ru_ctx r <> None -> ru_ctx (end_context c r) = ru_ctx r)) as Hc by (intros c; destruct r as [?? [c0|] ?]; done).
  assert (forall s id' c, es_runs s !! id = Some r ->
    exists r', es_runs (end_run_context id' c s) !! id = Some r' /\ ru_pipeline r' = ru_pipeline r /\ ru_input r' = ru_input r
    /\ (ru_ctx r <> None -> ru_ctx r' = ru_ctx r) /\ ru_pc r' = ru_pc r) as Hend.
  { intros s0 id' c Hid. simpl. destruct (decide (id' = id)) as [->|Hne].
    - rewrite lookup_alter_eq, Hid. exists (end_context c r). naive_solver.
    - rewrite lookup_alter_ne by done. eauto 10. }
  destruct 1 as [s id' p input parent Hid'|s id' r0 o pc evs upd Hid' Hadv|s id' c|s id'|s id' Hcc|s]; intros Hid.
  - exists r. unfold begin_run, put_run. simpl. destruct (publish_fields [NewStartedEvent (p_ID p) id'] s) as (-> & _).
    rewrite lookup_insert_ne by congruence. eauto 10.
  - rewrite own_runs. destruct (decide (id' = id)) as [->|Hne].
    + rewrite lookup_insert_eq. simplify_eq. eexists. split; [done|]. simpl. eauto 10.
    + rewrite lookup_insert_ne by done. eauto 10.
  - destruct (Hend s id' c Hid) as (r' & ? & ? & ? & ? & ?). eauto 10.
  - eauto 10.
  - destruct (Hend s id' Canceled Hid) as (r' & ? & ? & ? & ? & ?). eauto 10.
  - rewrite shutdown_lookup, Hid. case_decide; [|eauto 10]. exists (end_context Canceled r). naive_solver.
Qed.

(** ** Properties *)

(** C24: runs that overlap.  A run that is over returns what [PipelineExec.finish_run] returns for
    some observations of its context and stages, whatever other runs, [CancelRun] and [shutdown] did, and has published its start and that outcome, in this order, and nothing else.
    The table of active runs holds registered runs only, and every registered run whose context is
    alive.  Every step of the engine leaves a run where it is or nearer to its end, a run
    that has not returned can always take its next step, and 2n + 3 steps are enough for n stages. *)
Theorem engine_runs_refine ex bus s
  (Hrun : rtc engine_step (fresh_engine ex bus) s) id r
  (Hid : es_runs s !! id = Some r) :
  (forall result err, stopped_with (ru_pc r) = Some (result, err) ->
     exists w last, re_RunID w = id
       /\ finish_run w (ru_pipeline r) ex (stages_of (ru_pipeline r)) (ru_input r) = (result, err, last)
       /\ events_of id s = [NewStartedEvent (p_ID (ru_pipeline r)) id; last])
  /\ (IsRunning id (es_engine s) = true -> live (ru_pc r))
  /\ (live (ru_pc r) -> ru_ctx r = None -> id ∈ ActiveRuns s)
  /\ (forall s', engine_step s s' -> exists r', es_runs s' !! id = Some r'
        /\ (ru_pc r' = ru_pc r \/ (steps_left (ru_pipeline r) (ru_pc r') < steps_left (ru_pipeline r) (ru_pc r))%nat))
  /\ ((exists result err, ru_pc r = Returned result err)
      \/ forall o, exists pc evs upd, advance o ex id r = Some (pc, evs, upd) /\ engine_step s (own_step id r pc evs upd s))
  /\ steps_left (ru_pipeline r) AtRegister = (2 * length (stages_of (ru_pipeline r)) + 3)%nat.
Proof.
  pose proof (engine_reachable_inv _ _ _ Hrun (fresh_engine_inv ex bus)) as Hi. pose proof (ei_runs _ _ Hi _ _ Hid) as Hok.
  split_and!; [| | | | |done].
  - intros result err Hs. unfold run_ok in Hok.
    destruct (ru_pc r); simplify_eq/=; destruct Hok as (w & last & Hw & _ & Hf & He); by exists w, last.
  - unfold IsRunning. rewrite bool_decide_eq_true. intros Ha. destruct (ei_active _ _ Hi _ Ha) as (r' & ? & ?). congruence.
  - intros Hl Hc. unfold ActiveRuns. rewrite elem_of_elements. by apply (ei_live _ _ Hi id r).
  - intros s' Hs. destruct (step_run _ _ _ _ Hs Hid) as (r' & Hr' & _ & _ & _ & [Hpc|(o & evs & upd & Ha)]); exists r'; split; auto.
    right. pose proof (advance_steps o (en_executor (es_engine s)) id r) as Hst. by rewrite Ha in Hst.
  - assert ((exists result err, ru_pc r = Returned result err) \/ ~ exists result err, ru_pc r = Returned result err)
      as [?|Hno] by (destruct (ru_pc r); naive_solver); [by left|right].
    intros o. pose proof (advance_steps o ex id r) as Hst.
    destruct (advance o ex id r) as [[[pc evs] upd]|] eqn:Ha; [|done].
    exists pc, evs, upd. split; [done|]. apply (step_own _ _ _ o); [done|]. by rewrite (ei_executor _ _ Hi).
Qed.

(** When a run whose context is done comes to its next stage, it is over. *)
Lemma cancelled_run s s' id r i stage todo results finalErr c :
  rtc engine_step s s' -> es_runs s !! id = Some r ->
  ru_ctx r = Some c -> ru_pc r = AtLoop i (stage :: todo) results finalErr ->
  exists r', es_runs s' !! id = Some r' /\ (ru_pc r' = ru_pc r \/
    exists elapsed, stopped_with (ru_pc r')
      = Some (mkPipelineRunResult id (p_ID (ru_pipeline r)) "failed" results elapsed (Some RunCancelled), Some (inr c))).
Proof.
  intros Hrun Hid Hc Hpc.
  assert (exists r', es_runs s' !! id = Some r' /\ ru_pipeline r' = ru_pipeline r /\ ru_ctx r' = Some c /\
    (ru_pc r' = ru_pc r \/ exists elapsed, stopped_with (ru_pc r')
      = Some (mkPipelineRunResult id (p_ID (ru_pipeline r)) "failed" results elapsed (Some RunCancelled), Some (inr c))))
    as (r' & ? & _ & _ & ?); [|by eauto].
  revert s' Hrun. apply rtc_ind_r; [by eauto 10|].
  intros s1 s2 _ Hs (r1 & Hid1 & Hp1 & Hc1 & Hpc1).
  destruct (step_run _ _ _ _ Hs Hid1) as (r2 & Hid2 & Hp2 & _ & Hc2 & Hadv).
  exists r2. split_and!; [done|congruence|rewrite Hc2; congruence|].
  destruct Hadv as [Hsame|(o & evs & upd & Ha)]; [rewrite Hsame; exact Hpc1|].
  right. unfold advance in Ha. rewrite Hc1 in Ha. destruct Hpc1 as [Hpc1|(el & Hst)].
  - rewrite Hpc1, Hpc in Ha. rewrite <- Hp1. destruct finalErr; simpl in Ha; injection Ha as Hpc2 _ _; rewrite <- Hpc2; simpl; eauto.
  - destruct (ru_pc r1); try done. injection Ha as Hpc2 _ _. rewrite <- Hpc2. eauto.
Qed.

(** Cancellation.  From the moment a run's context is done, a run between two stages begins no
    other one: as soon as it is over it has failed with the results it had and the reason of its context.
    [shutdown] ends the contexts of the active runs and forgets them; a run that has announced its
    start but is not registered yet escapes it.  And a run whose last stage is interrupted by its
    cancellation, with no failure before, is reported as completed, without an error. *)
Theorem engine_cancellation ex bus s
  (Hrun : rtc engine_step (fresh_engine ex bus) s) id r (Hid : es_runs s !! id = Some r) :
  (forall s' i stage todo results finalErr c, rtc engine_step s s' ->
     ru_ctx r = Some c -> ru_pc r = AtLoop i (stage :: todo) results finalErr ->
     exists r', es_runs s' !! id = Some r' /\ (ru_pc r' = ru_pc r \/
       exists elapsed, stopped_with (ru_pc r')
         = Some (mkPipelineRunResult id (p_ID (ru_pipeline r)) "failed" results elapsed (Some RunCancelled), Some (inr c))))
  /\ ActiveRuns (shutdown_runs s) = []
  /\ (live (ru_pc r) -> ru_ctx r = None -> es_runs (shutdown_runs s) !! id = Some (end_context Canceled r))
  /\ (ru_pc r = AtRegister -> es_runs (shutdown_runs s) !! id = Some r)
  /\ (forall o o' i stage results, ru_pc r = InStage i stage [] results None ->
       is_Some (pe_handlers ex !! st_Type stage) -> se_ctx (ob_stage o) 0 = Some Canceled ->
       exists pc upd result upd', advance o ex id r = Some (pc, [], upd)
         /\ advance o' ex id (at_pc pc r) = Some (AtReturn result None, [NewCompletedEvent (p_ID (ru_pipeline r)) id], upd')
         /\ pr_Status result = "active").
Proof.
  pose proof (engine_reachable_inv _ _ _ Hrun (fresh_engine_inv ex bus)) as Hi. split_and!.
  - intros s' i stage todo results finalErr c Hs Hc Hpc. by apply (cancelled_run s s' id r i stage todo results finalErr c).
  - done.
  - intros Hl Hc. rewrite shutdown_lookup, Hid, decide_True; [done|]. by apply (ei_live _ _ Hi id r).
  - intros Hpc. rewrite shutdown_lookup, decide_False; [done|]. intros Ha. destruct (ei_active _ _ Hi _ Ha) as (r' & ? & Hl).
    simplify_eq. by rewrite Hpc in Hl.
  - intros o o' i stage results Hpc [handler Hh] Hctx. unfold advance. rewrite Hpc. unfold ExecuteStage. rewrite Hh.
    cbn [stage_loop]. rewrite Hctx. eexists _, _, _, _. split_and!; [reflexivity|reflexivity|done].
Qed.

End engine.

(** ** Concrete runs *)

(** A goroutine that takes [n] steps while nothing else happens. *)
Fixpoint drive (stages_of : Pipeline -> list Stage) (text : RunError -> string) (n : nat) (o : run_obs) (id : UUID)
    (s : engine_state) : engine_state :=
  match n, es_runs s !! id with
  | S n, Some r =>
      match advance stages_of text o (en_executor (es_engine s)) id r with
      | Some (pc, evs, upd) => drive stages_of text n o id (own_step id r pc evs upd s)
      | None => s
      end
  | _, _ => s
  end.

Lemma drive_rtc stages_of text n o id s : rtc (engine_step stages_of text) s (drive stages_of text n o id s).
Proof.
  revert s. induction n as [|n IH]; intros s; simpl; [done|].
  destruct (es_runs s !! id) as [r|] eqn:Hid; [|done].
  destruct (advance _ _ _ _ _ _) as [[[pc evs] upd]|] eqn:Ha; [|done].
  eapply rtc_l; [by eapply step_own|apply IH].
Qed.

Definition two_stages (p : Pipeline) : list Stage := [flaky_stage; flaky_stage].
Definition no_text (e : RunError) : string := EmptyString.
Definition calm_obs : run_obs := mkRunObs calm 9.
Definition nightly_run : engine_state :=
  begin_run 5 (NewPipeline 7 100 0 "nightly" 0) AnyNil None (fresh_engine flaky_executor NewEventBus).

Lemma nightly_reachable n :
  rtc (engine_step two_stages no_text) (fresh_engine flaky_executor NewEventBus) (drive two_stages no_text n calm_obs 5 nightly_run).
Proof. eapply rtc_l; [by apply step_begin|]. apply drive_rtc. Qed.

Lemma engine_runs_refine_witness :
  exists r, es_runs (drive two_stages no_text 7 calm_obs 5 nightly_run) !! 5%N = Some r
    /\ exists w last, re_RunID w = 5%N
         /\ (finish_run w (ru_pipeline r) flaky_executor (two_stages (ru_pipeline r)) (ru_input r)).1.2 = None
         /\ events_of 5 (drive two_stages no_text 7 calm_obs 5 nightly_run) = [NewStartedEvent (p_ID (ru_pipeline r)) 5; last].
Proof.
  eexists. split; [vm_compute; reflexivity|].
  destruct (engine_runs_refine two_stages no_text flaky_executor NewEventBus _ (nightly_reachable 7) 5 _
              ltac:(vm_compute; reflexivity)) as (Hr & _).
  destruct (Hr _ _ eq_refl) as (w & last & Hw & Hf & He). exists w, last. split; [exact Hw|].
  split; [exact (f_equal (fun x => x.1.2) Hf)|exact He].
Defined.

(** The run is cancelled before its second stage. *)
Definition half_way : engine_state := end_run_context 5 Canceled (drive two_stages no_text 3 calm_obs 5 nightly_run).

Lemma engine_cancellation_witness :
  exists r', es_runs (drive two_stages no_text 1 calm_obs 5 half_way) !! 5%N = Some r'
    /\ (exists elapsed result, stopped_with (ru_pc r')
          = Some (mkPipelineRunResult 5 7 "failed" [result] elapsed (Some RunCancelled), Some (inr Canceled))).
Proof.
  assert (rtc (engine_step two_stages no_text) (fresh_engine flaky_executor NewEventBus) half_way) as Hrun
    by (eapply rtc_r; [apply (nightly_reachable 3)|apply step_parent]).
  destruct (engine_cancellation two_stages no_text flaky_executor NewEventBus _ Hrun 5 _ ltac:(vm_compute; reflexivity)) as (Hc & _).
  destruct (Hc _ _ _ _ _ _ _ (drive_rtc two_stages no_text 1 calm_obs 5 half_way) eq_refl eq_refl)
    as (r' & Hr' & [Hpc|(elapsed & Hst)]); exists r'; (split; [exact Hr'|]).
  - exfalso. revert Hr' Hpc. vm_compute. by intros [= <-].
  - exists elapsed. eexists. exact Hst.
Defined.
