(* ===== verification/Flow.v ===== *)
(** * Messages between the processes

    Where the messages of the scheduler's service ([SchedJob]) and command ([CmdScheduler]) would
    arrive on a broker with the topology that internal/queue declares ([QueueTopology]), and which
    queues and keys the worker's command reads ([CmdWorker], [Config]).  The broker's routing is
    the interface [DeadLetters] with the laws of topic and fanout exchanges added. *)

From S2P Require Import Prelude GoStrings CronLib SchedJob QueueMessage QueueConsumer QueueTopology Config CmdWorker.

Definition dot : Ascii.ascii := Ascii.ascii_of_nat 46.

(** AMQP's patterns of topics over the words between the dots: a star is one word, a hash any
    number of them. *)
Fixpoint topic_match (pattern key : list string) : bool :=
  match pattern with
  | [] => match key with [] => true | _ => false end
  | w :: pattern =>
      if String.eqb w "#" then
        (fix any (key : list string) : bool :=
           topic_match pattern key || match key with [] => false | _ :: key => any key end) key
      else
        match key with
        | [] => false
        | v :: key => (String.eqb w "*" || String.eqb w v) && topic_match pattern key
        end
  end.

(** What AMQP documents for the other two types of exchanges, when no name is declared twice. *)
Definition has_exchange (tb : TopologyBuilder) (x : string) (t : ExchangeType) : Prop :=
  exists e, e ∈ tb_exchanges tb /\ ec_Name e = x /\ ec_Type e = t.
Definition unique_names (tb : TopologyBuilder) : Prop := NoDup (ec_Name <$> tb_exchanges tb).

Class RoutingLaws `{DeadLetterLaws} := {
  routed_topic tb x key queue :
    unique_names tb -> has_exchange tb x ExchangeTopic ->
    routed tb x key queue <-> exists b, b ∈ tb_bindings tb /\ bc_Exchange b = x /\ bc_Queue b = queue
      /\ topic_match (Split (bc_Routing b) dot) (Split key dot) = true;
  routed_fanout tb x key queue :
    unique_names tb -> has_exchange tb x ExchangeFanout ->
    routed tb x key queue <-> exists b, b ∈ tb_bindings tb /\ bc_Exchange b = x /\ bc_Queue b = queue
}.

Definition declared (x : string) : Prop := x ∈ ec_Name <$> tb_exchanges topology.

Lemma topic_all key : topic_match ["#"%string] key = true.
Proof. induction key as [|v key IH]; [done|]. simpl in *. by rewrite IH. Qed.

Lemma topic_hash w key :
  w <> "#"%string -> w <> "*"%string -> topic_match [w; "#"%string] key = true <-> head key = Some w.
Proof.
  intros Hh Hs. cbn [topic_match]. destruct (String.eqb_spec w "#"); [done|]. destruct key as [|v key]; [done|].
  destruct (String.eqb_spec w "*"); [done|]. change (topic_match ["#"%string] key) with (topic_match ["#"%string] key).
  pose proof (topic_all key) as Ha. cbn [topic_match] in Ha. rewrite Ha, andb_true_r. simpl.
  rewrite String.eqb_eq. split; [by intros ->|by intros [= ->]].
Qed.

Lemma topology_bindings b :
  b ∈ tb_bindings topology <->
    b = bind "nexuspipe.dlq" "nexuspipe.dlx" "dead-letter" \/ b = bind "nexuspipe.events" "nexuspipe.topic" "event.#"
    \/ b = bind "nexuspipe.notifications" "nexuspipe.topic" "notification.#".
Proof. unfold topology. simpl. rewrite !elem_of_cons, elem_of_nil. naive_solver. Qed.

Lemma topology_unique : unique_names topology.
Proof. apply (bool_decide_unpack _). vm_compute. exact I. Qed.

Section flow.
Context `{RoutingLaws}.

(** All there is to the routes of the topology. *)
Lemma topology_routes x key queue :
  declared x ->
  routed topology x key queue <->
    (x = "nexuspipe.dlx"%string /\ key = "dead-letter"%string /\ queue = "nexuspipe.dlq"%string)
    \/ (x = "nexuspipe.topic"%string /\ queue = "nexuspipe.events"%string /\ head (Split key dot) = Some "event"%string)
    \/ (x = "nexuspipe.topic"%string /\ queue = "nexuspipe.notifications"%string /\ head (Split key dot) = Some "notification"%string).
Proof.
  intros Hx. unfold declared, topology in Hx. simpl in Hx.
  rewrite !elem_of_cons, elem_of_nil in Hx. destruct Hx as [-> | [-> | [-> | [-> | []]]]].
  - rewrite routed_dlx. naive_solver.
  - split; [by intros ?%routed_direct_none|]. naive_solver.
  - rewrite (routed_topic _ _ _ _ topology_unique) by (eexists; split; [unfold topology; simpl; do 2 right; by left|done]).
    setoid_rewrite topology_bindings.
    split.
    + intros (b & [-> | [-> | ->]] & Hx & <- & Hm); cbn [bind bc_Exchange bc_Queue bc_Routing] in *; [done|right; left|right; right];
        split_and!; try done.
      * by apply (topic_hash "event").
      * by apply (topic_hash "notification").
    + intros [(? & _)|[(_ & -> & Hh)|(_ & -> & Hh)]]; [done| |].
      * exists (bind "nexuspipe.events" "nexuspipe.topic" "event.#"). split_and!; auto. by apply (topic_hash "event").
      * exists (bind "nexuspipe.notifications" "nexuspipe.topic" "notification.#"). split_and!; auto.
        by apply (topic_hash "notification").
  - rewrite (routed_fanout _ _ _ _ topology_unique) by (eexists; split; [unfold topology; simpl; do 3 right; by left|done]).
    setoid_rewrite topology_bindings. split; [|naive_solver]. by intros (b & [-> | [-> | ->]] & Hx & _).
Qed.

(** The first word of the key of a job is its type, whatever its pipeline is called. *)
Lemma first_word e : head (Split (RoutingKey e) dot) ∈ [Some "pipeline"; Some "webhook"; Some "custom"]%string.
Proof. unfold RoutingKey. repeat case_match; set_solver. Qed.

End flow.

(** A broker that does what is documented. *)
Definition toy_route (tb : TopologyBuilder) (x key queue : string) : Prop :=
  exists b, b ∈ tb_bindings tb /\ bc_Exchange b = x /\ bc_Queue b = queue
  /\ ((has_exchange tb x ExchangeDirect /\ bc_Routing b = key)
      \/ (~ has_exchange tb x ExchangeDirect
          /\ (has_exchange tb x ExchangeTopic -> topic_match (Split (bc_Routing b) dot) (Split key dot) = true))).

Definition toy_broker : DeadLetters := {| dead_letter := toy_dead_letter; routed := toy_route |}.

(** With unique names an exchange has one type. *)
Lemma one_type tb x t t' : unique_names tb -> has_exchange tb x t -> has_exchange tb x t' -> t = t'.
Proof.
  unfold unique_names, has_exchange. intros Hn (e & He & <- & <-) (e' & He' & Hx & <-).
  apply list_elem_of_lookup in He as [i Hi]. apply list_elem_of_lookup in He' as [j Hj].
  assert (i = j) as ->; [|by simplify_eq].
  eapply NoDup_lookup; [exact Hn| |]; rewrite list_lookup_fmap; [by rewrite Hi|rewrite Hj; simpl; by f_equal].
Qed.

Lemma toy_broker_dead_letters : @DeadLetterLaws toy_broker.
Proof.
  split; [intros args key x Hx Hk|intros args key x k Hx Hk|intros tb x key queue He]; simpl.
  1, 2: unfold toy_dead_letter; by rewrite Hx, Hk.
  unfold toy_route. split.
  - intros (b & Hb & Hx & Hq & [[_ Hk]|[Hno _]]); [by exists b|by destruct Hno].
  - intros (b & Hb & Hx & Hk & Hq). exists b. split_and!; auto.
Qed.

Lemma toy_broker_routing : @RoutingLaws toy_broker toy_broker_dead_letters.
Proof.
  split; intros tb x key queue Hn He; simpl; unfold toy_route.
  - split.
    + intros (b & Hb & Hx & Hq & [[Hd _]|[_ Hm]]); [by pose proof (one_type _ _ _ _ Hn He Hd)|]. exists b. split_and!; auto.
    + intros (b & Hb & Hx & Hq & Hm). exists b. split_and!; auto. right. split; [|done]. intros Hd. by pose proof (one_type _ _ _ _ Hn He Hd).
  - split.
    + intros (b & Hb & Hx & Hq & _). by exists b.
    + intros (b & Hb & Hx & Hq). exists b. split_and!; auto. right.
      split; intros Hd; by pose proof (one_type _ _ _ _ Hn He Hd).
Qed.

Definition noon_time : Time := mkTime (12 * Hour) UTC.

